(* ===== verification/_CoqProject ===== *)
-Q . S2P
Prelude.v
JsString.v
JsMath.v
AudioSources.v
BeatDetector.v
FeatureExtractor.v
GestureController.v
GestureUI.v
Particles.v
Modes.v
PresetManager.v
PresetUI.v
Visualizer.v
System.v
PerformanceMode.v
Recorder.v
RecorderExport.v
DevServer.v
DemoMode.v
