(* ===== verification/Prelude.v ===== *)
(** * SonicCanvas: a verification development of the audio visualizer

    The program (sources under [src/]) is a browser visualizer written
    as JavaScript classes that talk through method calls and shared
    fields:

    - [AudioEngine] ([src/audio-engine.js], lines 1-278): reads an FFT
      magnitude spectrum (a [Uint8Array] of 1024 bins), computes its mean,
      runs an adaptive-threshold beat detector ([detectBeat]) and averages
      six named frequency bands ([extractFrequencyBands]).  Its sources
      ([loadAudioFile], [toggleMicrophone], [play], [stop]) feed the
      analyser from an [<audio>] element or a microphone stream.
    - [Visualizer] (the class carried in [src/README.md], lines 486-1328):
      owns 2000 particles and, once per animation frame ([update]),
      applies the gesture commands, decays the camera shake, runs one of
      five particle update rules, orbits the camera and optionally mirrors
      the position buffer.
    - [GestureController] ([src/gesture-controller.js], lines 1-470):
      classifies a hand pose from 21 landmarks, smooths it over a
      5-sample history and turns gesture changes into the command record
      [{freeze; pulse; colorPalette}] the Visualizer reads; it draws the
      landmarks on a preview canvas and shows its status on the page.  The file also
      carries the development HTTP server (lines 471-587).
    - [PresetManager] ([src/audio-engine.js], lines 480-844): keyboard
      shortcuts and five presets, with a 1000 ms eased camera-radius
      transition that applies the preset's mode when it completes.
    - [PerformanceMode] ([src/performance-mode.js]): hides the UI, goes
      full screen and restores everything on exit.
    - [Recorder] ([src/recorder.js]): records the canvas and the audio
      through [MediaRecorder], with a timer, an auto-stop after three
      minutes and the download of the result; it also downloads
      screenshots and the current preset as JSON, opens a share dialog
      and shows download notifications.
    - [DemoMode] (the class carried in [src/QUICK_START.md], lines
      189-518): thirteen timed steps driving the PresetManager and the
      Visualizer.

    Per frame: spectrum -> [getFrequencyData] (beat detector, bands) ->
    [Visualizer.update] (reads the gesture commands, mutates the particle
    field, the camera and the pulse).  Keys reach the PresetManager,
    which writes the Visualizer's mode, flags and camera radius.

    ** Files, in dependency order

    - [Prelude] (this file): JavaScript numbers ([jsnum]: exact rationals
      with NaN and the two infinities, with the propagation rules of
      ECMAScript), the [for]-loop combinators ([for_range], [for_break])
      and their equivalence with indexed maps, list helpers for arrays
      updated in place, the [js] hint database and the shared tactics.
    - [JsString]: the string built-ins the code calls ([toLowerCase],
      [Number.prototype.toString] on integers, [padStart], property
      lookup on an object used as a map).
    - [JsMath]: the [Math] object as an interface (classes [JsMath] and
      [JsMathLaws]) with an executable instance, and the tape of
      [Math.random] values.
    - [AudioSources] (Module [AudioSources]): the Web Audio graph of
      the sources as the browser keeps it (source nodes with their kind
      and connection, the analyser-to-speakers edge, the microphone
      streams), [loadAudioFile], [toggleMicrophone] split at its two
      [await]s, [play], [stop], as events [src_step] with their
      reachable states.
    - [BeatDetector]: [detectBeat] on an explicit state record.
    - [FeatureExtractor]: [getFrequencyData], [extractFrequencyBands],
      [initAudioContext].
    - [GestureController] (Module [GestureController]): every state change
      of the class as an event-driven step function [gc_step] (the async
      [start] and [detectGesture] split at their [await]s, the pulse
      timeouts a queue) and its reachable states ([reachable]); the
      smoothing's counting loop and [reduce] against a reference built
      from [count_occ]; [drawHandLandmarks] as the list of canvas calls
      it makes.
    - [GestureUI] (Module [GestureUI]): the page half of the controller
      ([createUI], [updateGestureStatus], the preview and overlay
      display, the canvas, the alerts) written by [gui_step] for every
      event of [gc_step], with the reachable page states
      ([ui_reachable]).
    - [Particles], [Modes]: the particle field, the generic
      [updateParticles] and the five mode rules as kernels of one loop.
    - [PresetManager]: the manager written against the [PresetTarget]
      class (what it needs of a visualizer) and its laws
      [PresetTargetLaws], the Section [Laws] proving the manager's
      theorems once for every lawful target; a reference instance
      [view] for the witnesses.
    - [PresetUI] (Module [PresetUI]): the page writes of [applyPreset]
      and [handleKeyPress] ([updatePresetDisplay],
      [highlightActivePreset], [showPresetNotification] and its
      timeouts) in the whole handler [handleKeyPress_ui].
    - [Visualizer]: the gate, the pulse chain, the camera, radial
      symmetry, the frame step [update] and sequences of calls.
    - [System]: the Visualizer as a [PresetTarget] ([vis_target], its laws
      [vis_laws]); the gesture controller's
      commands fed to [update]; the held pulse command.
    - [PerformanceMode]: the document as a list of elements with their
      display, and [enter]/[exit]/[hideUI]/[showUI] with the timers.
    - [Recorder] (Module [Recorder]): the recording state machine
      [rec_step] with [startRecording] split at [await resume()], the
      MediaRecorders numbered with their state, the chunks, the pending
      [onstop] events, auto-stop timeouts and timer intervals explicit.
    - [RecorderExport] (Module [RecorderExport]): [exportPreset] as an
      object literal serialised by [JSON.stringify]'s value rules and
      checked against a schema ([jtype], [has_type]); the file time
      stamp; and the page: downloads, notifications, share dialogs with
      the listeners [getElementById] attaches, and the [setTimeout]
      queue run by the event loop ([tick]).
    - [DevServer] (Module [DevServer]): the MIME table, the request
      handler [handle], Node's [path.extname] written after the library's
      reverse scan, the file system as a disk indexed by resolved paths,
      and the process lifecycle.
    - [DemoMode] (Module [DemoMode]): the demo's steps and timeouts acting
      on the pair of a PresetManager and a Visualizer.

    ** What the theorems show

    Each component has its invariant over every reachable state or run
    ([reachable_gc_inv], [particle_count_invariant], [reachable_rec_inv],
    the PresetManager's [pm_inv], the gesture preview shown exactly while
    the controller runs: [ui_shown_iff_running]), the functional behaviour of its
    operations on every branch, and where it has a contract a refinement
    ([getFrequencyData_refines_spec_detector]); the
    gesture smoothing is equivalent to a declarative reference
    ([mostCommon_is_ref_mode]) and the exported preset has its schema
    ([exportPreset_has_schema]).  Bounds: band energies and the beat
    intensity in [0, 1], and every point [drawHandLandmarks] draws for
    a hand inside the 640x480 video inside the 240x180 preview
    ([drawHandLandmarks_in_preview]).
    Liveness and termination are proved with explicit bounds: a pulse is
    over after 19 frames, a transition ends on the first frame 1000 ms
    after it started, the demo stops on its thirteenth step timeout, the
    constant-input detector fires every 13th frame, a download
    notification is gone 3.3 s after it is shown.  Round trips: page
    state through performance mode, the recorder's timer text through
    a strict reading of its [m:ss] format, file names through [path.extname].  The defects the
    modelling exposed are theorems too (NaN bands, the unguarded origin,
    radial-symmetry copies shifted by one slot or dropped by a
    fractional index,
    retoggling gestures, a detection undoing a stop, leaked intervals and
    recorders, stale timeouts, lost recordings, the server reading
    outside its directory, a second file load that throws and silences
    the player, the microphone disconnecting the file for good, a leaked
    microphone stream, a second share dialog whose buttons are dead,
    indicators left stale by an animated preset switch, a detection
    pending at [stop] writing the status of the stopped controller);
    the manifest lists them as findings.

    ** Modelling conventions

    - Numbers: JavaScript numbers are modelled by [jsnum], exact
      rationals with [NaN], [+Infinity] and [-Infinity].  Rounding is not
      modelled and signed zero is identified with zero; NaN and the
      infinities follow ECMAScript, which keeps the code's guards
      (division by a distance, [Math.max(distance, 1)]) meaningful.
      The one place where rounding decides what the code does, the
      target index of [applyRadialSymmetry] ([(i + 2000/6) * 3] is not an
      integer in doubles for [i] from 179 to 333), is computed in IEEE-754
      binary64 with Rocq's primitive floats.
    - Integers the code uses as such ([Date.now()] milliseconds, byte
      magnitudes, indices) are [Z] or [nat]; the time is an argument of
      the events that read the clock.
    - Asynchronous code is split at each [await]; timeouts, intervals and
      [requestAnimationFrame] callbacks are explicit queues or counters in
      the state, fired by events of the step function, so every
      interleaving the browser allows is a sequence of events.
    - Math functions are an interface; [Math.random] is a tape [nat -> Q]
      read through a cursor in the state.
    - Loops are structural on their bounds ([for_range] over a [nat]
      count, folds over lists), and runs of event sequences are folds.
      One definition takes fuel: [RecorderExport.tick], the event loop
      running the due timeouts, since a fade-out schedules one more
      callback.  It is given the queue's weight (two per fade-out, one
      per other callback), and [tick_drains] proves that this is enough
      for every callback due to run.

    ** Not modelled

    - Browser I/O with no state the code reads back: the camera stream,
      the HandPose inference (its result is an input), rendering
      (Three.js scene, renderer, resize), console output, the pixels and
      bytes of blobs, the indentation of the JSON text, styles.
    - The Visualizer's [trailOpacity] is written only for the renderer
      and read only by [exportPreset], which takes it as an argument; the
      page's HTML (which elements exist) is an input of [PresetUI].
    - The gesture page before [init] ran [createUI]: [GestureUI] starts
      from the elements [createUI] made, where [updateGestureStatus]
      finds [#gesture-status].
    - The [resume()] that [loadAudioFile] and [play] do not await is
      taken to have settled before the next event.
    - Library code the program only calls is modelled as its environment:
      [path.extname] and [fs.readFile] for the server, [Math] through its
      interface.
*)

From Stdlib Require Import QArith Qround Qabs Lqa ZArith List Lia Bool Morphisms.
Import ListNotations.

(** ** JavaScript numbers *)

Inductive jsnum : Type :=
| JNum (q : Q)
| JInf (positive : bool)
| JNaN.

(** Smart constructor: finite numbers are kept in lowest terms, so that
    two equal rationals give the same [jsnum]. *)
Definition num (q : Q) : jsnum := JNum (Qred q).
Arguments num _%_Q.

Definition Qltb (x y : Q) : bool := negb (Qle_bool y x).

Definition jfinite (a : jsnum) : bool :=
  match a with JNum _ => true | _ => false end.

Definition jneg (a : jsnum) : jsnum :=
  match a with
  | JNum x => num (- x)
  | JInf p => JInf (negb p)
  | JNaN => JNaN
  end.

Definition jadd (a b : jsnum) : jsnum :=
  match a, b with
  | JNum x, JNum y => num (x + y)
  | JNaN, _ | _, JNaN => JNaN
  | JInf p, JInf q => if Bool.eqb p q then JInf p else JNaN
  | JInf p, JNum _ => JInf p
  | JNum _, JInf q => JInf q
  end.

Definition jsub (a b : jsnum) : jsnum := jadd a (jneg b).

(** The sign of a non-zero finite factor. *)
Definition Qpos (y : Q) : bool := Qltb 0 y.

Definition jmul (a b : jsnum) : jsnum :=
  match a, b with
  | JNum x, JNum y => num (x * y)
  | JNaN, _ | _, JNaN => JNaN
  | JInf p, JInf q => JInf (Bool.eqb p q)
  | JInf p, JNum y | JNum y, JInf p =>
      if Qeq_bool y 0 then JNaN else JInf (Bool.eqb p (Qpos y))
  end.

Definition jdiv (a b : jsnum) : jsnum :=
  match a, b with
  | JNum x, JNum y =>
      if Qeq_bool y 0 then
        (if Qeq_bool x 0 then JNaN else JInf (Qpos x))
      else num (x / y)
  | JNaN, _ | _, JNaN => JNaN
  | JInf _, JInf _ => JNaN
  | JNum _, JInf _ => num 0
  | JInf p, JNum y => if Qeq_bool y 0 then JInf p else JInf (Bool.eqb p (Qpos y))
  end.

(** [a < b]; false as soon as one side is NaN. *)
Definition jlt (a b : jsnum) : bool :=
  match a, b with
  | JNaN, _ | _, JNaN => false
  | JNum x, JNum y => Qltb x y
  | JInf p, JInf q => andb (negb p) q
  | JInf p, JNum _ => negb p
  | JNum _, JInf q => q
  end.

Definition jgt (a b : jsnum) : bool := jlt b a.

Definition jisnan (a : jsnum) : bool :=
  match a with JNaN => true | _ => false end.

(** [a <= b]: false with NaN, otherwise the negation of [b < a]. *)
Definition jle (a b : jsnum) : bool :=
  if jisnan a || jisnan b then false else negb (jlt b a).

(** [Math.max(a, b)] and [Math.min(a, b)]. *)
Definition jmax (a b : jsnum) : jsnum :=
  if jisnan a || jisnan b then JNaN else if jlt a b then b else a.

Definition jmin (a b : jsnum) : jsnum :=
  if jisnan a || jisnan b then JNaN else if jlt b a then b else a.

(** [Math.max] and [Math.min] on finite numbers. *)
Definition qmax (a b : Q) : Q := if Qltb a b then b else a.
Definition qmin (a b : Q) : Q := if Qltb b a then b else a.

(** [Math.floor] and [Math.abs]. *)
Definition jfloor (a : jsnum) : jsnum :=
  match a with JNum x => num (inject_Z (Qfloor x)) | _ => a end.

Definition jabs (a : jsnum) : jsnum :=
  match a with JNum x => num (Qabs x) | JInf _ => JInf true | JNaN => JNaN end.

Definition jofZ (z : Z) : jsnum := num (inject_Z z).
Definition jofnat (n : nat) : jsnum := jofZ (Z.of_nat n).

(** A finite number whose value satisfies [P]. *)
Definition jval (P : Q -> Prop) (a : jsnum) : Prop :=
  match a with JNum q => P q | _ => False end.

(** Converting a number used as an array index: [Some n] exactly when the
    number is a non-negative integer. *)
Definition jindex (a : jsnum) : option nat :=
  match a with
  | JNum q =>
      if Qeq_bool q (inject_Z (Qfloor q)) then
        (if Z.leb 0 (Qfloor q) then Some (Z.to_nat (Qfloor q)) else None)
      else None
  | _ => None
  end.

Declare Scope js_scope.
Delimit Scope js_scope with js.
Bind Scope js_scope with jsnum.
(** The option monad: a step that may throw. *)
Definition obind {A B : Type} (o : option A) (k : A -> option B) : option B :=
  match o with Some a => k a | None => None end.

Notation "o >>= k" := (obind o k) (at level 58, left associativity) : js_scope.

Infix "+!" := jadd (at level 50, left associativity) : js_scope.
Infix "-!" := jsub (at level 50, left associativity) : js_scope.
Infix "*!" := jmul (at level 40, left associativity) : js_scope.
Infix "/!" := jdiv (at level 40, left associativity) : js_scope.
Infix "<!" := jlt (at level 70, no associativity) : js_scope.
Infix ">!" := jgt (at level 70, no associativity) : js_scope.
Infix "<=!" := jle (at level 70, no associativity) : js_scope.

(** ** Loops and arrays *)

(** [for (let i = lo; i < lo + n; i++) s = body(i, s)]. *)
Fixpoint for_range {S : Type} (lo n : nat) (body : nat -> S -> S) (s : S) : S :=
  match n with
  | O => s
  | Datatypes.S n' => for_range (Datatypes.S lo) n' body (body lo s)
  end.

(** The same loop whose body may [break]: [None] leaves the loop with the
    state as it was before that iteration. *)
Fixpoint for_break {S : Type} (lo n : nat) (body : nat -> S -> option S) (s : S) : S :=
  match n with
  | O => s
  | Datatypes.S n' =>
      match body lo s with
      | None => s
      | Some s' => for_break (Datatypes.S lo) n' body s'
      end
  end.

(** [a[i] = x] on an array of fixed length (a typed array or a JS array
    written only inside its bounds): out of range the write is dropped. *)
Fixpoint set_nth {A : Type} (i : nat) (x : A) (l : list A) : list A :=
  match l, i with
  | [], _ => []
  | _ :: t, O => x :: t
  | y :: t, Datatypes.S i' => y :: set_nth i' x t
  end.

(** Replace the element at [i] by [f i] of it (a loop body that rewrites
    one slot). *)
Definition modify_nth {A : Type} (i : nat) (f : A -> A) (l : list A) : list A :=
  match nth_error l i with
  | Some x => set_nth i (f x) l
  | None => l
  end.

(** The reference a loop over all indices computes: map with the index. *)
Fixpoint imap_from {A B : Type} (f : nat -> A -> B) (k : nat) (l : list A) : list B :=
  match l with
  | [] => []
  | x :: t => f k x :: imap_from f (Datatypes.S k) t
  end.

Definition imap {A B : Type} (f : nat -> A -> B) (l : list A) : list B := imap_from f 0 l.

(** ** Lemmas on numbers *)

Lemma Qltb_spec (x y : Q) : Qltb x y = true <-> x < y.
Proof.
  unfold Qltb. rewrite negb_true_iff. split; intros H.
  - destruct (Qlt_le_dec x y) as [|Hle]; [assumption|].
    apply Qle_bool_iff in Hle. congruence.
  - destruct (Qle_bool y x) eqn:E; [|reflexivity].
    apply Qle_bool_iff in E. lra.
Qed.

Lemma Qltb_false (x y : Q) : Qltb x y = false <-> y <= x.
Proof.
  unfold Qltb. rewrite negb_false_iff. apply Qle_bool_iff.
Qed.

Lemma Qeq_bool_false (x y : Q) : Qeq_bool x y = false <-> ~ x == y.
Proof.
  split; intros H.
  - intros E. apply Qeq_bool_iff in E. congruence.
  - destruct (Qeq_bool x y) eqn:E; [|reflexivity].
    apply Qeq_bool_iff in E. contradiction.
Qed.

(** Turn a [Qltb]/[Qle_bool]/[Qeq_bool] hypothesis into the order fact it
    decides. *)
Ltac qbool :=
  repeat match goal with
         | H : Qltb _ _ = true |- _ => apply Qltb_spec in H
         | H : Qltb _ _ = false |- _ => apply Qltb_false in H
         | H : Qle_bool _ _ = true |- _ => apply Qle_bool_iff in H
         | H : Qeq_bool _ _ = true |- _ => apply Qeq_bool_iff in H
         | H : Qeq_bool _ _ = false |- _ => apply Qeq_bool_false in H
         end.

Lemma num_ext (a b : Q) : a == b -> num a = num b.
Proof. intros H. unfold num. f_equal. apply Qred_complete. exact H. Qed.

Lemma num_inj (a b : Q) : num a = num b -> a == b.
Proof.
  unfold num. intros H. injection H as H.
  rewrite <- (Qred_correct a), <- (Qred_correct b), H. reflexivity.
Qed.

Lemma num_Qred (a : Q) : num (Qred a) = num a.
Proof. apply num_ext, Qred_correct. Qed.

Lemma jadd_num (a b : Q) : (num a +! num b)%js = num (a + b).
Proof. cbn. apply num_ext. rewrite !Qred_correct. reflexivity. Qed.

Lemma jneg_num (a : Q) : jneg (num a) = num (- a).
Proof. cbn. apply num_ext. rewrite !Qred_correct. reflexivity. Qed.

Lemma jsub_num (a b : Q) : (num a -! num b)%js = num (a - b).
Proof. unfold jsub. rewrite jneg_num, jadd_num. reflexivity. Qed.

Lemma jmul_num (a b : Q) : (num a *! num b)%js = num (a * b).
Proof. cbn. apply num_ext. rewrite !Qred_correct. reflexivity. Qed.

Lemma jdiv_num (a b : Q) : ~ b == 0 -> (num a /! num b)%js = num (a / b).
Proof.
  intros Hb. cbn.
  assert (Hr : Qeq_bool (Qred b) 0 = false).
  { apply Qeq_bool_false. rewrite Qred_correct. exact Hb. }
  rewrite Hr. apply num_ext. rewrite !Qred_correct. reflexivity.
Qed.

Lemma jlt_num (a b : Q) : (num a <! num b)%js = Qltb a b.
Proof.
  cbn. destruct (Qltb a b) eqn:E.
  - apply Qltb_spec. apply Qltb_spec in E. rewrite !Qred_correct. exact E.
  - apply Qltb_false. apply Qltb_false in E. rewrite !Qred_correct. exact E.
Qed.

Lemma jgt_num (a b : Q) : (num a >! num b)%js = Qltb b a.
Proof. apply jlt_num. Qed.

Lemma jmax_num (a b : Q) : jmax (num a) (num b) = num (qmax a b).
Proof.
  unfold jmax, qmax. cbn [jisnan orb]. rewrite jlt_num. destruct (Qltb a b); reflexivity.
Qed.

Lemma jmin_num (a b : Q) : jmin (num a) (num b) = num (qmin a b).
Proof.
  unfold jmin, qmin. cbn [jisnan orb]. rewrite jlt_num. destruct (Qltb b a); reflexivity.
Qed.

Lemma jfloor_num (a : Q) : jfloor (num a) = num (inject_Z (Qfloor a)).
Proof.
  assert (Hf : Qfloor (Qred a) = Qfloor a) by (apply Qfloor_comp, Qred_correct).
  unfold jfloor, num. rewrite Hf. reflexivity.
Qed.

Lemma qmax_spec (a b : Q) : (a < b /\ qmax a b = b) \/ (b <= a /\ qmax a b = a).
Proof. unfold qmax. destruct (Qltb a b) eqn:E; qbool; auto. Qed.

Lemma qmin_spec (a b : Q) : (b < a /\ qmin a b = b) \/ (a <= b /\ qmin a b = a).
Proof. unfold qmin. destruct (Qltb b a) eqn:E; qbool; auto. Qed.

Lemma qmax_ge_l (a b : Q) : a <= qmax a b.
Proof. destruct (qmax_spec a b) as [[H ->]|[H ->]]; lra. Qed.

Lemma qmax_ge_r (a b : Q) : b <= qmax a b.
Proof. destruct (qmax_spec a b) as [[H ->]|[H ->]]; lra. Qed.

Lemma qmax_lub (a b c : Q) : a <= c -> b <= c -> qmax a b <= c.
Proof. intros Ha Hb. destruct (qmax_spec a b) as [[H ->]|[H ->]]; lra. Qed.

Lemma qmin_le_l (a b : Q) : qmin a b <= a.
Proof. destruct (qmin_spec a b) as [[H ->]|[H ->]]; lra. Qed.

Lemma qmin_le_r (a b : Q) : qmin a b <= b.
Proof. destruct (qmin_spec a b) as [[H ->]|[H ->]]; lra. Qed.

Lemma qmin_glb (a b c : Q) : c <= a -> c <= b -> c <= qmin a b.
Proof. intros Ha Hb. destruct (qmin_spec a b) as [[H ->]|[H ->]]; lra. Qed.

Lemma Qltb_compat (x x' y y' : Q) : x == x' -> y == y' -> Qltb x y = Qltb x' y'.
Proof.
  intros Hx Hy. destruct (Qltb x' y') eqn:E; qbool.
  - apply Qltb_spec. rewrite Hx, Hy. exact E.
  - apply Qltb_false. rewrite Hx, Hy. exact E.
Qed.

Lemma Qltb_scale (k x y : Q) : 0 < k -> Qltb (k * x) (k * y) = Qltb x y.
Proof.
  intros Hk. destruct (Qltb x y) eqn:E; qbool.
  - apply Qltb_spec. nra.
  - apply Qltb_false. nra.
Qed.

Lemma qmax_compat (a a' b b' : Q) : a == a' -> b == b' -> qmax a b == qmax a' b'.
Proof.
  intros Ha Hb. unfold qmax. rewrite (Qltb_compat a a' b b' Ha Hb).
  destruct (Qltb a' b'); assumption.
Qed.

#[export] Instance qmax_Proper : Proper (Qeq ==> Qeq ==> Qeq) qmax.
Proof. intros a a' Ha b b' Hb. apply qmax_compat; assumption. Qed.

#[export] Instance Qltb_Proper : Proper (Qeq ==> Qeq ==> eq) Qltb.
Proof. intros a a' Ha b b' Hb. apply Qltb_compat; assumption. Qed.

(** [Math.max] commutes with scaling by a positive factor. *)
Lemma qmax_scale (k a b : Q) : 0 < k -> qmax (k * a) (k * b) == k * qmax a b.
Proof.
  intros Hk.
  destruct (qmax_spec a b) as [[H1 E1]|[H1 E1]]; rewrite E1;
  destruct (qmax_spec (k * a) (k * b)) as [[H2 E2]|[H2 E2]]; rewrite E2;
    try reflexivity; exfalso; nra.
Qed.

Lemma inject_Z_range (a v b : Z) : (a <= v <= b)%Z -> inject_Z a <= inject_Z v <= inject_Z b.
Proof. intros [H1 H2]. rewrite Zle_Qle in H1, H2. split; assumption. Qed.

Lemma Qdiv_le_compat (x y c : Q) : 0 < c -> x <= y -> x / c <= y / c.
Proof.
  intros Hc H. unfold Qdiv. apply Qmult_le_compat_r; [exact H|].
  apply Qlt_le_weak, Qinv_lt_0_compat, Hc.
Qed.

(** [Math.floor] facts used for bin indices. *)
Lemma floor_lt_of_gap (x y : Q) : 1 <= y - x -> (Qfloor x < Qfloor y)%Z.
Proof.
  intros H. rewrite Zlt_Qlt.
  pose proof (Qfloor_le x) as H1. pose proof (Qlt_floor y) as H2.
  rewrite inject_Z_plus in H2. change (inject_Z 1) with 1 in H2. lra.
Qed.

Lemma floor_le_Z (x : Q) (z : Z) : x <= inject_Z z -> (Qfloor x <= z)%Z.
Proof. intros H. rewrite <- (Qfloor_Z z). apply Qfloor_resp_le. exact H. Qed.

Lemma floor_ge_Z (x : Q) (z : Z) : inject_Z z <= x -> (z <= Qfloor x)%Z.
Proof. intros H. rewrite <- (Qfloor_Z z). apply Qfloor_resp_le. exact H. Qed.

Lemma floor_small (x : Q) : 0 <= x < 1 -> Qfloor x = 0%Z.
Proof.
  intros [H0 H1]. apply Z.le_antisymm.
  - pose proof (Qfloor_le x) as H3.
    assert (Hz : (Qfloor x < 1)%Z) by (rewrite Zlt_Qlt; change (inject_Z 1) with 1; lra). lia.
  - apply floor_ge_Z. exact H0.
Qed.

(** NaN absorbs every arithmetic operation. *)
Lemma jadd_nan_l (a : jsnum) : (JNaN +! a)%js = JNaN.
Proof. reflexivity. Qed.

Lemma jadd_nan_r (a : jsnum) : (a +! JNaN)%js = JNaN.
Proof. destruct a; reflexivity. Qed.

Lemma jmul_nan_l (a : jsnum) : (JNaN *! a)%js = JNaN.
Proof. reflexivity. Qed.

Lemma jmul_nan_r (a : jsnum) : (a *! JNaN)%js = JNaN.
Proof. destruct a; reflexivity. Qed.

Lemma jsub_nan_l (a : jsnum) : (JNaN -! a)%js = JNaN.
Proof. reflexivity. Qed.

Lemma jsub_nan_r (a : jsnum) : (a -! JNaN)%js = JNaN.
Proof. destruct a; reflexivity. Qed.

Lemma jdiv_nan_l (a : jsnum) : (JNaN /! a)%js = JNaN.
Proof. reflexivity. Qed.

Lemma jdiv_nan_r (a : jsnum) : (a /! JNaN)%js = JNaN.
Proof. destruct a; reflexivity. Qed.

Lemma jlt_nan_l (a : jsnum) : (JNaN <! a)%js = false.
Proof. reflexivity. Qed.

Lemma jlt_nan_r (a : jsnum) : (a <! JNaN)%js = false.
Proof. destruct a; reflexivity. Qed.

(** [0 / 0] is NaN. *)
Lemma jdiv_zero_zero : (num 0 /! num 0)%js = JNaN.
Proof. reflexivity. Qed.

Lemma jval_num (P : Q -> Prop) (q : Q) :
  (forall x y, x == y -> P x -> P y) -> P q -> jval P (num q).
Proof. intros HP Hq. cbn. apply (HP q); [symmetry; apply Qred_correct | exact Hq]. Qed.

(** [(q / c) * d], the scaling of a coordinate from [[0, c]] to
    [[0, d]], stays in [[0, d]]. *)
Lemma jval_scale (q c d : Q) :
  0 < c -> 0 < d -> 0 <= q <= c -> jval (fun r => 0 <= r <= d) ((JNum q /! num c) *! num d)%js.
Proof.
  intros Hc Hd Hq. unfold num at 1. cbn [jdiv].
  destruct (Qeq_bool (Qred c) 0) eqn:E; [apply Qeq_bool_eq in E; rewrite Qred_correct in E; lra|].
  rewrite jmul_num. apply jval_num; [intros x y Exy Hx; rewrite <- Exy; exact Hx|].
  rewrite (Qred_correct c).
  assert (H1 : 0 <= q / c) by (apply Qle_shift_div_l; lra).
  assert (H2 : q / c <= 1) by (apply Qle_shift_div_r; lra).
  split; [apply Qmult_le_0_compat; lra|].
  setoid_replace d with (1 * d) at 2 by ring. apply Qmult_le_compat_r; lra.
Qed.

(** ** Finite results

    [jfinite a = true]: [a] is neither infinite nor NaN.  Sums, products
    and the like of finite numbers are finite; a quotient is finite when
    its divisor is finite and non-zero, which the code ensures with
    [Math.max(d, 1)] or a test [d > c] with [c >= 0]. *)

(** Array indices. *)

Lemma jindex_Z (z : Z) : (0 <= z)%Z -> jindex (num (inject_Z z)) = Some (Z.to_nat z).
Proof.
  intros Hz. unfold jindex, num.
  rewrite (Qfloor_comp _ _ (Qred_correct (inject_Z z))), Qfloor_Z.
  replace (Qeq_bool (Qred (inject_Z z)) (inject_Z z)) with true
    by (symmetry; apply Qeq_bool_iff, Qred_correct).
  apply Z.leb_le in Hz. rewrite Hz. reflexivity.
Qed.

Lemma jindex_jofnat (n : nat) : jindex (jofnat n) = Some n.
Proof. unfold jofnat, jofZ. rewrite jindex_Z by lia. rewrite Nat2Z.id. reflexivity. Qed.

Lemma jfinite_num (q : Q) : jfinite (num q) = true.
Proof. reflexivity. Qed.

Lemma jfinite_JNum (q : Q) : jfinite (JNum q) = true.
Proof. reflexivity. Qed.

Lemma jfinite_inv (a : jsnum) : jfinite a = true -> exists q, a = JNum q.
Proof. destruct a; cbn; [eauto | discriminate..]. Qed.

Ltac jfin_destruct :=
  repeat match goal with
         | H : jfinite ?a = true |- _ =>
             let q := fresh "q" in apply jfinite_inv in H as [q ->]
         end.

Lemma jfinite_add (a b : jsnum) : jfinite a = true -> jfinite b = true -> jfinite (a +! b)%js = true.
Proof. intros Ha Hb. jfin_destruct. reflexivity. Qed.

Lemma jfinite_neg (a : jsnum) : jfinite a = true -> jfinite (jneg a) = true.
Proof. intros Ha. jfin_destruct. reflexivity. Qed.

Lemma jfinite_sub (a b : jsnum) : jfinite a = true -> jfinite b = true -> jfinite (a -! b)%js = true.
Proof. intros Ha Hb. jfin_destruct. reflexivity. Qed.

Lemma jfinite_mul (a b : jsnum) : jfinite a = true -> jfinite b = true -> jfinite (a *! b)%js = true.
Proof. intros Ha Hb. jfin_destruct. reflexivity. Qed.

Lemma jfinite_floor (a : jsnum) : jfinite a = true -> jfinite (jfloor a) = true.
Proof. intros Ha. jfin_destruct. reflexivity. Qed.

Lemma jfinite_abs (a : jsnum) : jfinite a = true -> jfinite (jabs a) = true.
Proof. intros Ha. jfin_destruct. reflexivity. Qed.

Lemma jfinite_min (a b : jsnum) : jfinite a = true -> jfinite b = true -> jfinite (jmin a b) = true.
Proof. intros Ha Hb. jfin_destruct. unfold jmin. cbn [jisnan orb]. destruct (_ <! _)%js; reflexivity. Qed.

Lemma jfinite_max (a b : jsnum) : jfinite a = true -> jfinite b = true -> jfinite (jmax a b) = true.
Proof. intros Ha Hb. jfin_destruct. unfold jmax. cbn [jisnan orb]. destruct (_ <! _)%js; reflexivity. Qed.

Lemma jfinite_div_nz (a : jsnum) (y : Q) : jfinite a = true -> ~ y == 0 -> jfinite (a /! JNum y)%js = true.
Proof.
  intros Ha Hy. jfin_destruct. cbn. apply Qeq_bool_false in Hy. rewrite Hy. reflexivity.
Qed.

(** [x / Math.max(d, 1)]. *)
Lemma jfinite_div_max1 (a d : jsnum) :
  jfinite a = true -> jfinite d = true -> jfinite (a /! jmax d (num 1))%js = true.
Proof.
  intros Ha Hd. destruct (jfinite_inv d Hd) as [q ->].
  unfold jmax. cbn [jisnan orb num jlt]. change (Qred 1) with 1.
  destruct (Qltb q 1) eqn:E; apply jfinite_div_nz; try exact Ha; [rewrite Qred_correct; intros H; lra|].
  apply Qltb_false in E. intros H. lra.
Qed.

(** [x / d] under [d > c] with [c >= 0]. *)
Lemma jfinite_div_gt (a d : jsnum) (c : Q) :
  0 <= c -> jfinite a = true -> jfinite d = true -> (d >! num c)%js = true -> jfinite (a /! d)%js = true.
Proof.
  intros Hc Ha Hd Hgt. destruct (jfinite_inv d Hd) as [q ->].
  unfold jgt, jlt, num in Hgt. apply Qltb_spec in Hgt. rewrite Qred_correct in Hgt.
  apply jfinite_div_nz; [exact Ha|]. intros H. rewrite H in Hgt. lra.
Qed.

(** [x / c] for a non-zero constant [c], and [x / n] for a positive count. *)
Lemma jfinite_div_num (a : jsnum) (c : Q) :
  jfinite a = true -> Qeq_bool c 0 = false -> jfinite (a /! num c)%js = true.
Proof.
  intros Ha Hc. apply jfinite_div_nz; [exact Ha|]. rewrite Qred_correct. apply Qeq_bool_false. exact Hc.
Qed.

Lemma jfinite_div_nat (a : jsnum) (n : nat) :
  (0 < n)%nat -> jfinite a = true -> jfinite (a /! jofnat n)%js = true.
Proof.
  intros Hn Ha. unfold jofnat, jofZ. apply jfinite_div_num; [exact Ha|].
  apply Qeq_bool_false. intros H. apply Qeq_alt in H. cbn in H. destruct n; [lia|]. discriminate.
Qed.

(** Prove [jfinite e = true] by the structure of [e]. *)
Ltac jfin_step :=
  first
    [ reflexivity | assumption
    | apply jfinite_add | apply jfinite_sub | apply jfinite_mul | apply jfinite_neg
    | apply jfinite_floor | apply jfinite_abs | apply jfinite_min | apply jfinite_max
    | apply jfinite_div_max1
    | apply jfinite_div_num; [|reflexivity]
    | apply jfinite_div_nat; [lia|]
    | match goal with
      | H : (?d >! num ?c)%js = true |- jfinite (_ /! ?d)%js = true =>
          apply (jfinite_div_gt _ d c); [lra | | | exact H]
      end ].

Ltac jfin := repeat jfin_step.

(** ** Lemmas on arrays and loops *)

Local Open Scope nat_scope.

(** Turn the boolean comparisons on [nat] in the hypotheses into the
    propositions they decide. *)
Ltac natb :=
  repeat match goal with
         | H : (_ <=? _) = true |- _ => apply Nat.leb_le in H
         | H : (_ <=? _) = false |- _ => apply Nat.leb_gt in H
         | H : (_ <? _) = true |- _ => apply Nat.ltb_lt in H
         | H : (_ <? _) = false |- _ => apply Nat.ltb_ge in H
         | H : (_ =? _) = true |- _ => apply Nat.eqb_eq in H
         | H : (_ =? _) = false |- _ => apply Nat.eqb_neq in H
         end.

Lemma length_set_nth {A : Type} (i : nat) (x : A) (l : list A) :
  length (set_nth i x l) = length l.
Proof.
  revert i. induction l as [|y t IH]; intros [|i]; cbn; auto.
Qed.

Lemma nth_error_set_nth {A : Type} (i j : nat) (x : A) (l : list A) :
  nth_error (set_nth i x l) j =
  if Nat.eqb i j then (if Nat.ltb j (length l) then Some x else None)
  else nth_error l j.
Proof.
  revert i j. induction l as [|y t IH]; intros [|i] [|j]; cbn; try reflexivity;
    try (destruct (Nat.eqb i j); reflexivity).
  rewrite IH. reflexivity.
Qed.

Lemma set_nth_out {A : Type} (i : nat) (x : A) (l : list A) :
  length l <= i -> set_nth i x l = l.
Proof.
  revert i. induction l as [|y t IH]; intros [|i] H; cbn in *; try lia; auto.
  f_equal. apply IH. lia.
Qed.

Lemma length_modify_nth {A : Type} (i : nat) (f : A -> A) (l : list A) :
  length (modify_nth i f l) = length l.
Proof.
  unfold modify_nth. destruct (nth_error l i); [apply length_set_nth|reflexivity].
Qed.

Lemma nth_error_modify_nth {A : Type} (i j : nat) (f : A -> A) (l : list A) :
  nth_error (modify_nth i f l) j =
  if Nat.eqb i j then option_map f (nth_error l j) else nth_error l j.
Proof.
  unfold modify_nth. destruct (nth_error l i) as [x|] eqn:Hi.
  - rewrite nth_error_set_nth. destruct (Nat.eqb i j) eqn:E; [|reflexivity].
    apply Nat.eqb_eq in E. subst j. rewrite Hi.
    assert (i < length l) by (apply nth_error_Some; congruence).
    apply Nat.ltb_lt in H. rewrite H. reflexivity.
  - destruct (Nat.eqb i j) eqn:E; [|reflexivity].
    apply Nat.eqb_eq in E. subst j. rewrite Hi. reflexivity.
Qed.

Lemma length_imap_from {A B : Type} (f : nat -> A -> B) (k : nat) (l : list A) :
  length (imap_from f k l) = length l.
Proof. revert k. induction l; intros k; cbn; auto. Qed.

Lemma length_imap {A B : Type} (f : nat -> A -> B) (l : list A) :
  length (imap f l) = length l.
Proof. apply length_imap_from. Qed.

Lemma nth_error_imap_from {A B : Type} (f : nat -> A -> B) (k : nat) (l : list A) (j : nat) :
  nth_error (imap_from f k l) j = option_map (f (k + j)) (nth_error l j).
Proof.
  revert k j. induction l as [|x t IH]; intros k [|j]; cbn; auto.
  - rewrite Nat.add_0_r. reflexivity.
  - rewrite IH. f_equal. f_equal. lia.
Qed.

Lemma nth_error_imap {A B : Type} (f : nat -> A -> B) (l : list A) (j : nat) :
  nth_error (imap f l) j = option_map (f j) (nth_error l j).
Proof. apply nth_error_imap_from. Qed.

(** Lists are equal when they agree at every index. *)
Lemma list_eq_nth_error {A : Type} (l1 l2 : list A) :
  (forall j, nth_error l1 j = nth_error l2 j) -> l1 = l2.
Proof.
  revert l2. induction l1 as [|x t IH]; intros [|y u] H.
  - reflexivity.
  - specialize (H 0). discriminate.
  - specialize (H 0). discriminate.
  - pose proof (H 0) as H0. cbn in H0. injection H0 as ->. f_equal.
    apply IH. intros j. exact (H (Datatypes.S j)).
Qed.

Lemma for_range_S {S : Type} (lo n : nat) (body : nat -> S -> S) (s : S) :
  for_range lo (Datatypes.S n) body s = body (lo + n) (for_range lo n body s).
Proof.
  revert lo s. induction n as [|n IH]; intros lo s.
  - cbn. rewrite Nat.add_0_r. reflexivity.
  - change (for_range lo (Datatypes.S (Datatypes.S n)) body s)
      with (for_range (Datatypes.S lo) (Datatypes.S n) body (body lo s)).
    rewrite IH. cbn. f_equal. lia.
Qed.

(** A property preserved by every iteration holds after the loop. *)
Lemma for_range_invariant {S : Type} (P : S -> Prop) (lo n : nat)
  (body : nat -> S -> S) (s : S) :
  (forall i s, lo <= i < lo + n -> P s -> P (body i s)) -> P s -> P (for_range lo n body s).
Proof.
  revert lo s. induction n as [|n IH]; intros lo s Hb Hs; cbn; [exact Hs|].
  apply IH; [intros i s' Hi; apply Hb; lia | apply Hb; [lia | exact Hs]].
Qed.

Lemma Forall_set_nth {A : Type} (P : A -> Prop) (i : nat) (x : A) (l : list A) :
  Forall P l -> P x -> Forall P (set_nth i x l).
Proof.
  intros Hl Hx. revert i. induction Hl as [|y t Hy Ht IH]; intros [|i]; cbn; constructor; auto.
Qed.

(** A loop whose body never breaks is a plain loop. *)
Lemma for_break_nobreak {S : Type} (lo n : nat) (body : nat -> S -> option S)
  (g : nat -> S -> S) (s : S) :
  (forall i s, lo <= i < lo + n -> body i s = Some (g i s)) ->
  for_break lo n body s = for_range lo n g s.
Proof.
  revert lo s. induction n as [|n IH]; intros lo s H; [reflexivity|].
  cbn [for_break for_range]. rewrite H by lia. apply IH. intros i s' Hi. apply H. lia.
Qed.

Lemma for_break_invariant {S : Type} (P : S -> Prop) (lo n : nat)
  (body : nat -> S -> option S) (s : S) :
  (forall i s s', lo <= i < lo + n -> P s -> body i s = Some s' -> P s') ->
  P s -> P (for_break lo n body s).
Proof.
  revert lo s. induction n as [|n IH]; intros lo s Hb Hs; cbn [for_break]; [exact Hs|].
  destruct (body lo s) as [s'|] eqn:E; [|exact Hs].
  apply IH; [intros i t t' Hi; apply Hb; lia | apply (Hb lo s s'); [lia | exact Hs | exact E]].
Qed.

(** A loop whose body rewrites slot [i] alone computes an indexed map
    over the slots it visits. *)
Lemma nth_error_for_range_modify {A : Type} (f : nat -> A -> A) (lo n : nat) (l : list A) (j : nat) :
  nth_error (for_range lo n (fun i => modify_nth i (f i)) l) j =
  if (lo <=? j) && (j <? lo + n) then option_map (f j) (nth_error l j) else nth_error l j.
Proof.
  revert lo l. induction n as [|n IH]; intros lo l; cbn [for_range].
  - rewrite Nat.add_0_r.
    destruct (lo <=? j) eqn:E1; destruct (j <? lo) eqn:E2; cbn [andb]; auto; natb; lia.
  - rewrite IH, nth_error_modify_nth.
    destruct (lo =? j) eqn:E0;
      destruct (Datatypes.S lo <=? j) eqn:E1; destruct (j <? Datatypes.S lo + n) eqn:E2;
      destruct (lo <=? j) eqn:E3; destruct (j <? lo + Datatypes.S n) eqn:E4; cbn [andb];
      natb; subst; try reflexivity; try lia.
Qed.

Lemma for_range_modify_imap {A : Type} (f : nat -> A -> A) (l : list A) :
  for_range 0 (length l) (fun i => modify_nth i (f i)) l = imap f l.
Proof.
  apply list_eq_nth_error. intros j.
  rewrite nth_error_for_range_modify, nth_error_imap.
  replace (0 <=? j) with true by (symmetry; apply Nat.leb_le; lia).
  cbn [andb Nat.add]. destruct (j <? length l) eqn:E; [reflexivity|].
  apply Nat.ltb_ge in E. rewrite (proj2 (nth_error_None l j) E). reflexivity.
Qed.

Lemma Forall2_map_same {A B C : Type} (R : B -> C -> Prop) (f : A -> B) (g : A -> C) (l : list A) :
  (forall x, In x l -> R (f x) (g x)) -> Forall2 R (map f l) (map g l).
Proof.
  induction l as [|x t IH]; intros H; cbn; constructor.
  - apply H. left. reflexivity.
  - apply IH. intros y Hy. apply H. right. exact Hy.
Qed.

Lemma map_seq_shift {A : Type} (f : nat -> A) (start m n : nat) :
  map f (seq (start + m) n) = map (fun k => f (k + m)) (seq start n).
Proof.
  revert start. induction n as [|n IH]; intros start; cbn; [reflexivity|].
  rewrite <- IH. reflexivity.
Qed.

(** A property of every number of a range, checked by evaluating
    [forallb] on it. *)
Lemma forallb_seq_In (f : nat -> bool) (a n i : nat) :
  forallb f (seq a n) = true -> (a <= i < a + n)%nat -> f i = true.
Proof. intros H Hi. apply (proj1 (forallb_forall _ _) H). apply in_seq. lia. Qed.

(** ** Automation *)

Create HintDb js discriminated.
Create Rewrite HintDb js.
#[export] Hint Rewrite jadd_num jsub_num jmul_num jneg_num jlt_num jgt_num
  jmax_num jmin_num jfloor_num : js.
#[export] Hint Rewrite jadd_nan_l jadd_nan_r jmul_nan_l jmul_nan_r jsub_nan_l jsub_nan_r
  jdiv_nan_l jdiv_nan_r jlt_nan_l jlt_nan_r : js.
#[export] Hint Rewrite @length_set_nth @length_modify_nth @length_imap @length_imap_from : js.
#[export] Hint Resolve num_ext : js.

(** Normalise an arithmetic goal on [jsnum]: push [num] out of the
    operations and rewrite list lengths. *)
Ltac jsimpl := autorewrite with js in *.

(** Case on every [Qltb] test of the goal and close the arithmetic. *)
Ltac qcases :=
  repeat match goal with
         | |- context [Qltb ?a ?b] => let E := fresh "E" in destruct (Qltb a b) eqn:E
         end; qbool.
