(* ===== verification/JsString.v ===== *)
(** * JavaScript string built-ins

    The string operations of the language the sources call, on the
    ASCII strings they handle: property lookup on an object used as a
    map, [toLowerCase], [Number.prototype.toString] on integers and
    [padStart(2, '0')]. *)

From Stdlib Require Import ZArith String Ascii List Bool.
From Stdlib Require Import DecimalString.
From S2P Require Import Prelude.
Import ListNotations.

Local Open Scope string_scope.

(** Property lookup [obj[key]] on an object used as a map. *)
Fixpoint assoc {A : Type} (k : string) (l : list (string * A)) : option A :=
  match l with
  | [] => None
  | (k', a) :: r => if String.eqb k k' then Some a else assoc k r
  end.

(** [String.prototype.toLowerCase] on ASCII letters. *)
Definition lower_ascii (c : Ascii.ascii) : Ascii.ascii :=
  let n := Ascii.nat_of_ascii c in
  if (65 <=? n)%nat && (n <=? 90)%nat then Ascii.ascii_of_nat (n + 32) else c.

Fixpoint toLowerCase (s : string) : string :=
  match s with
  | EmptyString => EmptyString
  | String c r => String (lower_ascii c) (toLowerCase r)
  end.

(** [n.toString()] for an integer [n]. *)
Definition js_toString (n : Z) : string := NilZero.string_of_int (Z.to_int n).

(** [s.padStart(2, '0')] for the strings [toString] produces. *)
Definition padStart2 (s : string) : string :=
  match s with
  | String _ EmptyString => String "0" s
  | _ => s
  end.

