(* ===== verification/JsMath.v ===== *)
(** * The [Math] object and [Math.random]

    The code calls [Math.sqrt], [Math.sin], [Math.cos], [Math.atan2],
    [Math.acos] and [Math.PI].  They are an interface here: the class
    [JsMath] lists the operations and [JsMathLaws] the facts the proofs
    use (finite results on finite arguments, the range of [sin] and [cos],
    [sqrt] non-negative and zero exactly at zero, NaN propagation).  Every
    theorem of the development that needs them is stated for an arbitrary
    lawful instance.  [approx_math] is an executable instance (rational
    approximations, clamped) that the concrete runs evaluate; its accuracy
    plays no role in any theorem.

    [Math.random] is a tape of rationals in [[0,1)] read in order; the
    components that draw from it keep a cursor in their state. *)

From Stdlib Require Import QArith Qround Qabs Lqa ZArith List Lia Bool.
From S2P Require Import Prelude.

Class JsMath : Type := {
  m_sqrt : jsnum -> jsnum;
  m_sin : jsnum -> jsnum;
  m_cos : jsnum -> jsnum;
  m_atan2 : jsnum -> jsnum -> jsnum;
  m_acos : jsnum -> jsnum;
  m_PI : Q
}.

Class JsMathLaws (M : JsMath) : Prop := {
  sqrt_zero : m_sqrt (num 0) = num 0;
  sqrt_nonneg : forall q, 0 <= q -> exists r, m_sqrt (JNum q) = num r /\ 0 <= r;
  sqrt_pos : forall q, 0 < q -> exists r, m_sqrt (JNum q) = num r /\ 0 < r;
  sqrt_nan : m_sqrt JNaN = JNaN;
  sin_range : forall q, exists r, m_sin (JNum q) = num r /\ -1 <= r <= 1;
  cos_range : forall q, exists r, m_cos (JNum q) = num r /\ -1 <= r <= 1;
  sin_nan : m_sin JNaN = JNaN;
  cos_nan : m_cos JNaN = JNaN;
  atan2_finite : forall y x, exists r, m_atan2 (JNum y) (JNum x) = num r;
  acos_finite : forall q, -1 <= q <= 1 -> exists r, m_acos (JNum q) = num r;
  PI_range : 3 < m_PI < 4
}.

(** ** [Math.random] *)

(** The successive results of [Math.random()]. *)
Definition tape : Type := nat -> Q.

Definition tape_ok (rnd : tape) : Prop := forall n, 0 <= rnd n /\ rnd n < 1.

(** [Math.random()] at cursor [k]. *)
Definition random_at (rnd : tape) (k : nat) : jsnum := num (rnd k).

(** ** An executable instance *)

Definition sqrt_scale : Z := 2 ^ 20.

Definition approx_sqrt (a : jsnum) : jsnum :=
  match a with
  | JNum q =>
      if Qltb q 0 then JNaN
      else num (inject_Z (Z.sqrt (Qnum q * Zpos (Qden q) * sqrt_scale * sqrt_scale))
                / inject_Z (Zpos (Qden q) * sqrt_scale))
  | JInf true => JInf true
  | _ => JNaN
  end.

Definition approx_PI : Q := 3.141592653589793.

Definition clamp1 (r : Q) : Q :=
  if Qltb r (-1) then -1 else if Qltb 1 r then 1 else r.

(** Reduce to [[-PI, PI]] and evaluate a Taylor polynomial. *)
Definition reduce_angle (x : Q) : Q :=
  Qred (x - inject_Z (Qfloor (x / (2 * approx_PI) + (1 # 2))) * (2 * approx_PI)).

Definition taylor_sin (y : Q) : Q :=
  let y2 := Qred (y * y) in
  Qred (y * (1 - y2 / 6 * (1 - y2 / 20 * (1 - y2 / 42 * (1 - y2 / 72 * (1 - y2 / 110)))))).

Definition taylor_cos (y : Q) : Q :=
  let y2 := Qred (y * y) in
  Qred (1 - y2 / 2 * (1 - y2 / 12 * (1 - y2 / 30 * (1 - y2 / 56 * (1 - y2 / 90))))).

Definition approx_sin (a : jsnum) : jsnum :=
  match a with
  | JNum x => num (clamp1 (taylor_sin (reduce_angle x)))
  | _ => JNaN
  end.

Definition approx_cos (a : jsnum) : jsnum :=
  match a with
  | JNum x => num (clamp1 (taylor_cos (reduce_angle x)))
  | _ => JNaN
  end.

(** A rational approximation of [atan] on [[-1, 1]] extended by the
    reflection [atan t = PI/2 - atan (1/t)]. *)
Definition approx_atan (t : Q) : Q :=
  if Qle_bool (Qabs t) 1 then t / (1 + 0.28 * t * t)
  else if Qltb 0 t then approx_PI / 2 - t / (t * t + 0.28)
  else - (approx_PI / 2) - t / (t * t + 0.28).

Definition approx_atan2 (b a : jsnum) : jsnum :=
  match b, a with
  | JNum y, JNum x =>
      if Qeq_bool x 0 then
        (if Qltb 0 y then num (approx_PI / 2)
         else if Qltb y 0 then num (- (approx_PI / 2)) else num 0)
      else
        let t := approx_atan (y / x) in
        if Qltb 0 x then num t
        else if Qle_bool 0 y then num (t + approx_PI) else num (t - approx_PI)
  | _, _ => JNaN
  end.

Definition approx_acos (a : jsnum) : jsnum :=
  match a with
  | JNum x =>
      if Qltb x (-1) || Qltb 1 x then JNaN
      else approx_atan2 (approx_sqrt (num (1 - x * x))) (num x)
  | _ => JNaN
  end.

#[export] Instance approx_math : JsMath := {
  m_sqrt := approx_sqrt;
  m_sin := approx_sin;
  m_cos := approx_cos;
  m_atan2 := approx_atan2;
  m_acos := approx_acos;
  m_PI := approx_PI
}.

(** A fixed tape for concrete runs: [0.11, 0.48, 0.85, 0.22, ...]. *)
Definition demo_tape : tape :=
  fun n => Z.of_nat ((n * 37 + 11) mod 100) # 100.

(** ** Finite arguments give finite results *)

Section Finite.

Context {M : JsMath} {ML : JsMathLaws M}.

(** A finite, non-negative number. *)
Definition jnonneg (a : jsnum) : Prop := jval (fun q => 0 <= q) a.

Lemma jnonneg_sq (a : jsnum) : jfinite a = true -> jnonneg (a *! a)%js.
Proof. intros Ha. jfin_destruct. unfold jnonneg; cbn [jmul jval num]. rewrite Qred_correct. nra. Qed.

Lemma jnonneg_add (a b : jsnum) : jnonneg a -> jnonneg b -> jnonneg (a +! b)%js.
Proof.
  unfold jnonneg. destruct a as [x| |], b as [y| |]; cbn [jadd jval num]; try tauto. rewrite Qred_correct. lra.
Qed.

Lemma jfinite_sqrt (a : jsnum) : jnonneg a -> jfinite (m_sqrt a) = true.
Proof.
  unfold jnonneg. destruct a as [q| |]; cbn [jval]; try tauto. intros Hq.
  destruct (sqrt_nonneg q Hq) as [r [-> _]]. reflexivity.
Qed.

Lemma jfinite_sin (a : jsnum) : jfinite a = true -> jfinite (m_sin a) = true.
Proof. intros Ha. jfin_destruct. destruct (sin_range q) as [r [-> _]]. reflexivity. Qed.

Lemma jfinite_cos (a : jsnum) : jfinite a = true -> jfinite (m_cos a) = true.
Proof. intros Ha. jfin_destruct. destruct (cos_range q) as [r [-> _]]. reflexivity. Qed.

Lemma jfinite_atan2 (a b : jsnum) :
  jfinite a = true -> jfinite b = true -> jfinite (m_atan2 a b) = true.
Proof.
  intros Ha Hb. destruct (jfinite_inv a Ha) as [x ->]. destruct (jfinite_inv b Hb) as [y ->].
  destruct (atan2_finite x y) as [r ->]. reflexivity.
Qed.

End Finite.

(** [jfin] extended with [Math.sqrt] of a sum of squares, [Math.sin],
    [Math.cos] and [Math.atan2]. *)
Ltac jfinm :=
  repeat first
    [ jfin_step
    | apply jfinite_sin | apply jfinite_cos | apply jfinite_atan2
    | apply jfinite_sqrt | apply jnonneg_add | apply jnonneg_sq ].

(** ** The instance satisfies the laws *)

Lemma clamp1_range (r : Q) : -1 <= clamp1 r <= 1.
Proof. unfold clamp1. qcases; lra. Qed.

Lemma approx_sqrt_num (q : Q) :
  0 <= q ->
  approx_sqrt (JNum q) =
  num (inject_Z (Z.sqrt (Qnum q * Zpos (Qden q) * sqrt_scale * sqrt_scale))
       / inject_Z (Zpos (Qden q) * sqrt_scale)).
Proof.
  intros Hq. cbn [approx_sqrt].
  replace (Qltb q 0) with false; [reflexivity|].
  symmetry. apply Qltb_false. exact Hq.
Qed.

Lemma scaled_sqrt_nonneg (n d : Z) :
  (0 < d)%Z -> 0 <= inject_Z (Z.sqrt n) / inject_Z (d * sqrt_scale).
Proof.
  intros Hd. apply Qle_shift_div_l.
  - unfold Qlt. cbn. unfold sqrt_scale. lia.
  - rewrite Qmult_0_l. unfold Qle. cbn. pose proof (Z.sqrt_nonneg n). lia.
Qed.

Lemma scaled_sqrt_pos (n d : Z) :
  (0 < d)%Z -> (sqrt_scale * sqrt_scale <= n)%Z ->
  0 < inject_Z (Z.sqrt n) / inject_Z (d * sqrt_scale).
Proof.
  intros Hd Hn. apply Qlt_shift_div_l.
  - unfold Qlt. cbn. unfold sqrt_scale. lia.
  - rewrite Qmult_0_l. unfold Qlt. cbn.
    assert (Hs : (Z.sqrt (sqrt_scale * sqrt_scale) <= Z.sqrt n)%Z) by (apply Z.sqrt_le_mono; exact Hn).
    rewrite Z.sqrt_square in Hs by (unfold sqrt_scale; lia).
    unfold sqrt_scale in Hs. lia.
Qed.

#[export] Instance approx_math_laws : JsMathLaws approx_math.
Proof.
  constructor; cbn [m_sqrt m_sin m_cos m_atan2 m_acos m_PI approx_math].
  - reflexivity.
  - intros q Hq. rewrite approx_sqrt_num by exact Hq.
    eexists. split; [reflexivity|]. apply scaled_sqrt_nonneg. lia.
  - intros q Hq. rewrite approx_sqrt_num by lra.
    eexists. split; [reflexivity|]. apply scaled_sqrt_pos; [lia|].
    unfold Qlt in Hq. cbn in Hq.
    assert (1 <= Qnum q * Zpos (Qden q))%Z by nia.
    unfold sqrt_scale. nia.
  - reflexivity.
  - intros q. eexists. split; [reflexivity|]. apply clamp1_range.
  - intros q. eexists. split; [reflexivity|]. apply clamp1_range.
  - reflexivity.
  - reflexivity.
  - intros y x. cbn [approx_atan2].
    destruct (Qeq_bool x 0); [destruct (Qltb 0 y); [|destruct (Qltb y 0)]|
      destruct (Qltb 0 x); [|destruct (Qle_bool 0 y)]]; eexists; reflexivity.
  - intros q Hq. cbn [approx_acos].
    replace (Qltb q (-1) || Qltb 1 q) with false.
    + unfold num at 1. rewrite approx_sqrt_num.
      * cbn [approx_atan2 num].
        destruct (Qeq_bool (Qred q) 0);
          [destruct (Qltb 0 _); [|destruct (Qltb _ 0)]|
           destruct (Qltb 0 (Qred q)); [|destruct (Qle_bool 0 _)]]; eexists; reflexivity.
      * rewrite Qred_correct. nra.
    + symmetry. apply orb_false_iff. split; apply Qltb_false; lra.
  - unfold approx_PI. split; lra.
Qed.
