(* ===== verification/AudioSources.v ===== *)
(** * The audio sources of [AudioEngine] (src/audio-engine.js, lines 6-17, 66-169, 268-277)

    [loadAudioFile], [toggleMicrophone], [play], [stop], [getCurrentTime]
    and [getDuration] on the Web Audio graph they build.  The graph is
    what the browser keeps: the source nodes created, each with its kind
    (the [MediaElementAudioSourceNode] of the [<audio>] element, or a
    [MediaStreamAudioSourceNode] of a microphone stream) and whether it is
    connected to the analyser; the analyser's connection to the speakers;
    the microphone streams with their live tracks.  The Web Audio API
    lets an element feed at most one [MediaElementAudioSourceNode] in its
    lifetime ([createMediaElementSource] throws [InvalidStateError] the
    second time), and once an element has such a node its sound goes
    only through it: when the node is disconnected the element is silent.

    [toggleMicrophone] is asynchronous: it [await]s [getUserMedia] and,
    when the context is suspended, [resume()]; the model splits it at
    both, with the pending calls in queues resolved in order.  The
    [resume()] that [loadAudioFile] and [play] do not await is taken to
    have resolved before the next event. *)

From Stdlib Require Import QArith ZArith String List Lia Bool.
From S2P Require Import Prelude.
Import ListNotations.

Local Open Scope nat_scope.

Module AudioSources.

(** ** The graph *)

Inductive srckind : Type := KElement | KMic (stream : nat).

Record node : Type := mknode { n_kind : srckind; n_connected : bool }.

(** The fields of the constructor (lines 6-17) the sources use, with
    the browser objects they point to. *)
Record engine : Type := mkeng {
  hasContext : bool;             (* initAudioContext succeeded *)
  ctxRunning : bool;             (* audioContext.state === 'running' *)
  audioSrc : option nat;         (* audioElement.src: the file loaded *)
  paused : bool;                 (* audioElement.paused *)
  currentTime : jsnum;           (* audioElement.currentTime *)
  duration : jsnum;              (* audioElement.duration *)
  nodes : list node;             (* source nodes created, by id *)
  elemNode : option nat;         (* the element's MediaElementAudioSourceNode *)
  sourceNode : option nat;       (* this.sourceNode *)
  analyserToDest : bool;         (* analyser connected to the speakers *)
  streams : list bool;           (* microphone streams, by id: tracks live *)
  micStream : option nat;        (* this.micStream *)
  isMicActive : bool;            (* this.isMicActive *)
  awaitingMedia : nat;           (* toggleMicrophone calls awaiting getUserMedia *)
  awaitingResume : list nat      (* ... holding a stream, awaiting resume() *)
}.

(** What a call does: return a value, leave a pending promise, or throw. *)
Inductive outcome (A : Type) : Type :=
| Returns (a : A)
| Pending
| Throws (error : string).
Arguments Returns {A}. Arguments Pending {A}. Arguments Throws {A}.

(** The engine after [new AudioEngine()]: [ok] says whether
    [initAudioContext] created the context; a new context starts
    suspended under the autoplay policy. *)
Definition eng_construct (ok : bool) : engine :=
  mkeng ok false None true (num 0%Q) JNaN [] None None false [] None false 0 [].

(** [node.disconnect()]. *)
Definition disconnect (n : nat) (l : list node) : list node :=
  modify_nth n (fun x => mknode (n_kind x) false) l.

Definition connected (n : nat) (g : engine) : bool :=
  match nth_error (nodes g) n with Some x => n_connected x | None => false end.

Definition set_nodes (l : list node) (g : engine) : engine :=
  mkeng (hasContext g) (ctxRunning g) (audioSrc g) (paused g) (currentTime g) (duration g) l
        (elemNode g) (sourceNode g) (analyserToDest g) (streams g) (micStream g) (isMicActive g)
        (awaitingMedia g) (awaitingResume g).

Definition set_source (o : option nat) (g : engine) : engine :=
  mkeng (hasContext g) (ctxRunning g) (audioSrc g) (paused g) (currentTime g) (duration g) (nodes g)
        (elemNode g) o (analyserToDest g) (streams g) (micStream g) (isMicActive g)
        (awaitingMedia g) (awaitingResume g).

Definition set_playback (running : bool) (p : bool) (t : jsnum) (g : engine) : engine :=
  mkeng (hasContext g) running (audioSrc g) p t (duration g) (nodes g)
        (elemNode g) (sourceNode g) (analyserToDest g) (streams g) (micStream g) (isMicActive g)
        (awaitingMedia g) (awaitingResume g).

(** [if (this.sourceNode) this.sourceNode.disconnect()]. *)
Definition disconnect_source (g : engine) : engine :=
  match sourceNode g with Some n => set_nodes (disconnect n (nodes g)) g | None => g end.

(** ** The microphone *)

(** The branch of [toggleMicrophone] that stops the microphone (lines
    99-111): the tracks stop, the source node is disconnected and
    dropped. *)
Definition mic_off (g : engine) : engine :=
  let '(sts, ms) := match micStream g with
                    | Some s => (set_nth s false (streams g), None)
                    | None => (streams g, micStream g)
                    end in
  let g1 := mkeng (hasContext g) (ctxRunning g) (audioSrc g) (paused g) (currentTime g) (duration g)
                  (nodes g) (elemNode g) (sourceNode g) (analyserToDest g) sts ms (isMicActive g)
                  (awaitingMedia g) (awaitingResume g) in
  let g2 := match sourceNode g1 with
            | Some n => set_source None (set_nodes (disconnect n (nodes g1)) g1)
            | None => g1
            end in
  mkeng (hasContext g2) (ctxRunning g2) (audioSrc g2) (paused g2) (currentTime g2) (duration g2)
        (nodes g2) (elemNode g2) (sourceNode g2) (analyserToDest g2) (streams g2) (micStream g2) false
        (awaitingMedia g2) (awaitingResume g2).

(** The end of the starting branch (lines 128-142), with the stream [s]
    in [this.micStream] and the context running: the previous source is
    disconnected (not dropped), playback pauses, the stream's node is
    connected to the analyser. *)
Definition mic_connect (s : nat) (g : engine) : engine :=
  let g1 := disconnect_source g in
  let n := length (nodes g1) in
  mkeng (hasContext g1) (ctxRunning g1) (audioSrc g1) true (currentTime g1) (duration g1)
        (nodes g1 ++ [mknode (KMic s) true]) (elemNode g1) (Some n) (analyserToDest g1)
        (streams g1) (micStream g1) true (awaitingMedia g1) (awaitingResume g1).

(** [toggleMicrophone()] (lines 97-149) up to its first [await]. *)
Definition toggleMicrophone (g : engine) : outcome bool * engine :=
  if isMicActive g then (Returns false, mic_off g)
  else (Pending,
        mkeng (hasContext g) (ctxRunning g) (audioSrc g) (paused g) (currentTime g) (duration g)
              (nodes g) (elemNode g) (sourceNode g) (analyserToDest g) (streams g) (micStream g)
              (isMicActive g) (S (awaitingMedia g)) (awaitingResume g)).

(** The oldest pending [getUserMedia] settles (lines 113-122): refused,
    the [catch] (lines 143-147) returns [false]; granted, the new stream
    is stored in [this.micStream], then the context is checked (a
    missing context throws into the same [catch], the stream left
    live). *)
Definition micGranted (ok : bool) (g : engine) : engine :=
  match awaitingMedia g with
  | O => g
  | S k =>
      if negb ok then
        mkeng (hasContext g) (ctxRunning g) (audioSrc g) (paused g) (currentTime g) (duration g)
              (nodes g) (elemNode g) (sourceNode g) (analyserToDest g) (streams g) (micStream g)
              (isMicActive g) k (awaitingResume g)
      else
        let s := length (streams g) in
        let g1 := mkeng (hasContext g) (ctxRunning g) (audioSrc g) (paused g) (currentTime g) (duration g)
                        (nodes g) (elemNode g) (sourceNode g) (analyserToDest g) (streams g ++ [true])
                        (Some s) (isMicActive g) k (awaitingResume g) in
        if negb (hasContext g1) then g1
        else if ctxRunning g1 then mic_connect s g1
        else mkeng (hasContext g1) (ctxRunning g1) (audioSrc g1) (paused g1) (currentTime g1) (duration g1)
                   (nodes g1) (elemNode g1) (sourceNode g1) (analyserToDest g1) (streams g1)
                   (micStream g1) (isMicActive g1) (awaitingMedia g1) (awaitingResume g1 ++ [s])
  end.

(** The oldest pending [await this.audioContext.resume()] of
    [toggleMicrophone] settles (lines 123-126). *)
Definition micResumed (g : engine) : engine :=
  match awaitingResume g with
  | [] => g
  | s :: rest =>
      mic_connect s
        (mkeng (hasContext g) true (audioSrc g) (paused g) (currentTime g) (duration g)
               (nodes g) (elemNode g) (sourceNode g) (analyserToDest g) (streams g) (micStream g)
               (isMicActive g) (awaitingMedia g) rest)
  end.

(** ** The file *)

(** The first part of [loadAudioFile(file)] (lines 67-84) for the
    [f]-th file chosen: the context is resumed, a running microphone is
    stopped, the element gets the file's URL (which pauses it and resets
    its time and duration), and the current source is disconnected. *)
Definition load_detach (f : nat) (g : engine) : engine :=
  let g1 := set_playback true (paused g) (currentTime g) g in
  let g2 := if isMicActive g1 then mic_off g1 else g1 in
  let g3 := mkeng (hasContext g2) (ctxRunning g2) (Some f) true (num 0%Q) JNaN (nodes g2)
                  (elemNode g2) (sourceNode g2) (analyserToDest g2) (streams g2) (micStream g2)
                  (isMicActive g2) (awaitingMedia g2) (awaitingResume g2) in
  disconnect_source g3.

(** [loadAudioFile(file)] (lines 66-92): without a context
    [this.audioContext.state] throws a [TypeError]; then the element's
    source node is created and connected, and the analyser to the
    speakers. The second [createMediaElementSource] on the same element
    throws an [InvalidStateError], after the old source was
    disconnected. *)
Definition loadAudioFile (f : nat) (g : engine) : outcome unit * engine :=
  if negb (hasContext g) then (Throws "TypeError"%string, g)
  else
    let g4 := load_detach f g in
    match elemNode g4 with
    | Some _ => (Throws "InvalidStateError"%string, g4)
    | None =>
        let n := length (nodes g4) in
        (Returns tt,
         mkeng (hasContext g4) (ctxRunning g4) (audioSrc g4) (paused g4) (currentTime g4) (duration g4)
               (nodes g4 ++ [mknode KElement true]) (Some n) (Some n) true (streams g4) (micStream g4)
               (isMicActive g4) (awaitingMedia g4) (awaitingResume g4))
    end.

(** [play()] (lines 154-160): [audioElement.play()] unpauses. *)
Definition play (g : engine) : outcome unit * engine :=
  if negb (hasContext g) then (Throws "TypeError"%string, g)
  else (Returns tt, set_playback true false (currentTime g) g).

(** [stop()] (lines 165-169). *)
Definition stop (g : engine) : engine := set_playback (ctxRunning g) true (num 0%Q) g.

(** [getCurrentTime()] and [getDuration()] (lines 268-277). *)
Definition getCurrentTime (g : engine) : jsnum := currentTime g.
Definition getDuration (g : engine) : jsnum := duration g.

(** ** What is heard *)

(** The element's sound reaches the speakers: it plays a file and, once
    it has a source node, that node is connected and the analyser goes
    to the speakers. *)
Definition file_heard (g : engine) : bool :=
  negb (paused g) && (match audioSrc g with Some _ => true | None => false end) &&
  match elemNode g with Some n => connected n g && analyserToDest g | None => true end.

(** ** Events *)

Inductive src_event : Type :=
| ELoad (f : nat) | EToggleMic | EMicGranted (ok : bool) | EMicResumed | EPlay | EStop
| EMetadata (d : jsnum) | ETimeUpdate (t : jsnum).

Definition src_step (e : src_event) (g : engine) : engine :=
  match e with
  | ELoad f => snd (loadAudioFile f g)
  | EToggleMic => snd (toggleMicrophone g)
  | EMicGranted ok => micGranted ok g
  | EMicResumed => micResumed g
  | EPlay => snd (play g)
  | EStop => stop g
  | EMetadata d =>
      mkeng (hasContext g) (ctxRunning g) (audioSrc g) (paused g) (currentTime g) d (nodes g)
            (elemNode g) (sourceNode g) (analyserToDest g) (streams g) (micStream g) (isMicActive g)
            (awaitingMedia g) (awaitingResume g)
  | ETimeUpdate t => set_playback (ctxRunning g) (paused g) t g
  end.

Definition run_src (es : list src_event) (g : engine) : engine :=
  fold_left (fun g e => src_step e g) es g.

(** The element's node [n] exists and is disconnected. *)
Definition silenced (n : nat) (g : engine) : Prop :=
  elemNode g = Some n /\ n < length (nodes g) /\ connected n g = false.

(** No node of [l] that is disconnected is connected in [l']. *)
Definition no_reconnect (l l' : list node) : Prop :=
  length l <= length l' /\
  forall n, n < length l -> (match nth_error l' n with Some x => n_connected x | None => false end) = true ->
            (match nth_error l n with Some x => n_connected x | None => false end) = true.

(** A step keeps the element's node and never reconnects a node. *)
Definition step_ok (g g' : engine) : Prop :=
  no_reconnect (nodes g) (nodes g') /\ (forall n, elemNode g = Some n -> elemNode g' = Some n).

(** The invariant of the graph: the element's node exists, and while it
    is connected it is [this.sourceNode]. *)
Definition src_inv (g : engine) : Prop :=
  forall n, elemNode g = Some n -> n < length (nodes g) /\ (connected n g = true -> sourceNode g = Some n).

(** The microphone stream [0] stays live and out of [this.micStream]. *)
Definition leaked0 (g : engine) : Prop :=
  nth_error (streams g) 0 = Some true /\ micStream g <> Some 0 /\ 1 <= length (streams g).

(** The microphone's node is connected and the analyser goes to the
    speakers: the microphone is played back. *)
Definition mic_heard (g : engine) : bool :=
  isMicActive g && match sourceNode g with Some n => connected n g | None => false end && analyserToDest g.

Inductive src_reachable : engine -> Prop :=
| src_reach_init ok : src_reachable (eng_construct ok)
| src_reach_step e g : src_reachable g -> src_reachable (src_step e g).

(** ** Nodes are never reconnected *)

Lemma nr_refl l : no_reconnect l l.
Proof. split; auto. Qed.

Local Ltac step_ok_same := split; [apply nr_refl | auto].

Lemma nr_trans l1 l2 l3 : no_reconnect l1 l2 -> no_reconnect l2 l3 -> no_reconnect l1 l3.
Proof.
  intros [H1 K1] [H2 K2]. split; [lia|]. intros n Hn Hc. apply K1; [lia|]. apply K2; [lia|exact Hc].
Qed.

Lemma nr_disconnect m l : no_reconnect l (disconnect m l).
Proof.
  unfold disconnect. split; [rewrite length_modify_nth; lia|]. intros n _.
  rewrite nth_error_modify_nth. destruct (Nat.eqb_spec m n); [|auto].
  destruct (nth_error l n); cbn; [discriminate|auto].
Qed.

Lemma nr_app l x : no_reconnect l (l ++ [x]).
Proof.
  split; [rewrite length_app; lia|]. intros n Hn. rewrite nth_error_app1 by exact Hn. auto.
Qed.

Lemma step_ok_refl g : step_ok g g.
Proof. split; [apply nr_refl | auto]. Qed.

Lemma step_ok_trans g1 g2 g3 : step_ok g1 g2 -> step_ok g2 g3 -> step_ok g1 g3.
Proof. intros [H1 K1] [H2 K2]. split; [eapply nr_trans; eassumption | auto]. Qed.

Lemma step_ok_conv g g' : nodes g' = nodes g -> elemNode g' = elemNode g -> step_ok g g'.
Proof. intros H1 H2. split; [rewrite H1; apply nr_refl | congruence]. Qed.

Lemma step_ok_disconnect_source g : step_ok g (disconnect_source g).
Proof. unfold disconnect_source. destruct (sourceNode g); [split; [apply nr_disconnect|auto] | step_ok_same]. Qed.

Lemma step_ok_mic_off g : step_ok g (mic_off g).
Proof.
  unfold mic_off. destruct (micStream g); cbn; (destruct (sourceNode g); cbn;
    [split; [apply nr_disconnect | auto] | step_ok_same]).
Qed.

Lemma step_ok_mic_connect s g : step_ok g (mic_connect s g).
Proof.
  unfold mic_connect. eapply step_ok_trans; [apply step_ok_disconnect_source|].
  split; [apply nr_app | auto].
Qed.

Lemma step_ok_then_connect g g' s : nodes g' = nodes g -> elemNode g' = elemNode g -> step_ok g (mic_connect s g').
Proof. intros H1 H2. eapply step_ok_trans; [apply step_ok_conv; eassumption | apply step_ok_mic_connect]. Qed.

Lemma step_ok_load_detach f g : step_ok g (load_detach f g).
Proof.
  unfold load_detach.
  set (g1 := set_playback true (paused g) (currentTime g) g).
  assert (H0 : step_ok g g1) by step_ok_same.
  assert (H1 : step_ok g (if isMicActive g1 then mic_off g1 else g1))
    by (destruct (isMicActive g1); [exact (step_ok_trans _ _ _ H0 (step_ok_mic_off g1)) | exact H0]).
  set (g2 := if isMicActive g1 then mic_off g1 else g1) in *.
  set (g3 := mkeng _ _ (Some f) _ _ _ (nodes g2) (elemNode g2) _ _ _ _ _ _ _).
  assert (H3 : step_ok g g3) by (destruct H1; split; auto).
  exact (step_ok_trans _ _ _ H3 (step_ok_disconnect_source g3)).
Qed.

Lemma step_ok_step e g : step_ok g (src_step e g).
Proof.
  destruct e; cbn [src_step].
  - unfold loadAudioFile. destruct (hasContext g); cbn [negb]; [|step_ok_same].
    pose proof (step_ok_load_detach f g) as Hs.
    destruct (elemNode (load_detach f g)) eqn:E; cbn [snd]; [exact Hs|].
    destruct Hs as [H4 K4].
    split; [eapply nr_trans; [exact H4 | apply nr_app]|].
    intros n Hn. specialize (K4 n Hn). cbn [elemNode]. congruence.
  - unfold toggleMicrophone. destruct (isMicActive g); [apply step_ok_mic_off | step_ok_same].
  - unfold micGranted. destruct (awaitingMedia g); [step_ok_same|].
    destruct ok; cbn [negb]; [|step_ok_same].
    destruct (hasContext g); cbn [negb]; [|step_ok_same].
    destruct (ctxRunning g); [apply step_ok_then_connect; reflexivity | step_ok_same].
  - unfold micResumed. destruct (awaitingResume g); [step_ok_same | apply step_ok_then_connect; reflexivity].
  - unfold play. destruct (hasContext g); step_ok_same.
  - step_ok_same.
  - step_ok_same.
  - step_ok_same.
Qed.

Lemma silenced_step_ok n g g' : step_ok g g' -> silenced n g -> silenced n g'.
Proof.
  intros [[Hl K] He] (Hn & Hlt & Hc). split; [auto|]. split; [lia|].
  unfold connected in *. destruct (match nth_error (nodes g') n with Some x => n_connected x | None => false end) eqn:E;
    [|reflexivity].
  rewrite (K n Hlt E) in Hc. discriminate.
Qed.

Lemma silenced_run n es g : silenced n g -> silenced n (run_src es g).
Proof.
  revert g. induction es as [|e es IH]; intros g H; [exact H|].
  apply IH, (silenced_step_ok n g), H. apply step_ok_step.
Qed.

Lemma silenced_not_heard n g : silenced n g -> file_heard g = false.
Proof.
  intros (Hn & _ & Hc). unfold file_heard. rewrite Hn, Hc. cbn. rewrite !andb_false_r. reflexivity.
Qed.

(** ** The invariant *)

Lemma run_src_app es1 es2 g : run_src (es1 ++ es2) g = run_src es2 (run_src es1 g).
Proof. unfold run_src. apply fold_left_app. Qed.

Lemma length_disconnect m l : length (disconnect m l) = length l.
Proof. apply length_modify_nth. Qed.

Lemma connected_disconnect m n g :
  n < length (nodes g) ->
  match nth_error (disconnect m (nodes g)) n with Some x => n_connected x | None => false end
  = if Nat.eqb m n then false else connected n g.
Proof.
  intros Hn. unfold disconnect, connected. rewrite nth_error_modify_nth.
  destruct (Nat.eqb m n); [|reflexivity].
  destruct (nth_error (nodes g) n) eqn:E; [reflexivity|].
  apply nth_error_None in E. lia.
Qed.

(** Under the invariant, [disconnect_source] silences the element. *)
Lemma disconnect_source_silences g n :
  src_inv g -> elemNode g = Some n -> silenced n (disconnect_source g).
Proof.
  intros Hi He. destruct (Hi n He) as [Hl Hc]. unfold disconnect_source.
  destruct (sourceNode g) as [m|] eqn:Es.
  - split; [exact He|]. cbn. rewrite length_disconnect. split; [exact Hl|].
    unfold connected at 1. cbn. rewrite connected_disconnect by exact Hl.
    destruct (Nat.eqb_spec m n); [reflexivity|].
    destruct (connected n g); [|reflexivity]. specialize (Hc eq_refl). congruence.
  - split; [exact He|]. split; [exact Hl|].
    destruct (connected n g) eqn:Ec; [|reflexivity]. specialize (Hc eq_refl). discriminate.
Qed.

Lemma silenced_inv n g : silenced n g -> src_inv g.
Proof. intros (He & Hl & Hc) m Hm. rewrite He in Hm. injection Hm as <-. split; [exact Hl|congruence]. Qed.

Lemma inv_no_elem g : elemNode g = None -> src_inv g.
Proof. intros He n Hn. congruence. Qed.

(** Either the element has no node, or it is silenced: what every
    operation that disconnects the current source leaves. *)
Lemma disconnect_source_inv g : src_inv g -> src_inv (disconnect_source g).
Proof.
  intros Hi. destruct (elemNode g) as [n|] eqn:He.
  - apply (silenced_inv n), disconnect_source_silences; assumption.
  - apply inv_no_elem. unfold disconnect_source. destruct (sourceNode g); exact He.
Qed.

Lemma mic_off_graph g :
  nodes (mic_off g) = nodes (disconnect_source g) /\ elemNode (mic_off g) = elemNode g
  /\ sourceNode (mic_off g) = None.
Proof.
  unfold mic_off, disconnect_source, set_nodes, set_source.
  destruct (micStream g), (sourceNode g) eqn:E; cbn; rewrite ?E; auto.
Qed.

Lemma mic_off_inv g : src_inv g -> src_inv (mic_off g).
Proof.
  intros Hi n Hn. destruct (mic_off_graph g) as (Hnd & He & Hs). rewrite He in Hn.
  destruct (disconnect_source_silences g n Hi Hn) as (_ & Hl & Hc).
  unfold connected in *. rewrite Hnd, Hs. split; [exact Hl | congruence].
Qed.

Lemma elemNode_disconnect_source g : elemNode (disconnect_source g) = elemNode g.
Proof. unfold disconnect_source. destruct (sourceNode g); reflexivity. Qed.

Lemma mic_connect_inv s g : src_inv g -> src_inv (mic_connect s g).
Proof.
  intros Hi n Hn. unfold mic_connect in *. cbn [elemNode nodes] in *.
  rewrite elemNode_disconnect_source in Hn.
  destruct (disconnect_source_silences g n Hi Hn) as (_ & Hl & Hc).
  unfold connected in *. cbn [nodes]. rewrite nth_error_app1 by exact Hl.
  split; [rewrite length_app; cbn; lia | congruence].
Qed.

Lemma src_inv_conv g g' :
  nodes g' = nodes g -> elemNode g' = elemNode g -> sourceNode g' = sourceNode g ->
  src_inv g -> src_inv g'.
Proof. intros Hn He Hs Hi n Hm. unfold connected. rewrite Hn, Hs. apply Hi. congruence. Qed.

Lemma load_detach_graph f g :
  exists g3, load_detach f g = disconnect_source g3 /\ elemNode g3 = elemNode g /\ (src_inv g -> src_inv g3).
Proof.
  unfold load_detach. eexists; split; [reflexivity|]. cbn [elemNode].
  destruct (isMicActive _).
  - destruct (mic_off_graph (set_playback true (paused g) (currentTime g) g)) as (_ & He & _).
    split; [exact He|]. intros Hi.
    eapply src_inv_conv; [reflexivity .. | apply mic_off_inv; exact Hi].
  - split; [reflexivity | exact id].
Qed.

Lemma load_detach_silences f g n :
  src_inv g -> elemNode g = Some n -> silenced n (load_detach f g).
Proof.
  intros Hi He. destruct (load_detach_graph f g) as (g3 & -> & E & Hi3).
  apply disconnect_source_silences; [exact (Hi3 Hi) | congruence].
Qed.

Lemma load_detach_inv f g : src_inv g -> src_inv (load_detach f g).
Proof.
  intros Hi. destruct (load_detach_graph f g) as (g3 & -> & _ & Hi3).
  exact (disconnect_source_inv g3 (Hi3 Hi)).
Qed.

Lemma src_step_inv e g : src_inv g -> src_inv (src_step e g).
Proof.
  intros Hi. destruct e; cbn [src_step].
  - unfold loadAudioFile. destruct (hasContext g); cbn [negb]; [|exact Hi].
    pose proof (load_detach_inv f g Hi) as H4.
    destruct (elemNode (load_detach f g)) eqn:E; cbn [snd]; [exact H4|].
    intros n Hn. cbn [elemNode] in Hn. injection Hn as <-. cbn [nodes sourceNode].
    split; [rewrite length_app; cbn; lia | reflexivity].
  - unfold toggleMicrophone. destruct (isMicActive g); [apply mic_off_inv|]; exact Hi.
  - unfold micGranted. destruct (awaitingMedia g); [exact Hi|].
    destruct ok; cbn [negb]; [|exact Hi].
    destruct (hasContext g); cbn [negb]; [|exact Hi].
    destruct (ctxRunning g); [apply mic_connect_inv|]; exact Hi.
  - unfold micResumed. destruct (awaitingResume g); [exact Hi | apply mic_connect_inv; exact Hi].
  - unfold play. destruct (hasContext g); exact Hi.
  - exact Hi.
  - exact Hi.
  - exact Hi.
Qed.

Lemma reachable_src_inv g : src_reachable g -> src_inv g.
Proof. induction 1; [apply inv_no_elem; reflexivity | apply src_step_inv; assumption]. Qed.

(** ** The leaked microphone stream *)

Lemma leaked0_conv g g' :
  streams g' = streams g -> micStream g' = micStream g -> leaked0 g -> leaked0 g'.
Proof. unfold leaked0. intros -> ->. exact id. Qed.

Lemma mic_off_streams g :
  streams (mic_off g) = match micStream g with Some s => set_nth s false (streams g) | None => streams g end
  /\ micStream (mic_off g) = None.
Proof.
  unfold mic_off, set_nodes, set_source.
  destruct (micStream g) eqn:Em, (sourceNode g); cbn; rewrite ?Em; auto.
Qed.

Lemma leaked0_mic_off g : leaked0 g -> leaked0 (mic_off g).
Proof.
  intros (H0 & Hm & Hl). destruct (mic_off_streams g) as [Hs Hm']. unfold leaked0.
  rewrite Hs, Hm'. split; [|split; [discriminate|]]; destruct (micStream g) as [s|] eqn:E.
  - rewrite nth_error_set_nth. destruct (Nat.eqb_spec s 0); [congruence | exact H0].
  - exact H0.
  - rewrite length_set_nth. exact Hl.
  - exact Hl.
Qed.

Lemma leaked0_disconnect_source g : leaked0 g -> leaked0 (disconnect_source g).
Proof. unfold disconnect_source. destruct (sourceNode g); exact id. Qed.

Lemma leaked0_mic_connect s g : leaked0 g -> leaked0 (mic_connect s g).
Proof. intros H. exact (leaked0_disconnect_source g H). Qed.

Lemma leaked0_load_detach f g : leaked0 g -> leaked0 (load_detach f g).
Proof.
  intros H. unfold load_detach. apply leaked0_disconnect_source.
  destruct (isMicActive _); [|exact H].
  exact (leaked0_mic_off (set_playback true (paused g) (currentTime g) g) H).
Qed.

Lemma leaked0_step e g : leaked0 g -> leaked0 (src_step e g).
Proof.
  intros H. destruct e; cbn [src_step].
  - unfold loadAudioFile. destruct (hasContext g); cbn [negb]; [|exact H].
    pose proof (leaked0_load_detach f g H) as H4.
    destruct (elemNode (load_detach f g)); exact H4.
  - unfold toggleMicrophone. destruct (isMicActive g); [apply leaked0_mic_off|]; exact H.
  - unfold micGranted. destruct (awaitingMedia g); [exact H|].
    destruct ok; cbn [negb]; [|exact H].
    destruct H as (H0 & _ & Hl).
    assert (H1 : leaked0 (mkeng (hasContext g) (ctxRunning g) (audioSrc g) (paused g) (currentTime g)
                   (duration g) (nodes g) (elemNode g) (sourceNode g) (analyserToDest g)
                   (streams g ++ [true]) (Some (length (streams g))) (isMicActive g) n (awaitingResume g))).
    { unfold leaked0; cbn [streams micStream].
      rewrite nth_error_app1 by lia. rewrite length_app. split; [exact H0 | split; [|lia]].
      intros Hs. injection Hs. lia. }
    destruct (hasContext g); cbn [negb hasContext ctxRunning]; [|exact H1].
    destruct (ctxRunning g); [apply leaked0_mic_connect|]; exact H1.
  - unfold micResumed. destruct (awaitingResume g); [exact H | apply leaked0_mic_connect; exact H].
  - unfold play. destruct (hasContext g); exact H.
  - exact H.
  - exact H.
  - exact H.
Qed.

Lemma leaked0_run es g : leaked0 g -> leaked0 (run_src es g).
Proof.
  revert g. induction es as [|e es IH]; intros g H; [exact H|].
  cbn. apply IH, leaked0_step, H.
Qed.


Example mic_reaches_speakers_after_file :
  mic_heard (run_src [EPlay; EToggleMic; EMicGranted true] (eng_construct true)) = false /\
  mic_heard (run_src [ELoad 0; EToggleMic; EMicGranted true] (eng_construct true)) = true.
Proof. split; reflexivity. Qed.

(** C29: once a file is loaded, granting the microphone disconnects the
    element's source node for good: whatever happens next (stopping the
    microphone, playing, loading a file again), the file is never heard
    again. *)
Theorem mic_silences_file_forever es :
  file_heard (run_src ([ELoad 0; EToggleMic; EMicGranted true] ++ es) (eng_construct true)) = false.
Proof.
  rewrite run_src_app. apply (silenced_not_heard 0), silenced_run.
  split; [reflexivity | split; [apply Nat.leb_le|]; reflexivity].
Qed.

(** C30: in every reachable state where the element already has its
    source node, [loadAudioFile] throws [InvalidStateError] (the second
    [createMediaElementSource]) after disconnecting that node, so the
    new file is never heard, whatever happens next. *)
Theorem second_load_throws_and_silences g f n :
  src_reachable g -> hasContext g = true -> elemNode g = Some n ->
  fst (loadAudioFile f g) = Throws "InvalidStateError"%string /\
  forall es, file_heard (run_src es (snd (loadAudioFile f g))) = false.
Proof.
  intros Hr Hc He. pose proof (load_detach_silences f g n (reachable_src_inv g Hr) He) as Hs.
  unfold loadAudioFile. rewrite Hc. cbn [negb]. destruct Hs as [E Hs'].
  rewrite E. split; [reflexivity|]. intros es.
  apply (silenced_not_heard n), silenced_run. split; assumption.
Qed.

Lemma second_load_throws_and_silences_witness :
  src_reachable (run_src [ELoad 0] (eng_construct true)) /\
  fst (loadAudioFile 1 (run_src [ELoad 0] (eng_construct true))) = Throws "InvalidStateError"%string.
Proof.
  assert (Hr : src_reachable (run_src [ELoad 0] (eng_construct true)))
    by exact (src_reach_step (ELoad 0) _ (src_reach_init true)).
  split; [exact Hr|].
  exact (proj1 (second_load_throws_and_silences _ 1 0 Hr eq_refl eq_refl)).
Defined.

(** C31: two clicks on the microphone button while permission is
    pending open two streams; the first is overwritten in
    [this.micStream] and no later event stops it: after turning the
    microphone off, stream [0] stays live forever. *)
Theorem pending_mic_stream_leaks es :
  nth_error (streams (run_src ([EPlay; EToggleMic; EToggleMic; EMicGranted true; EMicGranted true;
                                EToggleMic] ++ es) (eng_construct true))) 0 = Some true.
Proof.
  rewrite run_src_app. apply leaked0_run.
  split; [reflexivity | split; [vm_compute; discriminate | apply Nat.leb_le; reflexivity]].
Qed.

End AudioSources.
