(* ===== verification/BeatDetector.v ===== *)
(** * The beat detector: [AudioEngine.detectBeat]

    [src/audio-engine.js], lines 19-24 (state and defaults) and 219-238
    (the algorithm).  The detector keeps [lastBeatTime] (milliseconds, the
    time of the last beat) and [currentBeat] (the decaying energy level).
    A call with the frame's mean magnitude fires when more than
    [beatMinInterval] ms have passed since the last beat and the mean
    exceeds [currentBeat * beatThreshold]; firing snaps the level to the
    mean.  Every call then decays the level by [beatDecayRate] and floors it
    at half the mean.

    The mean is a finite rational (a mean of bytes), so the level is a [Q];
    [Date.now()] is the [now : Z] argument.  Levels are stored in lowest
    terms ([Qred]), which changes no value.

    Theorems: beats are spaced by more than [beatMinInterval] on every
    input trace; the level stays in [[0, M]] when the inputs do; the
    detector is positively homogeneous (scaling input and level scales the
    level and keeps the beats); under a constant input the level never
    approaches the input and the detector fires again every 13 frames. *)

From Stdlib Require Import QArith Qround Lqa ZArith List Lia Bool.
From S2P Require Import Prelude.
Import ListNotations.

(** The three tunables of the constructor (lines 20-22). *)
Record config : Type := {
  beatThreshold : Q;
  beatDecayRate : Q;
  beatMinInterval : Z
}.

Definition default_config : config :=
  {| beatThreshold := 1.3; beatDecayRate := 0.98; beatMinInterval := 200 |}.

(** [this.lastBeatTime] and [this.currentBeat] (lines 23-24). *)
Record state : Type := {
  lastBeatTime : Z;
  currentBeat : Q
}.

Definition init_state : state := {| lastBeatTime := 0; currentBeat := 0 |}.

Section Detector.

Context (c : config).

(** [detectBeat(currentAverage)] with [now = Date.now()]. *)
Definition detectBeat (now : Z) (currentAverage : Q) (s : state) : bool * state :=
  let '(beatDetected, last, level) :=
    if Z.ltb (beatMinInterval c) (now - lastBeatTime s) then
      if Qltb (currentBeat s * beatThreshold c) currentAverage
      then (true, now, currentAverage)
      else (false, lastBeatTime s, currentBeat s)
    else (false, lastBeatTime s, currentBeat s) in
  let level := Qred (level * beatDecayRate c) in
  let level := Qred (qmax level (currentAverage * 0.5)) in
  (beatDetected, {| lastBeatTime := last; currentBeat := level |}).

(** Successive calls, one per animation frame: [(now, average)] pairs. *)
Fixpoint run (inputs : list (Z * Q)) (s : state) : list bool * state :=
  match inputs with
  | [] => ([], s)
  | (now, avg) :: rest =>
      let (b, s1) := detectBeat now avg s in
      let (bs, s2) := run rest s1 in
      (b :: bs, s2)
  end.

(** The times at which the calls of a run fire. *)
Fixpoint fired_times (inputs : list (Z * Q)) (s : state) : list Z :=
  match inputs with
  | [] => []
  | (now, avg) :: rest =>
      let (b, s1) := detectBeat now avg s in
      if b then now :: fired_times rest s1 else fired_times rest s1
  end.

End Detector.

(** Consecutive elements differ by more than [d]. *)
Fixpoint spaced (d : Z) (l : list Z) : Prop :=
  match l with
  | a :: ((b :: _) as t) => (d < b - a)%Z /\ spaced d t
  | _ => True
  end.

(** The level scaled by a positive factor. *)
Definition scale (k : Q) (s : state) : state :=
  {| lastBeatTime := lastBeatTime s; currentBeat := Qred (k * currentBeat s) |}.

(** The state right after a beat at [t] under input [a]. *)
Definition post_beat (t : Z) (a : Q) : state :=
  {| lastBeatTime := t; currentBeat := Qred (a * 0.98) |}.

(** Frames [1..n] after [t0], [dt] ms apart, all with mean [a]. *)
Definition frames (t0 dt : Z) (a : Q) (n : nat) : list (Z * Q) :=
  map (fun k => (t0 + Z.of_nat k * dt, a)%Z) (seq 1 n).

Definition level_ok (M : Q) (s : state) : Prop := 0 <= currentBeat s <= M.

(** ** The two branches of a call *)

Section DetectorFacts.

Context (c : config).

(** No beat: the level only decays and is floored; the time stays. *)
Lemma detectBeat_nofire (now : Z) (avg : Q) (s : state) :
  Qltb (currentBeat s * beatThreshold c) avg = false ->
  detectBeat c now avg s =
  (false, {| lastBeatTime := lastBeatTime s;
             currentBeat := Qred (qmax (Qred (currentBeat s * beatDecayRate c)) (avg * 0.5)) |}).
Proof.
  intros H. unfold detectBeat. rewrite H.
  destruct (Z.ltb (beatMinInterval c) (now - lastBeatTime s)); reflexivity.
Qed.

(** Too early: no beat, whatever the input. *)
Lemma detectBeat_early (now : Z) (avg : Q) (s : state) :
  (now - lastBeatTime s <= beatMinInterval c)%Z ->
  detectBeat c now avg s =
  (false, {| lastBeatTime := lastBeatTime s;
             currentBeat := Qred (qmax (Qred (currentBeat s * beatDecayRate c)) (avg * 0.5)) |}).
Proof.
  intros H. unfold detectBeat.
  replace (Z.ltb (beatMinInterval c) (now - lastBeatTime s)) with false by (symmetry; apply Z.ltb_ge; lia).
  reflexivity.
Qed.

(** A beat: the time is recorded and the level snaps to the input. *)
Lemma detectBeat_fire (now : Z) (avg : Q) (s : state) :
  (beatMinInterval c < now - lastBeatTime s)%Z ->
  Qltb (currentBeat s * beatThreshold c) avg = true ->
  detectBeat c now avg s =
  (true, {| lastBeatTime := now;
            currentBeat := Qred (qmax (Qred (avg * beatDecayRate c)) (avg * 0.5)) |}).
Proof.
  intros Ht H. unfold detectBeat. rewrite H.
  replace (Z.ltb (beatMinInterval c) (now - lastBeatTime s)) with true by (symmetry; apply Z.ltb_lt; lia).
  reflexivity.
Qed.

(** Every call is one of the three cases above. *)
Lemma detectBeat_cases (now : Z) (avg : Q) (s : state) :
  let r := detectBeat c now avg s in
  (fst r = true /\ (beatMinInterval c < now - lastBeatTime s)%Z /\
   currentBeat s * beatThreshold c < avg /\ lastBeatTime (snd r) = now /\
   currentBeat (snd r) == qmax (avg * beatDecayRate c) (avg * 0.5)) \/
  (fst r = false /\ lastBeatTime (snd r) = lastBeatTime s /\
   currentBeat (snd r) == qmax (currentBeat s * beatDecayRate c) (avg * 0.5)).
Proof.
  cbn zeta.
  destruct (Z.ltb_spec (beatMinInterval c) (now - lastBeatTime s)) as [Ht|Ht].
  - destruct (Qltb (currentBeat s * beatThreshold c) avg) eqn:E.
    + rewrite detectBeat_fire by assumption. left. cbn [fst snd lastBeatTime currentBeat]. qbool.
      repeat split; try assumption.
      rewrite Qred_correct. apply qmax_compat; [apply Qred_correct | reflexivity].
    + rewrite detectBeat_nofire by assumption. right. cbn [fst snd lastBeatTime currentBeat]. repeat split.
      rewrite Qred_correct. apply qmax_compat; [apply Qred_correct | reflexivity].
  - rewrite detectBeat_early by assumption. right. cbn [fst snd lastBeatTime currentBeat]. repeat split.
    rewrite Qred_correct. apply qmax_compat; [apply Qred_correct | reflexivity].
Qed.

(** The result depends on the values only, not on their representation. *)
Lemma detectBeat_compat (now : Z) (avg avg' : Q) (s s' : state) :
  avg == avg' -> lastBeatTime s = lastBeatTime s' -> currentBeat s == currentBeat s' ->
  detectBeat c now avg s = detectBeat c now avg' s'.
Proof.
  intros Ha Ht Hl. unfold detectBeat. rewrite Ht.
  rewrite (Qltb_compat _ (currentBeat s' * beatThreshold c) _ avg') by (rewrite ?Hl, ?Ha; reflexivity).
  destruct (Z.ltb _ _); [destruct (Qltb _ _)|]; f_equal; f_equal; apply Qred_complete;
    apply qmax_compat; rewrite ?Qred_correct, ?Ha, ?Hl; reflexivity.
Qed.

Lemma run_app (l1 l2 : list (Z * Q)) (s : state) :
  run c (l1 ++ l2) s =
  (fst (run c l1 s) ++ fst (run c l2 (snd (run c l1 s))), snd (run c l2 (snd (run c l1 s)))).
Proof.
  revert s. induction l1 as [|[now avg] rest IH]; intros s; cbn.
  - destruct (run c l2 s); reflexivity.
  - destruct (detectBeat c now avg s) as [b s1]. rewrite IH.
    destruct (run c rest s1) as [bs s2]. cbn. destruct (run c l2 s2). reflexivity.
Qed.

(** Runs on inputs with equal times and equal values agree. *)
Lemma run_compat_inputs (l l' : list (Z * Q)) (s : state) :
  Forall2 (fun p p' => fst p = fst p' /\ snd p == snd p') l l' ->
  run c l s = run c l' s.
Proof.
  intros H. revert s. induction H as [|[t x] [t' x'] l l' [Ht Hx] _ IH]; intros s;
    cbn in *; [reflexivity|]. subst t'.
  rewrite (detectBeat_compat t x x' s s) by (assumption || reflexivity).
  destruct (detectBeat c t x' s) as [b s1]. rewrite IH. reflexivity.
Qed.

(** After at least one call, the representation of the start state no
    longer matters either. *)
Lemma run_compat (l l' : list (Z * Q)) (s s' : state) :
  Forall2 (fun p p' => fst p = fst p' /\ snd p == snd p') l l' -> l <> [] ->
  lastBeatTime s = lastBeatTime s' -> currentBeat s == currentBeat s' ->
  run c l s = run c l' s'.
Proof.
  intros H Hne Hlt Hl. destruct H as [|[t x] [t' x'] l l' [Ht Hx] Hrest]; [contradiction|].
  cbn in Ht, Hx |- *. subst t'.
  rewrite (detectBeat_compat t x x' s s') by assumption.
  destruct (detectBeat c t x' s') as [b s1]. rewrite (run_compat_inputs l l' s1 Hrest). reflexivity.
Qed.

End DetectorFacts.

(** ** Beats are spaced by more than the minimum interval *)

(** C1: on every input trace, the times at which [detectBeat] reports a
    beat, preceded by the initial [lastBeatTime], increase by more than
    [beatMinInterval] from one to the next: the detector never fires twice
    within one [beatMinInterval] window, whatever the inputs and even if
    the clock is not monotonic. *)
Theorem beats_spaced (c : config) (inputs : list (Z * Q)) (s : state) :
  spaced (beatMinInterval c) (lastBeatTime s :: fired_times c inputs s).
Proof.
  revert s. induction inputs as [|[now avg] rest IH]; intros s; cbn [fired_times]; [exact I|].
  pose proof (detectBeat_cases c now avg s) as Hc. cbn zeta in Hc.
  set (r := detectBeat c now avg s) in *. clearbody r. destruct r as [b s1].
  cbn [fst snd] in Hc. specialize (IH s1).
  destruct Hc as [[-> [Ht [_ [Hl _]]]]|[-> [Hl _]]]; rewrite Hl in IH.
  - split; [exact Ht | exact IH].
  - exact IH.
Qed.

(** ** The level stays within the range of the inputs *)

Lemma detectBeat_level (c : config) (M : Q) (now : Z) (avg : Q) (s : state) :
  0 <= beatDecayRate c <= 1 -> level_ok M s -> 0 <= avg <= M ->
  avg * 0.5 <= currentBeat (snd (detectBeat c now avg s)) <= M.
Proof.
  intros Hd [Hl0 HlM] Ha.
  destruct (detectBeat_cases c now avg s) as [[_ [_ [_ [_ E]]]]|[_ [_ E]]]; rewrite E;
    split; try apply qmax_ge_r; apply qmax_lub; nra.
Qed.

(** When the decay rate lies in [[0,1]] and every frame's mean lies in
    [[0, M]], a level that starts in [[0, M]] stays in [[0, M]] for the whole
    run (with [M = 255] this keeps [beatIntensity = currentBeat / 255] in
    [[0,1]]). *)
Theorem run_level_bounds (c : config) (M : Q) (inputs : list (Z * Q)) (s : state) :
  0 <= beatDecayRate c <= 1 ->
  Forall (fun p => 0 <= snd p <= M) inputs ->
  level_ok M s -> level_ok M (snd (run c inputs s)).
Proof.
  intros Hd Hin. revert s. induction Hin as [|[now avg] rest Ha _ IH]; intros s Hs; cbn; [exact Hs|].
  pose proof (detectBeat_level c M now avg s Hd Hs Ha) as Hl.
  destruct (detectBeat c now avg s) as [b s1]. cbn [snd] in Hl.
  specialize (IH s1). destruct (run c rest s1) as [bs s2]. apply IH. unfold level_ok. cbn [snd] in Ha. lra.
Qed.

Lemma run_level_bounds_witness :
  level_ok 255 (snd (run default_config [(1000%Z, 200); (1100%Z, 255); (1400%Z, 0)] init_state)) /\
  0 <= beatDecayRate default_config <= 1 /\
  Forall (fun p => 0 <= snd p <= 255) [(1000%Z, 200); (1100%Z, 255); (1400%Z, 0)] /\ level_ok 255 init_state.
Proof.
  assert (Hd : 0 <= beatDecayRate default_config <= 1) by (cbn; lra).
  assert (Hin : Forall (fun p => 0 <= snd p <= 255) [(1000%Z, 200); (1100%Z, 255); (1400%Z, 0)])
    by (repeat constructor; cbn; lra).
  assert (Hs : level_ok 255 init_state) by (unfold level_ok; cbn; lra).
  split; [apply (run_level_bounds default_config 255 _ init_state Hd Hin Hs)|].
  split; [exact Hd|]. split; [exact Hin | exact Hs].
Defined.

(** ** Homogeneity *)

Lemma level_scale (k L avg dec : Q) :
  0 < k ->
  qmax (Qred (k * L * dec)) (k * avg * 0.5) == k * Qred (qmax (Qred (L * dec)) (avg * 0.5)).
Proof.
  intros Hk. rewrite !Qred_correct, <- (qmax_scale k) by exact Hk.
  apply qmax_compat; ring.
Qed.

Lemma detectBeat_scale (c : config) (now : Z) (k avg : Q) (s : state) :
  0 < k ->
  detectBeat c now (k * avg) (scale k s) =
  (fst (detectBeat c now avg s), scale k (snd (detectBeat c now avg s))).
Proof.
  intros Hk. unfold detectBeat, scale. cbn [lastBeatTime currentBeat].
  rewrite (Qltb_compat (Qred (k * currentBeat s) * beatThreshold c) (k * (currentBeat s * beatThreshold c))
             (k * avg) (k * avg)) by (rewrite ?Qred_correct; ring).
  rewrite Qltb_scale by exact Hk.
  destruct (Z.ltb _ _); [destruct (Qltb _ _)|]; cbn [fst snd lastBeatTime currentBeat];
    f_equal; f_equal; apply Qred_complete; rewrite <- level_scale by exact Hk;
    apply qmax_compat; rewrite ?Qred_correct; try ring; apply Qred_complete; ring.
Qed.

(** The detector is positively homogeneous: scaling every input and the
    starting level by [k > 0] gives the same beats and the level scaled
    by [k]. *)
Lemma run_scale (c : config) (k : Q) (inputs : list (Z * Q)) (s : state) :
  0 < k ->
  run c (map (fun p => (fst p, k * snd p)) inputs) (scale k s) =
  (fst (run c inputs s), scale k (snd (run c inputs s))).
Proof.
  intros Hk. revert s. induction inputs as [|[now avg] rest IH]; intros s; cbn [run map fst snd]; [reflexivity|].
  rewrite detectBeat_scale by exact Hk.
  destruct (detectBeat c now avg s) as [b s1]. cbn [fst snd]. rewrite IH.
  destruct (run c rest s1) as [bs s2]. reflexivity.
Qed.

(** ** Constant input: periodic re-firing *)

Lemma post_beat_scale (t : Z) (a : Q) : scale a (post_beat t 1) = post_beat t a.
Proof.
  unfold scale, post_beat. cbn [lastBeatTime currentBeat]. f_equal.
  apply Qred_complete. rewrite Qred_correct. ring.
Qed.

Lemma frames_scale (t0 dt : Z) (a : Q) (n : nat) :
  Forall2 (fun p p' => fst p = fst p' /\ snd p == snd p')
    (frames t0 dt a n) (map (fun p => (fst p, a * snd p)) (frames t0 dt 1 n)).
Proof.
  unfold frames. rewrite map_map. apply Forall2_map_same. intros k _. cbn. split; [reflexivity | ring].
Qed.

Lemma frames_app (t0 dt : Z) (a : Q) (m n : nat) :
  frames t0 dt a (m + n) = frames t0 dt a m ++ frames (t0 + Z.of_nat m * dt) dt a n.
Proof.
  unfold frames. rewrite seq_app, map_app. f_equal.
  rewrite map_seq_shift.
  apply map_ext. intros k. f_equal. lia.
Qed.

(** With a unit input and frames at least 16 ms apart, the 13th frame after
    a beat is the next beat, and the state returns to the post-beat one. *)
Lemma unit_period (t0 dt : Z) :
  (16 <= dt)%Z ->
  run default_config (frames t0 dt 1 13) (post_beat t0 1) =
  (repeat false 12 ++ [true], post_beat (t0 + 13 * dt) 1).
Proof.
  intros Hdt. unfold frames, post_beat. cbn [seq map run].
  repeat (rewrite detectBeat_nofire by (vm_compute; reflexivity); cbv beta iota).
  rewrite detectBeat_fire by (cbn [beatMinInterval default_config lastBeatTime]; lia || (vm_compute; reflexivity)).
  cbv beta iota. reflexivity.
Qed.

(** For a constant mean [a > 0] and frames at least 16 ms apart (60 fps
    or slower), the 13 frames that follow a beat produce exactly one beat,
    on the 13th frame, after which the detector is back in the post-beat
    state ([currentBeat = 0.98 a]).  The spec (section 8, property 1)
    expects the level to converge to [a]; the code instead decays it to
    about [0.77 a] and fires again. *)
Theorem constant_input_period (a : Q) (t0 dt : Z) :
  0 < a -> (16 <= dt)%Z ->
  run default_config (frames t0 dt a 13) (post_beat t0 a) =
  (repeat false 12 ++ [true], post_beat (t0 + 13 * dt) a).
Proof.
  intros Ha Hdt.
  rewrite (run_compat default_config _ (map (fun p => (fst p, a * snd p)) (frames t0 dt 1 13))
             _ (scale a (post_beat t0 1)) (frames_scale t0 dt a 13)).
  - rewrite run_scale, unit_period by assumption. cbn [fst snd]. rewrite post_beat_scale. reflexivity.
  - discriminate.
  - reflexivity.
  - unfold post_beat, scale. cbn [currentBeat]. rewrite !Qred_correct. ring.
Qed.

Lemma constant_input_period_witness :
  0 < 3 /\ (16 <= 17)%Z /\
  run default_config (frames 1000 17 3 13) (post_beat 1000 3) =
  (repeat false 12 ++ [true], post_beat (1000 + 13 * 17) 3).
Proof.
  split; [lra|]. split; [lia|]. apply constant_input_period; [lra | lia].
Defined.

(** C2: under a constant mean [a > 0] at 60 fps or slower, the detector
    fires on every 13th frame forever: after [13 n] frames it has reported
    exactly [n] beats, one per period, and is in the post-beat state. *)
Theorem constant_input_fires_forever (a : Q) (t0 dt : Z) (n : nat) :
  0 < a -> (16 <= dt)%Z ->
  run default_config (frames t0 dt a (13 * n)) (post_beat t0 a) =
  (concat (repeat (repeat false 12 ++ [true]) n), post_beat (t0 + Z.of_nat (13 * n) * dt) a).
Proof.
  intros Ha Hdt. revert t0. induction n as [|n IH]; intros t0.
  - replace (t0 + Z.of_nat (13 * 0) * dt)%Z with t0 by lia. reflexivity.
  - replace (13 * Datatypes.S n)%nat with (13 + 13 * n)%nat by lia.
    rewrite frames_app, run_app, constant_input_period by assumption. cbn [fst snd].
    replace (t0 + Z.of_nat 13 * dt)%Z with (t0 + 13 * dt)%Z by lia.
    rewrite IH. cbn [concat repeat].
    replace (t0 + 13 * dt + Z.of_nat (13 * n) * dt)%Z with (t0 + Z.of_nat (13 + 13 * n) * dt)%Z by lia.
    reflexivity.
Qed.

Lemma constant_input_fires_forever_witness :
  0 < 1 /\ (16 <= 20)%Z /\
  run default_config (frames 0 20 1 (13 * 3)) (post_beat 0 1) =
  (concat (repeat (repeat false 12 ++ [true]) 3), post_beat (0 + Z.of_nat (13 * 3) * 20) 1).
Proof.
  split; [lra|]. split; [lia|]. apply constant_input_fires_forever; [lra | lia].
Defined.
