(* ===== verification/FeatureExtractor.v ===== *)
(** * Feature extraction: [AudioEngine.getFrequencyData]

    [src/audio-engine.js]: the constructor's band table (lines 26-34),
    [initAudioContext] (42-61), [getFrequencyData] (175-213) and
    [extractFrequencyBands] (243-263).  The engine state keeps whether the
    analyser exists, the sample rate, [bufferLength], the shared
    [dataArray] the analyser overwrites each frame, the beat detector's
    configuration and state, and the band table.

    A band [start..end] Hz becomes the bins
    [floor(start / nyquist * bufferLength) .. floor(end / nyquist * bufferLength)];
    its value is the mean of those bins divided by 255.  Reading past the
    end of the [Uint8Array] gives [undefined], and [sum + undefined] is NaN;
    an empty bin range divides [0] by [0].  Both are kept ([read_bin],
    [jsnum] division).  The sample rate is a positive rational (the Web
    Audio API guarantees a positive rate), so the bin indices are integers
    computed with [Qfloor].

    Theorems: every band is a finite number in [[0,1]] when its bin range is
    non-empty and inside the spectrum, and exactly [1] on a full-scale
    spectrum; the six default bands are all in range for every sample rate
    from 16 kHz to 122.88 kHz, and outside it the sub or treble band is
    NaN; the feature vector stays normalised frame after frame; and the
    code's detector, fed raw means, refines the spec's detector fed
    normalised means. *)

From Stdlib Require Import QArith Qround Lqa ZArith List Lia Bool.
From S2P Require Import Prelude BeatDetector.
Import ListNotations.

(** The keys of [this.frequencyBands], in insertion order. *)
Inductive band_name : Type := Sub | Bass | Low | Mid | High | Treble.

(** [{ start, end }] in Hz. *)
Record band_range : Type := { band_start : Q; band_end : Q }.

Definition frequencyBands : list (band_name * band_range) :=
  [(Sub, {| band_start := 0; band_end := 60 |});
   (Bass, {| band_start := 60; band_end := 250 |});
   (Low, {| band_start := 250; band_end := 500 |});
   (Mid, {| band_start := 500; band_end := 2000 |});
   (High, {| band_start := 2000; band_end := 4000 |});
   (Treble, {| band_start := 4000; band_end := 8000 |})].

Record engine : Type := {
  analyserReady : bool;            (* this.analyser && this.dataArray *)
  sampleRate : Q;                  (* this.audioContext.sampleRate *)
  bufferLength : nat;              (* analyser.frequencyBinCount *)
  dataArray : list Z;              (* the shared Uint8Array *)
  beatConfig : BeatDetector.config;
  beatState : BeatDetector.state;
  bandTable : list (band_name * band_range)
}.

(** The object returned to the visualizer. *)
Record audio_data : Type := {
  frequencyData : list Z;
  average : jsnum;
  beat : bool;
  beatIntensity : jsnum;
  bands : list (band_name * jsnum)
}.

(** [new AudioEngine()]: [initAudioContext] either builds the analyser
    ([fftSize = 2048], so 1024 bins) or logs the failure and leaves the
    analyser null. *)
Definition init_engine (contextOk : bool) (rate : Q) : engine :=
  {| analyserReady := contextOk;
     sampleRate := rate;
     bufferLength := if contextOk then 1024 else 0;
     dataArray := if contextOk then repeat 0%Z 1024 else [];
     beatConfig := default_config;
     beatState := init_state;
     bandTable := frequencyBands |}.

(** [this.dataArray[i]] as a number: [undefined] (hence NaN in a sum)
    outside the array. *)
Definition read_bin (data : list Z) (i : Z) : jsnum :=
  if (0 <=? i)%Z then
    match nth_error data (Z.to_nat i) with
    | Some v => jofZ v
    | None => JNaN
    end
  else JNaN.

(** [Math.floor((hz / nyquist) * bufferLength)]. *)
Definition hz_to_bin (nyquist : Q) (len : nat) (hz : Q) : Z :=
  Qfloor (hz / nyquist * inject_Z (Z.of_nat len)).

(** [for (let i = startBin; i < endBin; i++) sum += this.dataArray[i];] *)
Fixpoint sum_bins (data : list Z) (i : Z) (n : nat) (acc : jsnum) : jsnum :=
  match n with
  | O => acc
  | S n' => sum_bins data (i + 1) n' (acc +! read_bin data i)%js
  end.

(** One iteration of the band loop: [(sum / (endBin - startBin)) / 255]. *)
Definition band_energy (nyquist : Q) (len : nat) (data : list Z) (r : band_range) : jsnum :=
  let startBin := hz_to_bin nyquist len (band_start r) in
  let endBin := hz_to_bin nyquist len (band_end r) in
  let sum := sum_bins data startBin (Z.to_nat (endBin - startBin)) (num 0) in
  (sum /! jofZ (endBin - startBin) /! num 255)%js.

Definition extractFrequencyBands (e : engine) : list (band_name * jsnum) :=
  let nyquist := sampleRate e / 2 in
  map (fun '(name, r) => (name, band_energy nyquist (bufferLength e) (dataArray e) r)) (bandTable e).

(** [this.dataArray.reduce((sum, value) => sum + value, 0)]. *)
Definition byte_sum (data : list Z) : Q := inject_Z (fold_left Z.add data 0%Z).

(** The safe default returned before the analyser exists. *)
Definition silent_data : audio_data :=
  {| frequencyData := repeat 0%Z 1024;
     average := num 0;
     beat := false;
     beatIntensity := num 0;
     bands := map (fun n => (n, num 0)) [Sub; Bass; Low; Mid; High; Treble] |}.

(** [getFrequencyData()] at time [now], the analyser delivering
    [spectrum] ([getByteFrequencyData] overwrites the shared array). *)
Definition getFrequencyData (now : Z) (spectrum : list Z) (e : engine) : audio_data * engine :=
  if negb (analyserReady e) then (silent_data, e)
  else
    let e1 := {| analyserReady := true; sampleRate := sampleRate e;
                 bufferLength := bufferLength e; dataArray := spectrum;
                 beatConfig := beatConfig e; beatState := beatState e;
                 bandTable := bandTable e |} in
    let avg := byte_sum spectrum / inject_Z (Z.of_nat (bufferLength e)) in
    let '(beatDetected, bs) := detectBeat (beatConfig e) now avg (beatState e) in
    let e2 := {| analyserReady := true; sampleRate := sampleRate e;
                 bufferLength := bufferLength e; dataArray := spectrum;
                 beatConfig := beatConfig e; beatState := bs;
                 bandTable := bandTable e |} in
    ({| frequencyData := spectrum;
        average := num (avg / 255);
        beat := beatDetected;
        beatIntensity := num (currentBeat bs / 255);
        bands := extractFrequencyBands e1 |}, e2).

(** The value of a band in the returned object. *)
Definition band_value (bs : list (band_name * jsnum)) (n : band_name) : option jsnum :=
  match find (fun p => match fst p, n with
                       | Sub, Sub | Bass, Bass | Low, Low | Mid, Mid
                       | High, High | Treble, Treble => true
                       | _, _ => false end) bs with
  | Some (_, v) => Some v
  | None => None
  end.

(** Well-formed spectra: bytes. *)
Definition bytes_ok (data : list Z) : Prop := Forall (fun v => (0 <= v <= 255)%Z) data.

(** What the constructor establishes and every frame preserves. *)
Definition engine_ok (e : engine) : Prop :=
  (analyserReady e = true -> (0 < bufferLength e)%nat /\ length (dataArray e) = bufferLength e) /\
  bytes_ok (dataArray e) /\
  0 <= beatDecayRate (beatConfig e) <= 1 /\
  level_ok 255 (beatState e).

(** ** Reading and summing bins *)

Lemma read_bin_in_range (lo hi : Z) (data : list Z) (i : Z) :
  Forall (fun v => (lo <= v <= hi)%Z) data -> (0 <= i)%Z -> (i < Z.of_nat (length data))%Z ->
  exists v, read_bin data i = jofZ v /\ (lo <= v <= hi)%Z.
Proof.
  intros Hb Hi Hlt. unfold read_bin.
  replace (0 <=? i)%Z with true by (symmetry; apply Z.leb_le; lia).
  destruct (nth_error data (Z.to_nat i)) as [v|] eqn:E.
  - exists v. split; [reflexivity|]. eapply Forall_forall in Hb; [exact Hb|]. eapply nth_error_In; eauto.
  - apply nth_error_None in E. lia.
Qed.

Lemma read_bin_past_end (data : list Z) (i : Z) :
  (Z.of_nat (length data) <= i)%Z -> read_bin data i = JNaN.
Proof.
  intros H. unfold read_bin. destruct (0 <=? i)%Z; [|reflexivity].
  replace (nth_error data (Z.to_nat i)) with (@None Z); [reflexivity|].
  symmetry. apply nth_error_None. lia.
Qed.

Lemma sum_bins_nan (data : list Z) (i : Z) (n : nat) : sum_bins data i n JNaN = JNaN.
Proof. revert i. induction n as [|n IH]; intros i; [reflexivity|]. apply IH. Qed.

(** A bin range inside the array whose bytes lie in [[lo, hi]] sums to a
    number between [lo * n] and [hi * n]. *)
Lemma sum_bins_range (lo hi : Z) (data : list Z) (i : Z) (n : nat) (acc : Q) :
  Forall (fun v => (lo <= v <= hi)%Z) data -> (0 <= i)%Z ->
  (i + Z.of_nat n <= Z.of_nat (length data))%Z ->
  exists S, sum_bins data i n (num acc) = num (acc + S) /\
            inject_Z lo * inject_Z (Z.of_nat n) <= S <= inject_Z hi * inject_Z (Z.of_nat n).
Proof.
  revert i acc. induction n as [|n IH]; intros i acc Hb Hi Hn; cbn [sum_bins].
  - exists 0. split; [apply num_ext; ring|]. change (inject_Z (Z.of_nat 0)) with 0. lra.
  - destruct (read_bin_in_range lo hi data i Hb Hi ltac:(lia)) as [v [Hv Hvr]].
    rewrite Hv. unfold jofZ. rewrite jadd_num.
    destruct (IH (i + 1)%Z (acc + inject_Z v) Hb ltac:(lia) ltac:(lia)) as [S [HS HSr]].
    exists (inject_Z v + S). rewrite HS. split; [apply num_ext; ring|].
    rewrite Nat2Z.inj_succ, <- Z.add_1_r, inject_Z_plus.
    apply inject_Z_range in Hvr. change (inject_Z 1) with 1. nra.
Qed.

(** A bin range that reaches past the end of the array sums to NaN. *)
Lemma sum_bins_past_end (data : list Z) (i : Z) (n : nat) (acc : jsnum) :
  (0 <= i)%Z -> (1 <= n)%nat -> (Z.of_nat (length data) < i + Z.of_nat n)%Z ->
  sum_bins data i n acc = JNaN.
Proof.
  revert i acc. induction n as [|n IH]; intros i acc Hi Hn Hlt; [lia|]. cbn [sum_bins].
  destruct (Z_lt_le_dec i (Z.of_nat (length data))) as [Hin|Hout].
  - apply IH; lia.
  - rewrite read_bin_past_end by exact Hout. rewrite jadd_nan_r. apply sum_bins_nan.
Qed.

(** ** Band values *)

Lemma band_energy_bounds (lo hi : Z) (nyquist : Q) (len : nat) (data : list Z) (r : band_range) :
  Forall (fun v => (lo <= v <= hi)%Z) data ->
  (0 <= hz_to_bin nyquist len (band_start r))%Z ->
  (hz_to_bin nyquist len (band_start r) < hz_to_bin nyquist len (band_end r))%Z ->
  (hz_to_bin nyquist len (band_end r) <= Z.of_nat (length data))%Z ->
  exists q, band_energy nyquist len data r = num q /\
            inject_Z lo <= q * 255 <= inject_Z hi.
Proof.
  intros Hb H0 H1 H2. unfold band_energy.
  set (sb := hz_to_bin nyquist len (band_start r)) in *.
  set (eb := hz_to_bin nyquist len (band_end r)) in *.
  destruct (sum_bins_range lo hi data sb (Z.to_nat (eb - sb)) 0 Hb H0 ltac:(lia)) as [S [HS HSr]].
  rewrite HS. rewrite Z2Nat.id in HSr by lia.
  assert (HN : 0 < inject_Z (eb - sb)) by (change 0 with (inject_Z 0); rewrite <- Zlt_Qlt; lia).
  unfold jofZ. rewrite jdiv_num by lra. rewrite jdiv_num by lra.
  exists ((0 + S) / inject_Z (eb - sb) / 255). split; [reflexivity|].
  assert (Hm : (0 + S) / inject_Z (eb - sb) / 255 * 255 == (0 + S) / inject_Z (eb - sb))
    by (field; lra).
  rewrite Hm. split; [apply Qle_shift_div_l | apply Qle_shift_div_r]; try exact HN; lra.
Qed.

(** C4: a band whose bin range is non-empty and inside the spectrum has a
    finite value in [[0,1]] for every byte spectrum, and exactly [1] on the
    full-scale spectrum (every bin 255), as the spec's property 2 asks. *)
Theorem band_energy_normalised (nyquist : Q) (len : nat) (data : list Z) (r : band_range) :
  bytes_ok data ->
  (0 <= hz_to_bin nyquist len (band_start r))%Z ->
  (hz_to_bin nyquist len (band_start r) < hz_to_bin nyquist len (band_end r))%Z ->
  (hz_to_bin nyquist len (band_end r) <= Z.of_nat (length data))%Z ->
  (exists q, band_energy nyquist len data r = num q /\ 0 <= q <= 1) /\
  band_energy nyquist len (repeat 255%Z (length data)) r = num 1.
Proof.
  intros Hb H0 H1 H2. split.
  - destruct (band_energy_bounds 0 255 nyquist len data r Hb H0 H1 H2) as [q [Hq Hr]].
    exists q. split; [exact Hq|]. change (inject_Z 0) with 0 in Hr. change (inject_Z 255) with 255 in Hr. lra.
  - assert (Hf : Forall (fun v => (255 <= v <= 255)%Z) (repeat 255%Z (length data))).
    { apply Forall_forall. intros v Hv. apply repeat_spec in Hv. lia. }
    destruct (band_energy_bounds 255 255 nyquist len _ r Hf H0 H1) as [q [Hq Hr]];
      [rewrite repeat_length; exact H2|].
    rewrite Hq. apply num_ext. change (inject_Z 255) with 255 in Hr. lra.
Qed.

Lemma band_energy_normalised_witness :
  let r := {| band_start := 60; band_end := 250 |} in
  let data := repeat 100%Z 1024 in
  bytes_ok data /\
  (0 <= hz_to_bin 22050 1024 (band_start r))%Z /\
  (hz_to_bin 22050 1024 (band_start r) < hz_to_bin 22050 1024 (band_end r))%Z /\
  (hz_to_bin 22050 1024 (band_end r) <= Z.of_nat (length data))%Z /\
  (exists q, band_energy 22050 1024 data r = num q /\ 0 <= q <= 1) /\
  band_energy 22050 1024 (repeat 255%Z (length data)) r = num 1.
Proof.
  intros r data.
  assert (Hb : bytes_ok data).
  { apply Forall_forall. intros v Hv. apply repeat_spec in Hv. lia. }
  assert (H0 : (0 <= hz_to_bin 22050 1024 (band_start r))%Z) by (apply Z.leb_le; vm_compute; reflexivity).
  assert (H1 : (hz_to_bin 22050 1024 (band_start r) < hz_to_bin 22050 1024 (band_end r))%Z)
    by (apply Z.ltb_lt; vm_compute; reflexivity).
  assert (H2 : (hz_to_bin 22050 1024 (band_end r) <= Z.of_nat (length data))%Z)
    by (apply Z.leb_le; vm_compute; reflexivity).
  split; [exact Hb|]. split; [exact H0|]. split; [exact H1|]. split; [exact H2|].
  exact (band_energy_normalised 22050 1024 data r Hb H0 H1 H2).
Defined.

(** ** The default bands and the sample rate *)

Lemma hz_to_bin_scaled (sr : Q) (len : nat) (hz : Q) :
  0 < sr -> hz_to_bin (sr / 2) len hz = Qfloor (hz * (2 * inject_Z (Z.of_nat len) / sr)).
Proof.
  intros Hsr. unfold hz_to_bin. apply Qfloor_comp. field. intros H. rewrite H in Hsr. discriminate.
Qed.

Lemma bins_in_range (k : Q) (len : nat) (a b : Q) :
  0 <= a -> 0 < k -> 1 <= (b - a) * k -> b * k <= inject_Z (Z.of_nat len) ->
  (0 <= Qfloor (a * k))%Z /\ (Qfloor (a * k) < Qfloor (b * k))%Z /\ (Qfloor (b * k) <= Z.of_nat len)%Z.
Proof.
  intros Ha Hk Hgap Hend. split; [|split].
  - apply floor_ge_Z. change (inject_Z 0) with 0. nra.
  - apply floor_lt_of_gap. lra.
  - apply floor_le_Z. exact Hend.
Qed.

(** The frequency resolution [2048 / sampleRate] bins per Hz. *)
Lemma rate_resolution (sr : Q) : 0 < sr -> 2048 / sr * sr == 2048.
Proof. intros Hsr. field. intros H. rewrite H in Hsr. discriminate. Qed.

(** A band of the 1024-bin spectrum whose bins fit is normalised. *)
Lemma band_normalised_1024 (sr : Q) (data : list Z) (r : band_range) :
  0 < sr -> length data = 1024%nat -> bytes_ok data ->
  0 <= band_start r -> 1 <= (band_end r - band_start r) * (2048 / sr) ->
  band_end r * (2048 / sr) <= 1024 ->
  exists q, band_energy (sr / 2) 1024 data r = num q /\ 0 <= q <= 1.
Proof.
  intros Hsr Hl Hb Ha Hgap Hend.
  assert (Hk : 0 < 2048 / sr) by (pose proof (rate_resolution sr Hsr); nra).
  assert (Hsc : forall hz, hz_to_bin (sr / 2) 1024 hz = Qfloor (hz * (2048 / sr))).
  { intros hz. rewrite hz_to_bin_scaled by exact Hsr. reflexivity. }
  destruct (bins_in_range (2048 / sr) 1024 (band_start r) (band_end r) Ha Hk Hgap Hend) as [H0 [H1 H2]].
  apply (band_energy_normalised (sr / 2) 1024 data r Hb); rewrite ?Hsc, ?Hl; assumption.
Qed.

(** With the default band table and the 1024-bin analyser, every
    sample rate from 16 kHz to 122.88 kHz gives six finite band values in
    [[0,1]] for every byte spectrum. *)
Theorem default_bands_normalised (e : engine) :
  bandTable e = frequencyBands -> bufferLength e = 1024%nat ->
  length (dataArray e) = 1024%nat -> bytes_ok (dataArray e) ->
  16000 <= sampleRate e <= 122880 ->
  Forall (fun p => exists q, snd p = num q /\ 0 <= q <= 1) (extractFrequencyBands e).
Proof.
  intros Ht Hn Hl Hb Hr. unfold extractFrequencyBands. rewrite Ht, Hn.
  assert (Hsr : 0 < sampleRate e) by lra.
  pose proof (rate_resolution (sampleRate e) Hsr) as Hk.
  assert (Hlo : 1 <= 60 * (2048 / sampleRate e)) by nra.
  assert (Hhi : 8000 * (2048 / sampleRate e) <= 1024) by nra.
  repeat constructor; apply band_normalised_1024; try assumption; cbn [band_start band_end]; lra.
Qed.

Lemma default_bands_normalised_witness :
  let e := {| analyserReady := true; sampleRate := 44100; bufferLength := 1024;
              dataArray := repeat 200%Z 1024; beatConfig := default_config;
              beatState := init_state; bandTable := frequencyBands |} in
  bandTable e = frequencyBands /\ bufferLength e = 1024%nat /\
  length (dataArray e) = 1024%nat /\ bytes_ok (dataArray e) /\ 16000 <= sampleRate e <= 122880 /\
  Forall (fun p => exists q, snd p = num q /\ 0 <= q <= 1) (extractFrequencyBands e).
Proof.
  intros e.
  assert (Hb : bytes_ok (dataArray e)).
  { apply Forall_forall. intros v Hv. apply repeat_spec in Hv. lia. }
  assert (Hr : 16000 <= sampleRate e <= 122880) by (cbn; lra).
  split; [reflexivity|]. split; [reflexivity|]. split; [reflexivity|].
  split; [exact Hb|]. split; [exact Hr|].
  apply default_bands_normalised; [reflexivity | reflexivity | reflexivity | exact Hb | exact Hr].
Defined.

(** An empty bin range divides [0] by [0]. *)
Lemma band_energy_empty (nyquist : Q) (len : nat) (data : list Z) (r : band_range) :
  hz_to_bin nyquist len (band_start r) = hz_to_bin nyquist len (band_end r) ->
  band_energy nyquist len data r = JNaN.
Proof. intros H. unfold band_energy. rewrite H, Z.sub_diag. reflexivity. Qed.

(** Above 122.88 kHz the sub band (0-60 Hz) covers no bin of the
    1024-bin spectrum, and [extractFrequencyBands] reports it as
    [0 / 0 = NaN] whatever the audio, although the spec requires every
    band energy to lie in [[0,1]]. *)
Theorem sub_band_nan_high_rate (e : engine) :
  bandTable e = frequencyBands -> bufferLength e = 1024%nat -> 122880 < sampleRate e ->
  band_value (extractFrequencyBands e) Sub = Some JNaN.
Proof.
  intros Ht Hn Hr. unfold extractFrequencyBands. rewrite Ht, Hn. cbn [map band_value find fst frequencyBands].
  f_equal. apply band_energy_empty. cbn [band_start band_end].
  assert (Hsr : 0 < sampleRate e) by lra.
  pose proof (rate_resolution (sampleRate e) Hsr) as Hk.
  rewrite !hz_to_bin_scaled by exact Hsr.
  change (2 * inject_Z (Z.of_nat 1024)) with 2048.
  rewrite !floor_small; [reflexivity | nra | lra].
Qed.

Lemma sub_band_nan_high_rate_witness :
  let e := init_engine true 192000 in
  bandTable e = frequencyBands /\ bufferLength e = 1024%nat /\ 122880 < sampleRate e /\
  band_value (extractFrequencyBands e) Sub = Some JNaN.
Proof.
  intros e. assert (Hr : 122880 < sampleRate e) by (cbn; lra).
  split; [reflexivity|]. split; [reflexivity|]. split; [exact Hr|].
  apply sub_band_nan_high_rate; [reflexivity | reflexivity | exact Hr].
Defined.

(** C16: at sample rates up to 15.98 kHz ([sampleRate * 1025 <= 16384000])
    the treble band (4-8 kHz) ends past bin 1024, the loop reads
    [dataArray[1024]], which is [undefined], and the band is NaN whatever
    the audio. *)
Theorem treble_band_nan_low_rate (e : engine) :
  bandTable e = frequencyBands -> bufferLength e = 1024%nat -> length (dataArray e) = 1024%nat ->
  0 < sampleRate e -> sampleRate e * 1025 <= 16384000 ->
  band_value (extractFrequencyBands e) Treble = Some JNaN.
Proof.
  intros Ht Hn Hl Hsr Hr. unfold extractFrequencyBands. rewrite Ht, Hn. cbn [map band_value find fst frequencyBands].
  f_equal. unfold band_energy. cbn [band_start band_end].
  pose proof (rate_resolution (sampleRate e) Hsr) as Hk.
  rewrite !hz_to_bin_scaled by exact Hsr.
  change (2 * inject_Z (Z.of_nat 1024)) with 2048.
  set (k := 2048 / sampleRate e) in *.
  assert (Hs : (0 <= Qfloor (4000 * k))%Z) by (apply floor_ge_Z; change (inject_Z 0) with 0; nra).
  assert (Hgap : (Qfloor (4000 * k) < Qfloor (8000 * k))%Z) by (apply floor_lt_of_gap; nra).
  assert (He : (1025 <= Qfloor (8000 * k))%Z) by (apply floor_ge_Z; change (inject_Z 1025) with 1025; nra).
  rewrite sum_bins_past_end; [reflexivity | exact Hs | lia | rewrite Hl; lia].
Qed.

Lemma treble_band_nan_low_rate_witness :
  let e := {| analyserReady := true; sampleRate := 8000; bufferLength := 1024;
              dataArray := repeat 0%Z 1024; beatConfig := default_config;
              beatState := init_state; bandTable := frequencyBands |} in
  bandTable e = frequencyBands /\ bufferLength e = 1024%nat /\ length (dataArray e) = 1024%nat /\
  0 < sampleRate e /\ sampleRate e * 1025 <= 16384000 /\
  band_value (extractFrequencyBands e) Treble = Some JNaN.
Proof.
  intros e. assert (H1 : 0 < sampleRate e) by (cbn; lra).
  assert (H2 : sampleRate e * 1025 <= 16384000) by (cbn; lra).
  split; [reflexivity|]. split; [reflexivity|]. split; [reflexivity|].
  split; [exact H1|]. split; [exact H2|].
  apply treble_band_nan_low_rate; [reflexivity | reflexivity | reflexivity | exact H1 | exact H2].
Defined.

(** ** The feature vector of a frame *)

Lemma fold_add_bounds (data : list Z) (acc : Z) :
  bytes_ok data ->
  (acc <= fold_left Z.add data acc <= acc + 255 * Z.of_nat (length data))%Z.
Proof.
  intros Hb. revert acc. induction Hb as [|v data Hv _ IH]; intros acc; cbn [fold_left length].
  - lia.
  - specialize (IH (acc + v)%Z). lia.
Qed.

Lemma average_bounds (spectrum : list Z) (len : nat) :
  bytes_ok spectrum -> length spectrum = len -> (0 < len)%nat ->
  0 <= byte_sum spectrum / inject_Z (Z.of_nat len) <= 255.
Proof.
  intros Hb Hl Hn. pose proof (fold_add_bounds spectrum 0 Hb) as [H0 H1]. rewrite Hl in H1.
  assert (HN : 0 < inject_Z (Z.of_nat len)) by (change 0 with (inject_Z 0); rewrite <- Zlt_Qlt; lia).
  unfold byte_sum. split.
  - apply Qle_shift_div_l; [exact HN|]. rewrite Qmult_0_l. change 0 with (inject_Z 0). rewrite <- Zle_Qle. lia.
  - apply Qle_shift_div_r; [exact HN|]. change 255 with (inject_Z 255).
    rewrite <- inject_Z_mult, <- Zle_Qle. lia.
Qed.

(** C17: from an engine whose state is well formed (the constructor's, or
    any later one), a frame delivering a byte spectrum of the analyser's
    length returns an [average] and a [beatIntensity] that are finite
    numbers in [[0,1]], and leaves the engine well formed; before the
    analyser exists the safe all-zero vector is returned and nothing
    changes. *)
Theorem getFrequencyData_normalised (now : Z) (spectrum : list Z) (e : engine) :
  engine_ok e -> bytes_ok spectrum -> length spectrum = bufferLength e ->
  let r := getFrequencyData now spectrum e in
  (exists q, average (fst r) = num q /\ 0 <= q <= 1) /\
  (exists q, beatIntensity (fst r) = num q /\ 0 <= q <= 1) /\ engine_ok (snd r) /\
  (analyserReady e = false -> r = (silent_data, e)).
Proof.
  intros [Hready [Hbytes [Hdec Hlvl]]] Hb Hl. cbn zeta.
  assert (Hoff : analyserReady e = false -> getFrequencyData now spectrum e = (silent_data, e))
    by (intros R; unfold getFrequencyData; rewrite R; reflexivity).
  enough (H : (exists q, average (fst (getFrequencyData now spectrum e)) = num q /\ 0 <= q <= 1) /\
              (exists q, beatIntensity (fst (getFrequencyData now spectrum e)) = num q /\ 0 <= q <= 1) /\
              engine_ok (snd (getFrequencyData now spectrum e)))
    by (destruct H as (A & B & C); exact (conj A (conj B (conj C Hoff)))).
  unfold getFrequencyData. destruct (analyserReady e) eqn:R; cbn [negb].
  - destruct (Hready eq_refl) as [Hn Hlen].
    pose proof (average_bounds spectrum (bufferLength e) Hb Hl Hn) as Havg.
    set (avg := byte_sum spectrum / inject_Z (Z.of_nat (bufferLength e))) in *.
    pose proof (detectBeat_level (beatConfig e) 255 now avg (beatState e) Hdec Hlvl Havg) as Hnew.
    destruct (detectBeat (beatConfig e) now avg (beatState e)) as [b bs]. cbn [fst snd] in Hnew |- *.
    split; [|split].
    + exists (avg / 255). split; [reflexivity|].
      split; [apply Qle_shift_div_l | apply Qle_shift_div_r]; lra.
    + exists (currentBeat bs / 255). split; [reflexivity|].
      split; [apply Qle_shift_div_l | apply Qle_shift_div_r]; lra.
    + split; [|split; [exact Hb|split; [exact Hdec|]]].
      * intros _. cbn. split; [exact Hn | exact Hl].
      * unfold level_ok. cbn [currentBeat beatState]. lra.
  - cbn [fst snd silent_data average beatIntensity]. split; [|split].
    + exists 0. split; [reflexivity | lra].
    + exists 0. split; [reflexivity | lra].
    + split; [rewrite R; exact Hready | split; [exact Hbytes | split; [exact Hdec | exact Hlvl]]].
Qed.

Lemma getFrequencyData_normalised_witness :
  let e := init_engine true 48000 in
  engine_ok e /\ bytes_ok (repeat 128%Z 1024) /\ length (repeat 128%Z 1024) = bufferLength e /\
  let r := getFrequencyData 5000 (repeat 128%Z 1024) e in
  (exists q, average (fst r) = num q /\ 0 <= q <= 1) /\
  (exists q, beatIntensity (fst r) = num q /\ 0 <= q <= 1) /\ engine_ok (snd r) /\
  (analyserReady e = false -> r = (silent_data, e)).
Proof.
  intros e.
  assert (H1 : engine_ok e).
  { split; [|split; [|split]].
    - intros _. cbn. split; [lia | reflexivity].
    - apply Forall_forall. intros v Hv. change (dataArray e) with (repeat 0%Z 1024) in Hv. apply repeat_spec in Hv. lia.
    - cbn. lra.
    - unfold level_ok. cbn. lra. }
  assert (H2 : bytes_ok (repeat 128%Z 1024)).
  { apply Forall_forall. intros v Hv. apply repeat_spec in Hv. lia. }
  assert (H3 : length (repeat 128%Z 1024) = bufferLength e) by reflexivity.
  split; [exact H1|]. split; [exact H2|]. split; [exact H3|].
  exact (getFrequencyData_normalised 5000 _ e H1 H2 H3).
Defined.

(** ** The code refines the spec's normalised detector *)

(** C3: the spec's contract is a detector fed the normalised mean
    [average / 255] whose running level is the returned intensity.  The
    code feeds [detectBeat] the raw mean (0-255) and divides the level by
    255 on output.  For every frame, the beat flag and the intensity the
    code returns are those of the spec's detector run on the normalised
    mean from the normalised state, and the code's new state, normalised,
    is the spec's new state. *)
Theorem getFrequencyData_refines_spec_detector (now : Z) (spectrum : list Z) (e : engine) :
  analyserReady e = true ->
  let avg := byte_sum spectrum / inject_Z (Z.of_nat (bufferLength e)) in
  let spec := detectBeat (beatConfig e) now (avg / 255) (scale (1 / 255) (beatState e)) in
  let r := getFrequencyData now spectrum e in
  beat (fst r) = fst spec /\ beatIntensity (fst r) = num (currentBeat (snd spec)) /\
  scale (1 / 255) (beatState (snd r)) = snd spec.
Proof.
  intros R avg spec r. subst spec r. unfold getFrequencyData. rewrite R. cbn [negb]. fold avg.
  rewrite (detectBeat_compat (beatConfig e) now (avg / 255) (1 / 255 * avg)
             (scale (1 / 255) (beatState e)) (scale (1 / 255) (beatState e)))
    by (reflexivity || (unfold Qdiv; ring)).
  rewrite detectBeat_scale by (vm_compute; reflexivity).
  destruct (detectBeat (beatConfig e) now avg (beatState e)) as [b bs].
  cbn [fst snd beat beatIntensity beatState]. split; [reflexivity|]. split; [|reflexivity].
  unfold scale. cbn [currentBeat]. apply num_ext. rewrite Qred_correct. unfold Qdiv. ring.
Qed.

Lemma getFrequencyData_refines_spec_detector_witness :
  analyserReady (init_engine true 44100) = true /\
  let e := init_engine true 44100 in
  let avg := byte_sum (repeat 100%Z 1024) / inject_Z (Z.of_nat (bufferLength e)) in
  let spec := detectBeat (beatConfig e) 5000 (avg / 255) (scale (1 / 255) (beatState e)) in
  let r := getFrequencyData 5000 (repeat 100%Z 1024) e in
  beat (fst r) = fst spec /\ beatIntensity (fst r) = num (currentBeat (snd spec)) /\
  scale (1 / 255) (beatState (snd r)) = snd spec.
Proof.
  split; [reflexivity|]. apply getFrequencyData_refines_spec_detector. reflexivity.
Defined.
