(* ===== verification/GestureController.v ===== *)
(** * [GestureController] (src/gesture-controller.js, lines 1-470)

    The command record [commands] (lines 24-28) that the [Visualizer]
    reads, and, in [Module GestureController], the controller itself:
    finger extension and gesture classification ([getFingerExtensions],
    [recognizeGesture]), the 5-sample smoothing of [updateGesture], the
    command effects of [onGestureChange], [start]/[stop], calibration,
    the detection loop, and [drawHandLandmarks] as the canvas calls it
    makes (its page writes are in [GestureUI]).

    The detection loop is asynchronous: every 100 ms the interval calls
    [detectGesture], which checks [isRunning], then [await]s
    [estimateHands] and, when the promise resolves, updates the gesture.
    The model splits it into two events, [EvTick] (the check; the call
    is then in flight) and [EvEstimate] (the resolution), so that [stop]
    and the [setTimeout] callback of a pulse can run in between.  The
    pending [setTimeout(() => pulse = false, 500)] callbacks are a queue
    of deadlines, fired in order by [EvTimeout].  [gc_step] is the
    whole controller as an executable transition function and
    [reachable] its reachable states. *)

From Stdlib Require Import QArith Lqa ZArith List Lia Bool.
From S2P Require Import Prelude.
Import ListNotations.

Local Open Scope nat_scope.
Local Open Scope js_scope.

(** The object returned by [getCommands()] (lines 24-28); the
    [Visualizer] reads its fields every frame. *)
Record commands : Type := { cmd_freeze : bool; cmd_pulse : bool; cmd_colorPalette : nat }.

Module GestureController.

(** The gesture names the code produces: ['fist'], ['palm'], ['peace'],
    ['unknown'] and ['none']. *)
Inductive gesture : Type := Fist | Palm | Peace | UnknownG | NoneG.

Definition gesture_eqb (a b : gesture) : bool :=
  match a, b with
  | Fist, Fist | Palm, Palm | Peace, Peace | UnknownG, UnknownG | NoneG, NoneG => true
  | _, _ => false
  end.

Definition gesture_eq_dec (a b : gesture) : {a = b} + {a <> b}.
Proof. decide equality. Defined.

(** A HandPose landmark [[x, y, z]]; the code reads [x] and [y] only. *)
Record landmark : Type := { lx : jsnum; ly : jsnum }.

(** [const fingerIndices] (lines 352-357): tip and PIP joint of the
    index, middle, ring and pinky fingers. *)
Definition fingerIndices : list (nat * nat) := [(8, 6); (12, 10); (16, 14); (20, 18)].

(** [getFingerExtensions(landmarks)] (lines 342-367).  Reading a
    coordinate of a missing landmark throws a [TypeError]: [None]. *)
Definition getFingerExtensions (landmarks : list landmark) : option (list bool) :=
  nth_error landmarks 4 >>= fun thumbTip =>
  nth_error landmarks 2 >>= fun thumbBase =>
  let thumbExtended := jabs (lx thumbTip -! lx thumbBase) >! num 30 in
  fold_left (fun acc '(tipIdx, pipIdx) =>
               acc >>= fun fingers =>
               nth_error landmarks tipIdx >>= fun tip =>
               nth_error landmarks pipIdx >>= fun pip =>
               Some (fingers ++ [ly tip <! ly pip]))
            fingerIndices (Some [thumbExtended]).

(** [recognizeGesture(hand)] (lines 314-336). *)
Definition recognizeGesture (landmarks : list landmark) : option gesture :=
  getFingerExtensions landmarks >>= fun fingers =>
  let extendedCount := length (filter (fun f : bool => f) fingers) in
  Some (if Nat.eqb extendedCount 0 then Fist
        else if Nat.eqb extendedCount 5 then Palm
        else if Nat.eqb extendedCount 2 && nth 1 fingers false && nth 2 fingers false then Peace
        else UnknownG).

(** The canvas calls of [drawHandLandmarks]: a filled circle of radius 4
    ([arc] and [fill]) and a stroked segment ([moveTo], [lineTo] and
    [stroke]). *)
Inductive drawop : Type := DArc (x y : jsnum) | DLine (x1 y1 x2 y2 : jsnum).

(** [const connections] (lines 287-294). *)
Definition connections : list (nat * nat) :=
  [(0, 1); (1, 2); (2, 3); (3, 4); (0, 5); (5, 6); (6, 7); (7, 8); (0, 9); (9, 10); (10, 11); (11, 12);
   (0, 13); (13, 14); (14, 15); (15, 16); (0, 17); (17, 18); (18, 19); (19, 20); (5, 9); (9, 13); (13, 17)].

(** [(x / 640) * 240] and [(y / 480) * 180]: the 640x480 video scaled
    to the 240x180 preview. *)
Definition scaleX (x : jsnum) : jsnum := (x /! num 640) *! num 240.
Definition scaleY (y : jsnum) : jsnum := (y /! num 480) *! num 180.

(** One segment of [connections.forEach] (lines 296-309) on the
    operations drawn so far and whether the drawing still runs:
    [const [x1, y1] = landmarks[start]] throws on a missing landmark. *)
Definition draw_connection (hand : list landmark) (acc : list drawop * bool) (ab : nat * nat)
    : list drawop * bool :=
  let '(ops, ok) := acc in
  let '(a, b) := ab in
  if ok then
    match nth_error hand a, nth_error hand b with
    | Some p1, Some p2 =>
        (ops ++ [DLine (scaleX (lx p1)) (scaleY (ly p1)) (scaleX (lx p2)) (scaleY (ly p2))], true)
    | _, _ => (ops, false)
    end
  else (ops, false).

(** [drawHandLandmarks(hand)] (lines 270-313): a circle on every
    landmark, then the segments of [connections]; the operations drawn,
    and [false] when it throws (what was drawn before stays on the
    canvas). *)
Definition drawHandLandmarks (hand : list landmark) : list drawop * bool :=
  fold_left (draw_connection hand) connections
            (map (fun p => DArc (scaleX (lx p)) (scaleY (ly p))) hand, true).

(** A landmark inside the 640x480 video frame. *)
Definition in_video (l : landmark) : Prop :=
  jval (fun q => 0 <= q <= 640)%Q (lx l) /\ jval (fun q => 0 <= q <= 480)%Q (ly l).

(** A drawing inside the 240x180 preview canvas. *)
Definition in_preview (op : drawop) : Prop :=
  let X := jval (fun q => 0 <= q <= 240)%Q in
  let Y := jval (fun q => 0 <= q <= 180)%Q in
  match op with
  | DArc x y => X x /\ Y y
  | DLine x1 y1 x2 y2 => X x1 /\ Y y1 /\ X x2 /\ Y y2
  end.

(** The asynchronous machinery of [start] and the detection loop:
    [isRunning]; whether [this.detectionInterval] holds an interval;
    [intervals], the intervals installed and not cleared (a second
    [start] that passes the [isRunning] check before the first one's
    [getUserMedia] resolves installs a second one, and [stop] clears only
    the one [this.detectionInterval] holds); whether [video.srcObject] is
    set; [inFlight], the [detectGesture] calls awaiting [estimateHands];
    [startPending], the [start] calls awaiting [getUserMedia]. *)
Record loopst : Type := mkloop {
  isRunning : bool;
  detectionInterval : bool;
  intervals : nat;
  videoStream : bool;
  inFlight : nat;
  startPending : nat
}.

(** The controller's state: the fields of the constructor (lines 6-48)
    that its methods read or write; [pulseTimers] are the deadlines (ms)
    of the pending pulse-reset timeouts, in the order they were set. *)
Record gc : Type := mkgc {
  isModelLoaded : bool;
  currentGesture : gesture;
  lastGesture : gesture;
  gestureHistory : list gesture;
  gestureHistorySize : nat;
  cmds : commands;
  calibrationMode : bool;
  pulseTimers : list Z;
  loop : loopst
}.

(** The constructor (lines 6-48), before [init] has loaded the model. *)
Definition construct : gc :=
  mkgc false NoneG NoneG [] 5 {| cmd_freeze := false; cmd_pulse := false; cmd_colorPalette := 0 |}
       false [] (mkloop false false 0 false 0 0).

Definition set_cmds (c : commands) (s : gc) : gc :=
  mkgc (isModelLoaded s) (currentGesture s) (lastGesture s) (gestureHistory s) (gestureHistorySize s)
       c (calibrationMode s) (pulseTimers s) (loop s).

Definition set_history (h : list gesture) (s : gc) : gc :=
  mkgc (isModelLoaded s) (currentGesture s) (lastGesture s) h (gestureHistorySize s)
       (cmds s) (calibrationMode s) (pulseTimers s) (loop s).

Definition set_timers (ts : list Z) (s : gc) : gc :=
  mkgc (isModelLoaded s) (currentGesture s) (lastGesture s) (gestureHistory s) (gestureHistorySize s)
       (cmds s) (calibrationMode s) ts (loop s).

Definition set_loop (l : loopst) (s : gc) : gc :=
  mkgc (isModelLoaded s) (currentGesture s) (lastGesture s) (gestureHistory s) (gestureHistorySize s)
       (cmds s) (calibrationMode s) (pulseTimers s) l.

(** [init()] (lines 53-70), once [handpose.load()] has settled: [ok]
    says whether it resolved. *)
Definition init (ok : bool) (s : gc) : gc :=
  if ok
  then mkgc true (currentGesture s) (lastGesture s) (gestureHistory s) (gestureHistorySize s)
            (cmds s) (calibrationMode s) (pulseTimers s) (loop s)
  else s.

(** [onGestureChange(gesture)] (lines 400-426) at time [now]: a fist
    toggles [freeze], a palm sets [pulse] and schedules its reset 500 ms
    later, a peace sign cycles the palette. *)
Definition onGestureChange (now : Z) (g : gesture) (s : gc) : gc :=
  let c := cmds s in
  match g with
  | Fist => set_cmds {| cmd_freeze := negb (cmd_freeze c); cmd_pulse := cmd_pulse c;
                        cmd_colorPalette := cmd_colorPalette c |} s
  | Palm => set_timers (pulseTimers s ++ [(now + 500)%Z])
              (set_cmds {| cmd_freeze := cmd_freeze c; cmd_pulse := true;
                           cmd_colorPalette := cmd_colorPalette c |} s)
  | Peace => set_cmds {| cmd_freeze := cmd_freeze c; cmd_pulse := cmd_pulse c;
                         cmd_colorPalette := (cmd_colorPalette c + 1) mod 3 |} s
  | _ => s
  end.

(** [gestureHistory.push(gesture)], then one [shift()] when the history
    is longer than [gestureHistorySize] (lines 374-377). *)
Definition push_history (size : nat) (g : gesture) (h : list gesture) : list gesture :=
  let h' := h ++ [g] in
  if Nat.ltb size (length h') then tl h' else h'.

(** [gestureCounts[g] = (gestureCounts[g] || 0) + 1]: a new key goes
    last, as the keys of a JavaScript object keep their insertion order. *)
Fixpoint bump (g : gesture) (cs : list (gesture * nat)) : list (gesture * nat) :=
  match cs with
  | [] => [(g, 1%nat)]
  | (k, n) :: r => if gesture_eqb k g then (k, S n) :: r else (k, n) :: bump g r
  end.

(** The [forEach] of lines 381-383. *)
Definition gestureCounts (h : list gesture) : list (gesture * nat) :=
  fold_left (fun cs g => bump g cs) h [].

(** [Object.keys(gestureCounts).reduce((a, b) => gestureCounts[a] >
    gestureCounts[b] ? a : b)] (lines 385-387): a tie goes to the later
    key; [reduce] of an empty array throws. *)
Definition mostCommon (cs : list (gesture * nat)) : option gesture :=
  match cs with
  | [] => None
  | c0 :: rest => Some (fst (fold_left (fun a b => if Nat.ltb (snd b) (snd a) then a else b) rest c0))
  end.

(** The reference counts: each distinct gesture of [h], in the order of
    its first occurrence, with the number of its occurrences. *)
Definition count_keys (h : list gesture) : list gesture := rev (nodup gesture_eq_dec (rev h)).

Definition ref_counts (h : list gesture) : list (gesture * nat) :=
  map (fun k => (k, count_occ gesture_eq_dec h k)) (count_keys h).

(** The reference choice: among the distinct gestures of [h] in the
    order of their first occurrence, the last one whose count is at
    least every other count. *)
Definition ref_mode (h : list gesture) : option gesture :=
  let ks := count_keys h in
  let c := count_occ gesture_eq_dec h in
  hd_error (rev (filter (fun k => forallb (fun k' => Nat.leb (c k') (c k)) ks) ks)).

Definition significant (g : gesture) : bool :=
  negb (gesture_eqb g UnknownG) && negb (gesture_eqb g NoneG).

(** [updateGesture(gesture)] (lines 372-395) at time [now].  [None] when
    the [reduce] throws (only for [gestureHistorySize = 0]). *)
Definition updateGesture (now : Z) (g : gesture) (s : gc) : option gc :=
  let h := push_history (gestureHistorySize s) g (gestureHistory s) in
  let s1 := set_history h s in
  mostCommon (gestureCounts h) >>= fun m =>
  if negb (gesture_eqb m (currentGesture s1)) && significant m
  then Some (onGestureChange now m
               (mkgc (isModelLoaded s1) m (currentGesture s1) h (gestureHistorySize s1)
                     (cmds s1) (calibrationMode s1) (pulseTimers s1) (loop s1)))
  else Some s1.

(** [updateGesture] inside the [try] of [detectGesture]: when it throws,
    the history has already been pushed and shifted. *)
Definition caught_update (now : Z) (g : gesture) (s : gc) : gc :=
  match updateGesture now g s with
  | Some s' => s'
  | None => set_history (push_history (gestureHistorySize s) g (gestureHistory s)) s
  end.

(** What [await this.model.estimateHands(this.video)] gives: the hands
    found (each its landmarks), or a rejection. *)
Inductive estimate : Type := Hands (hands : list (list landmark)) | EstimateError.

Definition with_inFlight (k : nat) (l : loopst) : loopst :=
  mkloop (isRunning l) (detectionInterval l) (intervals l) (videoStream l) k (startPending l).

(** The interval fires [detectGesture] (lines 232-234): when running, the
    call goes on to [await estimateHands]. *)
Definition detectTick (s : gc) : gc :=
  if Nat.ltb 0 (intervals (loop s)) && isRunning (loop s)
  then set_loop (with_inFlight (S (inFlight (loop s))) (loop s)) s
  else s.

(** The rest of [detectGesture] (lines 235-261) once the estimate
    arrives at time [now].  When [drawHandLandmarks] throws (on a hand
    with fewer than 21 landmarks), the [catch] leaves the state as it
    is.  Note that [isRunning] is not checked again after the
    [await]. *)
Definition detectResolve (now : Z) (d : estimate) (s0 : gc) : gc :=
  match inFlight (loop s0) with
  | O => s0
  | S k =>
      let s := set_loop (with_inFlight k (loop s0)) s0 in
      match d with
      | EstimateError => s
      | Hands [] => caught_update now NoneG s
      | Hands (hand :: _) =>
          if negb (snd (drawHandLandmarks hand)) then s
          else match recognizeGesture hand with
               | Some g => caught_update now g s
               | None => s
               end
      end
  end.

(** [start()] (lines 155-195) up to the [await] of [getUserMedia]: it
    returns [false] before the model is loaded and [true] when already
    running; otherwise the request is pending. *)
Definition startBegin (s : gc) : bool * gc :=
  if negb (isModelLoaded s) then (false, s)
  else if isRunning (loop s) then (true, s)
  else (true, set_loop (let l := loop s in
                        mkloop false (detectionInterval l) (intervals l) (videoStream l)
                               (inFlight l) (S (startPending l))) s).

(** The rest of [start()] once [getUserMedia] settles ([ok] when it
    resolved): the stream is attached, [isRunning] set and
    [startDetectionLoop] (lines 231-265) installs a new interval in
    [this.detectionInterval]. *)
Definition startEnd (ok : bool) (s : gc) : gc :=
  let l := loop s in
  match startPending l with
  | O => s
  | S k =>
      if ok then set_loop (mkloop true true (S (intervals l)) true (inFlight l) k) s
      else set_loop (mkloop (isRunning l) (detectionInterval l) (intervals l) (videoStream l) (inFlight l) k) s
  end.

(** [stop()] (lines 200-226): stop the stream, clear the interval held
    in [this.detectionInterval], and reset [isRunning], the current
    gesture, [freeze] and [pulse].  The history, [lastGesture], the
    palette and the pending timeouts are left as they are. *)
Definition stop (s : gc) : gc :=
  let l := loop s in
  if negb (isRunning l) then s
  else
    let c := cmds s in
    mkgc (isModelLoaded s) NoneG (lastGesture s) (gestureHistory s) (gestureHistorySize s)
         {| cmd_freeze := false; cmd_pulse := false; cmd_colorPalette := cmd_colorPalette c |}
         (calibrationMode s) (pulseTimers s)
         (mkloop false false (if detectionInterval l then pred (intervals l) else intervals l)
                 false (inFlight l) (startPending l)).

(** The [setTimeout] callback of a palm (lines 413-415): the earliest
    pending one fires. *)
Definition pulseTimeout (s : gc) : gc :=
  match pulseTimers s with
  | [] => s
  | _ :: ts =>
      let c := cmds s in
      set_timers ts (set_cmds {| cmd_freeze := cmd_freeze c; cmd_pulse := false;
                                 cmd_colorPalette := cmd_colorPalette c |} s)
  end.

(** [startCalibration()] and [stopCalibration()] (lines 449-462). *)
Definition setCalibration (on : bool) (s : gc) : gc :=
  mkgc (isModelLoaded s) (currentGesture s) (lastGesture s) (gestureHistory s) (gestureHistorySize s)
       (cmds s) on (pulseTimers s) (loop s).

(** [getCommands()] (lines 431-433) and [isActive()] (lines 467-469). *)
Definition getCommands (s : gc) : commands := cmds s.
Definition isActive (s : gc) : bool := isRunning (loop s).

(** The events the page and the browser's event loop deliver. *)
Inductive event : Type :=
| EvInit (ok : bool)
| EvStartBegin
| EvStartEnd (ok : bool)
| EvStop
| EvTick
| EvEstimate (now : Z) (d : estimate)
| EvTimeout
| EvCalibration (on : bool).

Definition gc_step (e : event) (s : gc) : gc :=
  match e with
  | EvInit ok => init ok s
  | EvStartBegin => snd (startBegin s)
  | EvStartEnd ok => startEnd ok s
  | EvStop => stop s
  | EvTick => detectTick s
  | EvEstimate now d => detectResolve now d s
  | EvTimeout => pulseTimeout s
  | EvCalibration on => setCalibration on s
  end.

Definition run_events (es : list event) (s : gc) : gc := fold_left (fun s e => gc_step e s) es s.

Inductive reachable : gc -> Prop :=
| reach_init : reachable construct
| reach_step (e : event) (s : gc) : reachable s -> reachable (gc_step e s).

(** The invariant of every reachable state. *)
Definition gc_inv (s : gc) : Prop :=
  gestureHistorySize s = 5 /\ length (gestureHistory s) <= 5 /\
  cmd_colorPalette (cmds s) < 3 /\ currentGesture s <> UnknownG.

(** Gestures and events that can never make a palm or a peace sign
    current: the hand is absent, closed or unrecognised. *)
Definition quiet_g (g : gesture) : bool :=
  match g with Palm | Peace => false | _ => true end.

Definition quiet_event (e : event) : bool :=
  match e with
  | EvTick | EvTimeout => true
  | EvEstimate _ EstimateError | EvEstimate _ (Hands []) => true
  | EvEstimate _ (Hands (hand :: _)) =>
      negb (snd (drawHandLandmarks hand)) ||
      match recognizeGesture hand with Some g => quiet_g g | None => true end
  | _ => false
  end.

(** Intervals installed that [this.detectionInterval] no longer holds:
    no call of [stop] can clear them. *)
Definition leaked (l : loopst) : nat :=
  intervals l - (if detectionInterval l then 1 else 0).

(** Concrete hands: every landmark at the same point is a fist; a palm
    has the thumb tip 50 px from its base and every fingertip above its
    PIP joint. *)
Definition fist_hand : list landmark := repeat {| lx := num 0; ly := num 0 |} 21.

Definition palm_hand : list landmark :=
  map (fun i => if Nat.eqb i 4 then {| lx := num 50; ly := num 0 |}
                else if existsb (Nat.eqb i) [8; 12; 16; 20] then {| lx := num 0; ly := num 0 |}
                else {| lx := num 0; ly := num 100 |}) (seq 0 21).

(** A running controller, as [start] leaves it, with a given history
    and current gesture. *)
Definition running_gc (h : list gesture) (g : gesture) : gc :=
  mkgc true g NoneG h 5 {| cmd_freeze := false; cmd_pulse := false; cmd_colorPalette := 0 |}
       false [] (mkloop true true 1 true 0 0).

(** [this.detectionInterval] holds one of the installed intervals. *)
Definition loop_ok (l : loopst) : Prop := detectionInterval l = true -> 1 <= intervals l.

(** ** Lemmas *)

Lemma push_history_length (size : nat) (g : gesture) (h : list gesture) :
  length h <= size -> length (push_history size g h) <= size.
Proof.
  intros H. unfold push_history. rewrite length_app. simpl.
  destruct (Nat.ltb_spec size (length h + 1)) as [L|L].
  - destruct h as [|x h]; simpl in *; [lia|]. rewrite length_app. simpl. lia.
  - rewrite length_app. simpl. lia.
Qed.

Lemma onGestureChange_inv (now : Z) (g : gesture) (s : gc) :
  gc_inv s -> gc_inv (onGestureChange now g s).
Proof.
  intros (H1 & H2 & H3 & H4).
  destruct g; unfold gc_inv, onGestureChange, set_cmds, set_timers; cbn [cmds gestureHistorySize
    gestureHistory currentGesture cmd_colorPalette]; repeat split; auto.
  apply Nat.mod_upper_bound. discriminate.
Qed.

Lemma significant_not_unknown (m : gesture) : significant m = true -> m <> UnknownG.
Proof. destruct m; cbn; congruence. Qed.

Lemma updateGesture_inv (now : Z) (g : gesture) (s s' : gc) :
  gc_inv s -> updateGesture now g s = Some s' -> gc_inv s'.
Proof.
  intros Hs U. destruct Hs as (H1 & H2 & H3 & H4).
  assert (Lh : length (push_history 5 g (gestureHistory s)) <= 5) by (apply push_history_length; lia).
  unfold updateGesture in U. rewrite H1 in U.
  destruct (mostCommon _) as [m|]; cbn in U; [|discriminate].
  destruct (negb _ && significant m) eqn:E; injection U as <-.
  - apply andb_true_iff in E as [_ E].
    apply onGestureChange_inv. unfold gc_inv; cbn. repeat split; auto.
    now apply significant_not_unknown.
  - unfold gc_inv; cbn. auto.
Qed.

Lemma caught_update_inv (now : Z) (g : gesture) (s : gc) :
  gc_inv s -> gc_inv (caught_update now g s).
Proof.
  intros Hs. unfold caught_update.
  destruct (updateGesture now g s) as [s'|] eqn:U; [exact (updateGesture_inv _ _ _ _ Hs U)|].
  destruct Hs as (H1 & H2 & H3 & H4). unfold gc_inv; cbn. rewrite H1.
  repeat split; auto. apply push_history_length; lia.
Qed.

(** A recognised gesture never touches the detection loop. *)
Lemma caught_update_loop (now : Z) (g : gesture) (s : gc) : loop (caught_update now g s) = loop s.
Proof.
  unfold caught_update, updateGesture. destruct (mostCommon _); cbn; [|reflexivity].
  destruct (_ && _); [destruct g0; reflexivity | reflexivity].
Qed.

Lemma gc_step_inv (e : event) (s : gc) : gc_inv s -> gc_inv (gc_step e s).
Proof.
  intros Hs. pose proof Hs as (H1 & H2 & H3 & H4).
  destruct e as [ok| |ok| | |now d| |on]; cbn.
  - destruct ok; [unfold gc_inv; cbn; auto | exact Hs].
  - unfold startBegin. destruct (negb _); [exact Hs|]. destruct (isRunning _); exact Hs.
  - unfold startEnd. destruct (startPending _); [exact Hs|]. destruct ok; exact Hs.
  - unfold stop. destruct (negb _); [exact Hs|]. unfold gc_inv; cbn. repeat split; auto. discriminate.
  - unfold detectTick. destruct (_ && _); exact Hs.
  - unfold detectResolve. destruct (inFlight (loop s)) as [|k]; [exact Hs|].
    assert (Hk : gc_inv (set_loop (with_inFlight k (loop s)) s)) by exact Hs.
    destruct d as [[|hand hs]|]; auto using caught_update_inv.
    destruct (negb _); auto. destruct (recognizeGesture hand); auto using caught_update_inv.
  - unfold pulseTimeout. destruct (pulseTimers s); [exact Hs|]. exact Hs.
  - exact Hs.
Qed.

(** ** The landmark drawing *)

Lemma scale_in_preview l : in_video l -> in_preview (DArc (scaleX (lx l)) (scaleY (ly l))).
Proof.
  destruct l as [[x| |] [y| |]]; unfold in_video; cbn [lx ly jval]; try tauto.
  intros [Hx Hy]. split; apply jval_scale; auto; reflexivity.
Qed.

(** The segments of [connections] whose ends are landmarks of [hand]
    are all drawn, one each, inside the preview. *)
Lemma fold_draw_connection hand pairs ops :
  Forall in_video hand -> Forall (fun ab => fst ab < length hand /\ snd ab < length hand) pairs ->
  Forall in_preview ops ->
  exists r, fold_left (draw_connection hand) pairs (ops, true) = (r, true) /\
            length r = length ops + length pairs /\ Forall in_preview r.
Proof.
  intros Hv. revert ops. induction pairs as [|[a b] pairs IH]; intros ops Hp Ho.
  - exists ops. cbn. split; [reflexivity | split; [lia | exact Ho]].
  - inversion Hp as [|? ? [Ha Hb] Hp']; subst. cbn in Ha, Hb. cbn [fold_left draw_connection].
    destruct (nth_error hand a) as [p1|] eqn:E1; [|apply nth_error_None in E1; lia].
    destruct (nth_error hand b) as [p2|] eqn:E2; [|apply nth_error_None in E2; lia].
    pose proof (proj1 (Forall_forall _ _) Hv p1 (nth_error_In _ _ E1)) as V1.
    pose proof (proj1 (Forall_forall _ _) Hv p2 (nth_error_In _ _ E2)) as V2.
    destruct (IH (ops ++ [DLine (scaleX (lx p1)) (scaleY (ly p1)) (scaleX (lx p2)) (scaleY (ly p2))]) Hp')
      as (r & Er & Lr & Fr).
    { apply Forall_app. split; [exact Ho|]. constructor; [|constructor].
      destruct (scale_in_preview p1 V1), (scale_in_preview p2 V2). cbn. tauto. }
    exists r. rewrite length_app in Lr. cbn in Lr. split; [exact Er | split; [cbn [length]; lia | exact Fr]].
Qed.

(** C38: on a hand of at least 21 landmarks inside the video frame,
    [drawHandLandmarks] does not throw and draws a circle per landmark
    and the 23 segments of the skeleton, all inside the 240x180
    preview. *)
Theorem drawHandLandmarks_in_preview hand :
  Forall in_video hand -> 21 <= length hand ->
  exists ops, drawHandLandmarks hand = (ops, true) /\ length ops = length hand + 23 /\ Forall in_preview ops.
Proof.
  intros Hv Hl. unfold drawHandLandmarks.
  destruct (fold_draw_connection hand connections (map (fun p => DArc (scaleX (lx p)) (scaleY (ly p))) hand) Hv)
    as (r & Er & Lr & Fr).
  - repeat constructor; cbn; lia.
  - apply Forall_map. eapply Forall_impl; [apply scale_in_preview | exact Hv].
  - exists r. rewrite length_map in Lr. split; [exact Er | split; [exact Lr | exact Fr]].
Qed.

Lemma drawHandLandmarks_in_preview_witness :
  Forall in_video fist_hand /\ 21 <= length fist_hand /\
  exists ops, drawHandLandmarks fist_hand = (ops, true) /\ length ops = length fist_hand + 23 /\ Forall in_preview ops.
Proof.
  assert (Hv : Forall in_video fist_hand) by (repeat constructor; cbn; lra).
  assert (Hl : 21 <= length fist_hand) by (cbn; lia).
  split; [exact Hv | split; [exact Hl | exact (drawHandLandmarks_in_preview fist_hand Hv Hl)]].
Defined.

Lemma gesture_eqb_dec a b : gesture_eqb a b = if gesture_eq_dec a b then true else false.
Proof. destruct a, b; reflexivity. Qed.

Lemma count_keys_snoc l g :
  count_keys (l ++ [g]) = if in_dec gesture_eq_dec g l then count_keys l else count_keys l ++ [g].
Proof.
  unfold count_keys. rewrite rev_app_distr. cbn [app rev nodup].
  destruct (in_dec gesture_eq_dec g (rev l)) as [H|H], (in_dec gesture_eq_dec g l) as [H'|H'];
    rewrite <- ?in_rev in H; try contradiction; reflexivity.
Qed.

Lemma count_keys_In l k : In k (count_keys l) <-> In k l.
Proof. unfold count_keys. rewrite <- in_rev, nodup_In, <- in_rev. reflexivity. Qed.

Lemma count_keys_NoDup l : NoDup (count_keys l).
Proof. apply NoDup_rev, NoDup_nodup. Qed.

(** [bump] on a table without duplicate keys adds one to the count of
    [g], or appends [g] with count 1. *)
Lemma bump_map g (c : gesture -> nat) ks :
  NoDup ks ->
  bump g (map (fun k => (k, c k)) ks) =
  if in_dec gesture_eq_dec g ks
  then map (fun k => (k, if gesture_eq_dec k g then S (c k) else c k)) ks
  else map (fun k => (k, c k)) ks ++ [(g, 1)].
Proof.
  induction ks as [|k ks IH]; intros Hnd; [reflexivity|].
  inversion Hnd as [|? ? Hk Hnd']; subst. cbn [map bump]. rewrite gesture_eqb_dec.
  destruct (gesture_eq_dec k g) as [<-|Hkg].
  - destruct (in_dec gesture_eq_dec k (k :: ks)) as [_|Hn]; [|exfalso; apply Hn; left; reflexivity].
    f_equal. apply map_ext_in. intros k' Hk'.
    destruct (gesture_eq_dec k' k) as [->|]; [contradiction | reflexivity].
  - rewrite (IH Hnd').
    destruct (in_dec gesture_eq_dec g (k :: ks)) as [[E|Hin]|Hout], (in_dec gesture_eq_dec g ks) as [Hin'|Hout'];
      try congruence; try contradiction; try (exfalso; apply Hout; right; assumption).
    all: cbn [map]; destruct (gesture_eq_dec k g); [contradiction | reflexivity].
Qed.

(** The counting loop of [updateGesture] (lines 380-383) computes the
    reference counts: the keys of [gestureCounts] are the distinct
    gestures of the history in the order of their first occurrence, each
    with its number of occurrences. *)
Lemma gestureCounts_ref h : gestureCounts h = ref_counts h.
Proof.
  induction h as [|g h IH] using rev_ind; [reflexivity|].
  unfold gestureCounts in *. rewrite fold_left_app, IH. cbn [fold_left].
  unfold ref_counts. rewrite (bump_map g _ _ (count_keys_NoDup h)), count_keys_snoc.
  assert (Hc : forall k, count_occ gesture_eq_dec (h ++ [g]) k
                         = count_occ gesture_eq_dec h k + if gesture_eq_dec g k then 1 else 0)
    by (intros k; rewrite count_occ_app; reflexivity).
  destruct (in_dec gesture_eq_dec g (count_keys h)) as [Hin|Hout];
    destruct (in_dec gesture_eq_dec g h) as [Hin'|Hout']; rewrite ?count_keys_In in *; try contradiction.
  - apply map_ext. intros k. rewrite Hc.
    destruct (gesture_eq_dec k g), (gesture_eq_dec g k); subst; try congruence; f_equal; lia.
  - rewrite map_app. cbn [map]. rewrite Hc, (proj1 (count_occ_not_In _ _ _) Hout').
    destruct (gesture_eq_dec g g) as [_|]; [|congruence]. f_equal.
    apply map_ext_in. intros k Hk. rewrite count_keys_In in Hk. rewrite Hc.
    destruct (gesture_eq_dec g k) as [->|]; [contradiction | f_equal; lia].
Qed.

(** The [reduce] of [mostCommon] keeps the last entry of maximal count:
    everything before it has a count at most its own, everything after
    a smaller one. *)
Lemma reduce_max_split (rest pre post : list (gesture * nat)) (a : gesture * nat) :
  let r := fold_left (fun a b => if Nat.ltb (snd b) (snd a) then a else b) rest a in
  Forall (fun p => snd p <= snd a) pre -> Forall (fun p => snd p < snd a) post ->
  exists pre' post', pre ++ a :: post ++ rest = pre' ++ r :: post' /\
    Forall (fun p => snd p <= snd r) pre' /\ Forall (fun p => snd p < snd r) post'.
Proof.
  revert pre a post. induction rest as [|b rest IH]; intros pre a post r Hpre Hpost.
  - exists pre, post. rewrite app_nil_r. auto.
  - subst r. cbn [fold_left]. destruct (Nat.ltb_spec (snd b) (snd a)) as [Hlt|Hge].
    + destruct (IH pre a (post ++ [b]) Hpre) as (pre' & post' & E & H1 & H2);
        [apply Forall_app; auto|].
      exists pre', post'. rewrite <- E, <- app_assoc. split; auto.
    + destruct (IH (pre ++ a :: post) b [] ) as (pre' & post' & E & H1 & H2); [| constructor |].
      { apply Forall_app. split; [|constructor; [lia|]];
          (eapply Forall_impl; [|eassumption]); cbn; intros; lia. }
      exists pre', post'. rewrite <- E, <- app_assoc. split; auto.
Qed.

Lemma mostCommon_split cs m :
  mostCommon cs = Some m ->
  exists pre post n, cs = pre ++ (m, n) :: post /\
    Forall (fun p => snd p <= n) pre /\ Forall (fun p => snd p < n) post.
Proof.
  destruct cs as [|c0 rest]; [discriminate|]. cbn. intros M. injection M as M.
  destruct (reduce_max_split rest [] [] c0) as (pre & post & E & H1 & H2); [constructor..|].
  destruct (fold_left _ rest c0) as [m' n] eqn:F. cbn in M, H1, H2. subst m'.
  exists pre, post, n. split; [exact E | auto].
Qed.

(** C32: the smoothing of [updateGesture] (lines 380-387) picks the
    reference choice: the [reduce] over the keys of [gestureCounts] gives,
    among the gestures of the history window, the last one (in the order
    of first occurrence) whose count is at least every other count, and
    throws ([None]) exactly on an empty window. *)
Theorem mostCommon_is_ref_mode h : mostCommon (gestureCounts h) = ref_mode h.
Proof.
  rewrite gestureCounts_ref. unfold ref_counts, ref_mode.
  set (ks := count_keys h). set (c := count_occ gesture_eq_dec h).
  destruct (mostCommon (map (fun k => (k, c k)) ks)) as [m|] eqn:M.
  - destruct (mostCommon_split _ _ M) as (pre & post & n & E & H1 & H2).
    apply map_eq_app in E as (kpre & kr & -> & <- & Er).
    apply map_eq_cons in Er as (m' & kpost & -> & Em & <-). injection Em as -> <-.
    rewrite Forall_map in H1, H2. rewrite Forall_forall in H1, H2. cbn in H1, H2.
    set (P := fun k => forallb (fun k' => Nat.leb (c k') (c k)) (kpre ++ m :: kpost)).
    assert (Hm : P m = true).
    { apply forallb_forall. intros k Hk. apply Nat.leb_le.
      apply in_app_or in Hk as [Hk|[<-|Hk]]; [exact (H1 k Hk) | lia | pose proof (H2 k Hk); lia]. }
    assert (Hpost : filter P kpost = []).
    { rewrite (filter_ext_in P (fun _ => false)); [apply filter_false|]. intros k Hk.
      apply Bool.not_true_iff_false. intros Hp. pose proof (H2 k Hk).
      apply forallb_forall with (x := m) in Hp; [apply Nat.leb_le in Hp; lia|].
      apply in_or_app. right. left. reflexivity. }
    rewrite filter_app. cbn [filter]. fold P. rewrite Hm, Hpost, rev_app_distr. reflexivity.
  - destruct ks as [|k ks']; [reflexivity|]. discriminate.
Qed.

Lemma bump_keys (g k : gesture) (cs : list (gesture * nat)) :
  In k (map fst (bump g cs)) -> k = g \/ In k (map fst cs).
Proof.
  induction cs as [|[k' n] r IH]; cbn; [intuition|].
  destruct (gesture_eqb k' g); cbn; intuition.
Qed.

Lemma gestureCounts_keys (h : list gesture) (k : gesture) :
  In k (map fst (gestureCounts h)) -> In k h.
Proof.
  unfold gestureCounts.
  assert (G : forall cs, In k (map fst (fold_left (fun cs g => bump g cs) h cs)) ->
                         In k (map fst cs) \/ In k h).
  { induction h as [|g h IH]; cbn; intros cs H; [auto|].
    destruct (IH _ H) as [H'|H']; [destruct (bump_keys _ _ _ H')|]; auto. }
  intros H. destruct (G [] H) as [[]|]; auto.
Qed.

Lemma fold_pick_in (rest : list (gesture * nat)) (c0 : gesture * nat) :
  In (fold_left (fun a b => if Nat.ltb (snd b) (snd a) then a else b) rest c0) (c0 :: rest).
Proof.
  revert c0. induction rest as [|c rest IH]; intros c0; cbn [fold_left In]; [auto|].
  destruct (Nat.ltb (snd c) (snd c0)); [destruct (IH c0) as [E|E]|destruct (IH c) as [E|E]];
    cbn [In] in *; intuition.
Qed.

Lemma mostCommon_in (h : list gesture) (m : gesture) :
  mostCommon (gestureCounts h) = Some m -> In m h.
Proof.
  unfold mostCommon. destruct (gestureCounts h) as [|c0 rest] eqn:E; [discriminate|].
  intros M. injection M as <-. apply gestureCounts_keys. rewrite E.
  apply in_map, fold_pick_in.
Qed.

Lemma push_history_in (size : nat) (g x : gesture) (h : list gesture) :
  In x (push_history size g h) -> In x h \/ x = g.
Proof.
  unfold push_history. intros H.
  assert (H' : In x (h ++ [g])) by (destruct (Nat.ltb _ _); [destruct (h ++ [g]); cbn in *; auto|exact H]).
  apply in_app_or in H' as [I|[E|F]]; [auto|auto|destruct F].
Qed.

Lemma caught_update_quiet (now : Z) (g : gesture) (s : gc) :
  quiet_g g = true -> currentGesture s = Fist -> Forall (fun x => quiet_g x = true) (gestureHistory s) ->
  let s' := caught_update now g s in
  currentGesture s' = Fist /\ cmd_freeze (cmds s') = cmd_freeze (cmds s) /\
  Forall (fun x => quiet_g x = true) (gestureHistory s').
Proof.
  intros Hg Hc Hh.
  assert (Hp : Forall (fun x => quiet_g x = true) (push_history (gestureHistorySize s) g (gestureHistory s))).
  { apply Forall_forall. intros x Hx. destruct (push_history_in _ _ _ _ Hx) as [I| ->]; auto.
    exact (proj1 (Forall_forall _ _) Hh x I). }
  unfold caught_update, updateGesture.
  destruct (mostCommon _) as [m|] eqn:M; cbn; [|auto].
  pose proof (proj1 (Forall_forall _ _) Hp m (mostCommon_in _ _ M)) as Qm.
  rewrite Hc. destruct m; cbn in *; try discriminate; auto.
Qed.

Lemma quiet_step (e : event) (s : gc) :
  quiet_event e = true -> currentGesture s = Fist -> Forall (fun x => quiet_g x = true) (gestureHistory s) ->
  let s' := gc_step e s in
  currentGesture s' = Fist /\ cmd_freeze (cmds s') = cmd_freeze (cmds s) /\
  Forall (fun x => quiet_g x = true) (gestureHistory s').
Proof.
  intros Q Hc Hh. destruct e as [ok| |ok| | |now d| |on]; cbn [quiet_event gc_step] in Q |- *; try discriminate.
  - unfold detectTick. destruct (_ && _); auto.
  - unfold detectResolve. destruct (inFlight (loop s)) as [|k]; [auto|].
    destruct d as [[|hand hs]|];
      [exact (caught_update_quiet now NoneG (set_loop (with_inFlight k (loop s)) s) eq_refl Hc Hh)| |auto].
    destruct (negb _); [auto|].
    destruct (recognizeGesture hand) as [g|]; [|auto]. cbn in Q.
    exact (caught_update_quiet now g (set_loop (with_inFlight k (loop s)) s) Q Hc Hh).
  - unfold pulseTimeout. destruct (pulseTimers s); auto.
Qed.

Lemma run_events_cons (e : event) (es : list event) (s : gc) :
  run_events (e :: es) s = run_events es (gc_step e s).
Proof. reflexivity. Qed.

Lemma gc_step_leaked (e : event) (s : gc) :
  loop_ok (loop s) -> loop_ok (loop (gc_step e s)) /\ leaked (loop s) <= leaked (loop (gc_step e s)).
Proof.
  destruct s as [ml cg lg h hs c cm ts [r di iv vs inf sp]]; unfold loop_ok, leaked; cbn.
  intros Hok. destruct e as [ok| |ok| | |now d| |on]; cbn.
  - destruct ok; cbn; auto.
  - destruct ml, r; cbn; auto.
  - destruct sp; cbn; [auto|]. destruct ok; cbn; [split; [lia|] | auto]. destruct di; lia.
  - destruct r; cbn; [|auto]. destruct di; cbn; split; [discriminate | lia | discriminate | lia].
  - unfold detectTick; cbn. destruct (_ && _); auto.
  - unfold detectResolve; cbn [loop inFlight]. destruct inf as [|k]; [auto|].
    set (s1 := set_loop _ _).
    pose proof (caught_update_loop now) as Lc.
    destruct d as [[|hand hs']|]; [rewrite Lc; cbn; auto| |auto].
    destruct (negb _); [auto|]. destruct (recognizeGesture hand); [rewrite Lc|]; cbn; auto.
  - unfold pulseTimeout; cbn. destruct ts; auto.
  - auto.
Qed.

Lemma leaked_run (es : list event) (s : gc) :
  loop_ok (loop s) -> leaked (loop s) <= leaked (loop (run_events es s)).
Proof.
  revert s. induction es as [|e es IH]; intros s Hok; [cbn; lia|].
  rewrite run_events_cons. destruct (gc_step_leaked e s Hok) as [Hok' L].
  specialize (IH _ Hok'). lia.
Qed.

Lemma reachable_palette (s : gc) : reachable s -> cmd_colorPalette (cmds s) < 3.
Proof.
  intros R. assert (I : gc_inv s).
  { induction R as [|e s _ IH]; [|exact (gc_step_inv e s IH)]. unfold gc_inv; cbn. repeat split; try lia. discriminate. }
  apply I.
Qed.

(** ** The controller's properties *)

(** C5: every reachable state of the controller keeps the history at
    most [gestureHistorySize = 5] long, the palette index in [0..2] and
    a current gesture other than ['unknown'], whatever the order of
    starts, stops, detection ticks, estimates and timeouts. *)
Theorem reachable_gc_inv (s : gc) : reachable s -> gc_inv s.
Proof.
  induction 1 as [|e s _ IH]; [|exact (gc_step_inv e s IH)].
  unfold gc_inv; cbn. repeat split; try lia. discriminate.
Qed.

Lemma reachable_gc_inv_witness :
  reachable (gc_step (EvInit true) construct) /\ gc_inv (gc_step (EvInit true) construct).
Proof.
  split; [exact (reach_step _ _ reach_init)|].
  apply reachable_gc_inv. exact (reach_step _ _ reach_init).
Defined.

(** C15: a fist toggles [freeze] only when it becomes the current
    gesture, and neither an absent hand (['none']) nor an unrecognised
    one can replace it.  So once a fist is current, taking the hand away
    and showing the fist again never toggles [freeze] back: along any
    sequence of detections that see only fists, no hand or unknown
    poses (and timeouts), from a history without palms or peace signs,
    the current gesture stays ['fist'] and [freeze] keeps its value. *)
Theorem fist_never_retoggles (es : list event) (s : gc) :
  forallb quiet_event es = true -> currentGesture s = Fist ->
  Forall (fun x => quiet_g x = true) (gestureHistory s) ->
  currentGesture (run_events es s) = Fist /\ cmd_freeze (cmds (run_events es s)) = cmd_freeze (cmds s).
Proof.
  revert s. induction es as [|e es IH]; intros s Q Hc Hh; [auto|].
  apply andb_true_iff in Q as [Qe Qes]. rewrite run_events_cons.
  destruct (quiet_step e s Qe Hc Hh) as (Hc' & Hf & Hh').
  destruct (IH _ Qes Hc' Hh') as [R1 R2]. rewrite R2, Hf. auto.
Qed.

Lemma fist_never_retoggles_witness :
  let es := [EvTick; EvEstimate 0 (Hands []); EvTick; EvEstimate 100 (Hands []); EvTick;
             EvEstimate 200 (Hands [fist_hand]); EvTick; EvEstimate 300 (Hands [fist_hand])] in
  currentGesture (run_events es (running_gc [Fist] Fist)) = Fist /\
  cmd_freeze (cmds (run_events es (running_gc [Fist] Fist))) = cmd_freeze (cmds (running_gc [Fist] Fist)).
Proof.
  apply fist_never_retoggles; [vm_compute; reflexivity | reflexivity | repeat constructor].
Defined.

(** C14: [stop()] resets the current gesture and [freeze], but a
    detection that passed the [isRunning] check before [stop] and whose
    [estimateHands] resolves after it still runs [updateGesture]: a fist
    seen by that detection makes ['fist'] current again and turns
    [freeze] on, on a controller that is stopped. *)
Theorem stop_undone_by_pending_detection (s : gc) (now : Z) :
  isRunning (loop s) = true -> 1 <= intervals (loop s) ->
  gestureHistorySize s = 5 -> gestureHistory s = [] ->
  let s' := run_events [EvTick; EvStop; EvEstimate now (Hands [fist_hand])] s in
  isActive s' = false /\ currentGesture s' = Fist /\ cmd_freeze (cmds s') = true.
Proof.
  destruct s as [ml cg lg h hs c cm ts [r di iv vs inf sp]]; cbn; intros -> Hi -> ->.
  destruct iv as [|iv]; [lia|]. vm_compute. auto.
Qed.

Lemma stop_undone_by_pending_detection_witness :
  let s' := run_events [EvTick; EvStop; EvEstimate 100 (Hands [fist_hand])] (running_gc [] NoneG) in
  isActive s' = false /\ currentGesture s' = Fist /\ cmd_freeze (cmds s') = true.
Proof. apply stop_undone_by_pending_detection; reflexivity || (cbn; lia). Defined.

(** C19: [stop()] does not clear the gesture history.  After a fist held
    for five detections, a stop and a restart, the first detection that
    sees no hand at all makes ['fist'] current again (four of the five
    samples are still fists) and turns [freeze] on. *)
Theorem restart_replays_stale_history (s : gc) (now : Z) :
  isRunning (loop s) = true -> isModelLoaded s = true ->
  gestureHistorySize s = 5 -> gestureHistory s = repeat Fist 5 ->
  let s' := run_events [EvStop; EvStartBegin; EvStartEnd true; EvTick; EvEstimate now (Hands [])] s in
  isActive s' = true /\ currentGesture s' = Fist /\ cmd_freeze (cmds s') = true.
Proof.
  destruct s as [ml cg lg h hs c cm ts [r di iv vs inf sp]]; cbn; intros -> -> -> ->.
  vm_compute. auto.
Qed.

Lemma restart_replays_stale_history_witness :
  let s' := run_events [EvStop; EvStartBegin; EvStartEnd true; EvTick; EvEstimate 700 (Hands [])]
                       (running_gc (repeat Fist 5) Fist) in
  isActive s' = true /\ currentGesture s' = Fist /\ cmd_freeze (cmds s') = true.
Proof. apply restart_replays_stale_history; reflexivity. Defined.

(** C20: two [start()] calls that both pass the [isRunning] check before
    [getUserMedia] resolves install two detection intervals;
    [this.detectionInterval] keeps only the second, so [stop()] clears
    one and the controller is stopped with an interval still installed.
    No later sequence of events ever clears it. *)
Theorem double_start_leaks_interval (s : gc) (es : list event) :
  isModelLoaded s = true -> loop s = mkloop false false 0 false 0 0 ->
  let s1 := run_events [EvStartBegin; EvStartBegin; EvStartEnd true; EvStartEnd true; EvStop] s in
  isActive s1 = false /\ intervals (loop s1) = 1 /\ 1 <= leaked (loop (run_events es s1)).
Proof.
  destruct s as [ml cg lg h hs c cm ts l]; cbn; intros -> ->. cbv zeta.
  assert (Hok : loop_ok (loop (run_events [EvStartBegin; EvStartBegin; EvStartEnd true; EvStartEnd true; EvStop]
            (mkgc true cg lg h hs c cm ts (mkloop false false 0 false 0 0))))) by (vm_compute; discriminate).
  pose proof (leaked_run es _ Hok) as L. vm_compute in L |- *. auto.
Qed.

Lemma double_start_leaks_interval_witness :
  let s1 := run_events [EvStartBegin; EvStartBegin; EvStartEnd true; EvStartEnd true; EvStop]
                       (gc_step (EvInit true) construct) in
  isActive s1 = false /\ intervals (loop s1) = 1 /\ 1 <= leaked (loop (run_events [EvStartBegin] s1)).
Proof. apply double_start_leaks_interval; reflexivity. Defined.

End GestureController.
