(* ===== verification/GestureUI.v ===== *)
(** * The page half of [GestureController] (src/gesture-controller.js, lines 71-146, 150-309, 427-462)

    What the controller writes to the page: the webcam preview and the
    gesture overlay that [createUI] builds hidden, shown by [start] and
    hidden by [stop]; the status line of [updateGestureStatus]; the
    landmarks drawn on the preview canvas by [drawHandLandmarks] after
    each [clearRect]; the [alert]s.  [gui_step] gives the page writes of
    one event of [GestureController.gc_step] from the state before it,
    in the order the code makes them; [ui_step] runs both.  The page
    never feeds back into the controller. *)

From Stdlib Require Import QArith ZArith String List Lia Bool.
From S2P Require Import Prelude GestureController.
Import ListNotations.

Local Open Scope nat_scope.
Local Open Scope string_scope.

Module GestureUI.
Import GestureController.GestureController.

(** The elements [createUI] makes and the controller writes. *)
Record gui : Type := mkgui {
  previewDisplay : string;      (* webcamPreview.style.display *)
  overlayDisplay : string;      (* gestureOverlay.style.display *)
  statusText : string;          (* #gesture-status textContent *)
  statusColor : string;         (* #gesture-status style.color *)
  canvas : list drawop;         (* what is drawn on the preview canvas since the last clearRect *)
  alerts : list string
}.

(** [createUI()] (lines 74-146): both containers hidden, the status
    line reading ['Initializing...'] in white, an empty canvas. *)
Definition createUI : gui := mkgui "none" "none" "Initializing..." "#fff" [] [].

(** [updateGestureStatus(text, color)] (lines 437-443); [#gesture-status]
    exists once [createUI] ran. *)
Definition updateGestureStatus (text color : string) (u : gui) : gui :=
  mkgui (previewDisplay u) (overlayDisplay u) text color (canvas u) (alerts u).

Definition set_displays (d : string) (u : gui) : gui :=
  mkgui d d (statusText u) (statusColor u) (canvas u) (alerts u).

Definition set_canvas (ops : list drawop) (u : gui) : gui :=
  mkgui (previewDisplay u) (overlayDisplay u) (statusText u) (statusColor u) ops (alerts u).

Definition alert (msg : string) (u : gui) : gui :=
  mkgui (previewDisplay u) (overlayDisplay u) (statusText u) (statusColor u) (canvas u) (alerts u ++ [msg])%list.

(** The strings [recognizeGesture] returns. *)
Definition gesture_name (g : gesture) : string :=
  match g with Fist => "fist" | Palm => "palm" | Peace => "peace" | UnknownG => "unknown" | NoneG => "none" end.

(** The page writes of [detectGesture] after [estimateHands] resolves
    (lines 238-257): [clearRect], the drawing, then the status when
    [updateGesture] did not throw. *)
Definition detect_ui (now : Z) (d : estimate) (s : gc) (u : gui) : gui :=
  match d with
  | EstimateError => u
  | Hands [] =>
      let u1 := set_canvas [] u in
      match updateGesture now NoneG s with
      | Some _ => updateGestureStatus "No hand detected" "#ffaa00" u1
      | None => u1
      end
  | Hands (hand :: _) =>
      let '(ops, ok) := drawHandLandmarks hand in
      let u1 := set_canvas ops u in
      if negb ok then u1
      else match recognizeGesture hand with
           | None => u1
           | Some g =>
               match updateGesture now g s with
               | Some _ => updateGestureStatus ("Gesture: " ++ gesture_name g) "#00ffff" u1
               | None => u1
               end
           end
  end.

(** The page writes of one event, from the controller's state [s]
    before it: [init] (lines 51-69), [start] (lines 150-194), [stop]
    (lines 199-224), the detection (lines 232-257) and the calibration
    (lines 448-462). *)
Definition gui_step (e : event) (s : gc) (u : gui) : gui :=
  match e with
  | EvInit ok =>
      if ok then updateGestureStatus "Model loaded - Ready to start" "#00ff00" u
      else updateGestureStatus "Failed to load model" "#ff0000" u
  | EvStartBegin =>
      if negb (isModelLoaded s) then alert "HandPose model not loaded yet. Please wait..." u else u
  | EvStartEnd ok =>
      match startPending (loop s) with
      | O => u
      | S _ =>
          if ok then updateGestureStatus "Active - Show hand gestures" "#00ff00" (set_displays "block" u)
          else updateGestureStatus "Webcam access denied" "#ff0000"
                 (alert "Could not access webcam. Please check permissions." u)
      end
  | EvStop => if negb (isRunning (loop s)) then u else set_displays "none" u
  | EvTick => u
  | EvEstimate now d =>
      match inFlight (loop s) with
      | O => u
      | S k => detect_ui now d (set_loop (with_inFlight k (loop s)) s) u
      end
  | EvTimeout => u
  | EvCalibration on =>
      if on then updateGestureStatus "Calibration mode active" "#ffaa00" u
      else updateGestureStatus "Calibration complete" "#00ff00" u
  end.

Definition ui_step (e : event) (su : gc * gui) : gc * gui :=
  (gc_step e (fst su), gui_step e (fst su) (snd su)).

Definition run_ui (es : list event) (su : gc * gui) : gc * gui :=
  fold_left (fun su e => ui_step e su) es su.

(** The preview and the overlay are shown exactly while the controller
    runs. *)
Definition shown_iff_running (su : gc * gui) : Prop :=
  previewDisplay (snd su) = (if isRunning (loop (fst su)) then "block" else "none") /\
  overlayDisplay (snd su) = previewDisplay (snd su).

(** The page states the controller reaches from [new GestureController()]
    and [createUI()]. *)
Inductive ui_reachable : gc * gui -> Prop :=
| ui_reach_init : ui_reachable (construct, createUI)
| ui_reach_step (e : event) (su : gc * gui) : ui_reachable su -> ui_reachable (ui_step e su).

Lemma detect_ui_displays now d s u :
  previewDisplay (detect_ui now d s u) = previewDisplay u /\ overlayDisplay (detect_ui now d s u) = overlayDisplay u.
Proof.
  destruct d as [[|hand hs]|]; cbn [detect_ui]; [destruct (updateGesture _ _ _); cbn; auto| |cbn; auto].
  destruct (drawHandLandmarks hand) as [ops ok]. destruct ok; cbn [negb]; [|cbn; auto].
  destruct (recognizeGesture hand); [destruct (updateGesture _ _ _)|]; cbn; auto.
Qed.

Lemma ui_step_shown e su : shown_iff_running su -> shown_iff_running (ui_step e su).
Proof.
  destruct su as [s u]. unfold shown_iff_running, ui_step. cbn [fst snd]. intros [Hp Ho].
  destruct e as [ok| |ok| | |now d| |on]; cbn [gc_step gui_step].
  - destruct ok; cbn; auto.
  - unfold startBegin. destruct (isModelLoaded s); cbn [negb]; [|cbn; auto].
    destruct (isRunning (loop s)) eqn:R; cbn; rewrite ?R; auto.
  - unfold startEnd. destruct (startPending (loop s)); [auto|]. destruct ok; cbn; auto.
  - unfold stop. destruct (isRunning (loop s)) eqn:R; cbn; [auto|]. rewrite R. auto.
  - unfold detectTick. destruct (_ && _); cbn; auto.
  - unfold detectResolve. destruct (inFlight (loop s)); [auto|].
    destruct (detect_ui_displays now d (set_loop (with_inFlight n (loop s)) s) u) as [E1 E2].
    rewrite E1, E2. destruct d as [[|hand hs]|]; cbn [detectResolve]; rewrite ?caught_update_loop; auto.
    destruct (negb _); [auto|]. destruct (recognizeGesture hand); rewrite ?caught_update_loop; auto.
  - unfold pulseTimeout. destruct (pulseTimers s); cbn; auto.
  - destruct on; cbn; auto.
Qed.

Lemma run_ui_cons e es su : run_ui (e :: es) su = run_ui es (ui_step e su).
Proof. reflexivity. Qed.

Lemma run_ui_reachable es su : ui_reachable su -> ui_reachable (run_ui es su).
Proof.
  revert su. induction es as [|e es IH]; intros su R; [exact R|].
  rewrite run_ui_cons. apply IH. now constructor.
Qed.

(** C37: on every page state the controller reaches, the webcam preview
    and the gesture overlay are shown ([display = 'block']) exactly while
    the controller runs, and hidden ([display = 'none']) otherwise:
    [createUI] hides both, [start] shows both only on the path that sets
    [isRunning], and [stop] hides both when it clears it. *)
Theorem ui_shown_iff_running su : ui_reachable su -> shown_iff_running su.
Proof.
  induction 1 as [|e su _ IH]; [split; reflexivity|]. now apply ui_step_shown.
Qed.

Lemma ui_shown_iff_running_witness :
  ui_reachable (run_ui [EvInit true; EvStartBegin; EvStartEnd true] (construct, createUI)) /\
  shown_iff_running (run_ui [EvInit true; EvStartBegin; EvStartEnd true] (construct, createUI)).
Proof.
  assert (Hreach : ui_reachable (run_ui [EvInit true; EvStartBegin; EvStartEnd true] (construct, createUI)))
    by (apply run_ui_reachable; constructor).
  split; [exact Hreach | exact (ui_shown_iff_running _ Hreach)].
Defined.

(** [stop] hides the preview but writes no status: after a successful
    [start] and a [stop] the status line still reads
    ['Active - Show hand gestures'] in green while the controller is
    stopped and both containers are hidden. *)
Theorem stop_leaves_active_status :
  let su := run_ui [EvInit true; EvStartBegin; EvStartEnd true; EvStop] (construct, createUI) in
  isRunning (loop (fst su)) = false /\ previewDisplay (snd su) = "none" /\
  statusText (snd su) = "Active - Show hand gestures" /\ statusColor (snd su) = "#00ff00".
Proof. vm_compute. repeat split. Qed.

Lemma bump_not_nil g cs : bump g cs <> [].
Proof. destruct cs as [|[k n] r]; cbn; [discriminate|]. destruct (gesture_eqb k g); discriminate. Qed.

Lemma gestureCounts_nil h : gestureCounts h = [] -> h = [].
Proof.
  unfold gestureCounts.
  assert (G : forall cs, fold_left (fun cs g => bump g cs) h cs = [] -> h = [] /\ cs = []).
  { induction h as [|g h IH]; cbn; intros cs H; [auto|].
    destruct (IH _ H) as [_ E]. destruct (bump_not_nil _ _ E). }
  intros H. exact (proj1 (G [] H)).
Qed.

Lemma push_history_not_nil size g h : 0 < size -> push_history size g h <> [].
Proof.
  unfold push_history. intros Hs.
  assert (N : forall l : list gesture, (l ++ [g])%list <> []) by (intros l C; apply app_eq_nil in C as [_ C]; discriminate).
  destruct (Nat.ltb _ _) eqn:E; [|apply N].
  apply Nat.ltb_lt in E. destruct h as [|x h]; cbn in *; [lia | apply N].
Qed.

(** With a history of positive size, [updateGesture] never reaches the
    [reduce] of an empty array. *)
Lemma updateGesture_not_None now g s : 0 < gestureHistorySize s -> updateGesture now g s <> None.
Proof.
  intros Hs. unfold updateGesture.
  destruct (gestureCounts _) as [|c cs] eqn:C.
  - destruct (push_history_not_nil _ g (gestureHistory s) Hs (gestureCounts_nil _ C)).
  - cbn [mostCommon]. cbn [obind]. destruct (_ && _); discriminate.
Qed.

Lemma stop_loop s : isRunning (loop s) = true ->
  isRunning (loop (stop s)) = false /\ inFlight (loop (stop s)) = inFlight (loop s) /\
  gestureHistorySize (stop s) = gestureHistorySize s.
Proof. unfold stop. intros ->. cbn. auto. Qed.

(** C39: a detection that was pending when [stop] ran still resolves: it
    draws the hand on the hidden canvas and writes the gesture to the
    status line of the stopped controller, whose preview and overlay are
    hidden. *)
Theorem pending_detection_writes_stopped_status (s : gc) (u : gui) (now : Z) (hand : list landmark) (g : gesture) :
  isRunning (loop s) = true -> inFlight (loop s) = 1 -> 0 < gestureHistorySize s ->
  snd (drawHandLandmarks hand) = true -> recognizeGesture hand = Some g ->
  let su := run_ui [EvStop; EvEstimate now (Hands [hand])] (s, u) in
  isRunning (loop (fst su)) = false /\ previewDisplay (snd su) = "none" /\
  canvas (snd su) = fst (drawHandLandmarks hand) /\ statusText (snd su) = ("Gesture: " ++ gesture_name g).
Proof.
  intros Hr Hi Hz Hd Hg. cbn [run_ui fold_left ui_step fst snd gui_step gc_step].
  destruct (stop_loop s Hr) as (Sr & Si & Sz). rewrite Hr. cbn [negb].
  rewrite Si, Hi. cbn [detect_ui]. unfold detectResolve. rewrite Si, Hi.
  destruct (drawHandLandmarks hand) as [ops ok]. cbn in Hd. subst ok. cbn [negb]. rewrite Hg.
  cbn [negb snd fst]. rewrite caught_update_loop. cbn [loop set_loop isRunning with_inFlight]. rewrite Sr.
  destruct (updateGesture now g _) eqn:U; [cbn; auto|].
  exfalso. revert U. apply updateGesture_not_None. cbn. rewrite Sz. exact Hz.
Qed.

Lemma pending_detection_writes_stopped_status_witness :
  let s := run_events [EvInit true; EvStartBegin; EvStartEnd true; EvTick] construct in
  isRunning (loop s) = true /\ inFlight (loop s) = 1 /\ 0 < gestureHistorySize s /\
  snd (drawHandLandmarks fist_hand) = true /\ recognizeGesture fist_hand = Some Fist /\
  statusText (snd (run_ui [EvStop; EvEstimate 100%Z (Hands [fist_hand])] (s, createUI))) = "Gesture: fist".
Proof.
  intros s. assert (H : isRunning (loop s) = true /\ inFlight (loop s) = 1 /\ 0 < gestureHistorySize s /\
    snd (drawHandLandmarks fist_hand) = true /\ recognizeGesture fist_hand = Some Fist)
    by (vm_compute; repeat split; lia).
  destruct H as (H1 & H2 & H3 & H4 & H5). refine (conj H1 (conj H2 (conj H3 (conj H4 (conj H5 _))))).
  exact (proj2 (proj2 (proj2 (pending_detection_writes_stopped_status s createUI 100%Z fist_hand Fist H1 H2 H3 H4 H5)))).
Defined.

End GestureUI.
