(* ===== verification/Particles.v ===== *)
(** * The particle field of [Visualizer] (src/README.md)

    [createParticleSystem] (lines 603-662) fills three JavaScript arrays
    ([particlePositions], [particleVelocities], [particleColors], one
    entry per particle) and two typed arrays of the geometry (the flat
    position buffer, three floats per particle, and [sizes]).  Every
    visual mode is a loop [for (let i = 0; i < this.particleCount; i++)]
    whose body reads particle [i], computes its new position, velocity,
    colour and size, and writes them back, including the three buffer
    entries [3i], [3i+1], [3i+2].

    [field] is that state; [write_particle] is the write-back of one body,
    [particle_step] one iteration and [particle_loop] the loop.  A mode is
    a [kernel]: the body's computation from the index and the particle's
    position and velocity.  This file holds the generic
    [updateParticles] (lines 735-819) and [updateParticleColors]
    (824-856); the five modes are in [Modes].  Colours are kept as the
    [(h, s, l)] arguments of [color.setHSL]: the conversion to RGB is
    three.js's.  Typed-array rounding to 32-bit floats is not modelled.

    The invariant [field_ok n]: all per-particle arrays have [n] entries
    and the buffer is the flattening of the positions.  Every loop built
    from [particle_step] preserves it. *)

From Stdlib Require Import QArith Qround Lqa ZArith List Lia Bool.
From S2P Require Import Prelude JsMath FeatureExtractor.
Import ListNotations.

Local Open Scope js_scope.

(** ** Data *)

(** [THREE.Vector3]. *)
Record vec3 : Type := mkv { vx : jsnum; vy : jsnum; vz : jsnum }.

(** The arguments of [color.setHSL(h, s, l)]. *)
Record hsl : Type := mkhsl { hue : jsnum; sat : jsnum; light : jsnum }.

Definition vzero : vec3 := mkv (num 0) (num 0) (num 0).

(** [v.add(w)] written component-wise as the code does ([pos.x += vel.x]). *)
Definition vadd (v w : vec3) : vec3 := mkv (vx v +! vx w) (vy v +! vy w) (vz v +! vz w).

(** [vel.multiplyScalar(k)]. *)
Definition vscale (v : vec3) (k : jsnum) : vec3 := mkv (vx v *! k) (vy v *! k) (vz v *! k).

(** One entry of [this.colorPalettes] (lines 526-530). *)
Record palette : Type := { hueBase : Q; hueRange : Q; saturation : Q }.

Definition cyberpunk : palette := {| hueBase := 0.5; hueRange := 0.3; saturation := 1.0 |}.
Definition sunset : palette := {| hueBase := 0.05; hueRange := 0.15; saturation := 0.9 |}.
Definition ocean : palette := {| hueBase := 0.55; hueRange := 0.15; saturation := 0.8 |}.

(** [this.colorPalettes[paletteNames[this.currentPalette]]]: [undefined]
    outside [0..2], and the next read of [palette.hueBase] throws. *)
Definition palette_at (k : nat) : option palette := nth_error [cyberpunk; sunset; ocean] k.

(** The state the particle loops read and write. *)
Record field : Type := {
  positions : list vec3;     (* this.particlePositions *)
  velocities : list vec3;    (* this.particleVelocities *)
  colors : list hsl;         (* this.particleColors *)
  posBuffer : list jsnum;    (* geometry position array, 3 per particle *)
  sizes : list jsnum;        (* geometry size array *)
  rng : nat                  (* cursor of Math.random *)
}.

(** What a loop body reads from [this] and from its arguments. *)
Record frame : Type := {
  fr_data : list Z;          (* frequencyData *)
  fr_average : jsnum;        (* average *)
  fr_beat : bool;            (* beat *)
  fr_beatIntensity : jsnum;  (* beatIntensity *)
  fr_count : nat;            (* this.particleCount *)
  fr_bass : jsnum;           (* this.bassIntensity *)
  fr_mid : jsnum;            (* this.midIntensity *)
  fr_pulseEffect : bool;     (* this.pulseEffect *)
  fr_pulseIntensity : jsnum; (* this.pulseIntensity *)
  fr_time : jsnum;           (* this.time *)
  fr_spiralAngle : jsnum;    (* this.spiralAngle *)
  fr_spiralTightness : jsnum;(* this.spiralTightness *)
  fr_palette : palette
}.

(** ** Reading the spectrum *)

(** [frequencyData[idx]] on a [Uint8Array]: [undefined] (NaN once divided)
    unless [idx] is an integer index inside the array. *)
Definition read_u8 (data : list Z) (idx : jsnum) : jsnum :=
  match jindex idx with
  | Some n => match nth_error data n with Some v => jofZ v | None => JNaN end
  | None => JNaN
  end.

(** [Math.floor((i / this.particleCount) * frequencyData.length)]. *)
Definition freqIndex (count len i : nat) : jsnum :=
  jfloor (jofnat i /! jofnat count *! jofnat len).

(** [frequencyData[freqIndex] / 255]. *)
Definition freqValue (fr : frame) (i : nat) : jsnum :=
  read_u8 (fr_data fr) (freqIndex (fr_count fr) (length (fr_data fr)) i) /! num 255.

(** ** One loop iteration *)

(** What a body computes for one particle. *)
Record pupdate : Type := mku {
  u_pos : vec3; u_vel : vec3; u_color : hsl; u_size : jsnum; u_rng : nat
}.

(** A body: from the [Math.random] cursor, the index and the particle's
    position and velocity. *)
Definition kernel : Type := nat -> nat -> vec3 -> vec3 -> pupdate.

(** [positions[j] = v.x; positions[j + 1] = v.y; positions[j + 2] = v.z]. *)
Definition write3 (j : nat) (v : vec3) (buf : list jsnum) : list jsnum :=
  set_nth (j + 2) (vz v) (set_nth (j + 1) (vy v) (set_nth j (vx v) buf)).

(** The writes of one body at index [i]. *)
Definition write_particle (i : nat) (u : pupdate) (f : field) : field :=
  {| positions := set_nth i (u_pos u) (positions f);
     velocities := set_nth i (u_vel u) (velocities f);
     colors := set_nth i (u_color u) (colors f);
     posBuffer := write3 (3 * i) (u_pos u) (posBuffer f);
     sizes := set_nth i (u_size u) (sizes f);
     rng := u_rng u |}.

(** [const pos = this.particlePositions[i]; const vel = ...; body].  Past
    the end of the arrays [pos.x] would throw; [field_ok] rules it out. *)
Definition particle_step (k : kernel) (i : nat) (f : field) : field :=
  match nth_error (positions f) i, nth_error (velocities f) i with
  | Some p, Some v => write_particle i (k (rng f) i p v) f
  | _, _ => f
  end.

Definition particle_loop (k : kernel) (n : nat) (f : field) : field :=
  for_range 0 n (particle_step k) f.

(** The colour of the generic and frozen loops (lines 801-803, 840-842). *)
Definition audio_color (fr : frame) (fv : jsnum) : hsl :=
  let p := fr_palette fr in
  mkhsl (num (hueBase p) +! fv *! num (hueRange p) -! fr_average fr *! num 0.2)
        (num (saturation p) +! fv *! num 0.1)
        (num 0.4 +! fv *! num 0.4).

(** [this.pulseEffect ? this.pulseIntensity * 2 : 0]. *)
Definition pulseSize (fr : frame) : jsnum :=
  if fr_pulseEffect fr then fr_pulseIntensity fr *! num 2 else num 0.

Section Generic.

Context `{M : JsMath}.

(** The body of [updateParticles] (lines 745-812). *)
Definition updateParticles_kernel (fr : frame) : kernel :=
  fun r i pos vel =>
    let fv := freqValue fr i in
    let distance := m_sqrt (vx pos *! vx pos +! vy pos *! vy pos +! vz pos *! vz pos) in
    let force := fv *! num 5 in
    let dX := vx pos /! distance in
    let dY := vy pos /! distance in
    let dZ := vz pos /! distance in
    let vel1 := mkv (vx vel +! dX *! force *! num 0.1) (vy vel +! dY *! force *! num 0.1)
                    (vz vel +! dZ *! force *! num 0.1) in
    let vel2 :=
      if fr_beat fr || fr_pulseEffect fr then
        let pulseStrength := if fr_pulseEffect fr then fr_pulseIntensity fr else fr_beatIntensity fr in
        mkv (vx vel1 +! dX *! pulseStrength *! num 0.5) (vy vel1 +! dY *! pulseStrength *! num 0.5)
            (vz vel1 +! dZ *! pulseStrength *! num 0.5)
      else vel1 in
    let pos1 := vadd pos vel2 in
    let vel3 := vscale vel2 (num 0.95) in
    let targetDistance := num 100 +! fr_bass fr *! num 50 in
    let restoreForce := (targetDistance -! distance) *! num 0.01 in
    let pos2 := mkv (vx pos1 +! dX *! restoreForce) (vy pos1 +! dY *! restoreForce)
                    (vz pos1 +! dZ *! restoreForce) in
    mku pos2 vel3 (audio_color fr fv)
        (num 1 +! fv *! num 3 +! (if fr_beat fr then fr_beatIntensity fr else num 0) +! pulseSize fr) r.

(** [updateParticles(frequencyData, average, beat, beatIntensity)]. *)
Definition updateParticles (fr : frame) (f : field) : field :=
  particle_loop (updateParticles_kernel fr) (fr_count fr) f.

End Generic.

(** The body of [updateParticleColors] (lines 832-851): colour and size
    only; the loop writes no position. *)
Definition color_step (fr : frame) (i : nat) (f : field) : field :=
  let fv := freqValue fr i in
  {| positions := positions f; velocities := velocities f;
     colors := set_nth i (audio_color fr fv) (colors f);
     posBuffer := posBuffer f;
     sizes := set_nth i (num 1 +! fv *! num 3 +! pulseSize fr) (sizes f);
     rng := rng f |}.

(** [updateParticleColors(frequencyData, average)], run when frozen. *)
Definition updateParticleColors (fr : frame) (f : field) : field :=
  for_range 0 (fr_count fr) (color_step fr) f.

(** ** Creation *)

Section Create.

Context `{M : JsMath} (rnd : tape).

(** One iteration of the loop of [createParticleSystem] (lines 612-639):
    five draws of [Math.random()], in the order of the code. *)
Definition create_step (i : nat) (f : field) : field :=
  let r := rng f in
  let radius := random_at rnd r *! num 100 +! num 50 in
  let theta := random_at rnd (r + 1) *! num m_PI *! num 2 in
  let phi := m_acos (random_at rnd (r + 2) *! num 2 -! num 1) in
  let x := radius *! m_sin phi *! m_cos theta in
  let y := radius *! m_sin phi *! m_sin theta in
  let z := radius *! m_cos phi in
  let p := mkv x y z in
  {| positions := positions f ++ [p];
     velocities := velocities f ++ [vzero];
     colors := colors f ++ [mkhsl (num 0.5 +! random_at rnd (r + 3) *! num 0.3) (num 1.0) (num 0.5)];
     posBuffer := write3 (3 * i) p (posBuffer f);
     sizes := set_nth i (random_at rnd (r + 4) *! num 2 +! num 1) (sizes f);
     rng := r + 5 |}.

(** [createParticleSystem()] for [particleCount = n], the cursor of
    [Math.random] at [r0]: the typed arrays start zero-filled. *)
Definition createParticleSystem (n r0 : nat) : field :=
  for_range 0 n create_step
    {| positions := []; velocities := []; colors := [];
       posBuffer := repeat (num 0) (3 * n); sizes := repeat (num 0) n; rng := r0 |}.

End Create.

(** ** The invariant *)

(** The floats of the position buffer, particle after particle. *)
Definition flatten (l : list vec3) : list jsnum := flat_map (fun v => [vx v; vy v; vz v]) l.

Definition field_ok (n : nat) (f : field) : Prop :=
  length (positions f) = n /\ length (velocities f) = n /\ length (colors f) = n /\
  length (sizes f) = n /\ posBuffer f = flatten (positions f).

(** A kernel that draws no random number. *)
Definition pure_kernel (k : kernel) : Prop := forall r i p v, u_rng (k r i p v) = r.

(** The position of a particle that has become NaN. *)
Definition nan3 : vec3 := mkv JNaN JNaN JNaN.

(** ** The buffer and the invariant *)

Local Open Scope nat_scope.

(** The state after [i] iterations of the creation loop. *)
Definition created (n r0 i : nat) (f : field) : Prop :=
  length (positions f) = i /\ length (velocities f) = i /\ length (colors f) = i /\
  length (sizes f) = n /\ posBuffer f = flatten (positions f) ++ repeat (num 0) (3 * (n - i)) /\
  rng f = r0 + 5 * i.

(** [n] entries in each per-particle array and [3n] floats in the
    buffer; unlike [field_ok], this survives [applyRadialSymmetry], which
    writes buffer entries of other particles. *)
Definition field_shape (n : nat) (f : field) : Prop :=
  length (positions f) = n /\ length (velocities f) = n /\ length (colors f) = n /\
  length (sizes f) = n /\ length (posBuffer f) = 3 * n.

(** The slots of particle [j] other than [i], and the buffer outside
    [[3i, 3i+2]]. *)
Definition same_outside (i : nat) (f g : field) : Prop :=
  (forall j, j <> i ->
     nth_error (positions g) j = nth_error (positions f) j /\
     nth_error (velocities g) j = nth_error (velocities f) j /\
     nth_error (colors g) j = nth_error (colors f) j /\
     nth_error (sizes g) j = nth_error (sizes f) j) /\
  (forall k, k < 3 * i \/ 3 * i + 2 < k -> nth_error (posBuffer g) k = nth_error (posBuffer f) k).

(** The three coordinates are finite numbers. *)
Definition vfinite (v : vec3) : bool := jfinite (vx v) && jfinite (vy v) && jfinite (vz v).

Definition field_finite (f : field) : Prop :=
  Forall (fun v => vfinite v = true) (positions f) /\ Forall (fun v => vfinite v = true) (velocities f).

(** Two particles, the first at the origin, and a loud frame. *)
Definition demo_field : field :=
  let ps := [vzero; mkv (num 100) (num 0) (num 0)] in
  {| positions := ps; velocities := [vzero; vzero];
     colors := repeat (mkhsl (num 0.5) (num 1) (num 0.5)) 2;
     posBuffer := flatten ps; sizes := [num 1; num 1]; rng := 0 |}.

Definition demo_frame : frame :=
  {| fr_data := repeat 200%Z 8; fr_average := num 0.6; fr_beat := true;
     fr_beatIntensity := num 0.5; fr_count := 2; fr_bass := num 1; fr_mid := num 0;
     fr_pulseEffect := false; fr_pulseIntensity := num 0; fr_time := num 0;
     fr_spiralAngle := num 0; fr_spiralTightness := num 0.1; fr_palette := cyberpunk |}.

Lemma length_flatten (l : list vec3) : length (flatten l) = 3 * length l.
Proof.
  unfold flatten. induction l as [|v t IH]; [reflexivity|].
  cbn [flat_map app length]. rewrite IH. cbn [length]. lia.
Qed.

(** Writing the three floats of particle [i] into the flattened buffer is
    flattening the list with particle [i] replaced. *)
Lemma write3_flatten (i : nat) (v : vec3) (l : list vec3) :
  write3 (3 * i) v (flatten l) = flatten (set_nth i v l).
Proof.
  unfold write3. revert i. induction l as [|w t IH]; intros i; [destruct i; reflexivity|].
  destruct i as [|i]; [reflexivity|].
  replace (3 * Datatypes.S i) with (Datatypes.S (Datatypes.S (Datatypes.S (3 * i)))) by lia.
  cbn [flatten flat_map app set_nth Nat.add].
  specialize (IH i). unfold flatten in IH. rewrite IH. reflexivity.
Qed.

Lemma write_particle_ok (n i : nat) (u : pupdate) (f : field) :
  field_ok n f -> field_ok n (write_particle i u f).
Proof.
  intros (Hp & Hv & Hc & Hs & Hb). unfold field_ok, write_particle; cbn [positions velocities colors sizes posBuffer].
  rewrite !length_set_nth, Hb, write3_flatten. auto.
Qed.

Lemma particle_step_ok (k : kernel) (n i : nat) (f : field) :
  field_ok n f -> field_ok n (particle_step k i f).
Proof.
  intros H. unfold particle_step.
  destruct (nth_error (positions f) i), (nth_error (velocities f) i); auto using write_particle_ok.
Qed.

(** Every particle loop keeps the arrays' lengths and the buffer in
    step with the positions. *)
Lemma particle_loop_ok (k : kernel) (n m : nat) (f : field) :
  field_ok n f -> field_ok n (particle_loop k m f).
Proof.
  intros H. unfold particle_loop. apply for_range_invariant; [|exact H].
  intros i s _. apply particle_step_ok.
Qed.

Lemma color_step_ok (fr : frame) (n i : nat) (f : field) :
  field_ok n f -> field_ok n (color_step fr i f).
Proof.
  intros (Hp & Hv & Hc & Hs & Hb). unfold field_ok, color_step; cbn [positions velocities colors sizes posBuffer].
  rewrite !length_set_nth. auto.
Qed.

(** The frozen loop writes neither a position, a velocity, the buffer nor
    the random cursor. *)
Lemma updateParticleColors_still (fr : frame) (f : field) :
  let g := updateParticleColors fr f in
  positions g = positions f /\ velocities g = velocities f /\ posBuffer g = posBuffer f /\ rng g = rng f.
Proof.
  cbv zeta. unfold updateParticleColors.
  apply (for_range_invariant (fun g => positions g = positions f /\ velocities g = velocities f /\
                                       posBuffer g = posBuffer f /\ rng g = rng f)); [|auto].
  intros i s _ H. exact H.
Qed.

Lemma updateParticleColors_ok (fr : frame) (n : nat) (f : field) :
  field_ok n f -> field_ok n (updateParticleColors fr f).
Proof.
  intros H. unfold updateParticleColors. apply for_range_invariant; [|exact H].
  intros i s _. apply color_step_ok.
Qed.

(** Writing three floats right after a prefix [l]. *)
Lemma write3_app (l : list jsnum) (v : vec3) (a b c : jsnum) (r : list jsnum) :
  write3 (length l) v (l ++ a :: b :: c :: r) = l ++ vx v :: vy v :: vz v :: r.
Proof.
  unfold write3. induction l as [|x t IH]; [reflexivity|].
  cbn [length app Nat.add set_nth]. rewrite IH. reflexivity.
Qed.

Lemma flatten_app (l1 l2 : list vec3) : flatten (l1 ++ l2) = flatten l1 ++ flatten l2.
Proof. apply flat_map_app. Qed.

Lemma create_step_created {M : JsMath} (rnd : tape) (n r0 i : nat) (f : field) :
  i < n -> created n r0 i f -> created n r0 (Datatypes.S i) (create_step rnd i f).
Proof.
  intros Hi (Lp & Lv & Lc & Ls & Hb & Hr). unfold created, create_step.
  cbn [positions velocities colors sizes posBuffer rng].
  rewrite !length_app, length_set_nth, Lp, Lv, Lc, Ls, Hb, Hr. cbn [length].
  replace (3 * (n - i)) with (Datatypes.S (Datatypes.S (Datatypes.S (3 * (n - Datatypes.S i))))) by lia.
  cbn [repeat]. replace (3 * i) with (length (flatten (positions f))) by (rewrite length_flatten; lia).
  rewrite write3_app, flatten_app, <- app_assoc.
  repeat split; lia.
Qed.

(** Creation yields [n] particles, a buffer in step with them, and moves
    the cursor of [Math.random] by five draws per particle. *)
Lemma createParticleSystem_ok {M : JsMath} (rnd : tape) (n r0 : nat) :
  field_ok n (createParticleSystem rnd n r0) /\ rng (createParticleSystem rnd n r0) = r0 + 5 * n.
Proof.
  assert (H : forall i, i <= n -> created n r0 i (for_range 0 i (create_step rnd)
    {| positions := []; velocities := []; colors := [];
       posBuffer := repeat (num 0) (3 * n); sizes := repeat (num 0) n; rng := r0 |})).
  { induction i as [|i IH]; intros Hi.
    - unfold created; cbn. rewrite repeat_length, Nat.sub_0_r. repeat split; lia.
    - rewrite for_range_S. apply create_step_created; [lia | apply IH; lia]. }
  destruct (H n (le_n n)) as (Lp & Lv & Lc & Ls & Hb & Hr).
  rewrite Nat.sub_diag, app_nil_r in Hb. unfold createParticleSystem. repeat split; auto.
Qed.

(** ** The bin a particle reads *)

Local Open Scope Q_scope.

(** A non-negative integer is an array index. *)
Lemma Z_of_nat_Q_pos (n : nat) : (0 < n)%nat -> 0 < inject_Z (Z.of_nat n).
Proof. intros H. change 0%Q with (inject_Z 0). rewrite <- Zlt_Qlt. lia. Qed.

(** [(i / N) * len] is below [len] for [i < N]. *)
Lemma bin_position_lt (i N L : nat) :
  (i < N)%nat -> (0 < L)%nat ->
  0 <= inject_Z (Z.of_nat i) / inject_Z (Z.of_nat N) * inject_Z (Z.of_nat L) < inject_Z (Z.of_nat L).
Proof.
  intros Hi HL.
  assert (HN : 0 < inject_Z (Z.of_nat N)) by (apply Z_of_nat_Q_pos; lia).
  assert (Hi' : inject_Z (Z.of_nat i) < inject_Z (Z.of_nat N)) by (rewrite <- Zlt_Qlt; lia).
  assert (Hi0 : 0 <= inject_Z (Z.of_nat i)) by (change 0%Q with (inject_Z 0); rewrite <- Zle_Qle; lia).
  assert (HL' : 0 < inject_Z (Z.of_nat L)) by (apply Z_of_nat_Q_pos; exact HL).
  assert (Hd : 0 <= inject_Z (Z.of_nat i) / inject_Z (Z.of_nat N) < 1).
  { split; [apply Qle_shift_div_l; lra | apply Qlt_shift_div_r; lra]. }
  split; nra.
Qed.

(** Slot [i] of [N] reads bin [floor(i / N * len)], which is inside a
    non-empty spectrum: the value read is a byte divided by 255. *)
Lemma bin_value_range (data : list Z) (N i : nat) :
  bytes_ok data -> (i < N)%nat -> (0 < length data)%nat ->
  exists q, read_u8 data (freqIndex N (length data) i) /! num 255 = num q /\ 0 <= q <= 1.
Proof.
  intros Hb Hi HL. unfold freqIndex, jofnat, jofZ.
  destruct (bin_position_lt i N (length data) Hi HL) as [H0 H1].
  rewrite jdiv_num, jmul_num, jfloor_num
    by (pose proof (Z_of_nat_Q_pos N ltac:(lia)); intros E; lra).
  set (x := inject_Z (Z.of_nat i) / inject_Z (Z.of_nat N) * inject_Z (Z.of_nat (length data))) in *.
  assert (Hz0 : (0 <= Qfloor x)%Z) by (apply floor_ge_Z; exact H0).
  assert (Hz1 : (Qfloor x < Z.of_nat (length data))%Z)
    by (rewrite Zlt_Qlt; pose proof (Qfloor_le x); lra).
  unfold read_u8. rewrite jindex_Z by exact Hz0.
  destruct (nth_error data (Z.to_nat (Qfloor x))) as [v|] eqn:Ev;
    [|apply nth_error_None in Ev; lia].
  apply nth_error_In in Ev. unfold bytes_ok in Hb. rewrite Forall_forall in Hb.
  destruct (Hb v Ev) as [Hv0 Hv1]. unfold jofZ. rewrite jdiv_num by (intros E; discriminate E).
  exists (inject_Z v / 255). split; [reflexivity|].
  assert (Hq : 0 <= inject_Z v <= 255) by (split; [change 0%Q with (inject_Z 0) | change 255%Q with (inject_Z 255)]; rewrite <- Zle_Qle; lia).
  split; [apply Qle_shift_div_l | apply Qle_shift_div_r]; lra.
Qed.

Lemma freqValue_range (fr : frame) (i : nat) :
  bytes_ok (fr_data fr) -> (i < fr_count fr)%nat -> (0 < length (fr_data fr))%nat ->
  exists q, freqValue fr i = num q /\ 0 <= q <= 1.
Proof. apply bin_value_range. Qed.

Local Open Scope nat_scope.

(** ** What a loop computes, particle by particle *)

(** After the first [n] iterations of a loop with a kernel that draws no
    random number, particle [j < n] holds the kernel's result on its
    original position and velocity, and particle [j >= n] is untouched. *)
Lemma particle_loop_nth (k : kernel) (N n : nat) (f : field) :
  field_ok N f -> pure_kernel k -> n <= N ->
  rng (particle_loop k n f) = rng f /\
  forall j p v, nth_error (positions f) j = Some p -> nth_error (velocities f) j = Some v ->
    (j < n -> nth_error (positions (particle_loop k n f)) j = Some (u_pos (k (rng f) j p v)) /\
              nth_error (velocities (particle_loop k n f)) j = Some (u_vel (k (rng f) j p v))) /\
    (n <= j -> nth_error (positions (particle_loop k n f)) j = Some p /\
               nth_error (velocities (particle_loop k n f)) j = Some v).
Proof.
  intros Hok Hk. induction n as [|n IH]; intros Hn.
  - split; [reflexivity|]. intros j p v Hp Hv. split; [lia | auto].
  - destruct IH as [Hr IH]; [lia|].
    destruct (particle_loop_ok k N n f Hok) as (Lp' & Lv' & _).
    destruct Hok as (Lp & Lv & _).
    destruct (nth_error (positions f) n) as [pn|] eqn:Epn; [|apply nth_error_None in Epn; lia].
    destruct (nth_error (velocities f) n) as [vn|] eqn:Evn; [|apply nth_error_None in Evn; lia].
    destruct (IH n pn vn Epn Evn) as [_ [Hpn Hvn]]; [lia|].
    assert (Es : particle_loop k (Datatypes.S n) f = particle_step k n (particle_loop k n f))
      by (unfold particle_loop; rewrite for_range_S; reflexivity).
    assert (Ew : particle_step k n (particle_loop k n f) =
                 write_particle n (k (rng (particle_loop k n f)) n pn vn) (particle_loop k n f))
      by (unfold particle_step; rewrite Hpn, Hvn; reflexivity).
    rewrite Es, Ew. cbn [write_particle positions velocities rng].
    split; [rewrite Hk; exact Hr|]. intros j p v Hp Hv.
    rewrite !nth_error_set_nth, Lp', Lv', Hr.
    destruct (n =? j) eqn:E; natb.
    + subst j. rewrite Epn in Hp. rewrite Evn in Hv. injection Hp as <-. injection Hv as <-.
      replace (n <? N) with true by (symmetry; apply Nat.ltb_lt; lia). split; [auto | lia].
    + destruct (IH j p v Hp Hv) as [H1 H2]. split; intros Hj; [apply H1 | apply H2]; lia.
Qed.

(** The whole loop over a field of [n] particles. *)
Lemma particle_loop_all (k : kernel) (n j : nat) (f : field) (p v : vec3) :
  field_ok n f -> pure_kernel k -> j < n ->
  nth_error (positions f) j = Some p -> nth_error (velocities f) j = Some v ->
  nth_error (positions (particle_loop k n f)) j = Some (u_pos (k (rng f) j p v)) /\
  nth_error (velocities (particle_loop k n f)) j = Some (u_vel (k (rng f) j p v)).
Proof.
  intros Hok Hk Hj Hp Hv.
  destruct (particle_loop_nth k n n f Hok Hk (le_n n)) as [_ H].
  apply (proj1 (H j p v Hp Hv)). exact Hj.
Qed.

(** ** The shape of the arrays *)

Lemma field_ok_shape (n : nat) (f : field) : field_ok n f -> field_shape n f.
Proof.
  intros (Hp & Hv & Hc & Hs & Hb). repeat split; auto. rewrite Hb, length_flatten, Hp. reflexivity.
Qed.

Lemma length_write3 (j : nat) (v : vec3) (buf : list jsnum) : length (write3 j v buf) = length buf.
Proof. unfold write3. rewrite !length_set_nth. reflexivity. Qed.

Lemma particle_step_shape (k : kernel) (n i : nat) (f : field) :
  field_shape n f -> field_shape n (particle_step k i f).
Proof.
  intros H. unfold particle_step.
  destruct (nth_error (positions f) i), (nth_error (velocities f) i); try exact H.
  destruct H as (Hp & Hv & Hc & Hs & Hb). unfold field_shape, write_particle; cbn [positions velocities colors sizes posBuffer].
  rewrite !length_set_nth, length_write3. auto.
Qed.

Lemma particle_loop_shape (k : kernel) (n m : nat) (f : field) :
  field_shape n f -> field_shape n (particle_loop k m f).
Proof.
  intros H. unfold particle_loop. apply for_range_invariant; [|exact H].
  intros i s _. apply particle_step_shape.
Qed.

Lemma updateParticleColors_shape (fr : frame) (n : nat) (f : field) :
  field_shape n f -> field_shape n (updateParticleColors fr f).
Proof.
  intros H. unfold updateParticleColors. apply for_range_invariant; [|exact H].
  intros i s _ (Hp & Hv & Hc & Hs & Hb). unfold field_shape, color_step; cbn [positions velocities colors sizes posBuffer].
  rewrite !length_set_nth. auto.
Qed.

(** ** What one iteration leaves alone *)

Lemma nth_error_write3_other (j k : nat) (v : vec3) (buf : list jsnum) :
  k < j \/ j + 2 < k -> nth_error (write3 j v buf) k = nth_error buf k.
Proof.
  intros Hk. unfold write3. rewrite !nth_error_set_nth.
  destruct (j + 2 =? k) eqn:E1; destruct (j + 1 =? k) eqn:E2; destruct (j =? k) eqn:E3;
    natb; try lia; reflexivity.
Qed.

Lemma particle_step_outside (k : kernel) (i : nat) (f : field) :
  same_outside i f (particle_step k i f).
Proof.
  unfold particle_step.
  destruct (nth_error (positions f) i), (nth_error (velocities f) i);
    try (split; [intros; repeat split | intros; reflexivity]; fail).
  split.
  - intros j Hj. cbn [write_particle positions velocities colors sizes].
    rewrite !nth_error_set_nth. replace (i =? j) with false by (symmetry; apply Nat.eqb_neq; lia).
    repeat split.
  - intros m Hm. cbn [write_particle posBuffer]. apply nth_error_write3_other. lia.
Qed.

(** ** Finite particles *)

(** A body that maps finite inputs to finite outputs keeps the field
    finite. *)
Lemma particle_step_finite (k : kernel) (i : nat) (f : field) :
  (forall r p v, vfinite p = true -> vfinite v = true ->
     vfinite (u_pos (k r i p v)) = true /\ vfinite (u_vel (k r i p v)) = true) ->
  field_finite f -> field_finite (particle_step k i f).
Proof.
  intros Hk [Hp Hv]. unfold particle_step.
  destruct (nth_error (positions f) i) as [p|] eqn:Ep; [|split; assumption].
  destruct (nth_error (velocities f) i) as [v|] eqn:Ev; [|split; assumption].
  apply nth_error_In in Ep, Ev. rewrite Forall_forall in Hp, Hv.
  destruct (Hk (rng f) p v (Hp p Ep) (Hv v Ev)) as [H1 H2].
  split; cbn [write_particle positions velocities]; apply Forall_set_nth; try assumption;
    apply Forall_forall; assumption.
Qed.

Lemma particle_loop_finite (k : kernel) (n : nat) (f : field) :
  (forall r i p v, i < n -> vfinite p = true -> vfinite v = true ->
     vfinite (u_pos (k r i p v)) = true /\ vfinite (u_vel (k r i p v)) = true) ->
  field_finite f -> field_finite (particle_loop k n f).
Proof.
  intros Hk Hf. unfold particle_loop. apply for_range_invariant; [|exact Hf].
  intros i s Hi. apply particle_step_finite. intros r p v. apply Hk. lia.
Qed.

(** ** The generic loop has no distance guard *)

Section GenericFacts.

Context {M : JsMath} {ML : JsMathLaws M}.

(** At the origin, or once NaN, the three directions [pos / distance] are
    NaN: [Math.sqrt(0) = 0] and [0 / 0] is NaN, [Math.sqrt(NaN)] is NaN. *)
Lemma directions_nan (pos : vec3) :
  pos = vzero \/ pos = nan3 ->
  let distance := m_sqrt (vx pos *! vx pos +! vy pos *! vy pos +! vz pos *! vz pos) in
  vx pos /! distance = JNaN /\ vy pos /! distance = JNaN /\ vz pos /! distance = JNaN.
Proof.
  intros [-> | ->]; cbn zeta; cbn [vx vy vz vzero nan3].
  - rewrite !jmul_num, !jadd_num, (num_ext (0 * 0 + 0 * 0 + 0 * 0) 0) by reflexivity.
    rewrite sqrt_zero, jdiv_zero_zero. auto.
  - rewrite !jmul_nan_l, !jadd_nan_l, sqrt_nan, !jdiv_nan_l. auto.
Qed.

Lemma updateParticles_kernel_nan (fr : frame) (r i : nat) (pos vel : vec3) :
  pos = vzero \/ pos = nan3 ->
  u_pos (updateParticles_kernel fr r i pos vel) = nan3 /\
  u_vel (updateParticles_kernel fr r i pos vel) = nan3.
Proof.
  intros H. destruct (directions_nan pos H) as (Hx & Hy & Hz).
  unfold updateParticles_kernel. cbv zeta. rewrite Hx, Hy, Hz.
  destruct (fr_beat fr || fr_pulseEffect fr);
    cbn [u_pos u_vel vadd vscale vx vy vz]; autorewrite with js; split; reflexivity.
Qed.

Lemma updateParticles_kernel_pure (fr : frame) : pure_kernel (updateParticles_kernel fr).
Proof. intros r i p v. reflexivity. Qed.

(** One frame turns a particle at the origin, or already NaN, into NaN. *)
Lemma updateParticles_nan_step (fr : frame) (f : field) (j : nat) :
  field_ok (fr_count fr) f -> j < fr_count fr ->
  (nth_error (positions f) j = Some vzero \/ nth_error (positions f) j = Some nan3) ->
  nth_error (positions (updateParticles fr f)) j = Some nan3 /\
  nth_error (velocities (updateParticles fr f)) j = Some nan3.
Proof.
  intros Hok Hj Hp.
  destruct (nth_error (velocities f) j) as [v|] eqn:Hv;
    [|apply nth_error_None in Hv; destruct Hok as (_ & Lv & _); lia].
  assert (Hp' : exists p, nth_error (positions f) j = Some p /\ (p = vzero \/ p = nan3))
    by (destruct Hp as [Hp|Hp]; eexists; split; eauto).
  destruct Hp' as [p [Ep Hpv]].
  destruct (particle_loop_all _ _ j f p v Hok (updateParticles_kernel_pure fr) Hj Ep Hv) as [E1 E2].
  unfold updateParticles. rewrite E1, E2.
  destruct (updateParticles_kernel_nan fr (rng f) j p v Hpv) as [-> ->]. auto.
Qed.

Lemma updateParticles_ok (fr : frame) (n : nat) (f : field) :
  field_ok n f -> field_ok n (updateParticles fr f).
Proof. apply particle_loop_ok. Qed.

(** Frames of a run, applied in order. *)
Lemma updateParticles_nan_fold (frs : list frame) (N j : nat) (f : field) :
  field_ok N f -> j < N -> Forall (fun fr => fr_count fr = N) frs -> frs <> [] ->
  (nth_error (positions f) j = Some vzero \/ nth_error (positions f) j = Some nan3) ->
  let g := fold_left (fun g fr => updateParticles fr g) frs f in
  nth_error (positions g) j = Some nan3 /\ nth_error (velocities g) j = Some nan3.
Proof.
  intros Hok Hj. revert f Hok. induction frs as [|fr rest IH]; intros f Hok HF Hne Hp; [congruence|].
  apply Forall_cons_iff in HF as [Hc HF']. cbv zeta. cbn [fold_left].
  assert (Hok1 : field_ok (fr_count fr) f) by (rewrite Hc; exact Hok).
  destruct (updateParticles_nan_step fr f j Hok1 ltac:(lia) Hp) as [E1 E2].
  destruct rest as [|fr' rest']; [cbn [fold_left]; auto|].
  apply IH; [rewrite <- Hc; apply updateParticles_ok; exact Hok1 | exact HF' | discriminate | right; exact E1].
Qed.

End GenericFacts.

(** ** A particle at the origin is lost *)

(** C12: the generic loop [updateParticles], which also runs for the
    neural mode and for an unknown mode name, divides by the distance to
    the origin without the [Math.max(distance, 1)] guard of the other
    modes.  A particle exactly at the origin gets a NaN position and
    velocity on the first frame and keeps them on every later frame,
    whatever the audio: the spec's distance-guard property fails for this
    loop. *)
Theorem updateParticles_origin_nan_forever {M : JsMath} {ML : JsMathLaws M}
  (frs : list frame) (N j : nat) (f : field) :
  field_ok N f -> j < N -> Forall (fun fr => fr_count fr = N) frs -> frs <> [] ->
  nth_error (positions f) j = Some vzero ->
  let g := fold_left (fun g fr => updateParticles fr g) frs f in
  nth_error (positions g) j = Some nan3 /\ nth_error (velocities g) j = Some nan3.
Proof.
  intros Hok Hj HF Hne Hp. apply (updateParticles_nan_fold frs N j f); auto.
Qed.

Lemma updateParticles_origin_nan_forever_witness :
  field_ok 2 demo_field /\ (0 < 2)%nat /\ Forall (fun fr => fr_count fr = 2%nat) [demo_frame; demo_frame] /\
  [demo_frame; demo_frame] <> [] /\ nth_error (positions demo_field) 0 = Some vzero /\
  let g := fold_left (fun g fr => updateParticles fr g) [demo_frame; demo_frame] demo_field in
  nth_error (positions g) 0 = Some nan3 /\ nth_error (velocities g) 0 = Some nan3.
Proof.
  assert (Hok : field_ok 2 demo_field) by (repeat split).
  assert (HF : Forall (fun fr => fr_count fr = 2%nat) [demo_frame; demo_frame]) by (repeat constructor).
  split; [exact Hok|]. split; [lia|]. split; [exact HF|]. split; [discriminate|]. split; [reflexivity|].
  apply (updateParticles_origin_nan_forever [demo_frame; demo_frame] 2 0 demo_field Hok);
    [lia | exact HF | discriminate | reflexivity].
Defined.
