(* ===== verification/Modes.v ===== *)
(** * The five visual modes of [Visualizer] (src/README.md)

    [updateParticlesCosmic] (lines 1002-1065), [updateParticlesPulse]
    (1119-1181) and [updateParticlesChaos] (1186-1249) are particle loops
    in the sense of [Particles]: one [kernel] each, run by
    [particle_loop].  [updateParticlesNeural] (1070-1114) runs the generic
    [updateParticles] and then rebuilds the list of connections between
    the first 200 particles, stride 5.  [updateParticlesMinimal]
    (1254-1306) is a double loop over 64 bars and [floor(N/64)] particles
    per bar with a [break]; it moves the positions only, never the
    velocities.  [mode] is the [switch (this.visualMode)] of [update]
    (lines 696-714), an unknown name falling to the generic loop.

    Chaos draws three numbers of [Math.random] per particle on a beat;
    the others draw none. *)

From Stdlib Require Import QArith Qround Lqa ZArith List Lia Bool.
From S2P Require Import Prelude JsMath FeatureExtractor Particles.
Import ListNotations.

Local Open Scope js_scope.

(** The names accepted by [switch (this.visualMode)]. *)
Inductive mode : Type := Cosmic | Neural | Pulse | Chaos | Minimal | OtherMode.

Section Modes.

Context `{M : JsMath} (rnd : tape).

(** ** Cosmic *)

(** The body of [updateParticlesCosmic] (lines 1011-1059). *)
Definition cosmic_kernel (fr : frame) : kernel :=
  fun r i pos vel =>
    let fv := freqValue fr i in
    let distance := m_sqrt (vx pos *! vx pos +! vz pos *! vz pos) in
    let angle := m_atan2 (vz pos) (vx pos) +! fr_spiralAngle fr *! fr_spiralTightness fr in
    let targetRadius := num 100 +! fr_bass fr *! num 80 +! fv *! num 50 in
    let targetX := m_cos angle *! targetRadius in
    let targetZ := m_sin angle *! targetRadius in
    let vel1 := mkv (vx vel +! (targetX -! vx pos) *! num 0.01)
                    (vy vel +! (fv *! num 50 -! vy pos) *! num 0.01)
                    (vz vel +! (targetZ -! vz pos) *! num 0.01) in
    let vel2 :=
      if fr_beat fr || fr_pulseEffect fr then
        let pulseStrength := if fr_pulseEffect fr then fr_pulseIntensity fr else fr_beatIntensity fr in
        let dX := vx pos /! jmax distance (num 1) in
        let dZ := vz pos /! jmax distance (num 1) in
        mkv (vx vel1 +! dX *! pulseStrength *! num 0.5) (vy vel1)
            (vz vel1 +! dZ *! pulseStrength *! num 0.5)
      else vel1 in
    let pos1 := vadd pos vel2 in
    let vel3 := vscale vel2 (num 0.92) in
    let normalizedDist := jmin (distance /! num 200) (num 1) in
    let p := fr_palette fr in
    mku pos1 vel3
        (mkhsl (num (hueBase p) +! normalizedDist *! num (hueRange p)) (num (saturation p))
               (num 0.5 +! fv *! num 0.5))
        (num 1 +! fv *! num 4 +! (if fr_beat fr then fr_beatIntensity fr else num 0)) r.

Definition updateParticlesCosmic (fr : frame) (f : field) : field :=
  particle_loop (cosmic_kernel fr) (fr_count fr) f.

(** ** Pulse *)

(** The body of [updateParticlesPulse] (lines 1128-1175). *)
Definition pulse_kernel (fr : frame) : kernel :=
  fun r i pos vel =>
    let fv := freqValue fr i in
    let distance := m_sqrt (vx pos *! vx pos +! vy pos *! vy pos +! vz pos *! vz pos) in
    let dX := vx pos /! jmax distance (num 1) in
    let dY := vy pos /! jmax distance (num 1) in
    let dZ := vz pos /! jmax distance (num 1) in
    let pulsePhase :=
      m_sin (fr_time fr *! num 2 +! jofnat i /! jofnat (fr_count fr) *! num m_PI *! num 4) in
    let targetDistance :=
      num 80 +! pulsePhase *! num 40 +! fv *! num 60 +! fr_bass fr *! num 40 in
    let force := (targetDistance -! distance) *! num 0.05 in
    let vel1 := mkv (vx vel +! dX *! force) (vy vel +! dY *! force) (vz vel +! dZ *! force) in
    let vel2 :=
      if fr_beat fr then
        mkv (vx vel1 +! dX *! fr_beatIntensity fr *! num 2) (vy vel1 +! dY *! fr_beatIntensity fr *! num 2)
            (vz vel1 +! dZ *! fr_beatIntensity fr *! num 2)
      else vel1 in
    let pos1 := vadd pos vel2 in
    let vel3 := vscale vel2 (num 0.88) in
    let p := fr_palette fr in
    mku pos1 vel3
        (mkhsl (num (hueBase p) +! (pulsePhase *! num 0.5 +! num 0.5) *! num (hueRange p))
               (num (saturation p)) (num 0.4 +! fv *! num 0.6))
        (num 2 +! fv *! num 5 +! jabs pulsePhase *! num 2) r.

Definition updateParticlesPulse (fr : frame) (f : field) : field :=
  particle_loop (pulse_kernel fr) (fr_count fr) f.

(** ** Chaos *)

(** The body of [updateParticlesChaos] (lines 1195-1243); on a beat it
    draws [Math.random()] three times, for x, y and z in that order. *)
Definition chaos_kernel (fr : frame) : kernel :=
  fun r i pos vel =>
    let fv := freqValue fr i in
    let chaosX := m_sin (fr_time fr *! num 3 +! jofnat i *! num 0.1) *! fv *! num 5 in
    let chaosY := m_cos (fr_time fr *! num 4 +! jofnat i *! num 0.15) *! fv *! num 5 in
    let chaosZ := m_sin (fr_time fr *! num 2.5 +! jofnat i *! num 0.12) *! fv *! num 5 in
    let vel1 := mkv (vx vel +! chaosX *! num 0.1) (vy vel +! chaosY *! num 0.1)
                    (vz vel +! chaosZ *! num 0.1) in
    let '(vel2, r') :=
      if fr_beat fr then
        (mkv (vx vel1 +! (random_at rnd r -! num 0.5) *! fr_beatIntensity fr *! num 3)
             (vy vel1 +! (random_at rnd (r + 1) -! num 0.5) *! fr_beatIntensity fr *! num 3)
             (vz vel1 +! (random_at rnd (r + 2) -! num 0.5) *! fr_beatIntensity fr *! num 3), (r + 3)%nat)
      else (vel1, r) in
    let distance := m_sqrt (vx pos *! vx pos +! vy pos *! vy pos +! vz pos *! vz pos) in
    let vel3 :=
      if distance >! num 200 then
        mkv (vx vel2 +! jneg (vx pos) /! distance *! num 0.5)
            (vy vel2 +! jneg (vy pos) /! distance *! num 0.5)
            (vz vel2 +! jneg (vz pos) /! distance *! num 0.5)
      else vel2 in
    let pos1 := vadd pos vel3 in
    let vel4 := vscale vel3 (num 0.96) in
    let p := fr_palette fr in
    mku pos1 vel4
        (mkhsl (num (hueBase p) +! m_sin (fr_time fr *! num 5 +! jofnat i *! num 0.1) *! num (hueRange p))
               (num (saturation p)) (num 0.3 +! fv *! num 0.7))
        (num 1 +! fv *! num 6) r'.

Definition updateParticlesChaos (fr : frame) (f : field) : field :=
  particle_loop (chaos_kernel fr) (fr_count fr) f.

(** ** Minimal *)

Definition barCount : nat := 64.

(** [Math.floor(this.particleCount / barCount)]. *)
Definition particlesPerBar (n : nat) : nat := n / barCount.

(** The inner body for bar [bar] and particle [p] of the bar (lines
    1271-1299): the position moves 15% of the way to its grid slot; the
    velocity is not touched. *)
Definition minimal_kernel (fr : frame) (bar p : nat) (fv : jsnum) : kernel :=
  fun r i pos vel =>
    let ppb := particlesPerBar (fr_count fr) in
    let barHeight := fv *! num 150 in
    let x := (jofnat bar -! jofnat barCount /! num 2) *! num 8 in
    let y := jofnat p /! jofnat ppb *! barHeight -! num 50 in
    let z := num 0 in
    let pos1 := mkv (vx pos +! (x -! vx pos) *! num 0.15) (vy pos +! (y -! vy pos) *! num 0.15)
                    (vz pos +! (z -! vz pos) *! num 0.15) in
    let pl := fr_palette fr in
    mku pos1 vel
        (mkhsl (num (hueBase pl) +! (y /! num 100 +! num 0.5) *! num (hueRange pl))
               (num (saturation pl)) (num 0.5 +! fv *! num 0.5))
        (num 3 +! fv *! num 4) r.

(** [const i = bar * particlesPerBar + p; if (i >= this.particleCount) break;]. *)
Definition minimal_inner (fr : frame) (bar : nat) (fv : jsnum) (p : nat) (f : field) : option field :=
  let i := (bar * particlesPerBar (fr_count fr) + p)%nat in
  if Nat.leb (fr_count fr) i then None
  else Some (particle_step (minimal_kernel fr bar p fv) i f).

(** One bar: its frequency value, read once, then its particles. *)
Definition minimal_bar (fr : frame) (bar : nat) (f : field) : field :=
  let fv := read_u8 (fr_data fr) (freqIndex barCount (length (fr_data fr)) bar) /! num 255 in
  for_break 0 (particlesPerBar (fr_count fr)) (minimal_inner fr bar fv) f.

Definition updateParticlesMinimal (fr : frame) (f : field) : field :=
  for_range 0 barCount (minimal_bar fr) f.

(** ** Neural *)

(** A connection line: the two particle indices and the line opacity. *)
Record connection : Type := { c_from : nat; c_to : nat; c_opacity : jsnum }.

(** [positions[k]] on the geometry's typed array. *)
Definition buf_at (buf : list jsnum) (k : nat) : jsnum :=
  match nth_error buf k with Some v => v | None => JNaN end.

(** The test of the pair [(i, j)] (lines 1084-1111). *)
Definition connect_pair (buf : list jsnum) (threshold : jsnum) (i j : nat) : option connection :=
  let dx := buf_at buf (3 * i) -! buf_at buf (3 * j) in
  let dy := buf_at buf (3 * i + 1) -! buf_at buf (3 * j + 1) in
  let dz := buf_at buf (3 * i + 2) -! buf_at buf (3 * j + 2) in
  let distance := m_sqrt (dx *! dx +! dy *! dy +! dz *! dz) in
  if distance <! threshold then
    Some {| c_from := i; c_to := j; c_opacity := (num 1 -! distance /! threshold) *! num 0.5 |}
  else None.

(** [for (let i = 0; i < limit; i += 5)]: the indices [0, 5, 10, ...]
    below [limit], [k] counting the iterations. *)
Definition stride5 (limit : nat) : list nat :=
  map (fun k => 5 * k)%nat (seq 0 ((limit + 4) / 5)).

(** The double loop of lines 1082-1113: the inner loop starts at
    [j = i + 5]; each pair found is pushed in order. *)
Definition neural_connections (buf : list jsnum) (threshold : jsnum) (limit : nat) : list connection :=
  flat_map (fun i =>
    flat_map (fun j => if Nat.ltb i j then
                         match connect_pair buf threshold i j with Some c => [c] | None => [] end
                       else [])
             (stride5 limit))
    (stride5 limit).

(** [updateParticlesNeural]: the generic loop, then the connections are
    cleared and rebuilt from the new buffer. *)
Definition updateParticlesNeural (fr : frame) (f : field) : field * list connection :=
  let f1 := updateParticles fr f in
  let connectionThreshold := num 60 +! fr_mid fr *! num 30 in
  (f1, neural_connections (posBuffer f1) connectionThreshold (Nat.min (fr_count fr) 200)).

(** ** The dispatch *)

(** [switch (this.visualMode)] (lines 696-714): the new field and, in the
    neural mode, the new connection list ([None]: left as it was). *)
Definition mode_update (m : mode) (fr : frame) (f : field) : field * option (list connection) :=
  match m with
  | Cosmic => (updateParticlesCosmic fr f, None)
  | Neural => let '(f1, cs) := updateParticlesNeural fr f in (f1, Some cs)
  | Pulse => (updateParticlesPulse fr f, None)
  | Chaos => (updateParticlesChaos fr f, None)
  | Minimal => (updateParticlesMinimal fr f, None)
  | OtherMode => (updateParticles fr f, None)
  end.

End Modes.

(** ** Finite frames keep finite particles in the guarded modes *)

(** The frame values the position updates read are finite, and the
    spectrum is a non-empty byte array. *)
Definition frame_ok (fr : frame) : Prop :=
  bytes_ok (fr_data fr) /\ (0 < length (fr_data fr))%nat /\
  jfinite (fr_bass fr) && jfinite (fr_beatIntensity fr) && jfinite (fr_pulseIntensity fr) &&
  jfinite (fr_time fr) && jfinite (fr_spiralAngle fr) && jfinite (fr_spiralTightness fr) = true.

Ltac andb_split :=
  repeat match goal with H : _ && _ = true |- _ => apply andb_true_iff in H as [? ?] end.

(** Unfold a kernel applied to finite data and prove each coordinate
    finite. *)
Ltac kernel_finite :=
  cbv zeta; unfold vfinite in *; andb_split;
  repeat match goal with |- context [if ?b then _ else _] => destruct b eqn:? end;
  cbn [orb u_pos u_vel vadd vscale vx vy vz]; rewrite !andb_true_iff; repeat split; jfinm.

(** The grid has [barCount * particlesPerBar N] slots. *)
Definition grid_size (n : nat) : nat := barCount * particlesPerBar n.

(** Nothing of the particles from [T] on, nor of the buffer from [3T] on,
    differs between [f] and [g]. *)
Definition tail_same (T : nat) (f g : field) : Prop :=
  (forall j, (T <= j)%nat ->
     nth_error (positions g) j = nth_error (positions f) j /\
     nth_error (velocities g) j = nth_error (velocities f) j /\
     nth_error (colors g) j = nth_error (colors f) j /\
     nth_error (sizes g) j = nth_error (sizes f) j) /\
  (forall k, (3 * T <= k)%nat -> nth_error (posBuffer g) k = nth_error (posBuffer f) k).

(** The constructor's 2000 particles and a quiet frame. *)
Definition default_frame : frame :=
  {| fr_data := repeat 0%Z 1024; fr_average := num 0; fr_beat := false;
     fr_beatIntensity := num 0; fr_count := 2000; fr_bass := num 0; fr_mid := num 0;
     fr_pulseEffect := false; fr_pulseIntensity := num 0; fr_time := num 0;
     fr_spiralAngle := num 0; fr_spiralTightness := num 0.1; fr_palette := cyberpunk |}.

Section Finite.

Context {M : JsMath} {ML : JsMathLaws M} (rnd : tape).

Lemma cosmic_kernel_finite (fr : frame) (r i : nat) (p v : vec3) :
  frame_ok fr -> (i < fr_count fr)%nat -> vfinite p = true -> vfinite v = true ->
  vfinite (u_pos (cosmic_kernel fr r i p v)) = true /\ vfinite (u_vel (cosmic_kernel fr r i p v)) = true.
Proof.
  intros (Hb & HL & Hf) Hi Hp Hv. destruct (freqValue_range fr i Hb Hi HL) as [q [Hq _]].
  unfold cosmic_kernel. rewrite Hq. kernel_finite.
Qed.

Lemma pulse_kernel_finite (fr : frame) (r i : nat) (p v : vec3) :
  frame_ok fr -> (i < fr_count fr)%nat -> vfinite p = true -> vfinite v = true ->
  vfinite (u_pos (pulse_kernel fr r i p v)) = true /\ vfinite (u_vel (pulse_kernel fr r i p v)) = true.
Proof.
  intros (Hb & HL & Hf) Hi Hp Hv. destruct (freqValue_range fr i Hb Hi HL) as [q [Hq _]].
  unfold pulse_kernel. rewrite Hq. kernel_finite.
Qed.

Lemma chaos_kernel_finite (fr : frame) (r i : nat) (p v : vec3) :
  frame_ok fr -> (i < fr_count fr)%nat -> vfinite p = true -> vfinite v = true ->
  vfinite (u_pos (chaos_kernel rnd fr r i p v)) = true /\ vfinite (u_vel (chaos_kernel rnd fr r i p v)) = true.
Proof.
  intros (Hb & HL & Hf) Hi Hp Hv. destruct (freqValue_range fr i Hb Hi HL) as [q [Hq _]].
  unfold chaos_kernel. rewrite Hq. kernel_finite.
Qed.

Lemma minimal_kernel_finite (fr : frame) (bar pi : nat) (fv : jsnum) (r i : nat) (p v : vec3) :
  jfinite fv = true -> (pi < particlesPerBar (fr_count fr))%nat -> vfinite p = true -> vfinite v = true ->
  vfinite (u_pos (minimal_kernel fr bar pi fv r i p v)) = true /\
  vfinite (u_vel (minimal_kernel fr bar pi fv r i p v)) = true.
Proof.
  intros Hfv Hpi Hp Hv. unfold minimal_kernel. kernel_finite.
Qed.

Lemma minimal_bar_finite (fr : frame) (bar : nat) (f : field) :
  frame_ok fr -> (bar < barCount)%nat -> field_finite f -> field_finite (minimal_bar fr bar f).
Proof.
  intros (Hb & HL & _) Hbar Hf. unfold minimal_bar.
  destruct (bin_value_range (fr_data fr) barCount bar Hb Hbar HL) as [q [Hq _]]. rewrite Hq.
  apply for_break_invariant; [|exact Hf].
  intros pi s s' Hpi Hs E. unfold minimal_inner in E.
  destruct (Nat.leb _ _); [discriminate|]. injection E as <-.
  apply particle_step_finite; [|exact Hs].
  intros r p v Hp Hv. apply minimal_kernel_finite; auto. lia.
Qed.

End Finite.

(** ** The spec's distance-guard property *)

(** C8: in the cosmic, pulse, chaos and minimal modes, one frame maps a
    field of finite positions and velocities to a field of finite
    positions and velocities, for every finite frame and whatever
    [Math.random] returns.  This includes a particle exactly at the
    origin: the directions are divided by [Math.max(distance, 1)]
    (cosmic, pulse), by a distance above 200 (chaos), or not at all
    (minimal).  The neural mode and an unknown mode name run the generic
    loop, which has no guard ([updateParticles_origin_nan_forever] in Particles.v). *)
Theorem guarded_modes_keep_finite {M : JsMath} {ML : JsMathLaws M} (rnd : tape)
  (m : mode) (fr : frame) (f : field) :
  m <> Neural -> m <> OtherMode -> frame_ok fr -> field_finite f ->
  field_finite (fst (mode_update rnd m fr f)).
Proof.
  intros HN HO Hfr Hf. destruct m; cbn [mode_update fst]; try congruence.
  - apply particle_loop_finite; [|exact Hf]. intros; apply cosmic_kernel_finite; assumption.
  - apply particle_loop_finite; [|exact Hf]. intros; apply pulse_kernel_finite; assumption.
  - apply particle_loop_finite; [|exact Hf]. intros; apply chaos_kernel_finite; assumption.
  - unfold updateParticlesMinimal. apply for_range_invariant; [|exact Hf].
    intros bar s Hbar. apply minimal_bar_finite; [exact Hfr | exact (proj2 Hbar)].
Qed.

Lemma demo_frame_ok : frame_ok demo_frame.
Proof.
  split; [|split; [cbn; lia | reflexivity]].
  unfold bytes_ok. cbn. repeat constructor; discriminate.
Qed.

Lemma guarded_modes_keep_finite_witness :
  Cosmic <> Neural /\ Cosmic <> OtherMode /\ frame_ok demo_frame /\ field_finite demo_field /\
  field_finite (fst (mode_update demo_tape Cosmic demo_frame demo_field)).
Proof.
  assert (Hf : field_finite demo_field) by (split; repeat constructor).
  split; [discriminate|]. split; [discriminate|]. split; [exact demo_frame_ok|]. split; [exact Hf|].
  apply guarded_modes_keep_finite; [discriminate | discriminate | exact demo_frame_ok | exact Hf].
Defined.

(** ** The minimal mode leaves the last [N mod 64] particles alone *)

(** The index of particle [p] of bar [bar] is inside the grid, hence
    below the particle count: the [break] is never taken. *)
Lemma minimal_index_lt (n bar p : nat) :
  (bar < barCount)%nat -> (p < particlesPerBar n)%nat ->
  (bar * particlesPerBar n + p < grid_size n)%nat /\ (grid_size n <= n)%nat.
Proof.
  intros Hb Hp. unfold grid_size, particlesPerBar in *. split; [nia|].
  apply Nat.Div0.mul_div_le.
Qed.

Lemma minimal_bar_tail (fr : frame) (bar : nat) (f s : field) :
  (bar < barCount)%nat -> tail_same (grid_size (fr_count fr)) f s ->
  tail_same (grid_size (fr_count fr)) f (minimal_bar fr bar s).
Proof.
  intros Hbar Hs. unfold minimal_bar. apply for_break_invariant; [|exact Hs].
  intros p t t' Hp [Ht Hb] E. unfold minimal_inner in E.
  destruct (Nat.leb _ _); [discriminate|]. injection E as <-.
  destruct (minimal_index_lt (fr_count fr) bar p Hbar ltac:(lia)) as [Hi _].
  destruct (particle_step_outside (minimal_kernel fr bar p
    (read_u8 (fr_data fr) (freqIndex barCount (length (fr_data fr)) bar) /! num 255))
    (bar * particlesPerBar (fr_count fr) + p) t) as [Hj Hk].
  split.
  - intros j Hj'. destruct (Hj j ltac:(lia)) as (E1 & E2 & E3 & E4). rewrite E1, E2, E3, E4. apply Ht. exact Hj'.
  - intros k Hk'. rewrite Hk by lia. apply Hb. exact Hk'.
Qed.

(** The minimal mode places [particlesPerBar = floor(N/64)] particles
    in each of its 64 bars and never visits the others: the particles
    from [64 * floor(N/64)] on keep their position, velocity, colour and
    size, and their buffer entries, frame after frame.  With the default
    2000 particles, 16 particles stay wherever the previous mode left
    them. *)
Theorem minimal_tail_untouched (fr : frame) (f : field) (j : nat) :
  (grid_size (fr_count fr) <= j)%nat ->
  let g := updateParticlesMinimal fr f in
  nth_error (positions g) j = nth_error (positions f) j /\
  nth_error (velocities g) j = nth_error (velocities f) j /\
  nth_error (colors g) j = nth_error (colors f) j /\
  nth_error (sizes g) j = nth_error (sizes f) j /\
  nth_error (posBuffer g) (3 * j) = nth_error (posBuffer f) (3 * j).
Proof.
  intros Hj. cbv zeta.
  assert (H : tail_same (grid_size (fr_count fr)) f (updateParticlesMinimal fr f)).
  { unfold updateParticlesMinimal. apply for_range_invariant.
    - intros bar s Hbar. apply minimal_bar_tail. lia.
    - split; [intros; repeat split | intros; reflexivity]. }
  destruct H as [Hp Hb]. destruct (Hp j Hj) as (E1 & E2 & E3 & E4).
  repeat split; auto. apply Hb. lia.
Qed.

Lemma minimal_tail_untouched_witness :
  (grid_size (fr_count default_frame) <= 1999)%nat /\ grid_size 2000 = 1984%nat /\
  let g := updateParticlesMinimal default_frame demo_field in
  nth_error (positions g) 1999 = nth_error (positions demo_field) 1999 /\
  nth_error (velocities g) 1999 = nth_error (velocities demo_field) 1999 /\
  nth_error (colors g) 1999 = nth_error (colors demo_field) 1999 /\
  nth_error (sizes g) 1999 = nth_error (sizes demo_field) 1999 /\
  nth_error (posBuffer g) (3 * 1999) = nth_error (posBuffer demo_field) (3 * 1999).
Proof.
  split; [vm_compute; lia|]. split; [reflexivity|].
  apply minimal_tail_untouched. vm_compute. lia.
Defined.

(** ** The arrays keep their shape in every mode *)

Lemma minimal_shape (fr : frame) (n : nat) (f : field) :
  field_shape n f -> field_shape n (updateParticlesMinimal fr f).
Proof.
  intros H. unfold updateParticlesMinimal. apply for_range_invariant; [|exact H].
  intros bar s _ Hs. unfold minimal_bar. apply for_break_invariant; [|exact Hs].
  intros p t t' _ Ht E. unfold minimal_inner in E.
  destruct (Nat.leb _ _); [discriminate|]. injection E as <-. apply particle_step_shape. exact Ht.
Qed.

Lemma mode_update_shape {M : JsMath} (rnd : tape) (m : mode) (fr : frame) (n : nat) (f : field) :
  field_shape n f -> field_shape n (fst (mode_update rnd m fr f)).
Proof.
  intros H. destruct m; cbn [mode_update fst updateParticlesNeural];
    try apply minimal_shape; try apply particle_loop_shape; exact H.
Qed.
