(* ===== verification/PresetManager.v ===== *)
(** * [PresetManager] (src/audio-engine.js, lines 480-844)

    Five presets and the keyboard map (constructor, lines 485-566),
    [handleKeyPress] (585-610), [applyPreset] (615-644),
    [applyPresetImmediate] (649-662), the eased camera-radius transition
    [smoothTransition] (667-697) and [randomizePreset] (702-706).

    The manager drives the [Visualizer] only through the fields and
    methods it calls, gathered in the interface [PresetTarget]: the
    visual mode, the trail and symmetry flags, the camera radius, the two
    toggles and [Math.random] (whose cursor the visualizer shares).  The
    laws [PresetTargetLaws] are what the manager relies on (each write
    is read back, and leaves the other fields alone); the theorems of
    this file hold for every visualizer that satisfies them, and
    [System] gives the instance for the [vis] record of [Visualizer].

    The transition is a chain of [requestAnimationFrame] callbacks: the
    closure [animate] captured by [smoothTransition] is [pending] until
    the next frame, which runs it with that frame's [Date.now()].
    [trailOpacity] and the renderer's clear colour only affect rendering
    and are not modelled here; the page writes ([updatePresetDisplay],
    [highlightActivePreset], [showPresetNotification]) are added to the
    handler in [PresetUI]. *)

From Stdlib Require Import QArith Qround Lqa ZArith String List Lia Bool.
From S2P Require Import Prelude JsString JsMath Modes.
Import ListNotations.

Local Open Scope string_scope.
Local Open Scope js_scope.

(** ** What the manager needs of the visualizer *)

Class PresetTarget (V : Type) := {
  pt_mode : V -> mode;
  pt_trail : V -> bool;
  pt_symmetry : V -> bool;
  pt_radius : V -> jsnum;
  pt_setVisualMode : mode -> V -> V;      (* visualizer.setVisualMode(m) *)
  pt_setTrail : bool -> V -> V;           (* visualizer.trailEffect = b *)
  pt_setSymmetry : bool -> V -> V;        (* visualizer.radialSymmetry = b *)
  pt_setRadius : jsnum -> V -> V;         (* visualizer.cameraRadius = r *)
  pt_toggleTrail : V -> V;                (* visualizer.toggleTrailEffect() *)
  pt_toggleSymmetry : V -> V;             (* visualizer.toggleRadialSymmetry() *)
  pt_random : V -> jsnum * V              (* Math.random() *)
}.

Class PresetTargetLaws (V : Type) `{PresetTarget V} := {
  mode_setVisualMode m v : pt_mode (pt_setVisualMode m v) = m;
  trail_setTrail b v : pt_trail (pt_setTrail b v) = b;
  symmetry_setSymmetry b v : pt_symmetry (pt_setSymmetry b v) = b;
  radius_setRadius r v : pt_radius (pt_setRadius r v) = r;
  mode_setTrail b v : pt_mode (pt_setTrail b v) = pt_mode v;
  mode_setSymmetry b v : pt_mode (pt_setSymmetry b v) = pt_mode v;
  mode_setRadius r v : pt_mode (pt_setRadius r v) = pt_mode v;
  trail_setSymmetry b v : pt_trail (pt_setSymmetry b v) = pt_trail v;
  trail_setRadius r v : pt_trail (pt_setRadius r v) = pt_trail v;
  symmetry_setRadius r v : pt_symmetry (pt_setRadius r v) = pt_symmetry v;
  mode_toggleTrail v : pt_mode (pt_toggleTrail v) = pt_mode v;
  mode_toggleSymmetry v : pt_mode (pt_toggleSymmetry v) = pt_mode v;
  mode_random v : pt_mode (snd (pt_random v)) = pt_mode v
}.

(** ** Presets and keys *)

(** A preset (lines 491-545); [icon] is only displayed. *)
Record preset : Type := {
  p_name : string;
  p_description : string;
  p_visualMode : mode;
  p_trailEffect : bool;
  p_trailOpacity : Q;
  p_radialSymmetry : bool;
  p_cameraRadius : Q;
  p_particleCount : nat
}.

(** The five entries of [this.presets] (lines 491-545). *)
Definition cosmic_preset : preset :=
  {| p_name := "Cosmic"; p_description := "Spiral galaxy particles"; p_visualMode := Cosmic;
     p_trailEffect := true; p_trailOpacity := 0.15; p_radialSymmetry := false;
     p_cameraRadius := 150; p_particleCount := 2000 |}.
Definition neural_preset : preset :=
  {| p_name := "Neural"; p_description := "Connected node network"; p_visualMode := Neural;
     p_trailEffect := false; p_trailOpacity := 1; p_radialSymmetry := false;
     p_cameraRadius := 180; p_particleCount := 2000 |}.
Definition pulse_preset : preset :=
  {| p_name := "Pulse"; p_description := "Expanding rings from center"; p_visualMode := Pulse;
     p_trailEffect := true; p_trailOpacity := 0.2; p_radialSymmetry := false;
     p_cameraRadius := 140; p_particleCount := 2000 |}.
Definition chaos_preset : preset :=
  {| p_name := "Chaos"; p_description := "Erratic particle swarm"; p_visualMode := Chaos;
     p_trailEffect := true; p_trailOpacity := 0.1; p_radialSymmetry := false;
     p_cameraRadius := 160; p_particleCount := 2000 |}.
Definition minimal_preset : preset :=
  {| p_name := "Minimal"; p_description := "Clean frequency bars"; p_visualMode := Minimal;
     p_trailEffect := false; p_trailOpacity := 1; p_radialSymmetry := false;
     p_cameraRadius := 200; p_particleCount := 2000 |}.

(** [this.presets] (lines 490-546), keys in their insertion order. *)
Definition presets : list (string * preset) := [
  ("cosmic", cosmic_preset); ("neural", neural_preset); ("pulse", pulse_preset);
  ("chaos", chaos_preset); ("minimal", minimal_preset)
]%string.

(** [this.keyMap] (lines 549-558). *)
Definition keyMap : list (string * string) := [
  ("1", "cosmic"); ("2", "neural"); ("3", "pulse"); ("4", "chaos"); ("5", "minimal");
  ("t", "toggleTrail"); ("k", "toggleKaleidoscope"); ("r", "randomize")
]%string.

(** [this.transitionDuration] (line 562), in ms. *)
Definition transitionDuration : Z := 1000.

(** The [animate] closure of [smoothTransition]: it captured the radius
    at the start and the target preset. *)
Record anim : Type := { a_initial : jsnum; a_target : preset }.

(** The manager's own state: [currentPreset], [isTransitioning],
    [transitionStart] (lines 487, 561-563) and the [animate] callback
    scheduled for the next animation frame. *)
Record pm : Type := mkpm {
  currentPreset : string;
  isTransitioning : bool;
  transitionStart : Z;
  pending : option anim
}.

(** A [keydown] event: [event.key] and [event.target.tagName]. *)
Record keyevent : Type := { ev_key : string; ev_tagName : string }.

(** The events the manager reacts to: a key press at time [now] and an
    animation frame at time [t] (the [Date.now()] its callbacks see). *)
Inductive pm_event : Type := PKey (ev : keyevent) (now : Z) | PFrame (t : Z).

Section Manager.
Context {V : Type} `{PT : PresetTarget V}.

(** [applyPresetImmediate(preset)] (lines 649-662). *)
Definition applyPresetImmediate (p : preset) (v : V) : V :=
  pt_setRadius (num (p_cameraRadius p))
    (pt_setSymmetry (p_radialSymmetry p)
       (pt_setTrail (p_trailEffect p) (pt_setVisualMode (p_visualMode p) v))).

(** The easing of lines 679-681; [Math.pow(x, 2)] is [x * x]. *)
Definition eased (progress : jsnum) : jsnum :=
  if progress <! num 0.5 then num 2 *! progress *! progress
  else num 1 -! (num (-2) *! progress +! num 2) *! (num (-2) *! progress +! num 2) /! num 2.

(** One run of [animate] (lines 674-693) at time [t]. *)
Definition animate (t : Z) (a : anim) (s : pm) (v : V) : pm * V :=
  let elapsed := jofZ (t - transitionStart s) in
  let progress := jmin (elapsed /! jofZ transitionDuration) (num 1) in
  let targetRadius := num (p_cameraRadius (a_target a)) in
  let v1 := pt_setRadius (a_initial a +! (targetRadius -! a_initial a) *! eased progress) v in
  if progress <! num 1
  then (mkpm (currentPreset s) (isTransitioning s) (transitionStart s) (Some a), v1)
  else (mkpm (currentPreset s) false (transitionStart s) None, applyPresetImmediate (a_target a) v1).

(** [smoothTransition(targetPreset)] (lines 667-697) at time [now]: it
    calls [animate()] at once. *)
Definition smoothTransition (target : preset) (now : Z) (s : pm) (v : V) : pm * V :=
  animate now {| a_initial := pt_radius v; a_target := target |}
    (mkpm (currentPreset s) true now (pending s)) v.

(** [applyPreset(presetName, animate)] (lines 615-644). *)
Definition applyPreset (presetName : string) (anim_ : bool) (now : Z) (s : pm) (v : V) : pm * V :=
  match assoc presetName presets with
  | None => (s, v)
  | Some p =>
      if isTransitioning s then (s, v)
      else
        let previousPreset := currentPreset s in
        let s1 := mkpm presetName (isTransitioning s) (transitionStart s) (pending s) in
        if anim_ && negb (String.eqb previousPreset presetName)
        then smoothTransition p now s1 v
        else (s1, applyPresetImmediate p v)
  end.

(** [randomizePreset()] (lines 702-706): [presetNames[Math.floor(
    Math.random() * presetNames.length)]], [undefined] out of range. *)
Definition randomizePreset (now : Z) (s : pm) (v : V) : pm * V :=
  let '(r, v1) := pt_random v in
  let presetNames := map fst presets in
  match jindex (jfloor (r *! jofnat (length presetNames))) >>= fun i => nth_error presetNames i with
  | Some randomPreset => applyPreset randomPreset true now s v1
  | None => (s, v1)
  end.

(** [handleKeyPress(event)] (lines 585-610). *)
Definition handleKeyPress (ev : keyevent) (now : Z) (s : pm) (v : V) : pm * V :=
  let key := toLowerCase (ev_key ev) in
  if String.eqb (ev_tagName ev) "INPUT" || String.eqb (ev_tagName ev) "TEXTAREA" then (s, v)
  else match assoc key keyMap with
       | None => (s, v)
       | Some action =>
           if String.eqb action "toggleTrail" then (s, pt_toggleTrail v)
           else if String.eqb action "toggleKaleidoscope" then (s, pt_toggleSymmetry v)
           else if String.eqb action "randomize" then randomizePreset now s v
           else match assoc action presets with
                | Some _ => applyPreset action true now s v
                | None => (s, v)
                end
       end.

(** An animation frame runs the scheduled [animate], if any. *)
Definition pm_frame (t : Z) (s : pm) (v : V) : pm * V :=
  match pending s with
  | Some a => animate t a (mkpm (currentPreset s) (isTransitioning s) (transitionStart s) None) v
  | None => (s, v)
  end.

Definition pm_step (e : pm_event) (sv : pm * V) : pm * V :=
  match e with
  | PKey ev now => handleKeyPress ev now (fst sv) (snd sv)
  | PFrame t => pm_frame t (fst sv) (snd sv)
  end.

Definition run_pm (es : list pm_event) (sv : pm * V) : pm * V := fold_left (fun sv e => pm_step e sv) es sv.

(** The constructor (lines 485-566) and [init()] (lines 571-580), which
    applies the cosmic preset without a transition at time [now]. *)
Definition pm_construct (now : Z) (v : V) : pm * V :=
  applyPreset "cosmic" false now (mkpm "cosmic" false 0 None) v.

(** [getCurrentPreset()] (lines 711-713). *)
Definition getCurrentPreset (s : pm) : option preset := assoc (currentPreset s) presets.

End Manager.

(** ** The view of a visualizer *)

(** The part of the visualizer the manager reads and writes, with
    [Math.random] as a tape and its cursor: the reference instance of
    [PresetTarget], on which the witnesses run. *)
Record view : Type := mkview {
  vw_mode : mode;
  vw_trail : bool;
  vw_symmetry : bool;
  vw_radius : jsnum;
  vw_rnd : tape;
  vw_cursor : nat
}.

#[export] Instance view_target : PresetTarget view := {
  pt_mode := vw_mode;
  pt_trail := vw_trail;
  pt_symmetry := vw_symmetry;
  pt_radius := vw_radius;
  pt_setVisualMode m w := mkview m (vw_trail w) (vw_symmetry w) (vw_radius w) (vw_rnd w) (vw_cursor w);
  pt_setTrail b w := mkview (vw_mode w) b (vw_symmetry w) (vw_radius w) (vw_rnd w) (vw_cursor w);
  pt_setSymmetry b w := mkview (vw_mode w) (vw_trail w) b (vw_radius w) (vw_rnd w) (vw_cursor w);
  pt_setRadius r w := mkview (vw_mode w) (vw_trail w) (vw_symmetry w) r (vw_rnd w) (vw_cursor w);
  pt_toggleTrail w := mkview (vw_mode w) (negb (vw_trail w)) (vw_symmetry w) (vw_radius w) (vw_rnd w) (vw_cursor w);
  pt_toggleSymmetry w := mkview (vw_mode w) (vw_trail w) (negb (vw_symmetry w)) (vw_radius w) (vw_rnd w) (vw_cursor w);
  pt_random w := (random_at (vw_rnd w) (vw_cursor w),
                  mkview (vw_mode w) (vw_trail w) (vw_symmetry w) (vw_radius w) (vw_rnd w) (S (vw_cursor w)))
}.

(** The visualizer as the constructor leaves it: cosmic mode, trail on,
    symmetry off, camera radius 150, random tape [rnd]. *)
Definition initial_view (rnd : tape) : view := mkview Cosmic true false (num 150) rnd 0.

(** ** Invariant and helper predicates *)

(** A transition is running exactly when an [animate] callback is
    scheduled, and it animates towards the current preset. *)
Definition pm_inv (s : pm) : Prop :=
  match pending s with
  | None => isTransitioning s = false /\ getCurrentPreset s <> None
  | Some a => isTransitioning s = true /\ getCurrentPreset s = Some (a_target a)
  end.

(** Key presses, and frames earlier than the deadline [d]. *)
Definition frame_before (d : Z) (e : pm_event) : bool :=
  match e with PFrame t => Z.ltb t d | PKey _ _ => true end.

(** The easing on rationals. *)
Definition ease_q (p : Q) : Q :=
  if Qltb p 0.5 then 2 * p * p else 1 - (-2 * p + 2) * (-2 * p + 2) / 2.

(** ** Arithmetic of the transition *)

Lemma progress_num (d : Z) :
  jmin (jofZ d /! jofZ transitionDuration) (num 1) = num (qmin (inject_Z d / 1000) 1).
Proof.
  unfold jofZ, transitionDuration. rewrite jdiv_num by (intros H; discriminate H).
  rewrite jmin_num. apply num_ext. reflexivity.
Qed.

Lemma progress_early (d : Z) : (d < 1000)%Z -> qmin (inject_Z d / 1000) 1 < 1.
Proof.
  intros H. assert (D : inject_Z d < 1000) by (rewrite Zlt_Qlt in H; exact H).
  assert (inject_Z d / 1000 < 1) by (apply Qlt_shift_div_r; lra).
  pose proof (qmin_le_l (inject_Z d / 1000) 1). lra.
Qed.

Lemma progress_late (d : Z) : (1000 <= d)%Z -> qmin (inject_Z d / 1000) 1 == 1.
Proof.
  intros H. assert (1000 <= inject_Z d) by (rewrite Zle_Qle in H; exact H).
  destruct (qmin_spec (inject_Z d / 1000) 1) as [[_ ->]|[L ->]]; [reflexivity|].
  apply Qle_antisym; [exact L|]. apply Qle_shift_div_l; lra.
Qed.

Lemma eased_num (p : Q) : eased (num p) = num (ease_q p).
Proof.
  unfold eased, ease_q. rewrite jlt_num. destruct (Qltb p 0.5).
  - rewrite !jmul_num. reflexivity.
  - rewrite !jmul_num, !jadd_num, !jmul_num, jdiv_num, jsub_num by (intros H; discriminate H).
    reflexivity.
Qed.

Lemma ease_range (p : Q) : 0 <= p <= 1 -> 0 <= ease_q p <= 1.
Proof.
  intros [H0 H1]. unfold ease_q. destruct (Qltb p 0.5) eqn:E.
  - apply Qltb_spec in E.
    assert (A : 0 <= p * p) by (apply Qmult_le_0_compat; lra).
    assert (B : 0 <= (0.5 - p) * p) by (apply Qmult_le_0_compat; lra).
    split; lra.
  - apply Qltb_false in E.
    assert (A : 0 <= (-2 * p + 2) * (-2 * p + 2)) by (apply Qmult_le_0_compat; lra).
    assert (B : 0 <= (-2 * p + 2) * (1 - (-2 * p + 2))) by (apply Qmult_le_0_compat; lra).
    assert (C : (-2 * p + 2) * (-2 * p + 2) / 2 == (1 # 2) * ((-2 * p + 2) * (-2 * p + 2))) by field.
    rewrite C. split; lra.
Qed.

Lemma interpolate_between (r0 r1 e : Q) :
  0 <= e <= 1 -> (r0 <= r0 + (r1 - r0) * e <= r1) \/ (r1 <= r0 + (r1 - r0) * e <= r0).
Proof.
  intros [E0 E1]. destruct (Qlt_le_dec r0 r1) as [L|L]; [left|right].
  - assert (0 <= (r1 - r0) * e) by (apply Qmult_le_0_compat; lra).
    assert (0 <= (r1 - r0) * (1 - e)) by (apply Qmult_le_0_compat; lra). split; lra.
  - assert (0 <= (r0 - r1) * e) by (apply Qmult_le_0_compat; lra).
    assert (0 <= (r0 - r1) * (1 - e)) by (apply Qmult_le_0_compat; lra). split; lra.
Qed.

(** ** The manager against the interface *)

#[export] Instance view_laws : PresetTargetLaws view.
Proof. split; reflexivity. Qed.

Section Laws.
Context {V : Type} {PT : PresetTarget V} {PL : PresetTargetLaws V}.

Lemma applyPresetImmediate_spec (p : preset) (v : V) :
  let v' := applyPresetImmediate p v in
  pt_mode v' = p_visualMode p /\ pt_trail v' = p_trailEffect p /\
  pt_symmetry v' = p_radialSymmetry p /\ pt_radius v' = num (p_cameraRadius p).
Proof.
  unfold applyPresetImmediate.
  rewrite mode_setRadius, mode_setSymmetry, mode_setTrail, mode_setVisualMode,
    trail_setRadius, trail_setSymmetry, trail_setTrail, symmetry_setRadius, symmetry_setSymmetry,
    radius_setRadius.
  auto.
Qed.

Lemma animate_early (t : Z) (a : anim) (s : pm) (v : V) :
  (t - transitionStart s < 1000)%Z ->
  animate t a s v = (mkpm (currentPreset s) (isTransitioning s) (transitionStart s) (Some a),
                     pt_setRadius (a_initial a +! (num (p_cameraRadius (a_target a)) -! a_initial a) *!
                                   eased (num (qmin (inject_Z (t - transitionStart s) / 1000) 1))) v).
Proof.
  intros D. unfold animate. rewrite progress_num, jlt_num.
  rewrite (proj2 (Qltb_spec _ _) (progress_early _ D)). reflexivity.
Qed.

Lemma animate_late (t : Z) (a : anim) (s : pm) (v : V) :
  (1000 <= t - transitionStart s)%Z ->
  animate t a s v = (mkpm (currentPreset s) false (transitionStart s) None,
                     applyPresetImmediate (a_target a)
                       (pt_setRadius (a_initial a +! (num (p_cameraRadius (a_target a)) -! a_initial a) *!
                                      eased (num 1)) v)).
Proof.
  intros D. unfold animate. rewrite progress_num.
  rewrite (num_ext _ _ (progress_late _ D)). reflexivity.
Qed.

Lemma applyPreset_busy (n : string) (b : bool) (now : Z) (s : pm) (v : V) :
  isTransitioning s = true -> applyPreset n b now s v = (s, v).
Proof. intros T. unfold applyPreset. destruct (assoc n presets); [rewrite T|]; reflexivity. Qed.

Lemma mkpm_eta (s : pm) : mkpm (currentPreset s) (isTransitioning s) (transitionStart s) (pending s) = s.
Proof. destruct s; reflexivity. Qed.

(** During a transition, key presses and the frames before its end leave
    the manager as it is and do not touch the visual mode. *)
Lemma busy_step (e : pm_event) (s : pm) (v : V) (a : anim) :
  isTransitioning s = true -> pending s = Some a -> frame_before (transitionStart s + 1000) e = true ->
  fst (pm_step e (s, v)) = s /\ pt_mode (snd (pm_step e (s, v))) = pt_mode v.
Proof.
  intros T P F. destruct e as [ev now|t]; cbn [pm_step fst snd].
  - unfold handleKeyPress. destruct (_ || _); [auto|].
    destruct (assoc _ keyMap) as [action|]; [|auto].
    destruct (String.eqb action "toggleTrail"); [cbn; auto using mode_toggleTrail|].
    destruct (String.eqb action "toggleKaleidoscope"); [cbn; auto using mode_toggleSymmetry|].
    destruct (String.eqb action "randomize").
    + unfold randomizePreset. pose proof (mode_random v) as R. destruct (pt_random v) as [r v1].
      destruct (_ >>= _); [rewrite applyPreset_busy by exact T|]; cbn; auto.
    + destruct (assoc action presets); [rewrite applyPreset_busy by exact T|]; cbn; auto.
  - cbn in F. apply Z.ltb_lt in F. unfold pm_frame. rewrite P.
    rewrite animate_early by (cbn; lia). cbn. rewrite <- P, mkpm_eta.
    split; [reflexivity | apply mode_setRadius].
Qed.

Lemma busy_run (pre : list pm_event) (s : pm) (v : V) (a : anim) :
  isTransitioning s = true -> pending s = Some a ->
  forallb (frame_before (transitionStart s + 1000)) pre = true ->
  fst (run_pm pre (s, v)) = s /\ pt_mode (snd (run_pm pre (s, v))) = pt_mode v.
Proof.
  intros T P. revert v. induction pre as [|e pre IH]; intros v F; [auto|].
  apply andb_true_iff in F as [Fe Fs]. cbn [run_pm fold_left].
  destruct (busy_step e s v a T P Fe) as [E M].
  destruct (pm_step e (s, v)) as [s1 v1] eqn:Ep. cbn in E, M. subst s1.
  destruct (IH v1 Fs) as [E' M']. unfold run_pm in *. rewrite M', M. auto.
Qed.

Lemma animate_inv (t : Z) (a : anim) (s : pm) (v : V) :
  isTransitioning s = true -> getCurrentPreset s = Some (a_target a) -> pm_inv (fst (animate t a s v)).
Proof.
  intros T G. destruct (Z.lt_ge_cases (t - transitionStart s) 1000) as [L|L].
  - rewrite animate_early by exact L. unfold pm_inv; cbn [pending isTransitioning currentPreset transitionStart fst snd]. auto.
  - rewrite animate_late by lia. unfold pm_inv, getCurrentPreset in *; cbn [pending isTransitioning currentPreset transitionStart fst snd]. rewrite G. split; congruence.
Qed.

Lemma applyPreset_inv (n : string) (b : bool) (now : Z) (s : pm) (v : V) :
  pm_inv s -> pm_inv (fst (applyPreset n b now s v)).
Proof.
  intros I. unfold applyPreset. destruct (assoc n presets) as [p|] eqn:A; [|exact I].
  destruct (isTransitioning s) eqn:T; [exact I|].
  assert (Pn : pending s = None) by (unfold pm_inv in I; destruct (pending s); [destruct I; congruence|reflexivity]).
  destruct (b && negb (String.eqb (currentPreset s) n)).
  - unfold smoothTransition. apply animate_inv; cbn [pending isTransitioning currentPreset transitionStart fst snd]; auto.
  - unfold pm_inv, getCurrentPreset; cbn [pending isTransitioning currentPreset transitionStart fst snd]. rewrite Pn, A. split; [reflexivity|discriminate].
Qed.

Lemma pm_step_inv (e : pm_event) (s : pm) (v : V) : pm_inv s -> pm_inv (fst (pm_step e (s, v))).
Proof.
  intros I. destruct e as [ev now|t]; cbn [pm_step fst snd].
  - unfold handleKeyPress. destruct (_ || _); [exact I|].
    destruct (assoc _ keyMap) as [action|]; [|exact I].
    destruct (String.eqb action "toggleTrail"); [exact I|].
    destruct (String.eqb action "toggleKaleidoscope"); [exact I|].
    destruct (String.eqb action "randomize").
    + unfold randomizePreset. destruct (pt_random v) as [r v1].
      destruct (_ >>= _); [apply applyPreset_inv; exact I | exact I].
    + destruct (assoc action presets); [apply applyPreset_inv; exact I | exact I].
  - unfold pm_frame. destruct (pending s) as [a|] eqn:P; [|exact I].
    unfold pm_inv in I. rewrite P in I. destruct I as [T G]. apply animate_inv; assumption.
Qed.

Lemma run_pm_snoc (pre : list pm_event) (e : pm_event) (sv : pm * V) :
  run_pm (pre ++ [e]) sv = pm_step e (run_pm pre sv).
Proof. unfold run_pm. rewrite fold_left_app. reflexivity. Qed.

Lemma pm_inv_busy (s : pm) :
  pm_inv s -> isTransitioning s = true ->
  exists a, pending s = Some a /\ getCurrentPreset s = Some (a_target a).
Proof.
  unfold pm_inv. destruct (pending s) as [a|]; intros I T; [exists a; tauto|]. destruct I; congruence.
Qed.

Lemma progress_range (d : Z) : (0 <= d)%Z -> 0 <= qmin (inject_Z d / 1000) 1 <= 1.
Proof.
  intros H. split; [|apply qmin_le_r].
  apply qmin_glb; [|lra]. apply Qle_shift_div_l; [lra|].
  rewrite Qmult_0_l. change 0 with (inject_Z 0). rewrite <- Zle_Qle. exact H.
Qed.

(** ** Properties of the manager *)

(** C6: a preset transition ends on the first animation frame at least
    [transitionDuration = 1000] ms after it started, whatever keys are
    pressed meanwhile: the manager is idle again and the visualizer has
    exactly the settings of the current preset (mode, trail, symmetry,
    camera radius).  A trail or symmetry toggle pressed during the
    transition is therefore overwritten when it completes. *)
Theorem transition_completes (s : pm) (v : V) (pre : list pm_event) (t : Z) :
  pm_inv s -> isTransitioning s = true ->
  forallb (frame_before (transitionStart s + 1000)) pre = true ->
  (transitionStart s + 1000 <= t)%Z ->
  exists p, getCurrentPreset s = Some p /\
    let sv := run_pm (pre ++ [PFrame t]) (s, v) in
    isTransitioning (fst sv) = false /\ getCurrentPreset (fst sv) = Some p /\
    pt_mode (snd sv) = p_visualMode p /\ pt_trail (snd sv) = p_trailEffect p /\
    pt_symmetry (snd sv) = p_radialSymmetry p /\ pt_radius (snd sv) = num (p_cameraRadius p).
Proof.
  intros I T F Ht. destruct (pm_inv_busy s I T) as (a & P & G).
  exists (a_target a). split; [exact G|]. cbv zeta. rewrite run_pm_snoc.
  destruct (busy_run pre s v a T P F) as [E _].
  destruct (run_pm pre (s, v)) as [s1 v1]. cbn in E. subst s1.
  cbn [pm_step fst snd]. unfold pm_frame. rewrite P. rewrite animate_late by (cbn; lia).
  destruct (applyPresetImmediate_spec (a_target a)
              (pt_setRadius (a_initial a +! (num (p_cameraRadius (a_target a)) -! a_initial a) *! eased (num 1)) v1))
    as (M & Tr & Sy & R).
  cbn [fst snd isTransitioning]. unfold getCurrentPreset in *. cbn [currentPreset].
  repeat split; assumption.
Qed.

(** C21: a preset key switches [currentPreset] (and so [getCurrentPreset()]
    and the preset display) at once, but the new visual mode is applied
    only when the transition ends: on every frame of the first 1000 ms
    the visualizer keeps running the previous mode. *)
Theorem mode_applied_late (s : pm) (v : V) (key n : string) (p : preset) (now : Z) (pre : list pm_event) :
  isTransitioning s = false ->
  assoc (toLowerCase key) keyMap = Some n -> assoc n presets = Some p -> String.eqb (currentPreset s) n = false ->
  forallb (frame_before (now + 1000)) pre = true ->
  let sv := run_pm pre (handleKeyPress {| ev_key := key; ev_tagName := "BODY" |} now s v) in
  getCurrentPreset (fst sv) = Some p /\ isTransitioning (fst sv) = true /\ pt_mode (snd sv) = pt_mode v.
Proof.
  intros T K A Nc F. unfold handleKeyPress. cbn [ev_key ev_tagName].
  change (String.eqb "BODY" "INPUT" || String.eqb "BODY" "TEXTAREA") with false. cbv iota beta. rewrite K.
  assert (Hn : forall x, assoc x presets = None -> String.eqb n x = false).
  { intros x Ax. destruct (String.eqb_spec n x) as [->|]; [congruence|reflexivity]. }
  rewrite (Hn "toggleTrail"), (Hn "toggleKaleidoscope"), (Hn "randomize"), A by reflexivity.
  unfold applyPreset. rewrite A, T, Nc. cbn [andb negb]. unfold smoothTransition.
  rewrite animate_early by (cbn; lia). cbv zeta.
  match goal with |- context [run_pm pre (?s2, ?v2)] =>
    destruct (busy_run pre s2 v2 {| a_initial := pt_radius v; a_target := p |} eq_refl eq_refl F) as [E M] end.
  rewrite E, M, mode_setRadius. unfold getCurrentPreset. cbn [fst currentPreset isTransitioning]. rewrite A. auto.
Qed.

(** While a transition runs, the camera radius it writes stays
    between the radius at the start and the preset's target radius,
    for every frame not earlier than the start: the ease-in-out curve
    lies in [[0, 1]] and the last frame sets the target exactly. *)
Theorem transition_radius_between (t : Z) (a : anim) (s : pm) (v : V) (r0 : Q) :
  a_initial a = num r0 -> (transitionStart s <= t)%Z ->
  exists q, pt_radius (snd (animate t a s v)) = num q /\
    ((r0 <= q <= p_cameraRadius (a_target a)) \/ (p_cameraRadius (a_target a) <= q <= r0)).
Proof.
  intros Ha Ht. destruct (Z.lt_ge_cases (t - transitionStart s) 1000) as [L|L].
  - rewrite animate_early by exact L. cbn [snd]. rewrite radius_setRadius, Ha, eased_num.
    set (e := ease_q _).
    assert (Re : 0 <= e <= 1) by (apply ease_range, progress_range; lia).
    rewrite jsub_num, jmul_num, jadd_num.
    exists (r0 + (p_cameraRadius (a_target a) - r0) * e). split; [reflexivity|].
    apply interpolate_between, Re.
  - rewrite animate_late by exact L. cbn [snd].
    destruct (applyPresetImmediate_spec (a_target a) (pt_setRadius (a_initial a +!
      (num (p_cameraRadius (a_target a)) -! a_initial a) *! eased (num 1)) v)) as (_ & _ & _ & ->).
    exists (p_cameraRadius (a_target a)). split; [reflexivity|].
    destruct (Qlt_le_dec r0 (p_cameraRadius (a_target a))); [left|right]; lra.
Qed.

(** From the constructor's state, every sequence of key presses and
    animation frames keeps the manager consistent: it is transitioning
    exactly when an [animate] callback is scheduled, that callback
    animates towards the current preset, and [getCurrentPreset()] is
    always defined. *)
Theorem pm_inv_run (now : Z) (v : V) (es : list pm_event) :
  pm_inv (fst (run_pm es (pm_construct now v))).
Proof.
  assert (I0 : pm_inv (fst (pm_construct now v))) by (unfold pm_inv; cbn; split; [reflexivity|discriminate]).
  revert I0. generalize (pm_construct now v) as sv.
  induction es as [|e es IH]; intros [s w] I; [exact I|].
  cbn [run_pm fold_left]. apply IH. apply pm_step_inv, I.
Qed.

(** [randomizePreset] always picks one of the five presets: for a
    [Math.random()] result in [[0, 1)] the index
    [Math.floor(r * 5)] is in [0..4], so the [undefined] branch of
    [applyPreset] is never taken. *)
Theorem randomize_defined (now : Z) (s : pm) (v : V) (q : Q) :
  fst (pt_random v) = num q -> 0 <= q < 1 ->
  exists n p, assoc n presets = Some p /\ randomizePreset now s v = applyPreset n true now s (snd (pt_random v)).
Proof.
  intros R [Q0 Q1]. unfold randomizePreset. destruct (pt_random v) as [r v1]. cbn [fst snd] in *. subst r.
  cbn [map fst presets length]. unfold jofnat, jofZ. rewrite jmul_num, jfloor_num.
  change (inject_Z (Z.of_nat 5)) with (5 # 1).
  assert (Z0 : (0 <= Qfloor (q * (5 # 1)))%Z) by (apply floor_ge_Z; change (inject_Z 0) with 0; lra).
  assert (Z4 : (Qfloor (q * (5 # 1)) <= 4)%Z).
  { pose proof (Qfloor_le (q * (5 # 1))) as Fl.
    assert (inject_Z (Qfloor (q * (5 # 1))) < inject_Z 5) by (change (inject_Z 5) with (5 # 1); lra).
    rewrite <- Zlt_Qlt in *. lia. }
  rewrite jindex_Z by exact Z0. cbn [obind].
  destruct (Qfloor (q * (5 # 1))) as [|k|k] eqn:E; [| |lia].
  - exists "cosmic"; eexists; split; reflexivity.
  - cbn [Z.to_nat]. destruct (Pos.to_nat k) as [|[|[|[|[|m]]]]] eqn:Ek; [lia| | | | |lia].
    + exists "neural"; eexists; split; reflexivity.
    + exists "pulse"; eexists; split; reflexivity.
    + exists "chaos"; eexists; split; reflexivity.
    + exists "minimal"; eexists; split; reflexivity.
Qed.

End Laws.

(** Witnesses, on the reference view. *)

Lemma transition_completes_witness :
  let sv0 := handleKeyPress {| ev_key := "2"; ev_tagName := "BODY" |} 0
               (fst (pm_construct 0 (initial_view demo_tape))) (snd (pm_construct 0 (initial_view demo_tape))) in
  exists p, getCurrentPreset (fst sv0) = Some p /\
    let sv := run_pm ([PFrame 16; PKey {| ev_key := "t"; ev_tagName := "BODY" |} 20; PFrame 33] ++ [PFrame 1001])
                     (fst sv0, snd sv0) in
    isTransitioning (fst sv) = false /\ getCurrentPreset (fst sv) = Some p /\
    pt_mode (snd sv) = p_visualMode p /\ pt_trail (snd sv) = p_trailEffect p /\
    pt_symmetry (snd sv) = p_radialSymmetry p /\ pt_radius (snd sv) = num (p_cameraRadius p).
Proof.
  apply transition_completes; [vm_compute; split; reflexivity | reflexivity | reflexivity | apply Z.leb_le; vm_compute; reflexivity].
Defined.

Lemma mode_applied_late_witness :
  let s := fst (pm_construct 0 (initial_view demo_tape)) in
  let v := snd (pm_construct 0 (initial_view demo_tape)) in
  let sv := run_pm [PFrame 16; PFrame 33; PKey {| ev_key := "T"; ev_tagName := "BODY" |} 40; PFrame 999]
                   (handleKeyPress {| ev_key := "2"; ev_tagName := "BODY" |} 0 s v) in
  getCurrentPreset (fst sv) = Some neural_preset /\ isTransitioning (fst sv) = true /\ pt_mode (snd sv) = pt_mode v.
Proof. apply mode_applied_late with (n := "neural"); reflexivity. Defined.

Lemma transition_radius_between_witness :
  exists q, pt_radius (snd (animate 500 {| a_initial := num 150; a_target := neural_preset |}
                                 (mkpm "neural" true 0 None) (initial_view demo_tape))) = num q /\
    ((150 <= q <= p_cameraRadius neural_preset) \/ (p_cameraRadius neural_preset <= q <= 150)).
Proof. apply transition_radius_between; [reflexivity | cbn; lia]. Defined.

Lemma randomize_defined_witness :
  exists n p, assoc n presets = Some p /\
    randomizePreset 0 (mkpm "cosmic" false 0 None) (initial_view demo_tape) =
    applyPreset n true 0 (mkpm "cosmic" false 0 None) (snd (pt_random (initial_view demo_tape))).
Proof.
  apply randomize_defined with (q := demo_tape 0%nat); [reflexivity | vm_compute; split; [discriminate | reflexivity]].
Defined.
