(* ===== verification/PresetUI.v ===== *)
(** * The page half of [PresetManager] (src/audio-engine.js, lines 585-644, 711-843)

    What [applyPreset] and [handleKeyPress] write to the page besides
    the manager and the visualizer: [updatePresetDisplay] (the preset
    shown in [#current-preset-display] and the opacities of the trail
    and symmetry indicators, read from the visualizer),
    [highlightActivePreset] (the [active] class of the [.preset-btn]
    buttons) and [showPresetNotification] (a notification removed after
    2000 + 300 ms).  The page's elements are an input: whether each
    element exists, and the [data-preset] of the buttons in document
    order (the HTML is not under [src/]).

    [handleKeyPress_ui] is the whole handler, the manager's state
    changes and the page writes in the order the code makes them, over
    any [PresetTarget]. *)

From Stdlib Require Import QArith ZArith String List Lia Bool.
From S2P Require Import Prelude JsString JsMath Modes PresetManager.
Import ListNotations.

Local Open Scope nat_scope.
Local Open Scope js_scope.
Local Open Scope string_scope.

Module PresetUI.

(** ** The page *)

(** The preset notification's two timeouts (lines 830-835). *)
Inductive ptimer : Type := TPFade (n : nat) | TPRemove (n : nat).

Record ui : Type := mkui {
  hasDisplay : bool;                 (* #current-preset-display exists *)
  hasTrailInd : bool;                (* #trail-indicator exists *)
  hasSymInd : bool;                  (* #symmetry-indicator exists *)
  presetBtns : list string;          (* data-preset of each .preset-btn, in document order *)
  display : option string;           (* the preset name shown *)
  trailOpacity : option string;      (* trailIndicator.style.opacity *)
  symOpacity : option string;        (* symmetryIndicator.style.opacity *)
  active : list bool;                (* the 'active' class of each .preset-btn *)
  pnotes : list (nat * string);      (* the #preset-notification elements in the body *)
  nextPNote : nat;
  ptimers : list (Z * ptimer)        (* pending timeouts by due time *)
}.

Definition set_display (d : option string) (t s : option string) (u : ui) : ui :=
  mkui (hasDisplay u) (hasTrailInd u) (hasSymInd u) (presetBtns u) d t s (active u)
       (pnotes u) (nextPNote u) (ptimers u).

Definition set_active (a : list bool) (u : ui) : ui :=
  mkui (hasDisplay u) (hasTrailInd u) (hasSymInd u) (presetBtns u) (display u) (trailOpacity u)
       (symOpacity u) a (pnotes u) (nextPNote u) (ptimers u).

Definition set_notes (ns : list (nat * string)) (k : nat) (ts : list (Z * ptimer)) (u : ui) : ui :=
  mkui (hasDisplay u) (hasTrailInd u) (hasSymInd u) (presetBtns u) (display u) (trailOpacity u)
       (symOpacity u) (active u) ns k ts.

(** [setTimeout(cb, delay)]: after every timeout due no later. *)
Fixpoint insert_ptimer (due : Z) (tm : ptimer) (ts : list (Z * ptimer)) : list (Z * ptimer) :=
  match ts with
  | [] => [(due, tm)]
  | (d, t) :: r => if Z.leb d due then (d, t) :: insert_ptimer due tm r else (due, tm) :: ts
  end.

(** [this.visualizer.trailEffect ? '1' : '0.3'] (lines 734-739). *)
Definition opacity (b : bool) : string := if b then "1" else "0.3".

Section Page.
Context {V : Type} `{PT : PresetTarget V}.

(** [updatePresetDisplay()] (lines 718-740); [None] when
    [currentPreset.icon] throws on an unknown [currentPreset] while the
    display element exists. *)
Definition updatePresetDisplay (s : pm) (v : V) (u : ui) : option ui :=
  let d := if hasDisplay u
           then option_map p_name (getCurrentPreset s)
           else display u in
  if hasDisplay u && (match getCurrentPreset s with None => true | Some _ => false end) then None
  else Some (set_display d
               (if hasTrailInd u then Some (opacity (pt_trail v)) else trailOpacity u)
               (if hasSymInd u then Some (opacity (pt_symmetry v)) else symOpacity u) u).

End Page.

(** [querySelector('.preset-btn[data-preset="name"]')] is the first such
    button: after every button lost [active], that one gains it. *)
Fixpoint mark_first (name : string) (btns : list string) : list bool :=
  match btns with
  | [] => []
  | b :: r => if String.eqb b name then true :: map (fun _ => false) r else false :: mark_first name r
  end.

(** [highlightActivePreset(presetName)] (lines 745-756). *)
Definition highlightActivePreset (name : string) (u : ui) : ui :=
  set_active (mark_first name (presetBtns u)) u.

(** [showPresetNotification(preset)] (lines 761-836) at [now]: the first
    [#preset-notification] is removed and a new one appended. *)
Definition showPresetNotification (p : preset) (now : Z) (u : ui) : ui :=
  let n := nextPNote u in
  set_notes (tl (pnotes u) ++ [(n, p_name p)])%list (S n) (insert_ptimer (now + 2000) (TPFade n) (ptimers u)) u.

(** A timeout run at its due time [t]. *)
Definition run_ptimer (t : Z) (tm : ptimer) (u : ui) : ui :=
  match tm with
  | TPFade n => set_notes (pnotes u) (nextPNote u) (insert_ptimer (t + 300) (TPRemove n) (ptimers u)) u
  | TPRemove n =>
      set_notes (filter (fun nn => negb (Nat.eqb (fst nn) n)) (pnotes u)) (nextPNote u) (ptimers u) u
  end.

(** The event loop reaches [now]: the timeouts due by then run, in
    order, [fuel] of them at most. *)
Fixpoint ptick (fuel : nat) (now : Z) (u : ui) : ui :=
  match fuel with
  | O => u
  | S k =>
      match ptimers u with
      | (t, tm) :: rest =>
          if Z.leb t now then ptick k now (run_ptimer t tm (set_notes (pnotes u) (nextPNote u) rest u)) else u
      | [] => u
      end
  end.

(** [getAllPresets()] (lines 841-843). *)
Definition getAllPresets : list (string * preset) := presets.

(** A page with every element and the five preset buttons in order. *)
Definition demo_ui : ui :=
  mkui true true true (map fst presets) None None None (map (fun _ => false) presets) [] 0 [].

Section Handler.
Context {V : Type} `{PT : PresetTarget V}.

(** [applyPreset(presetName, animate)] (lines 615-644) with its page
    writes (lines 638-643) after the state change. *)
Definition applyPreset_ui (name : string) (anim_ : bool) (now : Z) (s : pm) (v : V) (u : ui) : pm * V * ui :=
  match assoc name presets with
  | None => (s, v, u)
  | Some p =>
      if isTransitioning s then (s, v, u)
      else
        let '(s1, v1) := applyPreset name anim_ now s v in
        match updatePresetDisplay s1 v1 u with
        | None => (s1, v1, u)
        | Some u1 => (s1, v1, showPresetNotification p now (highlightActivePreset name u1))
        end
  end.

(** [randomizePreset()] (lines 702-706). *)
Definition randomizePreset_ui (now : Z) (s : pm) (v : V) (u : ui) : pm * V * ui :=
  let '(r, v1) := pt_random v in
  let presetNames := map fst presets in
  match jindex (jfloor (r *! jofnat (length presetNames))) >>= fun i => nth_error presetNames i with
  | Some randomPreset => applyPreset_ui randomPreset true now s v1 u
  | None => (s, v1, u)
  end.

(** A toggle followed by [updatePresetDisplay()] (lines 597-602). *)
Definition toggle_ui (v1 : V) (s : pm) (u : ui) : pm * V * ui :=
  match updatePresetDisplay s v1 u with
  | Some u1 => (s, v1, u1)
  | None => (s, v1, u)
  end.

(** [handleKeyPress(event)] (lines 585-610). *)
Definition handleKeyPress_ui (ev : keyevent) (now : Z) (s : pm) (v : V) (u : ui) : pm * V * ui :=
  let key := toLowerCase (ev_key ev) in
  if String.eqb (ev_tagName ev) "INPUT" || String.eqb (ev_tagName ev) "TEXTAREA" then (s, v, u)
  else match assoc key keyMap with
       | None => (s, v, u)
       | Some action =>
           if String.eqb action "toggleTrail" then toggle_ui (pt_toggleTrail v) s u
           else if String.eqb action "toggleKaleidoscope" then toggle_ui (pt_toggleSymmetry v) s u
           else if String.eqb action "randomize" then randomizePreset_ui now s v u
           else match assoc action presets with
                | Some _ => applyPreset_ui action true now s v u
                | None => (s, v, u)
                end
       end.

(** The events: a key, an animation frame (which never touches the
    page) and the event loop reaching a time. *)
Inductive ui_event : Type := UKey (ev : keyevent) (now : Z) | UFrame (t : Z) | UTick (now : Z).

Definition ui_step (e : ui_event) (svu : pm * V * ui) : pm * V * ui :=
  let '(s, v, u) := svu in
  match e with
  | UKey ev now => handleKeyPress_ui ev now s v u
  | UFrame t => let '(s1, v1) := pm_frame t s v in (s1, v1, u)
  | UTick now => (s, v, ptick (2 * length (ptimers u)) now u)
  end.

Definition run_ui (es : list ui_event) (svu : pm * V * ui) : pm * V * ui :=
  fold_left (fun svu e => ui_step e svu) es svu.

End Handler.

Section Phase.
Context {V : Type} `{PT : PresetTarget V}.

(** The trail flag along a transition to [p] started with the flag [b]:
    while it runs the visualizer keeps [b]; once over, it has [p]'s. *)
Definition trail_phase (p : preset) (b : bool) (sv : pm * V) : Prop :=
  (exists a, pending (fst sv) = Some a /\ a_target a = p /\ isTransitioning (fst sv) = true /\ pt_trail (snd sv) = b)
  \/ (isTransitioning (fst sv) = false /\ pending (fst sv) = None /\ pt_trail (snd sv) = p_trailEffect p).

End Phase.

(** ** The indicators after a transition *)

Section Indicators.
Context {V : Type} {PT : PresetTarget V} {PL : PresetTargetLaws V}.

Lemma pm_frame_phase p b t (sv : pm * V) :
  trail_phase p b sv -> trail_phase p b (pm_frame t (fst sv) (snd sv)).
Proof.
  destruct sv as [s v]. unfold trail_phase. cbn [fst snd].
  intros [(a & Hp & Ha & Hi & Hb)|(Hi & Hp & Hb)]; unfold pm_frame; rewrite Hp; [|right; auto].
  destruct (Z.lt_ge_cases (t - transitionStart s) 1000) as [L|L].
  - rewrite animate_early by exact L. left. exists a. cbn [fst snd pending isTransitioning]. rewrite trail_setRadius. auto.
  - rewrite animate_late by exact L. right. cbn [fst snd pending isTransitioning].
    split; [reflexivity | split; [reflexivity|]]. rewrite <- Ha.
    exact (proj1 (proj2 (applyPresetImmediate_spec _ _))).
Qed.

Lemma applyPreset_phase name p now s (v : V) :
  assoc name presets = Some p -> isTransitioning s = false -> String.eqb (currentPreset s) name = false ->
  currentPreset (fst (applyPreset name true now s v)) = name /\
  pt_trail (snd (applyPreset name true now s v)) = pt_trail v /\
  trail_phase p (pt_trail v) (applyPreset name true now s v).
Proof.
  intros A T E. unfold applyPreset. rewrite A, T, E. cbn [andb negb]. unfold smoothTransition.
  rewrite animate_early by (cbn; lia). cbn [fst snd]. rewrite trail_setRadius.
  split; [reflexivity | split; [reflexivity|]].
  left. eexists. cbn. rewrite trail_setRadius. split; [reflexivity | auto].
Qed.

Lemma run_frames_phase p b ts (svu : pm * V * ui) :
  trail_phase p b (fst svu) ->
  snd (run_ui (map UFrame ts) svu) = snd svu /\ trail_phase p b (fst (run_ui (map UFrame ts) svu)).
Proof.
  revert svu. induction ts as [|t ts IH]; intros [[s v] u] H; [split; [reflexivity | exact H]|].
  cbn [map run_ui fold_left]. fold (run_ui (map UFrame ts) (ui_step (UFrame t) (s, v, u))).
  pose proof (pm_frame_phase p b t (s, v) H) as H1. cbn [ui_step fst snd] in H1 |- *.
  destruct (pm_frame t s v) as [s1 v1]. destruct (IH (s1, v1, u) H1) as [E H2]. split; [exact E | exact H2].
Qed.

(** C36: after an animated switch to preset [p], the trail indicator is
    written once, from the visualizer's flag before the switch, and no
    frame updates it: once the transition is over the visualizer has
    [p]'s flag while the indicator still shows the old one. *)
Theorem trail_indicator_stale name p now s (v : V) u ts :
  assoc name presets = Some p -> isTransitioning s = false -> String.eqb (currentPreset s) name = false ->
  hasTrailInd u = true ->
  let svu := run_ui (map UFrame ts) (applyPreset_ui name true now s v u) in
  trailOpacity (snd svu) = Some (opacity (pt_trail v)) /\
  (isTransitioning (fst (fst svu)) = false -> pt_trail (snd (fst svu)) = p_trailEffect p).
Proof.
  intros A T E Ht svu. destruct (applyPreset_phase name p now s v A T E) as (C & Hb & Ph).
  unfold svu, applyPreset_ui. rewrite A, T.
  destruct (applyPreset name true now s v) as [s1 v1]. cbn [fst snd] in C, Hb.
  assert (G : getCurrentPreset s1 = Some p) by (unfold getCurrentPreset; rewrite C; exact A).
  unfold updatePresetDisplay. rewrite G, andb_false_r.
  destruct (run_frames_phase p (pt_trail v) ts
              (s1, v1, showPresetNotification p now (highlightActivePreset name
                 (set_display (if hasDisplay u then option_map p_name (Some p) else display u)
                    (if hasTrailInd u then Some (opacity (pt_trail v1)) else trailOpacity u)
                    (if hasSymInd u then Some (opacity (pt_symmetry v1)) else symOpacity u) u)))
              Ph) as [Eu Ph'].
  rewrite Eu. split; [cbn; rewrite Ht, Hb; reflexivity|].
  intros Hi. destruct Ph' as [(a & _ & _ & Hi' & _)|(_ & _ & Hp)]; [congruence | exact Hp].
Qed.

End Indicators.

Lemma trail_indicator_stale_witness :
  assoc "neural" presets = Some neural_preset /\
  let svu := run_ui (map UFrame [500; 1000]%Z)
               (applyPreset_ui "neural" true 0 (mkpm "cosmic" false 0 None) (initial_view (fun _ => 0%Q)) demo_ui) in
  trailOpacity (snd svu) = Some (opacity (pt_trail (initial_view (fun _ => 0%Q)))) /\
  (isTransitioning (fst (fst svu)) = false -> pt_trail (snd (fst svu)) = p_trailEffect neural_preset).
Proof.
  split; [reflexivity|].
  exact (trail_indicator_stale "neural" neural_preset 0 (mkpm "cosmic" false 0 None) (initial_view (fun _ => 0%Q))
           demo_ui [500; 1000]%Z eq_refl eq_refl eq_refl eq_refl).
Defined.

(** From cosmic (trail on) to neural (trail off): once the transition is
    over, the indicator reads ['1'] and the trail is off. *)
Example stale_trail_indicator_example :
  let svu := run_ui [UKey {| ev_key := "2"; ev_tagName := "BODY" |} 0; UFrame 500; UFrame 1000]
               (mkpm "cosmic" false 0 None, initial_view (fun _ => 0%Q), demo_ui) in
  isTransitioning (fst (fst svu)) = false /\ pt_trail (snd (fst svu)) = false /\
  trailOpacity (snd svu) = Some "1".
Proof. vm_compute. repeat split. Qed.

End PresetUI.
