(* ===== verification/Visualizer.v ===== *)
(** * The [Visualizer] object: one frame of [update] (src/README.md)

    [vis] is the state of the object that [update] (lines 667-730) reads
    and writes: the audio-reactive intensities, the gesture state (freeze,
    pulse, palette), the camera and its shake, the visual mode, and the
    particle [field] of [Particles].  [update] runs, in the order of the
    code: [time += 0.01]; the intensities from the bands;
    [processGestureCommands] (861-876) when commands are given;
    [updateCameraShake] (901-917); the spike intensity and spiral angle;
    the mode's particle loop, or [updateParticleColors] when frozen;
    [updateCamera] (922-936); [applyRadialSymmetry] (941-964) when on.

    The pulse animation of [triggerPulse] (881-896) is a chain of
    [requestAnimationFrame] callbacks: [pendingDecays] counts the
    [decayPulse] callbacks scheduled for the next animation frame, and
    [animationFrame_pulse] runs them, each once, as the browser does
    before the frame; a callback scheduled by one of them waits for the
    following frame.  Two chains run side by side when [triggerPulse] is
    called while one is still pending.

    [Math.random] has one cursor, kept in [rng] of the particle field:
    the camera shake draws before the particle loop of the same frame.

    [update] returns [None] when the frame throws: the palette lookup
    [this.colorPalettes[paletteNames[this.currentPalette]]] is
    [undefined] outside [0..2] and the loop's first read of [hueBase]
    throws a [TypeError].  The writes the loop made to particle 0 before
    that read are not kept in the model.

    The target index of [applyRadialSymmetry] is computed in binary64
    (Rocq's primitive floats), since a non-integer index makes the typed
    array drop the write; the coordinates themselves are [jsnum]s. *)

From Stdlib Require Import QArith Qround Lqa ZArith List Lia Bool Floats Uint63.
From S2P Require Import Prelude JsMath FeatureExtractor GestureController Particles Modes.
Import ListNotations.

Local Open Scope js_scope.

(** The fields the gesture gate and the pulse write (lines 520-523). *)
Record gate : Type := {
  isFrozen : bool;
  pulseEffect : bool;
  pulseIntensity : jsnum;
  pendingDecays : nat;           (* decayPulse callbacks scheduled *)
  currentPalette : nat
}.

(** The fields of the camera and its shake (lines 509-512, 538-539) and
    [this.camera.position]. *)
Record cam : Type := {
  cameraAngle : jsnum;
  cameraRadius : jsnum;
  cameraHeight : jsnum;
  cameraShake : vec3;
  cameraShakeIntensity : jsnum;
  camera : vec3
}.

Record vis : Type := {
  isRunning : bool;
  time : jsnum;
  bassIntensity : jsnum;
  midIntensity : jsnum;
  trebleIntensity : jsnum;
  vgate : gate;
  vcam : cam;
  trailEffect : bool;
  radialSymmetry : bool;
  symmetrySegments : nat;
  visualMode : mode;
  particleConnections : list connection;
  spiralAngle : jsnum;
  spiralTightness : jsnum;
  spikeIntensity : jsnum;
  particleCount : nat;
  particles : field
}.

(** ** The pulse *)

(** The body of [decayPulse] (lines 886-894). *)
Definition decayPulse (g : gate) : gate :=
  let i := pulseIntensity g *! num 0.85 in
  if i >! num 0.1
  then {| isFrozen := isFrozen g; pulseEffect := pulseEffect g; pulseIntensity := i;
          pendingDecays := S (pendingDecays g); currentPalette := currentPalette g |}
  else {| isFrozen := isFrozen g; pulseEffect := false; pulseIntensity := num 0;
          pendingDecays := pendingDecays g; currentPalette := currentPalette g |}.

(** [triggerPulse(intensity)] (lines 881-896): set the pulse, then call
    [decayPulse()] at once. *)
Definition triggerPulse (intensity : jsnum) (g : gate) : gate :=
  decayPulse {| isFrozen := isFrozen g; pulseEffect := true; pulseIntensity := intensity +! num 1.5;
                pendingDecays := pendingDecays g; currentPalette := currentPalette g |}.

(** The callbacks of one animation frame: the [k] scheduled [decayPulse]
    calls run in turn; those they schedule are for the next frame. *)
Definition animationFrame_pulse (g : gate) : gate :=
  Nat.iter (pendingDecays g) decayPulse
    {| isFrozen := isFrozen g; pulseEffect := pulseEffect g; pulseIntensity := pulseIntensity g;
       pendingDecays := 0; currentPalette := currentPalette g |}.

(** [processGestureCommands(commands, beat, beatIntensity)] (lines
    861-876). *)
Definition processGestureCommands (c : commands) (beatIntensity : jsnum) (g : gate) : gate :=
  let g1 := {| isFrozen := cmd_freeze c; pulseEffect := pulseEffect g; pulseIntensity := pulseIntensity g;
               pendingDecays := pendingDecays g; currentPalette := currentPalette g |} in
  let g2 := if cmd_pulse c && negb (pulseEffect g1) then triggerPulse beatIntensity g1 else g1 in
  if negb (Nat.eqb (cmd_colorPalette c) (currentPalette g2))
  then {| isFrozen := isFrozen g2; pulseEffect := pulseEffect g2; pulseIntensity := pulseIntensity g2;
          pendingDecays := pendingDecays g2; currentPalette := cmd_colorPalette c |}
  else g2.

(** ** The camera *)

Section Frame.

Context `{M : JsMath} (rnd : tape).

(** [updateCameraShake(bassIntensity, beat)] (lines 901-917), drawing
    from [Math.random] at cursor [r]. *)
Definition updateCameraShake (bass : jsnum) (beat : bool) (c : cam) (r : nat) : cam * nat :=
  let si := if beat then bass *! num 10 else cameraShakeIntensity c in
  let si := si *! num 0.9 in
  let '(shake, r') :=
    if si >! num 0.1 then
      (mkv ((random_at rnd r -! num 0.5) *! si) ((random_at rnd (r + 1) -! num 0.5) *! si)
           ((random_at rnd (r + 2) -! num 0.5) *! si), (r + 3)%nat)
    else (vzero, r) in
  ({| cameraAngle := cameraAngle c; cameraRadius := cameraRadius c; cameraHeight := cameraHeight c;
      cameraShake := shake; cameraShakeIntensity := si; camera := camera c |}, r').

(** [updateCamera(audioIntensity)] (lines 922-936); [bassI] is
    [this.bassIntensity]. *)
Definition updateCamera (audioIntensity bassI : jsnum) (c : cam) : cam :=
  let angle := cameraAngle c +! (num 0.002 +! audioIntensity *! num 0.001) in
  let dynamicRadius := cameraRadius c +! audioIntensity *! num 50 in
  let dynamicHeight := cameraHeight c +! bassI *! num 30 in
  {| cameraAngle := angle; cameraRadius := cameraRadius c; cameraHeight := cameraHeight c;
     cameraShake := cameraShake c; cameraShakeIntensity := cameraShakeIntensity c;
     camera := mkv (m_cos angle *! dynamicRadius +! vx (cameraShake c))
                   (dynamicHeight +! vy (cameraShake c))
                   (m_sin angle *! dynamicRadius +! vz (cameraShake c)) |}.

(** ** Radial symmetry *)

(** The index arithmetic of [applyRadialSymmetry] is done in IEEE-754
    binary64, because which writes happen depends on its rounding: the
    operands are the counts and loop counters (integers far below
    [2^53], exact as doubles), and [+], [*], [/] are the primitive
    floating-point operations. *)
Definition f64_of_nat (n : nat) : float := PrimFloat.of_uint63 (Uint63.of_Z (Z.of_nat n)).

(** The element a number names as a key of a typed array: a non-negative
    integer ([-0] is the key ["0"]); any other number is a canonical
    numeric key that names no element. *)
Definition f64_index (x : float) : option nat :=
  match Prim2SF x with
  | SpecFloat.S754_zero _ => Some O
  | SpecFloat.S754_finite false m e =>
      if (0 <=? e)%Z then Some (Z.to_nat (Z.shiftl (Zpos m) e))
      else if (Z.land (Zpos m) (Z.ones (- e)) =? 0)%Z then Some (Z.to_nat (Z.shiftr (Zpos m) (- e)))
      else None
  | _ => None
  end.

(** [positions[idx] = v] on a typed array: ignored unless [idx] names an
    element inside the array. *)
Definition ta_set (idx : float) (v : jsnum) (buf : list jsnum) : list jsnum :=
  match f64_index idx with Some n => set_nth n v buf | None => buf end.

(** One iteration of the inner loop of [applyRadialSymmetry] (lines
    951-959): it reads [positions[sourceIdx + 1]] after writing
    [positions[targetIdx]]. *)
Definition symmetry_copy (n segs segment : nat) (cosA sinA : jsnum) (i : nat) (buf : list jsnum) : list jsnum :=
  let sourceIdx := (i * 3)%nat in
  let targetIdx := ((f64_of_nat i + f64_of_nat n / f64_of_nat segs * f64_of_nat segment) * 3)%float in
  let x := buf_at buf sourceIdx in
  let z := buf_at buf (sourceIdx + 2) in
  let buf1 := ta_set targetIdx (x *! cosA -! z *! sinA) buf in
  let buf2 := ta_set (targetIdx + 1)%float (buf_at buf1 (sourceIdx + 1)) buf1 in
  ta_set (targetIdx + 2)%float (x *! sinA +! z *! cosA) buf2.

(** [for (let i = 0; i < this.particleCount / this.symmetrySegments; i++)]:
    the test is on numbers, [N / segs] need not be an integer.  The loop
    stops within [N + 1] rounds for [segs >= 1]. *)
Definition symmetry_inner (n segs segment : nat) (cosA sinA : jsnum) (i : nat) (buf : list jsnum) : option (list jsnum) :=
  if jofnat i <! jofnat n /! jofnat segs
  then Some (symmetry_copy n segs segment cosA sinA i buf) else None.

(** The target index of segment 1 with 2000 particles and 6 segments,
    as the code computes it in doubles. *)
Definition target_2000_6 (i : nat) : float :=
  ((f64_of_nat i + f64_of_nat 2000 / f64_of_nat 6 * f64_of_nat 1) * 3)%float.

(** [applyRadialSymmetry()] (lines 941-964) on the position buffer. *)
Definition applyRadialSymmetry (n segs : nat) (buf : list jsnum) : list jsnum :=
  let segmentAngle := num m_PI *! num 2 /! jofnat segs in
  for_range 1 (segs - 1) (fun segment buf =>
    let angle := segmentAngle *! jofnat segment in
    for_break 0 (S n) (symmetry_inner n segs segment (m_cos angle) (m_sin angle)) buf) buf.

End Frame.

(** ** One frame *)

(** [bands.name] of the object [getFrequencyData] returns. *)
Definition band_get (bs : list (band_name * jsnum)) (n : band_name) : jsnum :=
  match band_value bs n with Some v => v | None => JNaN end.

Definition with_rng (f : field) (r : nat) : field :=
  {| positions := positions f; velocities := velocities f; colors := colors f;
     posBuffer := posBuffer f; sizes := sizes f; rng := r |}.

Definition with_buffer (f : field) (b : list jsnum) : field :=
  {| positions := positions f; velocities := velocities f; colors := colors f;
     posBuffer := b; sizes := sizes f; rng := rng f |}.

(** Whether the particle loop of the frame runs its body at least once,
    and so reads the palette. *)
Definition loop_body_runs (frozen : bool) (m : mode) (n : nat) : bool :=
  if frozen then Nat.ltb 0 n
  else match m with Minimal => Nat.ltb 0 (particlesPerBar n) | _ => Nat.ltb 0 n end.

Section Update.

Context `{M : JsMath} (rnd : tape).

(** Lines 695-718: the mode's loop, or the colours only when frozen; the
    neural mode also replaces the connection list. *)
Definition particle_phase (frozen : bool) (m : mode) (fr : frame) (f : field)
  (conns : list connection) : field * list connection :=
  if frozen then (updateParticleColors fr f, conns)
  else match mode_update rnd m fr f with
       | (f', Some cs) => (f', cs)
       | (f', None) => (f', conns)
       end.

(** Lines 724-726. *)
Definition symmetry_phase (on : bool) (n segs : nat) (f : field) : field :=
  if on then with_buffer f (applyRadialSymmetry n segs (posBuffer f)) else f.

(** [update(audioData, gestureCommands)] (lines 667-730).  [None]: the
    frame throws, the palette being [undefined] and read by the loop.  A
    loop that does not run never reads the palette; the model then passes
    it a palette it does not use. *)
Definition update (ad : audio_data) (cmds : option commands) (v : vis) : option vis :=
  if negb (isRunning v) then Some v else
  let t := time v +! num 0.01 in
  let bass := band_get (bands ad) Bass *! num 2 in
  let mid := band_get (bands ad) Mid *! num 1.5 in
  let treble := band_get (bands ad) Treble *! num 1.2 in
  let g := match cmds with
           | Some c => processGestureCommands c (beatIntensity ad) (vgate v)
           | None => vgate v
           end in
  let '(c1, r1) := updateCameraShake rnd (band_get (bands ad) Bass) (beat ad) (vcam v) (rng (particles v)) in
  let f1 := with_rng (particles v) r1 in
  let spike := band_get (bands ad) Treble *! num 3 in
  let spiral := spiralAngle v +! (num 0.01 +! band_get (bands ad) Bass *! num 0.05) in
  match palette_at (currentPalette g) with
  | None => if loop_body_runs (isFrozen g) (visualMode v) (particleCount v) then None else Some cyberpunk
  | Some p => Some p
  end >>= fun pal =>
  let fr := {| fr_data := frequencyData ad; fr_average := average ad; fr_beat := beat ad;
               fr_beatIntensity := beatIntensity ad; fr_count := particleCount v;
               fr_bass := bass; fr_mid := mid; fr_pulseEffect := pulseEffect g;
               fr_pulseIntensity := pulseIntensity g; fr_time := t; fr_spiralAngle := spiral;
               fr_spiralTightness := spiralTightness v; fr_palette := pal |} in
  let '(f2, conns) := particle_phase (isFrozen g) (visualMode v) fr f1 (particleConnections v) in
  let c2 := updateCamera (average ad) bass c1 in
  let f3 := symmetry_phase (radialSymmetry v) (particleCount v) (symmetrySegments v) f2 in
  Some {| isRunning := true; time := t; bassIntensity := bass; midIntensity := mid;
          trebleIntensity := treble; vgate := g; vcam := c2; trailEffect := trailEffect v;
          radialSymmetry := radialSymmetry v; symmetrySegments := symmetrySegments v;
          visualMode := visualMode v; particleConnections := conns; spiralAngle := spiral;
          spiralTightness := spiralTightness v; spikeIntensity := spike;
          particleCount := particleCount v; particles := f3 |}.

End Update.

(** ** Switches *)

(** A copy of [v] with the four flags and the mode given. *)
Definition with_flags (v : vis) (running trail radial : bool) (m : mode) : vis :=
  {| isRunning := running; time := time v; bassIntensity := bassIntensity v;
     midIntensity := midIntensity v; trebleIntensity := trebleIntensity v; vgate := vgate v;
     vcam := vcam v; trailEffect := trail; radialSymmetry := radial;
     symmetrySegments := symmetrySegments v; visualMode := m;
     particleConnections := particleConnections v; spiralAngle := spiralAngle v;
     spiralTightness := spiralTightness v; spikeIntensity := spikeIntensity v;
     particleCount := particleCount v; particles := particles v |}.

(** [start()] and [stop()] (lines 978-989). *)
Definition start (v : vis) : vis := with_flags v true (trailEffect v) (radialSymmetry v) (visualMode v).
Definition stop (v : vis) : vis := with_flags v false (trailEffect v) (radialSymmetry v) (visualMode v).

(** [setVisualMode(mode)] (lines 994-997). *)
Definition setVisualMode (m : mode) (v : vis) : vis :=
  with_flags v (isRunning v) (trailEffect v) (radialSymmetry v) m.

(** [toggleTrailEffect()] and [toggleRadialSymmetry()] (lines 1311-1327);
    the clear colour of the renderer is not modelled. *)
Definition toggleTrailEffect (v : vis) : vis :=
  with_flags v (isRunning v) (negb (trailEffect v)) (radialSymmetry v) (visualMode v).
Definition toggleRadialSymmetry (v : vis) : vis :=
  with_flags v (isRunning v) (trailEffect v) (negb (radialSymmetry v)) (visualMode v).

(** [new Visualizer(canvasId)] (lines 491-555) and the particle system
    [init] creates (line 588), the cursor of [Math.random] at [r0]; the
    three.js scene, renderer and listeners are not modelled. *)
Definition construct {M : JsMath} (rnd : tape) (r0 : nat) : vis :=
  {| isRunning := false; time := num 0; bassIntensity := num 0; midIntensity := num 0;
     trebleIntensity := num 0;
     vgate := {| isFrozen := false; pulseEffect := false; pulseIntensity := num 0;
                 pendingDecays := 0; currentPalette := 0 |};
     vcam := {| cameraAngle := num 0; cameraRadius := num 150; cameraHeight := num 50;
                cameraShake := vzero; cameraShakeIntensity := num 0;
                camera := mkv (num 0) (num 0) (num 150) |};
     trailEffect := true; radialSymmetry := false; symmetrySegments := 6; visualMode := Cosmic;
     particleConnections := []; spiralAngle := num 0; spiralTightness := num 0.1;
     spikeIntensity := num 0; particleCount := 2000; particles := createParticleSystem rnd 2000 r0 |}.

(** [this.pulseEffect], [this.pulseIntensity] etc. written from outside
    [update]: by the [decayPulse] callbacks or a direct [triggerPulse]. *)
Definition with_gate (v : vis) (g : gate) : vis :=
  {| isRunning := isRunning v; time := time v; bassIntensity := bassIntensity v;
     midIntensity := midIntensity v; trebleIntensity := trebleIntensity v; vgate := g;
     vcam := vcam v; trailEffect := trailEffect v; radialSymmetry := radialSymmetry v;
     symmetrySegments := symmetrySegments v; visualMode := visualMode v;
     particleConnections := particleConnections v; spiralAngle := spiralAngle v;
     spiralTightness := spiralTightness v; spikeIntensity := spikeIntensity v;
     particleCount := particleCount v; particles := particles v |}.

(** ** Sequences of calls *)

(** The calls the rest of the application makes on the object. *)
Inductive vis_op : Type :=
| OpFrame (ad : audio_data) (cmds : option commands)  (* update(audioData, commands) *)
| OpCallbacks                                           (* the decayPulse callbacks of a frame *)
| OpTriggerPulse (i : jsnum)                            (* triggerPulse(i) *)
| OpStart | OpStop
| OpSetMode (m : mode)
| OpToggleTrail | OpToggleSymmetry.

Definition exec_op {M : JsMath} (rnd : tape) (op : vis_op) (v : vis) : option vis :=
  match op with
  | OpFrame ad cmds => update rnd ad cmds v
  | OpCallbacks => Some (with_gate v (animationFrame_pulse (vgate v)))
  | OpTriggerPulse i => Some (with_gate v (triggerPulse i (vgate v)))
  | OpStart => Some (start v)
  | OpStop => Some (stop v)
  | OpSetMode m => Some (setVisualMode m v)
  | OpToggleTrail => Some (toggleTrailEffect v)
  | OpToggleSymmetry => Some (toggleRadialSymmetry v)
  end.

(** The calls in order; [None] once one throws. *)
Fixpoint run_ops {M : JsMath} (rnd : tape) (ops : list vis_op) (v : vis) : option vis :=
  match ops with
  | [] => Some v
  | op :: rest => exec_op rnd op v >>= run_ops rnd rest
  end.

(** A running visualizer over [demo_field]. *)
Definition demo_vis : vis :=
  {| isRunning := true; time := num 0; bassIntensity := num 0; midIntensity := num 0;
     trebleIntensity := num 0;
     vgate := {| isFrozen := false; pulseEffect := false; pulseIntensity := num 0;
                 pendingDecays := 0; currentPalette := 0 |};
     vcam := {| cameraAngle := num 0; cameraRadius := num 150; cameraHeight := num 50;
                cameraShake := vzero; cameraShakeIntensity := num 0; camera := mkv (num 0) (num 0) (num 150) |};
     trailEffect := true; radialSymmetry := false; symmetrySegments := 6; visualMode := Cosmic;
     particleConnections := []; spiralAngle := num 0; spiralTightness := num 0.1;
     spikeIntensity := num 0; particleCount := 2; particles := demo_field |}.

Definition demo_ops : list vis_op :=
  [OpSetMode Minimal;
   OpFrame silent_data (Some {| cmd_freeze := false; cmd_pulse := true; cmd_colorPalette := 1 |});
   OpCallbacks; OpToggleSymmetry; OpFrame silent_data None; OpSetMode Cosmic].

(** [n] animation frames of pulse callbacks. *)
Definition pulse_frames (n : nat) (g : gate) : gate := Nat.iter n animationFrame_pulse g.

(** [2.125 * 0.85^j]: the intensity of a pulse triggered with intensity
    at most 1 is below this after [j] frames. *)
Fixpoint decay_bound (j : nat) : Q :=
  match j with O => 2.125 | S j' => decay_bound j' * 0.85 end.

(** The state of one pulse chain after [j] frames: active with its one
    callback pending, or over. *)
Definition one_chain (j : nat) (g : gate) : Prop :=
  (pendingDecays g = 1%nat /\ pulseEffect g = true /\
   exists y, pulseIntensity g = num y /\ 0.1 < y /\ y <= decay_bound j) \/
  (pendingDecays g = 0%nat /\ pulseEffect g = false /\ pulseIntensity g = num 0).

(** [1.275 * 0.85^j]: every pulse the gate triggers is at least this
    strong after [j] frames while it lasts. *)
Fixpoint decay_floor (j : nat) : Q :=
  match j with O => 1.275 | S j' => decay_floor j' * 0.85 end.

(** ** The particle count never changes *)

Section Shape.

Context {M : JsMath} (rnd : tape).

Lemma length_ta_set (idx : float) (v : jsnum) (buf : list jsnum) : length (ta_set idx v buf) = length buf.
Proof. unfold ta_set. destruct (f64_index idx); [apply length_set_nth | reflexivity]. Qed.

Lemma length_applyRadialSymmetry (n segs : nat) (buf : list jsnum) :
  length (applyRadialSymmetry n segs buf) = length buf.
Proof.
  unfold applyRadialSymmetry. apply (for_range_invariant (fun b => length b = length buf)); [|reflexivity].
  intros segment b _ Hb. apply (for_break_invariant (fun b => length b = length buf)); [|exact Hb].
  intros i s s' _ Hs E. unfold symmetry_inner in E. destruct (_ <! _); [|discriminate].
  injection E as <-. unfold symmetry_copy. rewrite !length_ta_set. exact Hs.
Qed.

Lemma particle_phase_shape (frozen : bool) (m : mode) (fr : frame) (f : field) (conns : list connection) (n : nat) :
  field_shape n f -> field_shape n (fst (particle_phase rnd frozen m fr f conns)).
Proof.
  intros H. unfold particle_phase. destruct frozen; [apply updateParticleColors_shape; exact H|].
  pose proof (mode_update_shape rnd m fr n f H) as Hm.
  destruct (mode_update rnd m fr f) as [f' [cs|]]; exact Hm.
Qed.

Lemma symmetry_phase_shape (on : bool) (n segs : nat) (f : field) :
  field_shape n f -> field_shape n (symmetry_phase on n segs f).
Proof.
  intros H. unfold symmetry_phase. destruct on; [|exact H].
  destruct H as (Hp & Hv & Hc & Hs & Hb). unfold field_shape, with_buffer; cbn [positions velocities colors sizes posBuffer].
  rewrite length_applyRadialSymmetry. auto.
Qed.

Lemma update_shape (ad : audio_data) (cmds : option commands) (v v' : vis) :
  field_shape (particleCount v) (particles v) -> update rnd ad cmds v = Some v' ->
  particleCount v' = particleCount v /\ field_shape (particleCount v') (particles v').
Proof.
  intros H. unfold update. destruct (isRunning v); cbn [negb]; [|intros E; injection E as <-; auto].
  destruct (updateCameraShake _ _ _ _ _) as [c1 r1].
  destruct (match palette_at _ with Some p => Some p | None => _ end) as [pal|]; cbn [obind]; [|discriminate].
  match goal with |- context [particle_phase rnd ?fz ?m ?fr ?f ?cs] =>
    pose proof (particle_phase_shape fz m fr f cs (particleCount v) H) as Hp;
    destruct (particle_phase rnd fz m fr f cs) as [f2 conns] end.
  intros E. injection E as <-. cbn [particleCount particles]. split; [reflexivity|].
  apply symmetry_phase_shape. exact Hp.
Qed.

Lemma exec_op_shape (op : vis_op) (v v' : vis) :
  field_shape (particleCount v) (particles v) -> exec_op rnd op v = Some v' ->
  particleCount v' = particleCount v /\ field_shape (particleCount v') (particles v').
Proof.
  intros H E. destruct op; cbn [exec_op] in E;
    try (apply (update_shape ad cmds v v' H E));
    injection E as <-; split; reflexivity || exact H.
Qed.

End Shape.

(** C11: the particle count invariant of the spec.  After any sequence of
    frames, pulse callbacks and triggers, starts and stops, mode switches
    and toggles that does not throw, [particleCount] is the one of the
    start and every per-particle array still has that many entries, the
    position buffer three times as many. *)
Theorem particle_count_invariant {M : JsMath} (rnd : tape) (ops : list vis_op) (v v' : vis) :
  field_shape (particleCount v) (particles v) -> run_ops rnd ops v = Some v' ->
  particleCount v' = particleCount v /\ field_shape (particleCount v) (particles v').
Proof.
  revert v. induction ops as [|op rest IH]; intros v H E; cbn [run_ops] in E.
  - injection E as <-. auto.
  - destruct (exec_op rnd op v) as [v1|] eqn:E1; cbn [obind] in E; [|discriminate].
    destruct (exec_op_shape rnd op v v1 H E1) as [C1 S1].
    destruct (IH v1 S1 E) as [C2 S2]. rewrite C1 in C2, S2. auto.
Qed.

Lemma particle_count_invariant_witness :
  field_shape (particleCount demo_vis) (particles demo_vis) /\
  exists v', run_ops demo_tape demo_ops demo_vis = Some v' /\
             particleCount v' = particleCount demo_vis /\ field_shape (particleCount demo_vis) (particles v').
Proof.
  assert (Hs : field_shape (particleCount demo_vis) (particles demo_vis)) by (repeat split).
  split; [exact Hs|].
  destruct (run_ops demo_tape demo_ops demo_vis) as [v'|] eqn:E.
  - exists v'. split; [reflexivity|]. exact (particle_count_invariant demo_tape demo_ops demo_vis v' Hs E).
  - vm_compute in E. discriminate E.
Defined.

(** ** The pulse terminates *)

Lemma decayPulse_num (g : gate) (y : Q) :
  pulseIntensity g = num y ->
  decayPulse g =
  if Qltb 0.1 (y * 0.85)
  then {| isFrozen := isFrozen g; pulseEffect := pulseEffect g; pulseIntensity := num (y * 0.85);
          pendingDecays := S (pendingDecays g); currentPalette := currentPalette g |}
  else {| isFrozen := isFrozen g; pulseEffect := false; pulseIntensity := num 0;
          pendingDecays := pendingDecays g; currentPalette := currentPalette g |}.
Proof.
  intros Hy. unfold decayPulse. rewrite Hy, jmul_num, jgt_num.
  replace (Qltb (Qred 0.1) (y * 0.85)) with (Qltb 0.1 (y * 0.85)) by reflexivity. reflexivity.
Qed.

Lemma one_chain_step (j : nat) (g : gate) : one_chain j g -> one_chain (S j) (animationFrame_pulse g).
Proof.
  intros [(Hp & He & y & Hy & H1 & H2) | (Hp & He & Hy)]; unfold animationFrame_pulse; rewrite Hp.
  - cbn [Nat.iter]. rewrite (decayPulse_num _ y) by exact Hy. cbn [pulseEffect].
    destruct (Qltb 0.1 (y * 0.85)) eqn:E.
    + left. cbn [pendingDecays pulseEffect pulseIntensity]. split; [reflexivity|]. split; [exact He|].
      exists (y * 0.85). split; [reflexivity|]. apply Qltb_spec in E. cbn [decay_bound]. split; [exact E | nra].
    + right. repeat split.
  - right. cbn [Nat.iter pendingDecays pulseEffect pulseIntensity]. auto.
Qed.

Lemma one_chain_frames (j n : nat) (g : gate) : one_chain j g -> one_chain (n + j) (pulse_frames n g).
Proof.
  induction n as [|n IH]; intros H; [exact H|].
  change (pulse_frames (S n) g) with (animationFrame_pulse (pulse_frames n g)).
  apply one_chain_step. apply IH. exact H.
Qed.

Lemma triggerPulse_one_chain (g : gate) (q : Q) :
  pendingDecays g = 0%nat -> 0 <= q <= 1 -> one_chain 0 (triggerPulse (num q) g).
Proof.
  intros Hp Hq. unfold triggerPulse. rewrite (decayPulse_num _ (q + 1.5)) by (cbn [pulseIntensity]; apply jadd_num).
  replace (Qltb 0.1 ((q + 1.5) * 0.85)) with true by (symmetry; apply Qltb_spec; lra).
  left. cbn [pendingDecays pulseEffect pulseIntensity]. rewrite Hp. split; [reflexivity|]. split; [reflexivity|].
  exists ((q + 1.5) * 0.85). split; [reflexivity|]. cbn [decay_bound]. split; lra.
Qed.

(** One frame of a single active chain lowers the intensity. *)
Lemma one_chain_decreases (g : gate) (y : Q) :
  pendingDecays g = 1%nat -> pulseIntensity g = num y -> 0 < y ->
  exists y', pulseIntensity (animationFrame_pulse g) = num y' /\ y' < y.
Proof.
  intros Hp Hy Hpos. unfold animationFrame_pulse. rewrite Hp. cbn [Nat.iter].
  rewrite (decayPulse_num _ y) by exact Hy.
  destruct (Qltb 0.1 (y * 0.85)); cbn [pulseIntensity]; eexists; split; try reflexivity; nra.
Qed.

(** C9: a pulse triggered by the gesture gate, with the beat intensity
    [q] in [[0, 1]] and no pulse animation pending, decays geometrically
    and clears itself: while it is active every frame strictly lowers its
    intensity, and after 19 animation frames it is over, [pulseEffect]
    false, [pulseIntensity] exactly 0 and no callback left. *)
Theorem pulse_self_terminates (g : gate) (q : Q) :
  pendingDecays g = 0%nat -> 0 <= q <= 1 ->
  let g0 := triggerPulse (num q) g in
  (forall n y, pulseEffect (pulse_frames n g0) = true -> pulseIntensity (pulse_frames n g0) = num y ->
     exists y', pulseIntensity (pulse_frames (S n) g0) = num y' /\ y' < y) /\
  pulseEffect (pulse_frames 19 g0) = false /\ pulseIntensity (pulse_frames 19 g0) = num 0 /\
  pendingDecays (pulse_frames 19 g0) = 0%nat.
Proof.
  intros Hp Hq g0. pose proof (triggerPulse_one_chain g q Hp Hq) as H0. split.
  - intros n y He Hy. pose proof (one_chain_frames 0 n g0 H0) as Hn. rewrite Nat.add_0_r in Hn.
    destruct Hn as [(Hpn & _ & y0 & Hy0 & H1 & _) | (_ & He' & _)]; [|congruence].
    rewrite Hy in Hy0. apply num_inj in Hy0.
    apply (one_chain_decreases _ y Hpn Hy). lra.
  - pose proof (one_chain_frames 0 19 g0 H0) as H19. rewrite Nat.add_0_r in H19.
    destruct H19 as [(_ & _ & y & _ & H1 & H2) | (Hp' & He & Hi)]; [|auto].
    exfalso. assert (Hb : decay_bound 19 < 0.1) by (vm_compute; reflexivity). lra.
Qed.

Lemma pulse_self_terminates_witness :
  pendingDecays (vgate demo_vis) = 0%nat /\ 0 <= 1 <= 1 /\
  let g0 := triggerPulse (num 1) (vgate demo_vis) in
  (forall n y, pulseEffect (pulse_frames n g0) = true -> pulseIntensity (pulse_frames n g0) = num y ->
     exists y', pulseIntensity (pulse_frames (S n) g0) = num y' /\ y' < y) /\
  pulseEffect (pulse_frames 19 g0) = false /\ pulseIntensity (pulse_frames 19 g0) = num 0 /\
  pendingDecays (pulse_frames 19 g0) = 0%nat.
Proof.
  split; [reflexivity|]. split; [lra|]. apply pulse_self_terminates; [reflexivity | lra].
Defined.

Lemma decay_floor_above : forallb (fun j => Qltb 0.1 (decay_floor j)) (seq 0 16) = true.
Proof. vm_compute. reflexivity. Qed.

Lemma chain_floor (g : gate) (q : Q) (n : nat) :
  pendingDecays g = 0%nat -> 0 <= q -> (n <= 15)%nat ->
  pendingDecays (pulse_frames n (triggerPulse (num q) g)) = 1%nat /\
  pulseEffect (pulse_frames n (triggerPulse (num q) g)) = true /\
  exists y, pulseIntensity (pulse_frames n (triggerPulse (num q) g)) = num y /\ decay_floor n <= y.
Proof.
  intros Hp Hq. induction n as [|n IH]; intros Hn.
  - unfold pulse_frames, triggerPulse. cbn [Nat.iter].
    rewrite (decayPulse_num _ (q + 1.5)) by (cbn [pulseIntensity]; apply jadd_num).
    replace (Qltb 0.1 ((q + 1.5) * 0.85)) with true by (symmetry; apply Qltb_spec; lra).
    cbn [pendingDecays pulseEffect pulseIntensity decay_floor]. rewrite Hp.
    split; [reflexivity|]. split; [reflexivity|]. eexists. split; [reflexivity | lra].
  - destruct IH as (H1 & H2 & y & Hy & Hf); [lia|].
    assert (Ha : Qltb 0.1 (decay_floor (S n)) = true).
    { pose proof decay_floor_above as A. rewrite forallb_forall in A. apply A. apply in_seq. lia. }
    change (pulse_frames (S n) _) with (animationFrame_pulse (pulse_frames n (triggerPulse (num q) g))).
    unfold animationFrame_pulse. rewrite H1. cbn [Nat.iter].
    rewrite (decayPulse_num _ y) by exact Hy.
    apply Qltb_spec in Ha. cbn [decay_floor] in Ha |- *.
    replace (Qltb 0.1 (y * 0.85)) with true by (symmetry; apply Qltb_spec; nra).
    cbn [pendingDecays pulseEffect pulseIntensity]. split; [reflexivity|]. split; [exact H2|].
    eexists. split; [reflexivity | nra].
Qed.

(** The spec bounds the life of a pulse triggered with intensity [I]
    by [ceil(log(0.1 / I) / log(0.85))] ticks, at most 15 for [I <= 1].
    [triggerPulse(intensity)] starts the pulse at [intensity + 1.5]: for
    every intensity [q >= 0] the pulse is still active, its callback
    pending, after 15 animation frames. *)
Theorem pulse_outlasts_spec_bound (g : gate) (q : Q) :
  pendingDecays g = 0%nat -> 0 <= q ->
  pulseEffect (pulse_frames 15 (triggerPulse (num q) g)) = true /\
  pendingDecays (pulse_frames 15 (triggerPulse (num q) g)) = 1%nat.
Proof.
  intros Hp Hq. destruct (chain_floor g q 15 Hp Hq (le_n 15)) as (H1 & H2 & _). auto.
Qed.

Lemma pulse_outlasts_spec_bound_witness :
  pendingDecays (vgate demo_vis) = 0%nat /\ 0 <= 0 /\
  pulseEffect (pulse_frames 15 (triggerPulse (num 0) (vgate demo_vis))) = true /\
  pendingDecays (pulse_frames 15 (triggerPulse (num 0) (vgate demo_vis))) = 1%nat.
Proof.
  split; [reflexivity|]. split; [lra|]. apply pulse_outlasts_spec_bound; [reflexivity | lra].
Defined.

(** ** Freeze *)

Lemma decayPulse_isFrozen (g : gate) : isFrozen (decayPulse g) = isFrozen g.
Proof. unfold decayPulse. destruct (_ >! _); reflexivity. Qed.

Lemma updateParticleColors_positions (fr : frame) (f : field) :
  positions (updateParticleColors fr f) = positions f.
Proof. apply (updateParticleColors_still fr f). Qed.

Lemma updateParticleColors_velocities (fr : frame) (f : field) :
  velocities (updateParticleColors fr f) = velocities f.
Proof. apply (updateParticleColors_still fr f). Qed.

Lemma updateParticleColors_posBuffer (fr : frame) (f : field) :
  posBuffer (updateParticleColors fr f) = posBuffer f.
Proof. apply (updateParticleColors_still fr f). Qed.

(** After the gate, [isFrozen] is the command's [freeze]. *)
Lemma processGestureCommands_isFrozen (c : commands) (bi : jsnum) (g : gate) :
  isFrozen (processGestureCommands c bi g) = cmd_freeze c.
Proof.
  unfold processGestureCommands, triggerPulse.
  destruct (cmd_pulse c && _); destruct (negb _); cbn [isFrozen];
    rewrite ?decayPulse_isFrozen; reflexivity.
Qed.

(** The spec's freeze property.  A frame in which the gate is frozen
    (the command says [freeze], or there is no command and the visualizer
    was frozen) leaves every particle's position and velocity as they
    were, and, with radial symmetry off, the position buffer too; only
    colours and sizes are recomputed. *)
Theorem frozen_frame_keeps_positions {M : JsMath} (rnd : tape) (ad : audio_data)
  (cmds : option commands) (v v' : vis) :
  match cmds with Some c => cmd_freeze c | None => isFrozen (vgate v) end = true ->
  update rnd ad cmds v = Some v' ->
  positions (particles v') = positions (particles v) /\
  velocities (particles v') = velocities (particles v) /\
  (radialSymmetry v = false -> posBuffer (particles v') = posBuffer (particles v)).
Proof.
  intros Hf. unfold update. destruct (isRunning v); cbn [negb]; [|intros E; injection E as <-; auto].
  destruct (updateCameraShake _ _ _ _ _) as [c1 r1].
  destruct (match palette_at _ with Some p => Some p | None => _ end) as [pal|]; cbn [obind]; [|discriminate].
  assert (Hg : isFrozen (match cmds with
                         | Some c => processGestureCommands c (beatIntensity ad) (vgate v)
                         | None => vgate v end) = true)
    by (destruct cmds; [rewrite processGestureCommands_isFrozen|]; exact Hf).
  unfold particle_phase. rewrite Hg.
  intros E. injection E as <-. cbn [particles]. unfold symmetry_phase.
  destruct (radialSymmetry v); cbn [with_buffer positions velocities posBuffer];
    rewrite ?updateParticleColors_positions, ?updateParticleColors_velocities, ?updateParticleColors_posBuffer;
    repeat split; intros; try reflexivity; try discriminate.
Qed.

Lemma frozen_frame_keeps_positions_witness :
  (match Some {| cmd_freeze := true; cmd_pulse := false; cmd_colorPalette := 0 |} with
   | Some c => cmd_freeze c | None => isFrozen (vgate demo_vis) end) = true /\
  exists v', update demo_tape silent_data (Some {| cmd_freeze := true; cmd_pulse := false; cmd_colorPalette := 0 |}) demo_vis = Some v' /\
  positions (particles v') = positions (particles demo_vis) /\
  velocities (particles v') = velocities (particles demo_vis) /\
  (radialSymmetry demo_vis = false -> posBuffer (particles v') = posBuffer (particles demo_vis)).
Proof.
  split; [reflexivity|].
  destruct (update demo_tape silent_data (Some {| cmd_freeze := true; cmd_pulse := false; cmd_colorPalette := 0 |}) demo_vis)
    as [v'|] eqn:E.
  - exists v'. split; [reflexivity|]. exact (frozen_frame_keeps_positions demo_tape silent_data
      (Some {| cmd_freeze := true; cmd_pulse := false; cmd_colorPalette := 0 |}) demo_vis v' eq_refl E).
  - vm_compute in E. discriminate E.
Defined.

(** ** Camera shake *)

Lemma demo_tape_ok : tape_ok demo_tape.
Proof.
  intros n. unfold demo_tape. pose proof (Nat.mod_upper_bound (n * 37 + 11) 100 ltac:(lia)) as H.
  set (m := (n * 37 + 11) mod 100) in *.
  split; unfold Qle, Qlt; cbn [Qnum Qden]; lia.
Qed.

(** [(Math.random() - 0.5) * s] lies in [[-s/2, s/2)]. *)
Lemma shake_axis (rnd : tape) (k : nat) (s : Q) :
  tape_ok rnd -> 0 < s ->
  jval (fun x => - (s / 2) <= x < s / 2) ((random_at rnd k -! num 0.5) *! num s).
Proof.
  intros Hr Hs. unfold random_at. rewrite jsub_num, jmul_num.
  apply jval_num; [intros x y E H; rewrite <- E; exact H|].
  destruct (Hr k) as [H0 H1]. split; apply Qmult_lt_r in Hs || idtac.
  - apply (Qle_trans _ ((0 - 0.5) * s)); [apply Qle_lteq; right; field|]. nra.
  - apply (Qlt_le_trans _ ((1 - 0.5) * s)); [nra|]. apply Qle_lteq; right; field.
Qed.

(** The spec's shake contract.  Whatever the beat and the bass, with
    [s] the decayed shake intensity ([bass * 10] on a beat, else the old
    one, times 0.9): at most 0.1, the offset is exactly zero and no random
    number is drawn; above 0.1, three numbers are drawn and each axis of
    the offset lies in [[-s/2, s/2)]. *)
Theorem camera_shake_snaps (rnd : tape) (bass : jsnum) (beat : bool) (c : cam) (r : nat) (s : Q) :
  tape_ok rnd ->
  (if beat then bass *! num 10 else cameraShakeIntensity c) *! num 0.9 = num s ->
  let '(c', r') := updateCameraShake rnd bass beat c r in
  cameraShakeIntensity c' = num s /\
  (s <= 0.1 -> cameraShake c' = vzero /\ r' = r) /\
  (0.1 < s -> r' = (r + 3)%nat /\
     jval (fun x => - (s / 2) <= x < s / 2) (vx (cameraShake c')) /\
     jval (fun x => - (s / 2) <= x < s / 2) (vy (cameraShake c')) /\
     jval (fun x => - (s / 2) <= x < s / 2) (vz (cameraShake c'))).
Proof.
  intros Hr Hs. unfold updateCameraShake. cbv zeta. rewrite Hs, jgt_num.
  change (Qltb (Qred 0.1) s) with (Qltb 0.1 s).
  destruct (Qltb 0.1 s) eqn:E; cbn [cameraShakeIntensity cameraShake vx vy vz];
    (split; [reflexivity|]); apply Qltb_spec in E || apply Qltb_false in E.
  - split; [intros; lra|]. intros _. split; [reflexivity|].
    repeat split; apply shake_axis; (exact Hr || lra).
  - split; [auto|]. intros; lra.
Qed.

Lemma camera_shake_snaps_witness :
  tape_ok demo_tape /\
  (if true then num 1 *! num 10 else cameraShakeIntensity (vcam demo_vis)) *! num 0.9 = num 9 /\
  let '(c', r') := updateCameraShake demo_tape (num 1) true (vcam demo_vis) 0 in
  cameraShakeIntensity c' = num 9 /\
  (9 <= 0.1 -> cameraShake c' = vzero /\ r' = 0%nat) /\
  (0.1 < 9 -> r' = (0 + 3)%nat /\
     jval (fun x => - (9 / 2) <= x < 9 / 2) (vx (cameraShake c')) /\
     jval (fun x => - (9 / 2) <= x < 9 / 2) (vy (cameraShake c')) /\
     jval (fun x => - (9 / 2) <= x < 9 / 2) (vz (cameraShake c'))).
Proof.
  split; [exact demo_tape_ok|]. split; [reflexivity|].
  apply camera_shake_snaps; [exact demo_tape_ok | reflexivity].
Defined.

(** ** Radial symmetry writes across particles *)

(** For [i <= 178] the doubles round to the exact [3i + 1000], one past a
    particle boundary, and so do [targetIdx + 1] and [targetIdx + 2]. *)
Lemma target_2000_6_integer (i : nat) : (i <= 178)%nat ->
  f64_index (target_2000_6 i) = Some (3 * (333 + i) + 1)%nat /\
  f64_index (target_2000_6 i + 1)%float = Some (3 * (333 + i) + 1 + 1)%nat /\
  f64_index (target_2000_6 i + 2)%float = Some (3 * (333 + i) + 1 + 2)%nat.
Proof.
  intros Hi.
  assert (T : forallb (fun i => match f64_index (target_2000_6 i), f64_index (target_2000_6 i + 1)%float,
                                      f64_index (target_2000_6 i + 2)%float with
                                | Some a, Some b, Some c =>
                                    Nat.eqb a (3 * i + 1000) && Nat.eqb b (3 * i + 1001) && Nat.eqb c (3 * i + 1002)
                                | _, _, _ => false end) (seq 0 179) = true) by (vm_compute; reflexivity).
  pose proof (forallb_seq_In _ 0 179 i T ltac:(lia)) as H. cbv beta in H.
  destruct (f64_index (target_2000_6 i)) as [a|], (f64_index (target_2000_6 i + 1)%float) as [b|],
    (f64_index (target_2000_6 i + 2)%float) as [c|]; try discriminate.
  apply andb_prop in H as [H Hc]. apply andb_prop in H as [Ha Hb].
  apply Nat.eqb_eq in Ha, Hb, Hc. subst. repeat split; f_equal; lia.
Qed.

(** For [179 <= i <= 333] the doubles are not integers: the three
    indices name no element. *)
Lemma target_2000_6_fraction (i : nat) : (179 <= i <= 333)%nat ->
  f64_index (target_2000_6 i) = None /\ f64_index (target_2000_6 i + 1)%float = None /\
  f64_index (target_2000_6 i + 2)%float = None.
Proof.
  intros Hi.
  assert (T : forallb (fun i => match f64_index (target_2000_6 i), f64_index (target_2000_6 i + 1)%float,
                                      f64_index (target_2000_6 i + 2)%float with
                                | None, None, None => true
                                | _, _, _ => false end) (seq 179 155) = true) by (vm_compute; reflexivity).
  pose proof (forallb_seq_In _ 179 155 i T ltac:(lia)) as H. cbv beta in H.
  destruct (f64_index (target_2000_6 i)), (f64_index (target_2000_6 i + 1)%float),
    (f64_index (target_2000_6 i + 2)%float); try discriminate. auto.
Qed.

(** C18: [applyRadialSymmetry] with the default 2000 particles and 6
    segments, segment 1.  [particleCount / symmetrySegments] is not an
    integer, and the target index is computed in doubles.  For source
    particles [i <= 178] it rounds to [3i + 1000]: the rotated x of
    particle [i] is written into the y slot of particle [333 + i] and its
    rotated z into the x slot of particle [334 + i].  For
    [179 <= i <= 333] it is not an integer, the typed array ignores the
    three writes, and the copy leaves the buffer unchanged. *)
Theorem symmetry_copy_misaligned (cosA sinA : jsnum) (i : nat) (buf : list jsnum) :
  let out := symmetry_copy 2000 6 1 cosA sinA i buf in
  let x := buf_at buf (3 * i) in
  let z := buf_at buf (3 * i + 2) in
  ((i <= 178)%nat -> (3 * (334 + i) < length buf)%nat ->
   nth_error out (3 * (333 + i) + 1) = Some (x *! cosA -! z *! sinA) /\
   nth_error out (3 * (334 + i)) = Some (x *! sinA +! z *! cosA)) /\
  ((179 <= i <= 333)%nat -> out = buf).
Proof.
  cbv zeta. unfold symmetry_copy. cbv zeta. fold (target_2000_6 i). split.
  - intros Hi Hl. destruct (target_2000_6_integer i Hi) as (E0 & E1 & E2).
    unfold ta_set. rewrite E0, E1, E2.
    rewrite !nth_error_set_nth, !length_set_nth.
    replace (3 * (333 + i) + 1 + 2)%nat with (3 * (334 + i))%nat by lia.
    rewrite Nat.eqb_refl.
    replace (3 * (334 + i) =? 3 * (333 + i) + 1)%nat with false by (symmetry; apply Nat.eqb_neq; lia).
    replace (3 * (333 + i) + 1 + 1 =? 3 * (333 + i) + 1)%nat with false by (symmetry; apply Nat.eqb_neq; lia).
    replace (3 * (333 + i) + 1 <? length buf)%nat with true by (symmetry; apply Nat.ltb_lt; lia).
    replace (3 * (334 + i) <? length buf)%nat with true by (symmetry; apply Nat.ltb_lt; lia).
    rewrite Nat.eqb_refl, (Nat.mul_comm i 3). split; reflexivity.
  - intros Hi. destruct (target_2000_6_fraction i Hi) as (E0 & E1 & E2).
    unfold ta_set. rewrite E0, E1, E2. reflexivity.
Qed.

Lemma symmetry_copy_misaligned_witness :
  let buf := repeat (num 1) 1005 in
  ((0 <= 178)%nat /\ (3 * (334 + 0) < length buf)%nat /\
   nth_error (symmetry_copy 2000 6 1 (num 0) (num 1) 0 buf) (3 * (333 + 0) + 1) =
     Some (buf_at buf (3 * 0) *! num 0 -! buf_at buf (3 * 0 + 2) *! num 1)) /\
  ((179 <= 200 <= 333)%nat /\ symmetry_copy 2000 6 1 (num 0) (num 1) 200 buf = buf).
Proof.
  intros buf. assert (L : (3 * (334 + 0) < length buf)%nat) by (unfold buf; rewrite repeat_length; lia).
  split.
  - split; [lia|]. split; [exact L|].
    exact (proj1 (proj1 (symmetry_copy_misaligned (num 0) (num 1) 0 buf) ltac:(lia) L)).
  - split; [lia|]. exact (proj2 (symmetry_copy_misaligned (num 0) (num 1) 200 buf) ltac:(lia)).
Defined.

(** The constructor establishes the shape the count invariant keeps. *)
Lemma construct_shape {M : JsMath} (rnd : tape) (r0 : nat) :
  field_shape (particleCount (construct rnd r0)) (particles (construct rnd r0)).
Proof.
  change (particleCount (construct rnd r0)) with 2000%nat.
  change (particles (construct rnd r0)) with (createParticleSystem rnd 2000 r0).
  apply field_ok_shape. exact (proj1 (createParticleSystem_ok rnd 2000 r0)).
Qed.
