(* ===== verification/System.v ===== *)
(** * The components together

    - The [Visualizer] as the target of the [PresetManager]: the
      instance of [PresetTarget] on [vis] (the fields the manager writes,
      [Math.random] through the particle field's cursor) and its laws,
      so that the theorems of [PresetManager] apply to the visualizer.
    - The [GestureController] feeding the [Visualizer]: the commands of
      any reachable controller never make [update] throw.
    - The pulse command held for the 500 ms of the palm's timeout:
      [processGestureCommands] re-triggers the pulse as soon as the
      previous one is over. *)

From Stdlib Require Import QArith Qround Lqa ZArith String List Lia Bool.
From S2P Require Import Prelude JsMath FeatureExtractor GestureController Particles Modes PresetManager Visualizer.
Import ListNotations.

Local Open Scope nat_scope.
Local Open Scope js_scope.

(** ** The visualizer as the preset manager's target *)

(** [this.visualizer.cameraRadius = r] (audio-engine.js lines 654 and
    684). *)
Definition set_cameraRadius (r : jsnum) (v : vis) : vis :=
  let c := vcam v in
  {| isRunning := isRunning v; time := time v; bassIntensity := bassIntensity v;
     midIntensity := midIntensity v; trebleIntensity := trebleIntensity v; vgate := vgate v;
     vcam := {| cameraAngle := cameraAngle c; cameraRadius := r; cameraHeight := cameraHeight c;
                cameraShake := cameraShake c; cameraShakeIntensity := cameraShakeIntensity c;
                camera := camera c |};
     trailEffect := trailEffect v; radialSymmetry := radialSymmetry v;
     symmetrySegments := symmetrySegments v; visualMode := visualMode v;
     particleConnections := particleConnections v; spiralAngle := spiralAngle v;
     spiralTightness := spiralTightness v; spikeIntensity := spikeIntensity v;
     particleCount := particleCount v; particles := particles v |}.

(** [Math.random()] read by the manager: the shared cursor advances. *)
Definition vis_random (rnd : tape) (v : vis) : jsnum * vis :=
  (random_at rnd (rng (particles v)),
   {| isRunning := isRunning v; time := time v; bassIntensity := bassIntensity v;
      midIntensity := midIntensity v; trebleIntensity := trebleIntensity v; vgate := vgate v;
      vcam := vcam v; trailEffect := trailEffect v; radialSymmetry := radialSymmetry v;
      symmetrySegments := symmetrySegments v; visualMode := visualMode v;
      particleConnections := particleConnections v; spiralAngle := spiralAngle v;
      spiralTightness := spiralTightness v; spikeIntensity := spikeIntensity v;
      particleCount := particleCount v; particles := with_rng (particles v) (S (rng (particles v))) |}).

#[export] Instance vis_target (rnd : tape) : PresetTarget vis := {
  pt_mode := visualMode;
  pt_trail := trailEffect;
  pt_symmetry := radialSymmetry;
  pt_radius v := cameraRadius (vcam v);
  pt_setVisualMode := setVisualMode;
  pt_setTrail b v := with_flags v (isRunning v) b (radialSymmetry v) (visualMode v);
  pt_setSymmetry b v := with_flags v (isRunning v) (trailEffect v) b (visualMode v);
  pt_setRadius := set_cameraRadius;
  pt_toggleTrail := toggleTrailEffect;
  pt_toggleSymmetry := toggleRadialSymmetry;
  pt_random := vis_random rnd
}.

#[export] Instance vis_laws (rnd : tape) : PresetTargetLaws vis (H := vis_target rnd).
Proof. split; reflexivity. Qed.

(** ** Gesture commands *)

(** One animation frame of the gate while the same commands are read:
    the pending [decayPulse] callbacks run, then [update] calls
    [processGestureCommands]. *)
Definition gate_frame (c : commands) (bi : jsnum) (g : gate) : gate :=
  processGestureCommands c bi (animationFrame_pulse g).

(** The number of frames, among [n], in which [processGestureCommands]
    calls [triggerPulse]. *)
Fixpoint triggers (n : nat) (c : commands) (bi : jsnum) (g : gate) : nat :=
  match n with
  | O => 0
  | S n' => (if cmd_pulse c && negb (pulseEffect (animationFrame_pulse g)) then 1 else 0)
            + triggers n' c bi (gate_frame c bi g)
  end.

(** The pulse part of the gate. *)
Definition pv (g : gate) : bool * jsnum * nat := (pulseEffect g, pulseIntensity g, pendingDecays g).

(** ** Lemmas *)

Lemma processGestureCommands_palette (c : commands) (bi : jsnum) (g : gate) :
  currentPalette (processGestureCommands c bi g) = cmd_colorPalette c.
Proof.
  unfold processGestureCommands. cbv zeta.
  destruct (Nat.eqb (cmd_colorPalette c) _) eqn:E; cbn [negb currentPalette]; [|reflexivity].
  apply Nat.eqb_eq in E. symmetry. exact E.
Qed.

Lemma palette_at_some (k : nat) : k < 3 -> exists p, palette_at k = Some p.
Proof. intros H. destruct k as [|[|[|k]]]; [eexists; reflexivity..|lia]. Qed.

Lemma decayPulse_pv (g h : gate) : pv g = pv h -> pv (decayPulse g) = pv (decayPulse h).
Proof.
  unfold pv, decayPulse. intros E. injection E as E1 E2 E3. rewrite E1, E2, E3.
  destruct (_ >! _); reflexivity.
Qed.

Lemma animationFrame_pv (g h : gate) : pv g = pv h -> pv (animationFrame_pulse g) = pv (animationFrame_pulse h).
Proof.
  intros E. pose proof E as E'. unfold pv in E'. injection E' as E1 E2 E3.
  unfold animationFrame_pulse. rewrite E3. generalize (pendingDecays h) as k.
  induction k as [|k IH]; cbn [Nat.iter]; [unfold pv; cbn; rewrite E1, E2; reflexivity|].
  apply decayPulse_pv, IH.
Qed.

Lemma process_pv_active (c : commands) (bi : jsnum) (g : gate) :
  pulseEffect g = true -> pv (processGestureCommands c bi g) = pv g.
Proof.
  intros A. unfold processGestureCommands, pv. cbv zeta. cbn [pulseEffect]. rewrite A.
  rewrite andb_false_r. destruct (negb _); reflexivity.
Qed.

Lemma process_pv_trigger (c : commands) (bi : jsnum) (g : gate) :
  cmd_pulse c = true -> pulseEffect g = false -> pv (processGestureCommands c bi g) = pv (triggerPulse bi g).
Proof.
  intros P A. unfold processGestureCommands. cbv zeta. cbn [pulseEffect]. rewrite A, P. cbn [andb negb].
  assert (T : pv (triggerPulse bi {| isFrozen := cmd_freeze c; pulseEffect := false; pulseIntensity := pulseIntensity g;
                                      pendingDecays := pendingDecays g; currentPalette := currentPalette g |})
              = pv (triggerPulse bi g)) by (apply decayPulse_pv; reflexivity).
  destruct (negb _); unfold pv in *; cbn in *; exact T.
Qed.

Lemma triggers_S (n : nat) (c : commands) (bi : jsnum) (g : gate) :
  triggers (S n) c bi g = (if cmd_pulse c && negb (pulseEffect (animationFrame_pulse g)) then 1 else 0)
                          + triggers n c bi (gate_frame c bi g).
Proof. reflexivity. Qed.

(** A chain that is over within [n + 1] frames lets a held pulse
    command trigger again. *)
Lemma triggers_after_chain (n : nat) (c : commands) (bi : jsnum) (g h : gate) :
  cmd_pulse c = true -> pv g = pv h -> pulseEffect (pulse_frames (S n) h) = false ->
  (1 <= triggers (S n) c bi g)%nat.
Proof.
  revert g h. induction n as [|n IH]; intros g h P E F; rewrite triggers_S, P; cbn [andb].
  - pose proof (animationFrame_pv g h E) as Ea. unfold pv in Ea. injection Ea as Ea1 _ _.
    change (pulse_frames 1 h) with (animationFrame_pulse h) in F. rewrite Ea1, F. cbn. lia.
  - destruct (pulseEffect (animationFrame_pulse g)) eqn:A; cbn [negb]; cbv beta iota; [|lia].
    assert (E' : pv (gate_frame c bi g) = pv (animationFrame_pulse h)).
    { unfold gate_frame. rewrite process_pv_active by exact A. apply animationFrame_pv, E. }
    enough (1 <= triggers (S n) c bi (gate_frame c bi g))%nat by lia.
    apply (IH _ (animationFrame_pulse h) P E'). unfold pulse_frames in *.
    rewrite <- Nat.iter_succ_r. exact F.
Qed.

Lemma triggerPulse_pv (bi : jsnum) (g h : gate) :
  pendingDecays g = pendingDecays h -> pv (triggerPulse bi g) = pv (triggerPulse bi h).
Proof. intros E. apply decayPulse_pv. unfold pv; cbn. rewrite E. reflexivity. Qed.

Lemma chain_over_29 (g : gate) (q : Q) :
  pendingDecays g = 0 -> (0 <= q <= 1)%Q -> pulseEffect (pulse_frames 29 (triggerPulse (num q) g)) = false.
Proof.
  intros Hp Hq. pose proof (one_chain_frames 0 29 _ (triggerPulse_one_chain g q Hp Hq)) as C.
  rewrite Nat.add_0_r in C. destruct C as [(_ & _ & y & _ & H1 & H2)|(_ & E & _)]; [|exact E].
  exfalso. assert (B : Qltb (decay_bound 29) (0.1)%Q = true) by (vm_compute; reflexivity).
  apply Qltb_spec in B. apply Qlt_irrefl with (0.1)%Q. apply Qlt_le_trans with y; [exact H1|].
  apply Qle_trans with (decay_bound 29); [exact H2|]. apply Qlt_le_weak, B.
Qed.

(** ** Properties of the composition *)

(** C10: the commands of a reachable [GestureController] never make a
    frame of the [Visualizer] throw: the controller keeps
    [colorPalette] in [0..2], [processGestureCommands] copies it into
    [currentPalette], and the palette lookup of the particle loop is
    then defined, whatever the audio data and the visualizer state. *)
Theorem gesture_commands_never_throw {M : JsMath} (rnd : tape) (s : GestureController.gc)
  (ad : audio_data) (v : vis) :
  GestureController.reachable s -> update rnd ad (Some (GestureController.getCommands s)) v <> None.
Proof.
  intros R. pose proof (GestureController.reachable_palette s R) as Hp.
  unfold update, GestureController.getCommands. destruct (negb (isRunning v)); [discriminate|]. cbv zeta.
  destruct (updateCameraShake _ _ _ _ _) as [c1 r1].
  rewrite processGestureCommands_palette.
  destruct (palette_at_some _ Hp) as [p ->]. cbn [obind].
  destruct (particle_phase _ _ _ _ _ _) as [f2 conns]. discriminate.
Qed.

(** C13: the spec calls the pulse command edge-triggered, but the
    [Visualizer] treats it as a level: while [commands.pulse] stays true
    (the palm's 500 ms timeout, 30 frames at 60 fps),
    [processGestureCommands] calls [triggerPulse] again as soon as the
    previous pulse is over, so a single palm gesture fires at least two
    pulses, for every beat intensity in [[0, 1]]. *)
Theorem held_pulse_retriggers (c : commands) (g : gate) (q : Q) :
  cmd_pulse c = true -> pendingDecays g = 0 -> pulseEffect g = false -> (0 <= q <= 1)%Q ->
  2 <= triggers 30 c (num q) g.
Proof.
  intros P Hp He Hq. rewrite triggers_S, P.
  assert (A : pulseEffect (animationFrame_pulse g) = false)
    by (unfold animationFrame_pulse; rewrite Hp; exact He).
  rewrite A. cbn [andb negb]. cbv beta iota.
  enough (1 <= triggers 29 c (num q) (gate_frame c (num q) g)) by lia.
  apply (triggers_after_chain 28 c (num q) _ (triggerPulse (num q) g) P).
  - unfold gate_frame. rewrite process_pv_trigger by assumption.
    apply triggerPulse_pv. unfold animationFrame_pulse. rewrite Hp. reflexivity.
  - apply chain_over_29; assumption.
Qed.

Lemma held_pulse_retriggers_witness :
  cmd_pulse {| cmd_freeze := false; cmd_pulse := true; cmd_colorPalette := 0 |} = true /\
  2 <= triggers 30 {| cmd_freeze := false; cmd_pulse := true; cmd_colorPalette := 0 |} (num 0.5)
         {| isFrozen := false; pulseEffect := false; pulseIntensity := num 0; pendingDecays := 0; currentPalette := 0 |}.
Proof. split; [reflexivity|]. apply held_pulse_retriggers; [reflexivity..|]. split; discriminate. Defined.

Lemma gesture_commands_never_throw_witness :
  GestureController.reachable (GestureController.gc_step (GestureController.EvInit true) GestureController.construct) /\
  update (M := approx_math) demo_tape silent_data
    (Some (GestureController.getCommands
             (GestureController.gc_step (GestureController.EvInit true) GestureController.construct))) demo_vis <> None.
Proof.
  assert (R : GestureController.reachable
                (GestureController.gc_step (GestureController.EvInit true) GestureController.construct))
    by exact (GestureController.reach_step _ _ GestureController.reach_init).
  split; [exact R|]. exact (gesture_commands_never_throw demo_tape _ silent_data demo_vis R).
Defined.
