(* ===== verification/PerformanceMode.v ===== *)
(** * [PerformanceMode] (src/performance-mode.js)

    The document is a list of elements in document order, each with the
    UI selectors it matches and its inline [style.display]; an element
    is referred to by its position, as the code keeps references to the
    element objects.  [querySelectorAll] returns, at the time of the
    call, the matching positions in document order (a static
    [NodeList]); the loop of [hideUI] reads the live display of each.

    The manager's state holds [isActive], the [hiddenElements] it will
    restore, the particle-count bookkeeping, whether the document is in
    full screen, the indicator element (its generation number, so that
    a fade timeout of an indicator that was removed does nothing to a
    new one), whether the indicator's stylesheet is installed and the
    pending [setTimeout] callbacks.  The visualizer is passed as its
    [particleCount] or [null]; the full-screen request is asynchronous
    and may fail, which the code catches: its outcome is an argument. *)

From Stdlib Require Import QArith Lqa ZArith String List Lia Bool.
From S2P Require Import Prelude.
Import ListNotations.

Local Open Scope string_scope.
Local Open Scope nat_scope.
Local Open Scope list_scope.

(** An element: the UI selectors it matches and [style.display]. *)
Record element : Type := mkel { el_selectors : list string; el_display : string }.

Definition dom : Type := list element.

(** [this.uiSelectors] (lines 15-22). *)
Definition uiSelectors : list string :=
  [".header"; ".control-panel"; ".preset-panel"; "#webcam-preview"; "#gesture-overlay"; "#recording-indicator"].

(** [document.querySelectorAll(selector)]: the positions of the
    matching elements, in document order (from position [k]). *)
Fixpoint qsa_from (sel : string) (k : nat) (d : dom) : list nat :=
  match d with
  | [] => []
  | e :: r => if existsb (String.eqb sel) (el_selectors e) then k :: qsa_from sel (S k) r
              else qsa_from sel (S k) r
  end.

Definition querySelectorAll (sel : string) (d : dom) : list nat := qsa_from sel 0 d.

(** [el.style.display = v] on the element at position [i]. *)
Definition set_display (i : nat) (v : string) (d : dom) : dom :=
  modify_nth i (fun e => mkel (el_selectors e) v) d.

Definition display_at (d : dom) (i : nat) : string :=
  match nth_error d i with Some e => el_display e | None => "" end.

(** The [setTimeout] callbacks the mode schedules: the performance test
    (started at [performance.now() = start], line 186) and the fade of
    indicator number [gen]. *)
Inductive ptimer : Type := PerfTest (start : Q) | IndicatorFade (gen : nat).

Record pmode : Type := mkpmode {
  isActive : bool;
  hiddenElements : list (nat * string);      (* element, originalDisplay *)
  reducedParticles : bool;
  originalParticleCount : nat;
  fullscreen : bool;
  indicator : option (nat * string);         (* generation, style.opacity *)
  indicatorGen : nat;
  stylesInstalled : bool;
  ptimers : list ptimer
}.

(** The constructor (lines 6-25). *)
Definition pm_init : pmode := mkpmode false [] false 0 false None 0 false [].

(** The body of the inner [forEach] of [hideUI] (lines 105-112). *)
Definition hide_one (acc : list (nat * string) * dom) (i : nat) : list (nat * string) * dom :=
  let '(hidden, d) := acc in
  let disp := display_at d i in
  if negb (String.eqb disp "none")
  then (hidden ++ [(i, disp)], set_display i "none" d)
  else (hidden, d).

(** [hideUI()] (lines 100-117). *)
Definition hideUI (d : dom) : list (nat * string) * dom :=
  fold_left (fun acc sel => fold_left hide_one (querySelectorAll sel (snd acc)) acc) uiSelectors ([], d).

(** [showUI()] (lines 122-129). *)
Definition showUI (hidden : list (nat * string)) (d : dom) : dom :=
  fold_left (fun d '(i, orig) => set_display i orig d) hidden d.

Definition with_ui (s : pmode) (active : bool) (hidden : list (nat * string)) : pmode :=
  mkpmode active hidden (reducedParticles s) (originalParticleCount s) (fullscreen s)
          (indicator s) (indicatorGen s) (stylesInstalled s) (ptimers s).

(** [enterFullscreen()] (lines 134-152) once the request settles: [ok]
    when one of the four APIs exists and its promise resolved. *)
Definition enterFullscreen (ok : bool) (s : pmode) : pmode :=
  mkpmode (isActive s) (hiddenElements s) (reducedParticles s) (originalParticleCount s) (fullscreen s || ok)
          (indicator s) (indicatorGen s) (stylesInstalled s) (ptimers s).

(** [exitFullscreen()] (lines 157-173): [supported] when one of the four
    APIs exists. *)
Definition exitFullscreen (supported : bool) (s : pmode) : pmode :=
  mkpmode (isActive s) (hiddenElements s) (reducedParticles s) (originalParticleCount s)
          (fullscreen s && negb supported) (indicator s) (indicatorGen s) (stylesInstalled s) (ptimers s).

(** [applyOptimizations(visualizer)] (lines 178-203) at time [now]. *)
Definition applyOptimizations (vis : option nat) (now : Q) (s : pmode) : pmode :=
  match vis with
  | None => s
  | Some count =>
      mkpmode (isActive s) (hiddenElements s) (reducedParticles s) count (fullscreen s)
              (indicator s) (indicatorGen s) (stylesInstalled s) (ptimers s ++ [PerfTest now])
  end.

(** [restoreOptimizations(visualizer)] (lines 208-217): the new
    [visualizer.particleCount]. *)
Definition restoreOptimizations (vis : option nat) (s : pmode) : pmode * option nat :=
  match vis with
  | None => (s, vis)
  | Some count =>
      if reducedParticles s
      then (mkpmode (isActive s) (hiddenElements s) false (originalParticleCount s) (fullscreen s)
                    (indicator s) (indicatorGen s) (stylesInstalled s) (ptimers s),
            Some (originalParticleCount s))
      else (s, vis)
  end.

(** [showIndicator()] (lines 222-277): the old indicator is removed, a
    new one appended, the stylesheet installed once, and its fade
    scheduled after 3 s. *)
Definition showIndicator (s : pmode) : pmode :=
  let gen := S (indicatorGen s) in
  mkpmode (isActive s) (hiddenElements s) (reducedParticles s) (originalParticleCount s) (fullscreen s)
          (Some (gen, "")) gen true (ptimers s ++ [IndicatorFade gen]).

(** [hideIndicator()] (lines 282-287). *)
Definition hideIndicator (s : pmode) : pmode :=
  mkpmode (isActive s) (hiddenElements s) (reducedParticles s) (originalParticleCount s) (fullscreen s)
          None (indicatorGen s) (stylesInstalled s) (ptimers s).

(** [enter(visualizer)] (lines 44-66) at time [now]; [fsok] is the
    outcome of the full-screen request. *)
Definition enter (vis : option nat) (now : Q) (fsok : bool) (s : pmode) (d : dom) : pmode * dom :=
  if isActive s then (s, d)
  else
    let '(hidden, d1) := hideUI d in
    (showIndicator (applyOptimizations vis now (enterFullscreen fsok (with_ui s true hidden))), d1).

(** [exit(visualizer)] (lines 71-95); [fsapi] says whether the browser
    has a full-screen API.  The visualizer's new particle count is
    returned as well. *)
Definition exit (vis : option nat) (fsapi : bool) (s : pmode) (d : dom) : pmode * dom * option nat :=
  if negb (isActive s) then (s, d, vis)
  else
    let d1 := showUI (hiddenElements s) d in
    let s1 := exitFullscreen fsapi (with_ui s false []) in
    let '(s2, vis') := restoreOptimizations vis s1 in
    (hideIndicator s2, d1, vis').

(** [toggle(visualizer)] (lines 292-298). *)
Definition toggle (vis : option nat) (now : Q) (fsok fsapi : bool) (s : pmode) (d : dom) : pmode * dom * option nat :=
  if isActive s then exit vis fsapi s d else let '(s', d') := enter vis now fsok s d in (s', d', vis).

(** The [keydown] listener of [init()] (lines 30-39): Escape exits,
    without a visualizer. *)
Definition onKeydown (key : string) (fsapi : bool) (s : pmode) (d : dom) : pmode * dom :=
  if String.eqb key "Escape" && isActive s
  then let '(s', d', _) := exit None fsapi s d in (s', d')
  else (s, d).

(** The earliest pending timeout fires at [performance.now() = now]:
    the performance test compares the time since its start with one
    frame at 60 fps (lines 187-197); the fade sets the opacity of its
    own indicator (lines 273-276). *)
Definition fireTimer (now : Q) (s : pmode) : pmode :=
  match ptimers s with
  | [] => s
  | PerfTest start :: ts =>
      mkpmode (isActive s) (hiddenElements s) (reducedParticles s || Qltb 16.67 (now - start))
              (originalParticleCount s) (fullscreen s) (indicator s) (indicatorGen s) (stylesInstalled s) ts
  | IndicatorFade gen :: ts =>
      let ind := match indicator s with
                 | Some (g, _) => if Nat.eqb g gen then Some (g, "0") else indicator s
                 | None => None
                 end in
      mkpmode (isActive s) (hiddenElements s) (reducedParticles s) (originalParticleCount s) (fullscreen s)
              ind (indicatorGen s) (stylesInstalled s) ts
  end.

(** [isPerformanceMode()] (lines 303-305). *)
Definition isPerformanceMode (s : pmode) : bool := isActive s.

(** What [hideUI] maintains while it runs: showing the elements hidden
    so far gives back the original document [d], and they all have
    display ["none"]. *)
Definition hide_inv (d : dom) (acc : list (nat * string) * dom) : Prop :=
  showUI (fst acc) (snd acc) = d /\ map el_selectors (snd acc) = map el_selectors d /\
  forall j, In j (map fst (fst acc)) -> display_at (snd acc) j = "none".

(** A page: the header, the control and preset panels, the webcam
    preview of a running gesture controller, the gesture overlay (hidden)
    and the canvas. *)
Definition demo_dom : dom :=
  [mkel [".header"] ""; mkel [".control-panel"] "flex"; mkel [".preset-panel"] "";
   mkel ["#webcam-preview"] "block"; mkel ["#gesture-overlay"] "none"; mkel ["canvas"] "block"].

(** ** The document *)

Lemma nth_error_set_display (i j : nat) (v : string) (d : dom) :
  nth_error (set_display i v d) j =
  if Nat.eqb i j then option_map (fun e => mkel (el_selectors e) v) (nth_error d j) else nth_error d j.
Proof. apply nth_error_modify_nth. Qed.

Lemma set_display_comm (i j : nat) (a b : string) (d : dom) :
  i <> j -> set_display i a (set_display j b d) = set_display j b (set_display i a d).
Proof.
  intros H. apply list_eq_nth_error. intros k. rewrite !nth_error_set_display.
  destruct (Nat.eqb_spec i k), (Nat.eqb_spec j k); subst; try lia; reflexivity.
Qed.

Lemma set_display_overwrite (i : nat) (a b : string) (d : dom) :
  set_display i a (set_display i b d) = set_display i a d.
Proof.
  apply list_eq_nth_error. intros k. rewrite !nth_error_set_display.
  destruct (Nat.eqb i k); [destruct (nth_error d k)|]; reflexivity.
Qed.

Lemma set_display_same (i : nat) (d : dom) : set_display i (display_at d i) d = d.
Proof.
  apply list_eq_nth_error. intros k. rewrite nth_error_set_display. unfold display_at.
  destruct (Nat.eqb_spec i k); [subst|reflexivity].
  destruct (nth_error d k) as [[sels disp]|]; reflexivity.
Qed.

Lemma display_at_set_display (i j : nat) (v : string) (d : dom) :
  display_at (set_display i v d) j = if Nat.eqb i j then (if Nat.ltb j (length d) then v else "") else display_at d j.
Proof.
  unfold display_at. rewrite nth_error_set_display.
  destruct (Nat.eqb i j); [|reflexivity].
  destruct (nth_error d j) eqn:E.
  - replace (Nat.ltb j (length d)) with true; [reflexivity|].
    symmetry. apply Nat.ltb_lt, nth_error_Some. congruence.
  - replace (Nat.ltb j (length d)) with false; [reflexivity|].
    symmetry. apply Nat.ltb_ge, nth_error_None, E.
Qed.

Lemma selectors_set_display (i : nat) (v : string) (d : dom) :
  map el_selectors (set_display i v d) = map el_selectors d.
Proof.
  apply list_eq_nth_error. intros k. rewrite !nth_error_map, nth_error_set_display.
  destruct (Nat.eqb i k); [destruct (nth_error d k)|]; reflexivity.
Qed.

Lemma length_set_display (i : nat) (v : string) (d : dom) : length (set_display i v d) = length d.
Proof. apply length_modify_nth. Qed.

Lemma qsa_from_selectors (sel : string) (k : nat) (d d' : dom) :
  map el_selectors d = map el_selectors d' -> qsa_from sel k d = qsa_from sel k d'.
Proof.
  revert k d'. induction d as [|e r IH]; intros k [|e' r'] H; cbn in *; try discriminate; [reflexivity|].
  injection H as He Hr. rewrite He, (IH _ _ Hr). reflexivity.
Qed.

Lemma qsa_from_range (sel : string) (k i : nat) (d : dom) :
  In i (qsa_from sel k d) -> k <= i < k + length d.
Proof.
  revert k. induction d as [|e r IH]; intros k H; cbn in *; [contradiction|].
  destruct (existsb _ _); [destruct H as [<-|H]; [lia|]|]; specialize (IH _ H); lia.
Qed.

Lemma showUI_app (h1 h2 : list (nat * string)) (d : dom) : showUI (h1 ++ h2) d = showUI h2 (showUI h1 d).
Proof. unfold showUI. apply fold_left_app. Qed.

Lemma showUI_set_display (h : list (nat * string)) (i : nat) (v : string) (d : dom) :
  ~ In i (map fst h) -> showUI h (set_display i v d) = set_display i v (showUI h d).
Proof.
  revert d. induction h as [|[j o] h IH]; intros d Hi; [reflexivity|]. cbn in Hi |- *.
  rewrite set_display_comm by tauto. apply IH. tauto.
Qed.

Lemma display_at_showUI (h : list (nat * string)) (i : nat) (d : dom) :
  ~ In i (map fst h) -> display_at (showUI h d) i = display_at d i.
Proof.
  revert d. induction h as [|[j o] h IH]; intros d Hi; [reflexivity|]. cbn in Hi |- *.
  rewrite IH by tauto. rewrite display_at_set_display.
  destruct (Nat.eqb_spec j i); [tauto|reflexivity].
Qed.

(** A later [showUI] erases any write to an element it restores. *)
Lemma showUI_absorb (h : list (nat * string)) (i : nat) (v : string) (d : dom) :
  In i (map fst h) -> showUI h (set_display i v d) = showUI h d.
Proof.
  revert d. induction h as [|[j o] h IH]; intros d Hi; [contradiction|]. cbn in Hi |- *.
  destruct (Nat.eq_dec j i) as [<-|Hji]; [rewrite set_display_overwrite; reflexivity|].
  destruct Hi as [|Hi]; [contradiction|]. rewrite set_display_comm by exact Hji. apply IH, Hi.
Qed.

(** ** [hideUI] and [showUI] *)

Lemma hide_one_inv (d : dom) (acc : list (nat * string) * dom) (i : nat) :
  i < length d -> hide_inv d acc ->
  hide_inv d (hide_one acc i) /\
  (display_at d i <> "none" -> In i (map fst (fst (hide_one acc i)))) /\
  (forall j, In j (map fst (fst acc)) -> In j (map fst (fst (hide_one acc i)))).
Proof.
  destruct acc as [h d']. intros Hi (I1 & I2 & I3). cbn [fst snd] in *.
  assert (Hlen : length d' = length d) by (rewrite <- (length_map el_selectors d'), I2, length_map; reflexivity).
  unfold hide_one. cbv beta iota zeta.
  destruct (String.eqb_spec (display_at d' i) "none") as [En|En]; cbn [negb]; cbv beta iota.
  - split; [split; auto | split; [|auto]]. intros Hd.
    destruct (in_dec Nat.eq_dec i (map fst h)) as [Hin|Hout]; [exact Hin|].
    exfalso. apply Hd. rewrite <- I1, display_at_showUI by exact Hout. exact En.
  - assert (Hout : ~ In i (map fst h)) by (intros Hin; apply En, I3, Hin).
    assert (Hdi : display_at d' i = display_at d i) by (rewrite <- I1, display_at_showUI by exact Hout; reflexivity).
    unfold hide_inv. cbv beta iota delta [fst snd]. split; [split; [|split] | split].
    + rewrite showUI_app, showUI_set_display by exact Hout. rewrite I1. cbn.
      rewrite set_display_overwrite, Hdi. apply set_display_same.
    + rewrite selectors_set_display. exact I2.
    + intros j Hj. rewrite map_app, in_app_iff in Hj. cbn in Hj. rewrite display_at_set_display.
      destruct Hj as [Hj|[<-|[]]].
      * destruct (Nat.eqb_spec i j); [subst; contradiction|]. apply I3, Hj.
      * rewrite Nat.eqb_refl. replace (Nat.ltb i (length d')) with true by (symmetry; apply Nat.ltb_lt; lia).
        reflexivity.
    + intros _. rewrite map_app, in_app_iff. right. left. reflexivity.
    + intros j Hj. rewrite map_app, in_app_iff. left. exact Hj.
Qed.

Lemma hide_fold_inv (d : dom) (L : list nat) (acc : list (nat * string) * dom) :
  (forall i, In i L -> i < length d) -> hide_inv d acc ->
  hide_inv d (fold_left hide_one L acc) /\
  (forall i, In i L -> display_at d i <> "none" -> In i (map fst (fst (fold_left hide_one L acc)))) /\
  (forall j, In j (map fst (fst acc)) -> In j (map fst (fst (fold_left hide_one L acc)))).
Proof.
  revert acc. induction L as [|i L IH]; intros acc HL Hinv; cbn [fold_left]; [split; [exact Hinv|split; [intros _ []|auto]]|].
  destruct (hide_one_inv d acc i (HL i (or_introl eq_refl)) Hinv) as (Hinv' & Hnew & Hmono).
  destruct (IH (hide_one acc i) (fun j Hj => HL j (or_intror Hj)) Hinv') as (Hinv'' & Hin & Hmono').
  split; [exact Hinv''|split].
  - intros j [<-|Hj] Hd; [apply Hmono', Hnew, Hd | apply Hin; assumption].
  - intros j Hj. apply Hmono', Hmono, Hj.
Qed.

Lemma hide_sels_inv (d : dom) (sels : list string) (acc : list (nat * string) * dom) :
  hide_inv d acc ->
  let acc' := fold_left (fun acc sel => fold_left hide_one (querySelectorAll sel (snd acc)) acc) sels acc in
  hide_inv d acc' /\
  (forall sel i, In sel sels -> In i (querySelectorAll sel d) -> display_at d i <> "none" -> In i (map fst (fst acc'))) /\
  (forall j, In j (map fst (fst acc)) -> In j (map fst (fst acc'))).
Proof.
  revert acc. induction sels as [|sel sels IH]; intros acc Hinv; cbn [fold_left].
  { split; [exact Hinv|split; [intros ? ? []|auto]]. }
  assert (Q : querySelectorAll sel (snd acc) = querySelectorAll sel d) by (apply qsa_from_selectors, Hinv).
  rewrite Q.
  destruct (hide_fold_inv d (querySelectorAll sel d) acc
              (fun i Hi => proj2 (qsa_from_range sel 0 i d Hi)) Hinv) as (Hinv1 & Hin1 & Hmono1).
  destruct (IH _ Hinv1) as (Hinv' & Hin' & Hmono'). split; [exact Hinv'|split].
  - intros sel' i [<-|Hs] Hq Hd; [apply Hmono', Hin1; assumption | exact (Hin' sel' i Hs Hq Hd)].
  - intros j Hj. apply Hmono', Hmono1, Hj.
Qed.

Lemma hideUI_spec (d : dom) :
  hide_inv d (hideUI d) /\
  (forall sel i, In sel uiSelectors -> In i (querySelectorAll sel d) -> display_at d i <> "none" ->
     In i (map fst (fst (hideUI d)))).
Proof.
  destruct (hide_sels_inv d uiSelectors ([], d)) as (H1 & H2 & _);
    [split; [reflexivity|split; [reflexivity|intros _ []]] |].
  split; [exact H1 | exact H2].
Qed.

(** ** Properties *)

(** C7: entering and then leaving performance mode gives back the page
    exactly as it was: every UI element that [hideUI] hid gets its
    original inline display back (elements matching several selectors
    are hidden once, elements already hidden are left alone), and the
    mode is inactive with nothing left to restore and no indicator. *)
Theorem enter_exit_restores (vis : option nat) (now : Q) (fsok fsapi : bool) (s : pmode) (d : dom) :
  isActive s = false ->
  let sd := enter vis now fsok s d in
  let r := exit vis fsapi (fst sd) (snd sd) in
  snd (fst r) = d /\ isActive (fst (fst r)) = false /\ hiddenElements (fst (fst r)) = [] /\
  indicator (fst (fst r)) = None.
Proof.
  intros A. unfold enter. rewrite A. destruct (hideUI_spec d) as [(I1 & _ & _) _].
  destruct (hideUI d) as [h d1]. cbn [fst snd] in *. unfold exit. cbn [isActive negb showIndicator
    applyOptimizations enterFullscreen with_ui].
  destruct vis as [count|]; cbn; [destruct (reducedParticles s)|]; cbn; auto.
Qed.

Lemma enter_exit_restores_witness :
  let sd := enter (Some 2000) 0 true pm_init demo_dom in
  let r := exit (Some 2000) true (fst sd) (snd sd) in
  snd (fst r) = demo_dom /\ isActive (fst (fst r)) = false /\ hiddenElements (fst (fst r)) = [] /\
  indicator (fst (fst r)) = None.
Proof. apply enter_exit_restores. reflexivity. Defined.

(** C22: a change made during performance mode to the display of a UI
    element that [hideUI] hid is lost when the mode is left: [exit]
    writes back the display recorded on entry.  For instance
    [GestureController.stop()] sets the webcam preview to ['none'], and
    leaving performance mode afterwards shows the preview of a stopped
    controller again. *)
Theorem exit_discards_display_writes (vis : option nat) (now : Q) (fsok fsapi : bool) (s : pmode) (d : dom)
  (sel : string) (i : nat) (v : string) :
  isActive s = false -> In sel uiSelectors -> In i (querySelectorAll sel d) -> display_at d i <> "none" ->
  let sd := enter vis now fsok s d in
  snd (fst (exit vis fsapi (fst sd) (set_display i v (snd sd)))) = d.
Proof.
  intros A Hs Hq Hd. unfold enter. rewrite A. destruct (hideUI_spec d) as [(I1 & _ & _) Hin].
  specialize (Hin sel i Hs Hq Hd).
  destruct (hideUI d) as [h d1]. cbn [fst snd] in *. unfold exit. cbn [isActive negb showIndicator
    applyOptimizations enterFullscreen with_ui hiddenElements].
  destruct vis as [count|]; cbn [restoreOptimizations]; [destruct (reducedParticles _)|]; cbn [fst snd];
    rewrite showUI_absorb by exact Hin; exact I1.
Qed.

Lemma exit_discards_display_writes_witness :
  let sd := enter None 0 true pm_init demo_dom in
  snd (fst (exit None true (fst sd) (set_display 3 "none" (snd sd)))) = demo_dom.
Proof.
  apply exit_discards_display_writes with (sel := "#webcam-preview");
    [reflexivity | cbn; tauto | cbn; tauto | discriminate].
Defined.

(** The performance test of [applyOptimizations] measures the delay
    of its own [setTimeout(..., 1000)], not a frame: when the callback
    runs, at least 1000 ms after [perfTestStart], the elapsed time always
    exceeds 16.67 ms, so [reducedParticles] is always set, on every
    device. *)
Theorem perf_test_always_reduces (now start : Q) (ts : list ptimer) (s : pmode) :
  ptimers s = PerfTest start :: ts -> (start + 1000 <= now)%Q -> reducedParticles (fireTimer now s) = true.
Proof.
  intros T L. unfold fireTimer. rewrite T. cbn [reducedParticles].
  replace (Qltb 16.67 (now - start)) with true by (symmetry; apply Qltb_spec; lra).
  apply orb_true_r.
Qed.

Lemma perf_test_always_reduces_witness :
  let s := fst (enter (Some 2000) 5%Q true pm_init demo_dom) in
  ptimers s = PerfTest 5%Q :: [IndicatorFade 1] /\ (5 + 1000 <= 1005)%Q /\ reducedParticles (fireTimer 1005%Q s) = true.
Proof.
  split; [reflexivity|]. split; [vm_compute; discriminate|].
  apply perf_test_always_reduces with (start := 5%Q) (ts := [IndicatorFade 1]); [reflexivity | vm_compute; discriminate].
Defined.
