(* ===== verification/Recorder.v ===== *)
(** * [Recorder] (src/recorder.js)

    The recording state machine of lines 1-307 and 544-546.  The
    browser objects are reduced to what the code reads back: each
    [MediaRecorder] is a number with its state (recording or inactive);
    a chunk of [ondataavailable] is its size in bytes; a download is the
    list of chunks of its blob.  [startRecording] is asynchronous: when
    the audio context is suspended it [await]s [resume()] between its
    [isRecording] check and the creation of the recorder, so the model
    splits it at that point.  The pending callbacks are explicit: the
    3-minute auto-stop timeouts (their deadlines, in the order they were
    set), the [onstop] events of the recorders stopped, and the 100 ms
    timer interval.  [Date.now()] is an argument of the events that read
    it.

    The timer text of line 295 is modelled with JavaScript's
    [Number.prototype.toString] on integers (decimal, with a minus sign)
    and [padStart(2, '0')]. *)

From Stdlib Require Import ZArith String Ascii List Lia Bool.
From Stdlib Require Import DecimalString DecimalZ.

From S2P Require Import Prelude JsString.
Import ListNotations.

Local Open Scope string_scope.
Local Open Scope Z_scope.
Local Open Scope list_scope.

Module Recorder.

(** ** The timer text *)

(** The text of the timer interval (lines 291-295): [Math.floor] is
    [Z.div] and [%] is the truncated remainder [Z.rem]. *)
Definition timer_text (recordingDuration : Z) : string :=
  let seconds := recordingDuration / 1000 in
  let minutes := seconds / 60 in
  let secs := Z.rem seconds 60 in
  js_toString minutes ++ ":" ++ padStart2 (js_toString secs).

(** Reading a timer text back in the display format [m:ss]: decimal
    minutes, a colon, then exactly two digits of seconds below 60. *)
Fixpoint split_colon (s : string) : option (string * string) :=
  match s with
  | EmptyString => None
  | String c r => if Ascii.eqb c ":" then Some (EmptyString, r)
                  else option_map (fun '(a, b) => (String c a, b)) (split_colon r)
  end.

Definition is_digit (c : ascii) : bool :=
  Nat.leb 48 (nat_of_ascii c) && Nat.leb (nat_of_ascii c) 57.

Fixpoint all_digits (s : string) : bool :=
  match s with
  | EmptyString => true
  | String c r => is_digit c && all_digits r
  end.

Definition parse_timer (t : string) : option Z :=
  match split_colon t with
  | Some (m, s) =>
      if negb (String.eqb m "") && all_digits m && all_digits s && Nat.eqb (String.length s) 2 then
        match NilZero.int_of_string m, NilZero.int_of_string s with
        | Some a, Some b => if Z.of_int b <? 60 then Some (60 * Z.of_int a + Z.of_int b) else None
        | _, _ => None
        end
      else None
  | None => None
  end.

(** ** The recorder *)

Inductive mrstate : Type := MRRecording | MRInactive.

(** [new Recorder(canvas, audioEngine)] and the fields its methods use
    (lines 6-34).  [mediaRecorders] are all the recorders created, with
    their state; [mediaRecorder] is the one [this.mediaRecorder] holds;
    [timerInterval] says whether [this.timerInterval] holds a handle and
    [liveIntervals] counts the intervals still running, cleared or not. *)
Record recorder : Type := mkrec {
  isRecording : bool;
  recordingStartTime : Z;
  recordingDuration : Z;
  videoMimeType : string;
  recordedChunks : list nat;
  mediaRecorder : option nat;
  mediaRecorders : list (nat * mrstate);
  indicatorDisplay : string;
  timerInterval : bool;
  liveIntervals : nat;
  timerText : string;
  pendingStarts : nat;              (* startRecording awaiting resume() *)
  autoStops : list Z;               (* deadlines of the max-duration timeouts *)
  pendingOnstop : list nat;         (* recorders whose onstop has not fired *)
  downloads : list (list nat)       (* the blobs downloaded *)
}.

Definition set_chunks (c : list nat) (r : recorder) : recorder :=
  mkrec (isRecording r) (recordingStartTime r) (recordingDuration r) (videoMimeType r) c
        (mediaRecorder r) (mediaRecorders r) (indicatorDisplay r) (timerInterval r) (liveIntervals r)
        (timerText r) (pendingStarts r) (autoStops r) (pendingOnstop r) (downloads r).

Definition set_pendingStarts (k : nat) (r : recorder) : recorder :=
  mkrec (isRecording r) (recordingStartTime r) (recordingDuration r) (videoMimeType r) (recordedChunks r)
        (mediaRecorder r) (mediaRecorders r) (indicatorDisplay r) (timerInterval r) (liveIntervals r)
        (timerText r) k (autoStops r) (pendingOnstop r) (downloads r).

Definition set_autoStops (ts : list Z) (r : recorder) : recorder :=
  mkrec (isRecording r) (recordingStartTime r) (recordingDuration r) (videoMimeType r) (recordedChunks r)
        (mediaRecorder r) (mediaRecorders r) (indicatorDisplay r) (timerInterval r) (liveIntervals r)
        (timerText r) (pendingStarts r) ts (pendingOnstop r) (downloads r).

Definition set_onstop (ons : list nat) (r : recorder) : recorder :=
  mkrec (isRecording r) (recordingStartTime r) (recordingDuration r) (videoMimeType r) (recordedChunks r)
        (mediaRecorder r) (mediaRecorders r) (indicatorDisplay r) (timerInterval r) (liveIntervals r)
        (timerText r) (pendingStarts r) (autoStops r) ons (downloads r).

(** [this.maxDuration] (line 15), in ms. *)
Definition maxDuration : Z := 180000.

(** The fields of the constructor (lines 10-31); the indicator does not
    exist yet. *)
Definition rec_construct : recorder :=
  mkrec false 0 0 "video/webm;codecs=vp9" [] None [] "" false 0 "" 0 [] [] [].

(** The candidates of [init()] (lines 47-52). *)
Definition mimeTypes : list string :=
  ["video/webm;codecs=vp9,opus"; "video/webm;codecs=vp8,opus"; "video/webm;codecs=h264,opus"; "video/webm"].

(** [createRecordingUI()] (lines 71-121): the indicator is created
    hidden, its timer showing [0:00]; the rest is styling. *)
Definition createRecordingUI (r : recorder) : recorder :=
  mkrec (isRecording r) (recordingStartTime r) (recordingDuration r) (videoMimeType r) (recordedChunks r)
        (mediaRecorder r) (mediaRecorders r) "none" (timerInterval r) (liveIntervals r) "0:00"
        (pendingStarts r) (autoStops r) (pendingOnstop r) (downloads r).

(** [init()] (lines 39-66): without [window.MediaRecorder] nothing
    happens; otherwise the first supported type, if any, replaces the
    default and the UI is created. *)
Definition init (hasMediaRecorder : bool) (isTypeSupported : string -> bool) (r : recorder) : recorder :=
  if negb hasMediaRecorder then r
  else
    let mime := match find isTypeSupported mimeTypes with Some t => t | None => videoMimeType r end in
    createRecordingUI
      (mkrec (isRecording r) (recordingStartTime r) (recordingDuration r) mime (recordedChunks r)
             (mediaRecorder r) (mediaRecorders r) (indicatorDisplay r) (timerInterval r) (liveIntervals r)
             (timerText r) (pendingStarts r) (autoStops r) (pendingOnstop r) (downloads r)).

(** [startTimer()] (lines 289-297): a new 100 ms interval, its handle
    stored over whatever the field held. *)
Definition startTimer (r : recorder) : recorder :=
  mkrec (isRecording r) (recordingStartTime r) (recordingDuration r) (videoMimeType r) (recordedChunks r)
        (mediaRecorder r) (mediaRecorders r) (indicatorDisplay r) true (S (liveIntervals r))
        (timerText r) (pendingStarts r) (autoStops r) (pendingOnstop r) (downloads r).

(** [stopTimer()] (lines 302-307): the interval of the handle, if any,
    is cleared. *)
Definition stopTimer (r : recorder) : recorder :=
  if timerInterval r
  then mkrec (isRecording r) (recordingStartTime r) (recordingDuration r) (videoMimeType r) (recordedChunks r)
             (mediaRecorder r) (mediaRecorders r) (indicatorDisplay r) false (pred (liveIntervals r))
             (timerText r) (pendingStarts r) (autoStops r) (pendingOnstop r) (downloads r)
  else r.

(** The part of [startRecording()] after the audio context runs (lines
    144-203) at time [now]; [ok] says whether [new MediaRecorder(...)]
    (line 160) accepted the stream and the mime type, otherwise the
    [catch] of line 204 returns [false] with nothing changed.  The new
    recorder resets [recordedChunks] and starts, the indicator shows,
    [startTimer()] runs and the auto-stop timeout is set. *)
Definition start_body (ok : bool) (now : Z) (r : recorder) : bool * recorder :=
  if negb ok then (false, r)
  else
    let id := length (mediaRecorders r) in
    let r1 := mkrec true now (recordingDuration r) (videoMimeType r) [] (Some id)
                    (mediaRecorders r ++ [(id, MRRecording)]) "flex" (timerInterval r) (liveIntervals r)
                    (timerText r) (pendingStarts r) (autoStops r) (pendingOnstop r) (downloads r) in
    let r2 := startTimer r1 in
    (true, set_autoStops (autoStops r2 ++ [now + maxDuration]) r2).

(** [startRecording()] (lines 126-209) up to the [await] of line 141:
    [suspended] is the state of the audio context.  [None]: the call is
    now waiting for [resume()]. *)
Definition startRecording (suspended ok : bool) (now : Z) (r : recorder) : option bool * recorder :=
  if isRecording r then (Some false, r)
  else if suspended then (None, set_pendingStarts (S (pendingStarts r)) r)
  else let '(b, r') := start_body ok now r in (Some b, r').

(** A pending [startRecording()] resumes after [await
    audioContext.resume()]: it does not check [isRecording] again. *)
Definition startResume (ok : bool) (now : Z) (r : recorder) : recorder :=
  match pendingStarts r with
  | O => r
  | S k => snd (start_body ok now (set_pendingStarts k r))
  end.

Definition set_state (id : nat) (st : mrstate) (l : list (nat * mrstate)) : list (nat * mrstate) :=
  map (fun '(j, s) => if Nat.eqb j id then (j, st) else (j, s)) l.

Definition state_of (id : nat) (l : list (nat * mrstate)) : option mrstate :=
  option_map snd (find (fun '(j, _) => Nat.eqb j id) l).

(** [stopRecording()] (lines 214-240): [mediaRecorder.stop()] turns
    the recorder the field holds inactive, when it is not already, and
    queues its [onstop] event; the indicator hides and [stopTimer()]
    runs.  The tracks of the streams are not modelled. *)
Definition stopRecording (r : recorder) : recorder :=
  if negb (isRecording r) then r
  else
    let '(mrs, ons) :=
      match mediaRecorder r with
      | Some id => match state_of id (mediaRecorders r) with
                   | Some MRRecording => (set_state id MRInactive (mediaRecorders r), pendingOnstop r ++ [id])
                   | _ => (mediaRecorders r, pendingOnstop r)
                   end
      | None => (mediaRecorders r, pendingOnstop r)
      end in
    stopTimer
      (mkrec false (recordingStartTime r) (recordingDuration r) (videoMimeType r) (recordedChunks r)
             (mediaRecorder r) mrs "none" (timerInterval r) (liveIntervals r) (timerText r)
             (pendingStarts r) (autoStops r) ons (downloads r)).

(** [ondataavailable] of a recorder (lines 166-170), also delivered
    after [stop()] for the last data: the handler pushes into
    [this.recordedChunks], whichever array the field holds then. *)
Definition onData (size : nat) (r : recorder) : recorder :=
  if Nat.ltb 0 size then set_chunks (recordedChunks r ++ [size]) r else r.

(** [downloadRecording(blob)] (lines 270-284): the blob is saved. *)
Definition downloadRecording (blob : list nat) (r : recorder) : recorder :=
  mkrec (isRecording r) (recordingStartTime r) (recordingDuration r) (videoMimeType r) (recordedChunks r)
        (mediaRecorder r) (mediaRecorders r) (indicatorDisplay r) (timerInterval r) (liveIntervals r)
        (timerText r) (pendingStarts r) (autoStops r) (pendingOnstop r) (downloads r ++ [blob]).

(** [onRecordingComplete()] (lines 245-265): with no chunk it returns;
    otherwise the blob of [this.recordedChunks] is downloaded and the
    chunks are cleared. *)
Definition onRecordingComplete (r : recorder) : recorder :=
  match recordedChunks r with
  | [] => r
  | chunks => set_chunks [] (downloadRecording chunks r)
  end.

(** The earliest pending [onstop] (lines 173-175). *)
Definition onStop (r : recorder) : recorder :=
  match pendingOnstop r with
  | [] => r
  | _ :: ons => onRecordingComplete (set_onstop ons r)
  end.

(** The earliest auto-stop timeout fires (lines 195-200). *)
Definition autoStop (r : recorder) : recorder :=
  match autoStops r with
  | [] => r
  | _ :: ts => let r' := set_autoStops ts r in if isRecording r' then stopRecording r' else r'
  end.

(** One tick of a running timer interval at time [now] (lines 290-296). *)
Definition timerTick (now : Z) (r : recorder) : recorder :=
  if Nat.eqb (liveIntervals r) 0 then r
  else
    let d := now - recordingStartTime r in
    mkrec (isRecording r) (recordingStartTime r) d (videoMimeType r) (recordedChunks r) (mediaRecorder r)
          (mediaRecorders r) (indicatorDisplay r) (timerInterval r) (liveIntervals r) (timer_text d)
          (pendingStarts r) (autoStops r) (pendingOnstop r) (downloads r).

(** [isCurrentlyRecording()] (lines 544-546). *)
Definition isCurrentlyRecording (r : recorder) : bool := isRecording r.

(** The events delivered to the recorder: the calls of the UI, the
    resolution of [resume()], the callbacks of the recorders (data,
    stop, error: lines 178-181 call [stopRecording]), the timeout and
    the interval. *)
Inductive rec_event : Type :=
| RStart (suspended ok : bool) (now : Z)
| RResume (ok : bool) (now : Z)
| RStop
| RData (size : nat)
| ROnstop
| ROnerror
| RAutoStop
| RTick (now : Z).

Definition rec_step (e : rec_event) (r : recorder) : recorder :=
  match e with
  | RStart suspended ok now => snd (startRecording suspended ok now r)
  | RResume ok now => startResume ok now r
  | RStop | ROnerror => stopRecording r
  | RData size => onData size r
  | ROnstop => onStop r
  | RAutoStop => autoStop r
  | RTick now => timerTick now r
  end.

Definition run_rec (es : list rec_event) (r : recorder) : recorder :=
  fold_left (fun r e => rec_step e r) es r.

(** The recorder after [init()] in a browser supporting the first type. *)
Definition rec_init : recorder := init true (fun _ => true) rec_construct.

(** The recorders are numbered in creation order. *)
Definition ids_ok (l : list (nat * mrstate)) : Prop := map fst l = seq 0 (length l).

(** The invariant of the recorder: while [isRecording] holds, the timer
    handle is held and the recorder of [this.mediaRecorder] records;
    the handle is only held while recording, with its interval live. *)
Definition rec_inv (r : recorder) : Prop :=
  ids_ok (mediaRecorders r) /\
  (isRecording r = true -> timerInterval r = true /\
     exists id, mediaRecorder r = Some id /\ state_of id (mediaRecorders r) = Some MRRecording) /\
  (timerInterval r = true -> isRecording r = true /\ (1 <= liveIntervals r)%nat).

(** A recording of one chunk of 5 bytes, started at time 0. *)
Definition demo_rec : recorder := run_rec [RStart false true 0; RData 5] rec_init.

Inductive rec_reachable : recorder -> Prop :=
| rec_reach_init (has : bool) (sup : string -> bool) : rec_reachable (init has sup rec_construct)
| rec_reach_step (e : rec_event) (r : recorder) : rec_reachable r -> rec_reachable (rec_step e r).

(** ** The timer text reads back as the whole seconds elapsed *)

Fixpoint colon_free (s : string) : bool :=
  match s with
  | EmptyString => true
  | String c r => negb (Ascii.eqb c ":") && colon_free r
  end.

Lemma split_colon_app s r :
  colon_free s = true -> split_colon (s ++ ":" ++ r) = Some (s, r).
Proof.
  change (String.append ":" r) with (String ":" r).
  induction s as [|c s IH]; cbn; [reflexivity|].
  intros [Hc Hs]%andb_prop. apply negb_true_iff in Hc. rewrite Hc, IH; auto.
Qed.

Lemma colon_free_uint u : colon_free (NilEmpty.string_of_uint u) = true.
Proof. induction u; exact IHu || reflexivity. Qed.

Lemma all_digits_uint u : all_digits (NilEmpty.string_of_uint u) = true.
Proof. induction u; exact IHu || reflexivity. Qed.

(** [toString] of a non-negative integer is a non-empty string of digits. *)
Lemma digits_toString z :
  0 <= z -> negb (String.eqb (js_toString z) "") && all_digits (js_toString z) = true.
Proof.
  intros Hz. unfold js_toString. destruct z as [|p|p]; [reflexivity| |lia].
  cbn [Z.to_int NilZero.string_of_int]. unfold NilZero.string_of_uint.
  destruct (Pos.to_uint p) eqn:E; try reflexivity; cbn [NilEmpty.string_of_uint String.eqb negb andb];
    apply all_digits_uint.
Qed.

Lemma colon_free_toString z : colon_free (js_toString z) = true.
Proof.
  unfold js_toString. destruct (Z.to_int z) as [u|u]; destruct u; simpl; apply colon_free_uint || reflexivity.
Qed.

Lemma int_of_js_toString z :
  exists a, NilZero.int_of_string (js_toString z) = Some a /\ Z.of_int a = z.
Proof.
  unfold js_toString. pose proof (DecimalZ.of_to z) as Hz.
  destruct (Z.to_int z) as [[]|[]];
    try (eexists; split; [reflexivity | exact Hz]);
    (eexists; split; [apply NilZero.isi; discriminate | exact Hz]).
Qed.

(** Each of the sixty values of [secs] gives two digits that read back. *)
Lemma padded_secs_table :
  forallb (fun n => let t := padStart2 (js_toString (Z.of_nat n)) in
                    all_digits t && Nat.eqb (String.length t) 2 &&
                    match NilZero.int_of_string t with
                    | Some a => Z.eqb (Z.of_int a) (Z.of_nat n)
                    | None => false
                    end) (seq 0 60) = true.
Proof. vm_compute. reflexivity. Qed.

Lemma int_of_padded_secs s :
  0 <= s < 60 ->
  all_digits (padStart2 (js_toString s)) && Nat.eqb (String.length (padStart2 (js_toString s))) 2 = true /\
  exists a, NilZero.int_of_string (padStart2 (js_toString s)) = Some a /\ Z.of_int a = s.
Proof.
  intros Hs. pose proof (proj1 (forallb_forall _ _) padded_secs_table (Z.to_nat s)) as H.
  cbv beta zeta in H. rewrite Z2Nat.id in H by lia.
  specialize (H (proj2 (in_seq 60 0 (Z.to_nat s)) ltac:(lia))).
  apply andb_prop in H as [Hf H]. split; [exact Hf|].
  destruct (NilZero.int_of_string _) as [a|]; [|discriminate].
  exists a. split; [reflexivity | apply Z.eqb_eq, H].
Qed.

(** C24: the text the timer interval writes for a duration [d >= 0] is
    in the format [m:ss] (decimal minutes, a colon, exactly two digits of
    seconds below 60) and reads back as the whole seconds elapsed,
    [Math.floor(d / 1000)]. *)
Theorem timer_text_roundtrip (d : Z) :
  0 <= d -> parse_timer (timer_text d) = Some (d / 1000).
Proof.
  intros Hd. unfold parse_timer, timer_text.
  set (sec := d / 1000).
  assert (Hsec : 0 <= sec) by (apply Z.div_pos; lia).
  rewrite split_colon_app by apply colon_free_toString.
  rewrite Z.rem_mod_nonneg by lia.
  assert (Hb : 0 <= sec mod 60 < 60) by (apply Z.mod_pos_bound; lia).
  destruct (int_of_padded_secs (sec mod 60) Hb) as [Hf [s [Es Hs]]].
  rewrite (digits_toString (sec / 60)) by (apply Z.div_pos; lia).
  rewrite andb_true_l, Hf.
  destruct (int_of_js_toString (sec / 60)) as [m [-> Hm]]. rewrite Es.
  rewrite Hs, (proj2 (Z.ltb_lt _ _) (proj2 Hb)), Hm. f_equal. pose proof (Z.div_mod sec 60). lia.
Qed.

Lemma timer_text_roundtrip_witness :
  0 <= 125400 /\ parse_timer (timer_text 125400) = Some 125.
Proof. split; [lia | apply (timer_text_roundtrip 125400); lia]. Defined.

(** ** The recorders' table *)

Lemma state_of_app n l1 l2 :
  state_of n (l1 ++ l2) = match state_of n l1 with Some s => Some s | None => state_of n l2 end.
Proof.
  unfold state_of. induction l1 as [|[j s] l1 IH]; cbn; [reflexivity|].
  destruct (Nat.eqb j n); [reflexivity | exact IH].
Qed.

Lemma state_of_fresh n l : ~ In n (map fst l) -> state_of n l = None.
Proof.
  unfold state_of. induction l as [|[j s] l IH]; cbn; [reflexivity|].
  intros Hn. destruct (Nat.eqb_spec j n); [tauto | apply IH; tauto].
Qed.

Lemma ids_ok_fresh l n : ids_ok l -> (length l <= n)%nat -> state_of n l = None.
Proof.
  unfold ids_ok. intros Hl Hn. apply state_of_fresh. rewrite Hl, in_seq. lia.
Qed.

Lemma state_of_new l st : ids_ok l -> state_of (length l) (l ++ [(length l, st)]) = Some st.
Proof.
  intros Hl. rewrite state_of_app, ids_ok_fresh by (assumption || lia).
  unfold state_of. cbn -[Nat.eqb]. rewrite Nat.eqb_refl. reflexivity.
Qed.

Lemma ids_ok_snoc l st : ids_ok l -> ids_ok (l ++ [(length l, st)]).
Proof.
  unfold ids_ok. intros Hl. rewrite map_app, Hl, length_app, Nat.add_1_r, seq_S. reflexivity.
Qed.

Lemma map_fst_set_state id st l : map fst (set_state id st l) = map fst l.
Proof.
  induction l as [|[j s] l IH]; cbn; [reflexivity|].
  destruct (Nat.eqb j id); cbn; f_equal; exact IH.
Qed.

Lemma ids_ok_set_state id st l : ids_ok l -> ids_ok (set_state id st l).
Proof.
  unfold ids_ok. rewrite map_fst_set_state. unfold set_state. rewrite length_map. auto.
Qed.

Lemma state_of_set_state_other n id st l :
  n <> id -> state_of n (set_state id st l) = state_of n l.
Proof.
  unfold state_of. intros Hn. induction l as [|[j s] l IH]; cbn; [reflexivity|].
  destruct (Nat.eqb_spec j id) as [->|_]; cbn.
  - assert (E : Nat.eqb id n = false) by (apply Nat.eqb_neq; congruence).
    rewrite E. exact IH.
  - destruct (Nat.eqb j n); [reflexivity | exact IH].
Qed.

(** ** The invariant *)

Lemma start_body_inv ok now r : rec_inv r -> rec_inv (snd (start_body ok now r)).
Proof.
  intros H. unfold start_body. destruct ok; cbn; [|exact H]. destruct H as (Hids & Hrec & Htim).
  split; [apply ids_ok_snoc, Hids|]. split; [|intros _; split; [reflexivity | cbn; lia]].
  intros _. split; [reflexivity|]. exists (length (mediaRecorders r)).
  split; [reflexivity | apply state_of_new, Hids].
Qed.

Lemma stopRecording_inv r : rec_inv r -> rec_inv (stopRecording r).
Proof.
  intros H. unfold stopRecording.
  destruct (isRecording r) eqn:E; cbn; [|exact H]. destruct H as (Hids & Hrec & Htim).
  destruct (Hrec E) as [Ht [id [-> ->]]]. unfold stopTimer. cbn [timerInterval]. rewrite Ht.
  split; [apply ids_ok_set_state, Hids|]. split; discriminate.
Qed.

Lemma rec_step_inv e r : rec_inv r -> rec_inv (rec_step e r).
Proof.
  intros H. destruct e; cbn.
  - unfold startRecording. destruct (isRecording r); [exact H|].
    destruct suspended; [exact H|].
    pose proof (start_body_inv ok now r H). destruct (start_body ok now r); exact H0.
  - unfold startResume. destruct (pendingStarts r); [exact H | apply start_body_inv, H].
  - apply stopRecording_inv, H.
  - unfold onData. destruct (Nat.ltb 0 size); exact H.
  - unfold onStop. destruct (pendingOnstop r); [exact H|].
    unfold onRecordingComplete. cbn [recordedChunks set_onstop]. destruct (recordedChunks r); exact H.
  - apply stopRecording_inv, H.
  - unfold autoStop. destruct (autoStops r); [exact H|].
    destruct (isRecording (set_autoStops l r)); [apply stopRecording_inv|]; exact H.
  - unfold timerTick. destruct (Nat.eqb (liveIntervals r) 0); exact H.
Qed.

Lemma rec_init_inv has sup : rec_inv (init has sup rec_construct).
Proof. destruct has; (split; [reflexivity | split; discriminate]). Qed.

Lemma demo_rec_inv : rec_inv demo_rec.
Proof. apply rec_step_inv, rec_step_inv, rec_init_inv. Qed.

(** C23: in every state the recorder reaches from [init()], while
    [isRecording] holds the timer handle is held and [this.mediaRecorder]
    is a recorder that records; the handle is held only while recording
    and its interval is live; recorders are numbered in creation order. *)
Theorem reachable_rec_inv r : rec_reachable r -> rec_inv r.
Proof.
  induction 1 as [has sup|e r _ IH]; [apply rec_init_inv | apply rec_step_inv, IH].
Qed.

(** ** Stopping and the blob of the recording *)

(** What [stopRecording()] leaves when a recording runs. *)
Lemma stopRecording_running r :
  rec_inv r -> isRecording r = true ->
  exists id, mediaRecorder r = Some id /\ isRecording (stopRecording r) = false /\
             recordedChunks (stopRecording r) = recordedChunks r /\
             pendingOnstop (stopRecording r) = pendingOnstop r ++ [id] /\
             downloads (stopRecording r) = downloads r /\
             autoStops (stopRecording r) = autoStops r /\
             mediaRecorder (stopRecording r) = mediaRecorder r /\
             mediaRecorders (stopRecording r) = set_state id MRInactive (mediaRecorders r) /\
             timerInterval (stopRecording r) = false /\
             liveIntervals (stopRecording r) = pred (liveIntervals r).
Proof.
  intros (_ & Hrec & _) E. destruct (Hrec E) as [Ht [id [Hm Hs]]].
  exists id. unfold stopRecording. rewrite E, Hm, Hs, Ht. repeat split.
Qed.

(** Stopping a recording whose [onstop] is the next to fire hands
    every chunk recorded to [downloadRecording] as one blob, and clears
    the chunks. *)
Theorem stop_then_onstop_downloads r :
  rec_inv r -> isRecording r = true -> pendingOnstop r = [] -> recordedChunks r <> [] ->
  downloads (run_rec [RStop; ROnstop] r) = downloads r ++ [recordedChunks r] /\
  recordedChunks (run_rec [RStop; ROnstop] r) = [].
Proof.
  intros Hi E Hp Hc. destruct (stopRecording_running r Hi E) as (id & _ & _ & Hc' & Hp' & Hd & _).
  unfold run_rec. cbn [fold_left rec_step]. set (s := stopRecording r) in *.
  unfold onStop. rewrite Hp', Hp. cbn [app]. unfold onRecordingComplete. cbn [set_onstop recordedChunks].
  rewrite Hc'. destruct (recordedChunks r) as [|c cs]; [congruence|]. cbn. rewrite Hd. split; reflexivity.
Qed.

(** C25: stopping a recording and starting the next one before the
    stopped recorder's [onstop] fires loses the recording: [startRecording]
    resets [this.recordedChunks], so [onRecordingComplete] finds no
    chunk and downloads nothing, whatever was recorded. *)
Theorem stop_restart_loses_recording r now :
  rec_inv r -> isRecording r = true -> pendingOnstop r = [] ->
  downloads (run_rec [RStop; RStart false true now; ROnstop] r) = downloads r /\
  pendingOnstop (run_rec [RStop; RStart false true now; ROnstop] r) = [] /\
  isRecording (run_rec [RStop; RStart false true now; ROnstop] r) = true.
Proof.
  intros Hi E Hp.
  destruct (stopRecording_running r Hi E) as (id & _ & Hr & _ & Hp' & Hd & _).
  unfold run_rec. cbn [fold_left rec_step]. set (s := stopRecording r) in *.
  unfold startRecording. rewrite Hr. cbn. unfold onStop. cbn. rewrite Hp', Hp. cbn.
  rewrite Hd. repeat split.
Qed.

(** ** The auto-stop timeouts *)

Lemma stopRecording_fields r :
  isRecording (stopRecording r) = false /\
  recordingStartTime (stopRecording r) = recordingStartTime r /\
  autoStops (stopRecording r) = autoStops r.
Proof.
  unfold stopRecording. destruct (isRecording r) eqn:E; cbn.
  - unfold stopTimer. cbn [timerInterval].
    destruct (timerInterval r), (mediaRecorder r) as [id|]; try destruct (state_of id _) as [[]|]; repeat split.
  - split; [exact E | split; reflexivity].
Qed.

(** What [startRecording()] does when no recording runs and the audio
    context runs. *)
Lemma start_idle_fields r now :
  isRecording r = false ->
  let r' := rec_step (RStart false true now) r in
  isRecording r' = true /\ recordingStartTime r' = now /\
  autoStops r' = autoStops r ++ [now + maxDuration] /\ recordedChunks r' = [] /\
  pendingOnstop r' = pendingOnstop r /\ downloads r' = downloads r /\
  mediaRecorder r' = Some (length (mediaRecorders r)) /\
  mediaRecorders r' = mediaRecorders r ++ [(length (mediaRecorders r), MRRecording)] /\
  liveIntervals r' = S (liveIntervals r) /\ timerInterval r' = true.
Proof. intros Hr. cbn. unfold startRecording. rewrite Hr. repeat split. Qed.

Lemma autoStop_recording r t ts :
  autoStops r = t :: ts -> isRecording r = true -> autoStop r = stopRecording (set_autoStops ts r).
Proof. intros Ha Hr. unfold autoStop. rewrite Ha. cbn. rewrite Hr. reflexivity. Qed.

(** C26: the auto-stop timeout of a recording is never cancelled: after
    a recording started at [t0] is stopped and another starts at [t1],
    the first timeout to fire, the one set at [t0], stops the second
    recording, [t1 - t0] ms before its own three minutes; its own
    timeout is still pending. *)
Theorem stale_autostop_cuts_next_recording r t0 t1 :
  isRecording r = false -> autoStops r = [] ->
  let r' := run_rec [RStart false true t0; RStop; RStart false true t1; RAutoStop] r in
  isRecording r' = false /\ recordingStartTime r' = t1 /\ autoStops r' = [t1 + maxDuration].
Proof.
  intros Hr Ha r'. unfold r', run_rec. cbn [fold_left].
  destruct (start_idle_fields r t0 Hr) as (_ & _ & Ha1 & _).
  set (r1 := rec_step (RStart false true t0) r) in *.
  destruct (stopRecording_fields r1) as (Hr2 & _ & Ha2).
  change (rec_step RStop r1) with (stopRecording r1). set (r2 := stopRecording r1) in *.
  destruct (start_idle_fields r2 t1 Hr2) as (Hr3 & Hs3 & Ha3 & _).
  set (r3 := rec_step (RStart false true t1) r2) in *.
  rewrite Ha2, Ha1, Ha in Ha3. cbn [rec_step]. rewrite (autoStop_recording r3 _ _ Ha3 Hr3).
  destruct (stopRecording_fields (set_autoStops [t1 + maxDuration] r3)) as (H1 & H2 & H3).
  rewrite H1, H2, H3. split; [reflexivity | split; [exact Hs3 | reflexivity]].
Qed.

(** ** Starts waiting for the audio context *)

Lemma resume_fields r k now :
  pendingStarts r = S k ->
  let r' := rec_step (RResume true now) r in
  isRecording r' = true /\ pendingStarts r' = k /\
  mediaRecorder r' = Some (length (mediaRecorders r)) /\
  mediaRecorders r' = mediaRecorders r ++ [(length (mediaRecorders r), MRRecording)] /\
  liveIntervals r' = S (liveIntervals r).
Proof. intros Hp. cbn. unfold startResume. rewrite Hp. repeat split. Qed.

(** C27: two clicks on record while the audio context is suspended both
    wait for [resume()] past the [isRecording] check, and both create a
    recorder: after the stop, the first recorder still records and its
    timer interval still runs, with nothing left to stop them. *)
Theorem double_start_leaks_recorder r t t1 t2 :
  rec_inv r -> isRecording r = false -> pendingStarts r = 0%nat ->
  let r' := run_rec [RStart true true t; RStart true true t; RResume true t1; RResume true t2; RStop] r in
  isRecording r' = false /\ timerInterval r' = false /\
  state_of (length (mediaRecorders r)) (mediaRecorders r') = Some MRRecording /\
  liveIntervals r' = S (liveIntervals r).
Proof.
  intros Hi Hr Hp r'. unfold r', run_rec. cbn [fold_left].
  assert (E2 : rec_step (RStart true true t) (rec_step (RStart true true t) r)
               = set_pendingStarts 2 r)
    by (cbn; unfold startRecording; rewrite Hr; cbn; rewrite Hr, Hp; reflexivity).
  rewrite E2.
  destruct (resume_fields (set_pendingStarts 2 r) 1 t1 eq_refl) as (_ & Hp3 & _ & Hm3 & Hl3).
  set (r3 := rec_step (RResume true t1) (set_pendingStarts 2 r)) in *.
  destruct (resume_fields r3 0 t2 Hp3) as (Hr4 & _ & Hm4 & Hms4 & Hl4).
  set (r4 := rec_step (RResume true t2) r3) in *.
  assert (Hi4 : rec_inv r4) by (apply rec_step_inv, rec_step_inv, Hi).
  destruct (stopRecording_running r4 Hi4 Hr4) as (id & Hid & Hs & _ & _ & _ & _ & _ & Hms & Ht & Hl).
  change (mediaRecorders (set_pendingStarts 2 r)) with (mediaRecorders r) in *.
  cbn [rec_step]. rewrite Hs, Ht, Hms, Hl, Hl4, Hl3.
  rewrite Hm4 in Hid. injection Hid as <-. rewrite Hms4, Hm3.
  rewrite state_of_set_state_other by (rewrite length_app; cbn; lia).
  rewrite state_of_app, state_of_new by (destruct Hi; assumption).
  repeat split.
Qed.

(** ** Witnesses *)

Lemma reachable_rec_inv_witness :
  rec_reachable (rec_step RStop demo_rec) /\ rec_inv (rec_step RStop demo_rec).
Proof.
  assert (H : rec_reachable (rec_step RStop demo_rec))
    by (repeat apply rec_reach_step; apply rec_reach_init).
  split; [exact H | apply (reachable_rec_inv _ H)].
Defined.

Lemma stop_then_onstop_downloads_witness :
  rec_inv demo_rec /\ isRecording demo_rec = true /\ pendingOnstop demo_rec = [] /\
  recordedChunks demo_rec <> [] /\
  downloads (run_rec [RStop; ROnstop] demo_rec) = [[5%nat]] /\
  recordedChunks (run_rec [RStop; ROnstop] demo_rec) = [].
Proof.
  assert (Hc : recordedChunks demo_rec <> []) by discriminate.
  destruct (stop_then_onstop_downloads demo_rec demo_rec_inv eq_refl eq_refl Hc) as [H1 H2].
  split; [exact demo_rec_inv | split; [reflexivity | split; [reflexivity | split; [exact Hc | split; [exact H1 | exact H2]]]]].
Defined.

Lemma stop_restart_loses_recording_witness :
  rec_inv demo_rec /\ isRecording demo_rec = true /\ pendingOnstop demo_rec = [] /\
  recordedChunks demo_rec = [5%nat] /\
  downloads (run_rec [RStop; RStart false true 1000; ROnstop] demo_rec) = [] /\
  pendingOnstop (run_rec [RStop; RStart false true 1000; ROnstop] demo_rec) = [] /\
  isRecording (run_rec [RStop; RStart false true 1000; ROnstop] demo_rec) = true.
Proof.
  split; [exact demo_rec_inv | split; [reflexivity | split; [reflexivity | split; [reflexivity|]]]].
  apply (stop_restart_loses_recording demo_rec 1000 demo_rec_inv eq_refl eq_refl).
Defined.

Lemma stale_autostop_cuts_next_recording_witness :
  isRecording rec_init = false /\ autoStops rec_init = [] /\
  let r' := run_rec [RStart false true 0; RStop; RStart false true 60000; RAutoStop] rec_init in
  isRecording r' = false /\ recordingStartTime r' = 60000 /\ autoStops r' = [240000].
Proof.
  split; [reflexivity | split; [reflexivity|]].
  apply (stale_autostop_cuts_next_recording rec_init 0 60000 eq_refl eq_refl).
Defined.

Lemma double_start_leaks_recorder_witness :
  rec_inv rec_init /\ isRecording rec_init = false /\ pendingStarts rec_init = 0%nat /\
  let r' := run_rec [RStart true true 0; RStart true true 0; RResume true 5; RResume true 6; RStop] rec_init in
  isRecording r' = false /\ timerInterval r' = false /\
  state_of 0 (mediaRecorders r') = Some MRRecording /\ liveIntervals r' = 1%nat.
Proof.
  split; [apply rec_init_inv | split; [reflexivity | split; [reflexivity|]]].
  apply (double_start_leaks_recorder rec_init 0 5 6 (rec_init_inv _ _) eq_refl eq_refl).
Defined.

End Recorder.
