(* ===== verification/RecorderExport.v ===== *)
(** * The export half of [Recorder] (src/recorder.js, lines 312-539)

    [exportPreset] builds an object literal from the [Visualizer], the
    [PresetManager] and the [AudioEngine], serialises it with
    [JSON.stringify] and downloads it under a name stamped with
    [new Date().toISOString()]; [captureScreenshot] downloads the canvas;
    [generateShareLink] and [showShareDialog] open the share dialog;
    [showDownloadNotification] shows the file name for 3.3 s.

    JavaScript values are [jsval]; [serialize] is what [JSON.stringify]
    keeps of them (SerializeJSONProperty of ECMA-262: an [undefined]
    member is dropped, [NaN] and the infinities become [null]), as a
    [json] tree; the indentation of the text is not modelled.  The
    schema of the exported document is a [jtype], and [has_type] checks
    a document against it.

    The page is a record of what these methods leave in the document:
    the downloads started, the notifications shown, the share dialogs
    with the [click] listeners their buttons carry, and the pending
    [setTimeout] callbacks.  [document.getElementById] returns the first
    element with the id in document order, which is what makes a second
    share dialog's buttons dead. *)

From Stdlib Require Import QArith ZArith String Ascii List Lia Bool.
From S2P Require Import Prelude JsString BeatDetector FeatureExtractor Modes Visualizer PresetManager.
Import ListNotations.

Local Open Scope nat_scope.
Local Open Scope string_scope.
Local Set Warnings "-register-all".

Module RecorderExport.

(** ** JavaScript values and JSON *)

Inductive jsval : Type :=
| VUndef
| VNull
| VBool (b : bool)
| VNum (n : jsnum)
| VStr (s : string)
| VObj (fields : list (string * jsval)).

Inductive json : Type :=
| jnull
| jbool (b : bool)
| jnumber (q : Q)
| jstring (s : string)
| jobject (members : list (string * json)).

(** SerializeJSONProperty: [undefined] gives no text, so an object
    drops that member; a non-finite number is written [null]. *)
Fixpoint serialize (v : jsval) : option json :=
  match v with
  | VUndef => None
  | VNull => Some jnull
  | VBool b => Some (jbool b)
  | VNum (JNum q) => Some (jnumber q)
  | VNum _ => Some jnull
  | VStr s => Some (jstring s)
  | VObj fs =>
      Some (jobject ((fix members (fs : list (string * jsval)) : list (string * json) :=
                        match fs with
                        | [] => []
                        | (k, x) :: r =>
                            match serialize x with
                            | Some j => (k, j) :: members r
                            | None => members r
                            end
                        end) fs))
  end.

(** The members [JSON.stringify] writes for an object's fields. *)
Fixpoint members (fs : list (string * jsval)) : list (string * json) :=
  match fs with
  | [] => []
  | (k, x) :: r =>
      match serialize x with
      | Some j => (k, j) :: members r
      | None => members r
      end
  end.

(** ** Schemas *)

Inductive jtype : Type :=
| TNull
| TBool
| TNumber
| TString
| TEnum (names : list string)
| TObject (fields : list (string * jtype)).

(** A document has a type: an object has exactly the fields of its
    type, in order. *)
Fixpoint has_type (j : json) (t : jtype) {struct j} : bool :=
  match j, t with
  | jnull, TNull => true
  | jbool _, TBool => true
  | jnumber _, TNumber => true
  | jstring _, TString => true
  | jstring s, TEnum ns => existsb (String.eqb s) ns
  | jobject ms, TObject fts =>
      (fix fields (ms : list (string * json)) (fts : list (string * jtype)) : bool :=
         match ms, fts with
         | [], [] => true
         | (k, j) :: ms', (k', t) :: fts' => String.eqb k k' && has_type j t && fields ms' fts'
         | _, _ => false
         end) ms fts
  | _, _ => false
  end.

(** ** The timestamp *)

(** [s.replace(/[:.]/g, '-')]. *)
Fixpoint replace_colon_dot (s : string) : string :=
  match s with
  | EmptyString => EmptyString
  | String c r =>
      String (if Ascii.eqb c ":" || Ascii.eqb c "." then "-"%char else c) (replace_colon_dot r)
  end.

(** [s.slice(0, -k)]: the end index [length - k], at least [0]. *)
Definition slice_drop_end (k : nat) (s : string) : string := substring 0 (String.length s - k) s.

(** [new Date().toISOString().replace(/[:.]/g, '-').slice(0, -5)]
    (lines 333 and 382) for the ISO string [iso]. *)
Definition file_stamp (iso : string) : string := slice_drop_end 5 (replace_colon_dot iso).

(** ** [exportPreset] *)

(** The value of [visualizer.visualMode]: the mode's name, or the other
    string [other] the mode was set to. *)
Definition mode_string (other : string) (m : mode) : string :=
  match m with
  | Cosmic => "cosmic" | Neural => "neural" | Pulse => "pulse" | Chaos => "chaos"
  | Minimal => "minimal" | OtherMode => other
  end.

(** The object literal of lines 359-377, or [None] when reading
    [this.audioEngine.analyser.fftSize] throws ([analyser] is [null]
    when [initAudioContext] failed).  [trailOpacity] is the visualizer's
    field of that name; [fftSize] and [smoothingTimeConstant] are the
    values [initAudioContext] set (lines 50-51). *)
Definition preset_object (iso other : string) (trailOpacity : jsnum)
    (s : pm) (v : vis) (e : engine) : option (list (string * jsval)) :=
  if negb (analyserReady e) then None
  else Some [
    ("name", VStr (currentPreset s));
    ("timestamp", VStr iso);
    ("settings", VObj [
       ("visualMode", VStr (mode_string other (visualMode v)));
       ("colorPalette", VNum (jofnat (currentPalette (vgate v))));
       ("trailEffect", VBool (trailEffect v));
       ("trailOpacity", VNum trailOpacity);
       ("radialSymmetry", VBool (radialSymmetry v));
       ("symmetrySegments", VNum (jofnat (symmetrySegments v)));
       ("cameraRadius", VNum (cameraRadius (vcam v)));
       ("particleCount", VNum (jofnat (particleCount v)))]);
    ("audioSettings", VObj [
       ("beatThreshold", VNum (num (BeatDetector.beatThreshold (beatConfig e))));
       ("fftSize", VNum (num 2048));
       ("smoothingTimeConstant", VNum (num (8 # 10)))])].

(** What [exportPreset] leaves: the download of the serialised preset
    under its file name, or the [alert] of the [catch]. *)
Inductive export_result : Type :=
| Exported (filename : string) (doc : json)
| Alerted (message : string).

(** [exportPreset(visualizer, presetManager)] (lines 357-399) at the
    ISO time [iso]. *)
Definition exportPreset (iso other : string) (trailOpacity : jsnum)
    (s : pm) (v : vis) (e : engine) : export_result :=
  match preset_object iso other trailOpacity s v e with
  | None => Alerted "Failed to export preset"
  | Some fs =>
      Exported ("SonicCanvas_Preset_" ++ currentPreset s ++ "_" ++ file_stamp iso ++ ".json")
               (jobject (members fs))
  end.

(** The schema of the exported document. *)
Definition preset_schema : jtype :=
  TObject [
    ("name", TEnum (map fst presets));
    ("timestamp", TString);
    ("settings", TObject [
       ("visualMode", TString); ("colorPalette", TNumber); ("trailEffect", TBool);
       ("trailOpacity", TNumber); ("radialSymmetry", TBool); ("symmetrySegments", TNumber);
       ("cameraRadius", TNumber); ("particleCount", TNumber)]);
    ("audioSettings", TObject [("beatThreshold", TNumber); ("fftSize", TNumber);
                               ("smoothingTimeConstant", TNumber)])].

(** ** The page *)

Inductive button : Type := CopyBtn | CloseBtn.

(** The [click] listeners [showShareDialog] adds: the copy handler
    (lines 459-472) and the close handler of the dialog it captured
    (lines 475-477). *)
Inductive handler : Type := HCopy | HClose (d : nat).

(** The [setTimeout] callbacks: [URL.revokeObjectURL] (lines 342 and
    391), the copy button's reset (lines 468-471), the fade-out and the
    removal of a notification (lines 535-538). *)
Inductive timer : Type := TRevoke | TCopyReset (d : nat) | TFade (n : nat) | TRemove (n : nat).

Inductive download : Type :=
| DPng (filename : string) (width height : nat)
| DJson (filename : string) (doc : json).

(** The share dialogs in the body, in document order, the [click]
    listeners on the buttons of each, the copy buttons that read
    ['✓ Copied!'] and what [execCommand('copy')] copied. *)
Record share : Type := mkshare {
  dialogs : list nat;
  nextDialog : nat;
  listeners : list (nat * button * handler);
  copiedLabel : list nat;
  clipboard : list string
}.

Record page : Type := mkpage {
  canvasW : nat;                      (* this.canvas.width *)
  canvasH : nat;                      (* this.canvas.height *)
  downloads : list download;          (* a.click() on a download link, in order *)
  liveUrls : nat;                     (* object URLs not yet revoked *)
  alerts : list string;
  notes : list (nat * string);        (* download notifications in the body *)
  nextNote : nat;
  pendingBlobs : list (nat * nat);    (* canvas.toBlob callbacks to come, with the size *)
  sh : share;
  timers : list (Z * timer)           (* pending setTimeout callbacks by due time *)
}.

(** [setTimeout(cb, delay)] at [now]: the callback joins the queue after
    every callback due no later, which is the order the event loop runs
    them in. *)
Fixpoint insert_timer (due : Z) (tm : timer) (ts : list (Z * timer)) : list (Z * timer) :=
  match ts with
  | [] => [(due, tm)]
  | (d, t) :: r => if Z.leb d due then (d, t) :: insert_timer due tm r else (due, tm) :: ts
  end.

Definition with_timers (ts : list (Z * timer)) (p : page) : page :=
  mkpage (canvasW p) (canvasH p) (downloads p) (liveUrls p) (alerts p) (notes p) (nextNote p)
         (pendingBlobs p) (sh p) ts.

Definition with_share (x : share) (p : page) : page :=
  mkpage (canvasW p) (canvasH p) (downloads p) (liveUrls p) (alerts p) (notes p) (nextNote p)
         (pendingBlobs p) x (timers p).

Definition set_timeout (now delay : Z) (tm : timer) (p : page) : page :=
  with_timers (insert_timer (now + delay) tm (timers p)) p.

(** [showDownloadNotification(filename)] (lines 483-539) at [now]. *)
Definition showDownloadNotification (filename : string) (now : Z) (p : page) : page :=
  set_timeout now 3000 (TFade (nextNote p))
    (mkpage (canvasW p) (canvasH p) (downloads p) (liveUrls p) (alerts p)
            ((notes p ++ [(nextNote p, filename)])%list) (S (nextNote p)) (pendingBlobs p) (sh p) (timers p)).

(** [URL.createObjectURL(blob)], [a.click()] and the revoking timeout
    (lines 336-342 and 385-391). *)
Definition start_download (d : download) (now : Z) (p : page) : page :=
  set_timeout now 100 TRevoke
    (mkpage (canvasW p) (canvasH p) ((downloads p ++ [d])%list) (S (liveUrls p)) (alerts p) (notes p)
            (nextNote p) (pendingBlobs p) (sh p) (timers p)).

(** [captureScreenshot(highRes)] (lines 312-352) up to [canvas.toBlob]:
    the high-resolution canvas is twice the size. *)
Definition captureScreenshot (highRes : bool) (p : page) : page :=
  let size := if highRes then (canvasW p * 2, canvasH p * 2)%nat else (canvasW p, canvasH p) in
  mkpage (canvasW p) (canvasH p) (downloads p) (liveUrls p) (alerts p) (notes p) (nextNote p)
         ((pendingBlobs p ++ [size])%list) (sh p) (timers p).

(** The oldest [toBlob] callback (lines 332-345) at the ISO time [iso]
    and [now].  A canvas with no pixels gives a [null] blob, and
    [URL.createObjectURL(null)] throws in the callback, outside the
    [try]: nothing is downloaded and nothing is shown. *)
Definition blobReady (iso : string) (now : Z) (p : page) : page :=
  match pendingBlobs p with
  | [] => p
  | (w, h) :: rest =>
      let p1 := mkpage (canvasW p) (canvasH p) (downloads p) (liveUrls p) (alerts p) (notes p)
                       (nextNote p) rest (sh p) (timers p) in
      if Nat.eqb w 0 || Nat.eqb h 0 then p1
      else
        let filename := "SonicCanvas_Screenshot_" ++ file_stamp iso ++ ".png" in
        showDownloadNotification filename now (start_download (DPng filename w h) now p1)
  end.

(** [exportPreset] on the page: the download and its notification, or
    the [alert] of the [catch] (lines 395-398). *)
Definition exportPreset_page (iso other : string) (trailOpacity : jsnum) (s : pm) (v : vis)
    (e : engine) (now : Z) (p : page) : page :=
  match exportPreset iso other trailOpacity s v e with
  | Exported filename doc => showDownloadNotification filename now (start_download (DJson filename doc) now p)
  | Alerted m =>
      mkpage (canvasW p) (canvasH p) (downloads p) (liveUrls p) ((alerts p ++ [m])%list) (notes p)
             (nextNote p) (pendingBlobs p) (sh p) (timers p)
  end.

(** The URL of [generateShareLink] (lines 404-410). *)
Definition demoUrl : string := "https://soniccanvas-demo.example.com".

(** [showShareDialog(url)] (lines 415-478): the dialog is appended to the
    body, and both listeners go to the buttons [getElementById] finds:
    those of the first dialog in the document. *)
Definition showShareDialog (x : share) : share :=
  let d := nextDialog x in
  let ds := (dialogs x ++ [d])%list in
  let owner := hd d ds in
  mkshare ds (S d) ((listeners x ++ [(owner, CopyBtn, HCopy); (owner, CloseBtn, HClose d)])%list)
          (copiedLabel x) (clipboard x).

(** One listener run by a click at [now].  The copy handler selects the
    first [#share-url-input] and relabels the first [#copy-link-btn]
    (with no dialog left, [input.select()] throws first). *)
Definition run_handler (now : Z) (h : handler) (p : page) : page :=
  let x := sh p in
  match h with
  | HCopy =>
      match dialogs x with
      | [] => p
      | f :: _ =>
          set_timeout now 2000 (TCopyReset f)
            (with_share (mkshare (dialogs x) (nextDialog x) (listeners x)
                                 (f :: filter (fun d => negb (Nat.eqb d f)) (copiedLabel x))
                                 ((clipboard x ++ [demoUrl])%list)) p)
      end
  | HClose d =>
      with_share (mkshare (filter (fun d' => negb (Nat.eqb d' d)) (dialogs x)) (nextDialog x)
                          (listeners x) (copiedLabel x) (clipboard x)) p
  end.

Definition btn_eqb (a b : button) : bool :=
  match a, b with CopyBtn, CopyBtn | CloseBtn, CloseBtn => true | _, _ => false end.

(** The listeners on dialog [d]'s button [b], in the order added. *)
Definition listeners_on (d : nat) (b : button) (x : share) : list handler :=
  map snd (filter (fun l => Nat.eqb (fst (fst l)) d && btn_eqb (snd (fst l)) b) (listeners x)).

(** A click on button [b] of dialog [d] at [now]: the listeners, fixed
    when the event is dispatched, run in order; a removed dialog cannot
    be clicked. *)
Definition click (d : nat) (b : button) (now : Z) (p : page) : page :=
  if existsb (Nat.eqb d) (dialogs (sh p))
  then fold_left (fun p h => run_handler now h p) (listeners_on d b (sh p)) p
  else p.

(** A timer callback run at its due time [t]. *)
Definition run_timer (t : Z) (tm : timer) (p : page) : page :=
  match tm with
  | TRevoke =>
      mkpage (canvasW p) (canvasH p) (downloads p) (pred (liveUrls p)) (alerts p) (notes p)
             (nextNote p) (pendingBlobs p) (sh p) (timers p)
  | TCopyReset d =>
      let x := sh p in
      with_share (mkshare (dialogs x) (nextDialog x) (listeners x)
                          (filter (fun d' => negb (Nat.eqb d' d)) (copiedLabel x)) (clipboard x)) p
  | TFade n => set_timeout t 300 (TRemove n) p
  | TRemove n =>
      mkpage (canvasW p) (canvasH p) (downloads p) (liveUrls p) (alerts p)
             (filter (fun nf => negb (Nat.eqb (fst nf) n)) (notes p))
             (nextNote p) (pendingBlobs p) (sh p) (timers p)
  end.

(** The event loop reaches [now]: every callback due by then runs, at
    its due time, in order, with [fuel] callbacks at most. *)
Fixpoint tick (fuel : nat) (now : Z) (p : page) : page :=
  match fuel with
  | O => p
  | S k =>
      match timers p with
      | (t, tm) :: rest => if Z.leb t now then tick k now (run_timer t tm (with_timers rest p)) else p
      | [] => p
      end
  end.

(** The callbacks a queue can still run: a fade-out schedules one more. *)
Definition timer_weight (ts : list (Z * timer)) : nat :=
  list_sum (map (fun dt => match snd dt with TFade _ => 2%nat | _ => 1%nat end) ts).

Inductive page_event : Type :=
| EShot (highRes : bool)
| EBlob (iso : string) (now : Z)
| EExport (iso other : string) (trailOpacity : jsnum) (s : pm) (v : vis) (e : engine) (now : Z)
| EShare
| EClick (d : nat) (b : button) (now : Z)
| ETick (now : Z).

Definition page_step (ev : page_event) (p : page) : page :=
  match ev with
  | EShot hr => captureScreenshot hr p
  | EBlob iso now => blobReady iso now p
  | EExport iso other op s v e now => exportPreset_page iso other op s v e now p
  | EShare => with_share (showShareDialog (sh p)) p
  | EClick d b now => click d b now p
  | ETick now => tick (timer_weight (timers p)) now p
  end.

Definition run_page (es : list page_event) (p : page) : page :=
  fold_left (fun p ev => page_step ev p) es p.

(** A page with a [w] by [h] canvas and nothing else. *)
Definition page_init (w h : nat) : page :=
  mkpage w h [] 0 [] [] 0 [] (mkshare [] 0 [] [] []) [].

(** The share dialogs only lose dialogs, and keep their listeners and
    their next id. *)
Definition shrinks (x y : share) : Prop :=
  nextDialog y = nextDialog x /\ listeners y = listeners x /\
  exists P, dialogs y = filter P (dialogs x).

(** While the first dialog is open it is first in the document, and no
    listener sits on the second dialog's buttons. *)
Definition share_inv (x : share) : Prop :=
  1 <= nextDialog x /\
  (In 0 (dialogs x) -> hd_error (dialogs x) = Some 0 /\ Forall (fun l => fst (fst l) <> 1) (listeners x)).

(** The callbacks are queued by due time. *)
Fixpoint sorted_dues (ts : list (Z * timer)) : Prop :=
  match ts with
  | [] => True
  | (d, _) :: r => Forall (fun x => (d <= fst x)%Z) r /\ sorted_dues r
  end.

(** A step keeps the pending callbacks, keeps the notifications it does
    not add (and adds them with fresh ids), and advances the ids. *)
Definition grows (p p' : page) : Prop :=
  nextNote p <= nextNote p' /\ (forall x, In x (timers p) -> In x (timers p')) /\
  (forall k, In k (map fst (notes p')) -> In k (map fst (notes p)) \/ nextNote p <= k).

(** Notification [n], shown, will be gone by [D]: its fade-out or its
    removal is pending in time. *)
Definition note_pending (n : nat) (D : Z) (p : page) : Prop :=
  n < nextNote p /\
  (In n (map fst (notes p)) ->
   (exists d, In (d, TFade n) (timers p) /\ (d + 300 <= D)%Z) \/
   (exists d, In (d, TRemove n) (timers p) /\ (d <= D)%Z)).

(** A string with no [':'] and no ['.']. *)
Fixpoint no_colon_dot (s : string) : bool :=
  match s with
  | EmptyString => true
  | String c r => negb (Ascii.eqb c ":" || Ascii.eqb c ".") && no_colon_dot r
  end.

(** ** Serialisation and the timestamp *)

Lemma serialize_obj fs : serialize (VObj fs) = Some (jobject (members fs)).
Proof. reflexivity. Qed.

Lemma assoc_in_keys {A : Type} (k : string) (l : list (string * A)) :
  assoc k l <> None -> existsb (String.eqb k) (map fst l) = true.
Proof.
  induction l as [|[k' a] l IH]; cbn; [congruence|].
  destruct (String.eqb k k'); [reflexivity | exact IH].
Qed.

Lemma replace_colon_dot_app s t :
  replace_colon_dot (s ++ t) = replace_colon_dot s ++ replace_colon_dot t.
Proof. induction s as [|c s IH]; cbn; [reflexivity | rewrite IH; reflexivity]. Qed.

Lemma replace_colon_dot_id s : no_colon_dot s = true -> replace_colon_dot s = s.
Proof.
  induction s as [|c s IH]; cbn; [reflexivity|]. intros H.
  apply andb_prop in H as [Hc Hs]. apply negb_true_iff in Hc. rewrite Hc, (IH Hs). reflexivity.
Qed.

Lemma length_string_app s t : String.length (s ++ t) = (String.length s + String.length t)%nat.
Proof. induction s as [|c s IH]; cbn; [reflexivity | rewrite IH; reflexivity]. Qed.

Lemma substring_prefix s t : substring 0 (String.length s) (s ++ t) = s.
Proof.
  induction s as [|c s IH]; cbn; [destruct t; reflexivity | rewrite IH; reflexivity].
Qed.

Lemma no_colon_dot_app s t : no_colon_dot (s ++ t) = no_colon_dot s && no_colon_dot t.
Proof. induction s as [|c s IH]; cbn; [reflexivity | rewrite IH, andb_assoc; reflexivity]. Qed.

Lemma string_app_assoc s t u : (s ++ t) ++ u = s ++ t ++ u.
Proof. induction s as [|c s IH]; cbn; [reflexivity | rewrite IH; reflexivity]. Qed.

Lemma slice_drop_end_app p t : slice_drop_end (String.length t) (p ++ t) = p.
Proof.
  unfold slice_drop_end. rewrite length_string_app, Nat.add_sub. apply substring_prefix.
Qed.

(** The time stamp of the downloaded files keeps the date and the
    time up to the seconds of [toISOString()], with ['-'] for [':']: the
    milliseconds and the [Z] are cut, and no [':'] or ['.'] is left. *)
Theorem file_stamp_iso date hh mm ss ms :
  forallb no_colon_dot [date; hh; mm; ss; ms] = true -> String.length ms = 3%nat ->
  file_stamp (date ++ "T" ++ hh ++ ":" ++ mm ++ ":" ++ ss ++ "." ++ ms ++ "Z")
  = date ++ "T" ++ hh ++ "-" ++ mm ++ "-" ++ ss.
Proof.
  cbn [forallb]. intros H Hms. rewrite !andb_true_iff in H. destruct H as (Hd & Hh & Hm & Hs & Hx & _).
  set (P := date ++ "T" ++ hh ++ "-" ++ mm ++ "-" ++ ss).
  assert (E : replace_colon_dot (date ++ "T" ++ hh ++ ":" ++ mm ++ ":" ++ ss ++ "." ++ ms ++ "Z")
              = P ++ ("-" ++ ms ++ "Z"))
    by (rewrite !replace_colon_dot_app, (replace_colon_dot_id date Hd), (replace_colon_dot_id hh Hh),
          (replace_colon_dot_id mm Hm), (replace_colon_dot_id ss Hs), (replace_colon_dot_id ms Hx);
        unfold P; rewrite !string_app_assoc; reflexivity).
  unfold file_stamp. rewrite E.
  replace 5%nat with (String.length ("-" ++ ms ++ "Z")) by (cbn; rewrite length_string_app, Hms; reflexivity).
  apply slice_drop_end_app.
Qed.

(** ** The timer queue *)

Lemma insert_timer_In due tm ts x : In x (insert_timer due tm ts) <-> (due, tm) = x \/ In x ts.
Proof.
  induction ts as [|[d t] r IH]; cbn; [tauto|].
  destruct (Z.leb d due); cbn; [rewrite IH|]; tauto.
Qed.

Lemma timer_weight_cons d t r :
  timer_weight ((d, t) :: r) = (match t with TFade _ => 2 | _ => 1 end + timer_weight r)%nat.
Proof. reflexivity. Qed.

Lemma insert_timer_weight due tm ts :
  timer_weight (insert_timer due tm ts) = (match tm with TFade _ => 2 | _ => 1 end + timer_weight ts)%nat.
Proof.
  induction ts as [|[d t] r IH]; cbn [insert_timer]; [reflexivity|].
  destruct (Z.leb d due); rewrite !timer_weight_cons; [rewrite IH|]; lia.
Qed.

Lemma insert_timer_sorted due tm ts : sorted_dues ts -> sorted_dues (insert_timer due tm ts).
Proof.
  induction ts as [|[d t] r IH]; cbn; intros H; [split; [constructor | exact I]|].
  destruct H as [Hf Hs]. destruct (Z.leb_spec d due); cbn.
  - split; [|exact (IH Hs)]. apply Forall_forall. intros x Hx.
    apply insert_timer_In in Hx as [<-|Hx]; [cbn; lia | exact (proj1 (Forall_forall _ _) Hf x Hx)].
  - split; [|split; assumption]. constructor; [cbn; lia|].
    eapply Forall_impl; [|exact Hf]. cbn. intros x Hx. lia.
Qed.

Lemma run_timer_timers t tm p :
  timers (run_timer t tm p)
  = match tm with TFade n => insert_timer (t + 300) (TRemove n) (timers p) | _ => timers p end.
Proof. destruct tm; reflexivity. Qed.

Lemma run_timer_sorted t tm p : sorted_dues (timers p) -> sorted_dues (timers (run_timer t tm p)).
Proof. rewrite run_timer_timers. destruct tm; try apply insert_timer_sorted; exact id. Qed.

Lemma tick_sorted fuel T p : sorted_dues (timers p) -> sorted_dues (timers (tick fuel T p)).
Proof.
  revert p. induction fuel as [|k IH]; intros p H; cbn [tick]; [exact H|].
  destruct (timers p) as [|[t tm] rest] eqn:E; [rewrite E; exact H|].
  destruct (Z.leb t T); [|rewrite E; exact H]. apply IH, run_timer_sorted. exact (proj2 H).
Qed.

(** With as much fuel as the queue's weight, the event loop runs every
    callback due by [T]. *)
Lemma tick_drains fuel T p :
  sorted_dues (timers p) -> timer_weight (timers p) <= fuel ->
  Forall (fun x => (T < fst x)%Z) (timers (tick fuel T p)).
Proof.
  revert p. induction fuel as [|k IH]; intros p H W; cbn [tick].
  - destruct (timers p) as [|[t tm] rest]; [constructor|].
    rewrite timer_weight_cons in W. destruct tm; lia.
  - destruct (timers p) as [|[t tm] rest] eqn:E; [rewrite E; constructor|].
    destruct (Z.leb_spec t T) as [Hle|Hgt].
    + apply IH; [apply run_timer_sorted; exact (proj2 H)|]. rewrite run_timer_timers. cbn [timers with_timers].
      rewrite timer_weight_cons in W. destruct tm; rewrite ?insert_timer_weight; cbn; lia.
    + rewrite E. destruct H as [Hf _]. constructor; [exact Hgt|].
      eapply Forall_impl; [|exact Hf]. cbn. intros x Hx. lia.
Qed.

(** ** Notifications go away *)

Lemma grows_refl p : grows p p.
Proof. split; [lia | split; [auto | auto]]. Qed.

Lemma grows_same p p' :
  nextNote p' = nextNote p -> timers p' = timers p -> notes p' = notes p -> grows p p'.
Proof. intros N T K. split; [lia | split; [rewrite T; auto | rewrite K; auto]]. Qed.

Lemma grows_trans p q r : grows p q -> grows q r -> grows p r.
Proof.
  intros (N1 & T1 & K1) (N2 & T2 & K2). split; [lia | split; [auto|]].
  intros k Hk. destruct (K2 k Hk) as [H|H]; [destruct (K1 k H) as [H'|H']|]; [auto | right; lia | right; lia].
Qed.

Lemma set_timeout_grows now delay tm p : grows p (set_timeout now delay tm p).
Proof.
  split; [cbn; lia | split; [|auto]]. intros x Hx. cbn. apply insert_timer_In. auto.
Qed.

Lemma start_download_grows d now p : grows p (start_download d now p).
Proof.
  unfold start_download. eapply grows_trans; [|apply set_timeout_grows]. apply grows_same; reflexivity.
Qed.

Lemma notify_grows f now p : grows p (showDownloadNotification f now p).
Proof.
  unfold showDownloadNotification. eapply grows_trans; [|apply set_timeout_grows].
  split; [cbn; lia | split; [cbn; auto|]]. cbn. intros k Hk.
  rewrite map_app, in_app_iff in Hk. destruct Hk as [Hk|[<-|[]]]; [left; exact Hk | right; cbn; lia].
Qed.

Lemma run_handler_grows now h p : grows p (run_handler now h p).
Proof.
  destruct h; cbn [run_handler]; [destruct (dialogs (sh p)); [apply grows_refl|]|].
  - eapply grows_trans; [|apply set_timeout_grows]. apply grows_same; reflexivity.
  - apply grows_same; reflexivity.
Qed.

Lemma click_grows d b now p : grows p (click d b now p).
Proof.
  unfold click. destruct (existsb _ _); [|apply grows_refl].
  generalize (listeners_on d b (sh p)). intros hs. revert p.
  induction hs as [|h hs IH]; intros p; [apply grows_refl|].
  cbn [fold_left]. eapply grows_trans; [apply run_handler_grows | apply IH].
Qed.

Lemma grows_pending n D p p' : grows p p' -> note_pending n D p -> note_pending n D p'.
Proof.
  intros (Hn & Ht & Hk) (Hlt & H). split; [lia|]. intros Hin.
  destruct (Hk n Hin) as [Hin'|Hle]; [|lia].
  destruct (H Hin') as [(d & Hd & Hle)|(d & Hd & Hle)]; [left|right]; exists d; auto.
Qed.

Lemma in_notes_filter k m (l : list (nat * string)) :
  In k (map fst (filter (fun nf => negb (Nat.eqb (fst nf) m)) l)) -> In k (map fst l) /\ k <> m.
Proof.
  intros Hk. apply in_map_iff in Hk as ([k' f] & <- & Hk). apply filter_In in Hk as [Hk Hm].
  cbn in Hm |- *. split; [apply in_map_iff; exists (k', f); auto|].
  intros ->. rewrite Nat.eqb_refl in Hm. discriminate.
Qed.

(** One callback at the head of the queue keeps a notification on its
    way out: the fade-out schedules the removal 300 ms after it runs. *)
Lemma run_timer_pending n D p t tm rest :
  timers p = (t, tm) :: rest -> note_pending n D p ->
  note_pending n D (run_timer t tm (with_timers rest p)).
Proof.
  intros E (Hlt & H). split; [destruct tm; exact Hlt|]. intros Hin.
  assert (Hin0 : In n (map fst (notes p)) /\ tm <> TRemove n).
  { destruct tm as [| |m|m]; cbn in Hin; try (split; [exact Hin | discriminate]).
    apply in_notes_filter in Hin as [Hin Hm]. split; [exact Hin | congruence]. }
  destruct Hin0 as [Hin0 Hne]. rewrite run_timer_timers. cbn [timers with_timers].
  assert (Keep : forall x, In x rest ->
            In x (match tm with TFade m => insert_timer (t + 300) (TRemove m) rest | _ => rest end))
    by (intros x Hx; destruct tm; try exact Hx; apply insert_timer_In; auto).
  rewrite E in H. destruct (H Hin0) as [(d & [Hd|Hd] & Hle)|(d & [Hd|Hd] & Hle)].
  - injection Hd as Ht Htm. subst d tm. right. exists (t + 300)%Z. split; [apply insert_timer_In; left; reflexivity | lia].
  - left. exists d. auto.
  - injection Hd as Ht Htm. subst tm. contradiction.
  - right. exists d. auto.
Qed.

Lemma tick_pending fuel T n D p : note_pending n D p -> note_pending n D (tick fuel T p).
Proof.
  revert p. induction fuel as [|k IH]; intros p H; cbn [tick]; [exact H|].
  destruct (timers p) as [|[t tm] rest] eqn:E; [exact H|].
  destruct (Z.leb t T); [|exact H]. apply IH, (run_timer_pending n D p t tm rest E H).
Qed.

Lemma run_handler_sorted now h p : sorted_dues (timers p) -> sorted_dues (timers (run_handler now h p)).
Proof.
  destruct h; cbn [run_handler]; [destruct (dialogs (sh p)); [exact id | apply insert_timer_sorted] | exact id].
Qed.

Lemma click_sorted d b now p : sorted_dues (timers p) -> sorted_dues (timers (click d b now p)).
Proof.
  unfold click. destruct (existsb _ _); [|exact id].
  generalize (listeners_on d b (sh p)). intros hs. revert p.
  induction hs as [|h hs IH]; intros p H; [exact H|]. cbn [fold_left]. apply IH, run_handler_sorted, H.
Qed.

Lemma page_step_sorted ev p : sorted_dues (timers p) -> sorted_dues (timers (page_step ev p)).
Proof.
  intros Hs. destruct ev; cbn [page_step].
  - exact Hs.
  - unfold blobReady. destruct (pendingBlobs p) as [|[w h] r]; [exact Hs|].
    destruct (Nat.eqb w 0 || Nat.eqb h 0); [exact Hs|]. cbn. apply insert_timer_sorted, insert_timer_sorted, Hs.
  - unfold exportPreset_page. destruct (exportPreset _ _ _ _ _ _); [|exact Hs].
    cbn. apply insert_timer_sorted, insert_timer_sorted, Hs.
  - exact Hs.
  - apply click_sorted, Hs.
  - apply tick_sorted, Hs.
Qed.

Lemma page_step_pending ev n D p : note_pending n D p -> note_pending n D (page_step ev p).
Proof.
  intros Hp. destruct ev; cbn [page_step].
  - exact Hp.
  - unfold blobReady. destruct (pendingBlobs p) as [|[w h] r]; [exact Hp|].
    destruct (Nat.eqb w 0 || Nat.eqb h 0); [exact Hp|].
    eapply grows_pending; [|exact Hp]. eapply grows_trans; [|apply notify_grows].
    eapply grows_trans; [|apply start_download_grows]. apply grows_same; reflexivity.
  - unfold exportPreset_page. destruct (exportPreset _ _ _ _ _ _); [|exact Hp].
    eapply grows_pending; [|exact Hp]. eapply grows_trans; [apply start_download_grows | apply notify_grows].
  - exact Hp.
  - exact (grows_pending _ _ _ _ (click_grows d b now p) Hp).
  - apply tick_pending, Hp.
Qed.

Lemma run_page_sorted es p : sorted_dues (timers p) -> sorted_dues (timers (run_page es p)).
Proof. revert p. induction es as [|ev es IH]; intros p H; [exact H|]. apply IH, page_step_sorted, H. Qed.

Lemma run_page_pending es n D p : note_pending n D p -> note_pending n D (run_page es p).
Proof. revert p. induction es as [|ev es IH]; intros p H; [exact H|]. apply IH, page_step_pending, H. Qed.

(** ** The share dialogs *)

Lemma filter_filter_comp {A : Type} (P Q : A -> bool) l :
  filter Q (filter P l) = filter (fun a => P a && Q a) l.
Proof.
  induction l as [|a l IH]; cbn; [reflexivity|].
  destruct (P a) eqn:E1, (Q a) eqn:E2; cbn; rewrite ?E1, ?E2, ?IH; reflexivity.
Qed.

Lemma shrinks_refl x : shrinks x x.
Proof. split; [reflexivity | split; [reflexivity | exists (fun _ => true); symmetry; apply filter_true]]. Qed.

Lemma shrinks_trans x y z : shrinks x y -> shrinks y z -> shrinks x z.
Proof.
  intros (N1 & L1 & P & D1) (N2 & L2 & Q & D2). split; [congruence | split; [congruence|]].
  exists (fun a => P a && Q a). rewrite D2, D1. apply filter_filter_comp.
Qed.

Lemma run_handler_shrinks now h p : shrinks (sh p) (sh (run_handler now h p)).
Proof.
  destruct h as [|d]; cbn [run_handler].
  - destruct (dialogs (sh p)) as [|f r] eqn:E; [apply shrinks_refl|].
    split; [reflexivity | split; [reflexivity|]]. exists (fun _ => true). cbn. rewrite filter_true. symmetry; exact E.
  - split; [reflexivity | split; [reflexivity|]]. eexists. reflexivity.
Qed.

Lemma click_shrinks d b now p : shrinks (sh p) (sh (click d b now p)).
Proof.
  unfold click. destruct (existsb _ _); [|apply shrinks_refl].
  generalize (listeners_on d b (sh p)). intros hs. revert p.
  induction hs as [|h hs IH]; intros p; [apply shrinks_refl|].
  cbn [fold_left]. eapply shrinks_trans; [apply run_handler_shrinks | apply IH].
Qed.

Lemma run_timer_shrinks t tm p : shrinks (sh p) (sh (run_timer t tm p)).
Proof.
  destruct tm; cbn [run_timer]; try apply shrinks_refl.
  split; [reflexivity | split; [reflexivity|]]. exists (fun _ => true). cbn. rewrite filter_true. reflexivity.
Qed.

Lemma tick_shrinks fuel now p : shrinks (sh p) (sh (tick fuel now p)).
Proof.
  revert p. induction fuel as [|k IH]; intros p; cbn [tick]; [apply shrinks_refl|].
  destruct (timers p) as [|[t tm] rest]; [apply shrinks_refl|].
  destruct (Z.leb t now); [|apply shrinks_refl].
  eapply shrinks_trans; [|apply IH]. apply (run_timer_shrinks t tm (with_timers rest p)).
Qed.

Lemma shrinks_inv x y : shrinks x y -> share_inv x -> share_inv y.
Proof.
  intros (N & L & P & D) (H1 & H2). split; [lia|]. intros Hy. rewrite L.
  rewrite D in Hy |- *. apply filter_In in Hy as [Hx HP]. destruct (H2 Hx) as [Hh Hl]. split; [|exact Hl].
  destruct (dialogs x) as [|a r]; [discriminate|]. injection Hh as ->. cbn. rewrite HP. reflexivity.
Qed.

Lemma show_inv x : share_inv x -> share_inv (showShareDialog x).
Proof.
  intros (H1 & H2). unfold showShareDialog. split; [cbn; lia|]. cbn [dialogs listeners].
  intros Hin. apply in_app_or in Hin as [Hin|[E|[]]]; [|lia].
  destruct (H2 Hin) as [Hh Hl]. destruct (dialogs x) as [|a r]; [contradiction|]. injection Hh as ->.
  split; [reflexivity|]. apply Forall_app. split; [exact Hl|]. repeat constructor; cbn; lia.
Qed.

Lemma page_step_inv ev p : share_inv (sh p) -> share_inv (sh (page_step ev p)).
Proof.
  intros H. destruct ev; cbn [page_step].
  - exact H.
  - unfold blobReady. destruct (pendingBlobs p) as [|[w h] r]; [exact H|].
    destruct (Nat.eqb w 0 || Nat.eqb h 0); exact H.
  - unfold exportPreset_page. destruct (exportPreset _ _ _ _ _ _); exact H.
  - apply show_inv, H.
  - exact (shrinks_inv _ _ (click_shrinks d b now p) H).
  - exact (shrinks_inv _ _ (tick_shrinks _ now p) H).
Qed.

Lemma run_page_inv es p : share_inv (sh p) -> share_inv (sh (run_page es p)).
Proof.
  revert p. induction es as [|ev es IH]; intros p H; [exact H|]. cbn. apply IH, page_step_inv, H.
Qed.

Lemma listeners_on_none d b x :
  Forall (fun l => fst (fst l) <> d) (listeners x) -> listeners_on d b x = [].
Proof.
  unfold listeners_on. induction (listeners x) as [|l ls IH]; intros Hf; [reflexivity|].
  inversion Hf as [|? ? Hl Hls]; subst. cbn. destruct (Nat.eqb_spec (fst (fst l)) d); [contradiction|].
  exact (IH Hls).
Qed.

(** C33: with an analyser, [exportPreset] downloads a document of the
    preset schema under the name [SonicCanvas_Preset_<name>_<stamp>.json]:
    no member is dropped or written [null] when the trail opacity and
    the camera radius are finite, and the name is a preset's key in any
    state of the manager's invariant. *)
Theorem exportPreset_has_schema iso other op s v e :
  pm_inv s -> analyserReady e = true -> jfinite op = true -> jfinite (cameraRadius (vcam v)) = true ->
  exists doc,
    exportPreset iso other op s v e
    = Exported ("SonicCanvas_Preset_" ++ currentPreset s ++ "_" ++ file_stamp iso ++ ".json") doc
    /\ has_type doc preset_schema = true.
Proof.
  intros Hi Ha Ho Hc.
  assert (Hn : existsb (String.eqb (currentPreset s)) (map fst presets) = true).
  { apply assoc_in_keys. unfold pm_inv, getCurrentPreset in Hi.
    destruct (pending s); destruct Hi as [_ Hi]; [congruence | exact Hi]. }
  unfold exportPreset, preset_object. rewrite Ha. cbn [negb].
  eexists; split; [reflexivity|].
  destruct op as [q| |]; [|discriminate..]. destruct (cameraRadius (vcam v)) as [r| |]; [|discriminate..].
  cbn -[presets map existsb]. rewrite Hn. reflexivity.
Qed.

(** C34: [showShareDialog] looks its buttons up with [getElementById],
    which finds the first dialog's: once a second share dialog is open,
    whatever happens next, clicking either of its buttons does nothing
    for as long as the first dialog is open. *)
Theorem second_share_dialog_dead w h es b now :
  In 0 (dialogs (sh (run_page ([EShare; EShare] ++ es) (page_init w h)))) ->
  click 1 b now (run_page ([EShare; EShare] ++ es) (page_init w h))
  = run_page ([EShare; EShare] ++ es) (page_init w h).
Proof.
  set (p := run_page _ _). intros Hin.
  assert (Hi : share_inv (sh p)).
  { unfold p. unfold run_page. rewrite fold_left_app. apply run_page_inv.
    split; [cbn; lia|]. intros _. split; [reflexivity|]. repeat constructor; cbn; lia. }
  destruct Hi as [_ Hi]. destruct (Hi Hin) as [_ Hl].
  unfold click. rewrite (listeners_on_none 1 b _ Hl). destruct (existsb _ _); reflexivity.
Qed.

Lemma second_share_dialog_dead_witness :
  In 0 (dialogs (sh (run_page ([EShare; EShare] ++ []) (page_init 800 600)))) /\
  click 1 CloseBtn 0 (run_page ([EShare; EShare] ++ []) (page_init 800 600))
  = run_page ([EShare; EShare] ++ []) (page_init 800 600).
Proof.
  assert (Hin : In 0 (dialogs (sh (run_page ([EShare; EShare] ++ []) (page_init 800 600)))))
    by (cbn; left; reflexivity).
  split; [exact Hin | exact (second_share_dialog_dead 800 600 [] CloseBtn 0 Hin)].
Defined.

(** C35: every download notification goes away: whatever the page did
    before, once [showDownloadNotification] runs at [now], whatever
    happens next, when the event loop reaches [now + 3300] the
    notification has been removed (its 3 s fade-out timeout runs and
    schedules the removal 300 ms later). *)
Theorem download_notification_removed w h es1 es2 f now T :
  (now + 3300 <= T)%Z ->
  ~ In (nextNote (run_page es1 (page_init w h)))
       (map fst (notes (run_page (es2 ++ [ETick T])
                                 (showDownloadNotification f now (run_page es1 (page_init w h)))))).
Proof.
  intros HT Hin.
  set (p0 := run_page es1 (page_init w h)) in *. set (p1 := showDownloadNotification f now p0) in *.
  assert (S1 : sorted_dues (timers p1))
    by (apply insert_timer_sorted, run_page_sorted; exact I).
  assert (P1 : note_pending (nextNote p0) (now + 3300) p1).
  { split; [cbn; lia|]. intros _. left. exists (now + 3000)%Z.
    split; [apply insert_timer_In; left; reflexivity | lia]. }
  unfold run_page in Hin. rewrite fold_left_app in Hin. fold (run_page es2 p1) in Hin.
  cbn [fold_left page_step] in Hin.
  pose proof (run_page_sorted es2 p1 S1) as S2. pose proof (run_page_pending es2 _ _ p1 P1) as P2.
  set (p2 := run_page es2 p1) in *.
  pose proof (tick_drains (timer_weight (timers p2)) T p2 S2 (le_n _)) as Dr.
  destruct (tick_pending (timer_weight (timers p2)) T _ _ p2 P2) as [_ H].
  rewrite Forall_forall in Dr.
  destruct (H Hin) as [(d & Hd & Hle)|(d & Hd & Hle)]; pose proof (Dr _ Hd); cbn in *; lia.
Qed.

Lemma download_notification_removed_witness :
  (0 + 3300 <= 3300)%Z /\
  ~ In (nextNote (run_page [] (page_init 800 600)))
       (map fst (notes (run_page ([] ++ [ETick 3300])
                                 (showDownloadNotification "f.png" 0 (run_page [] (page_init 800 600)))))).
Proof.
  assert (H : (0 + 3300 <= 3300)%Z) by lia.
  split; [exact H | exact (download_notification_removed 800 600 [] [] "f.png" 0 3300 H)].
Defined.

(** A screenshot of a canvas with no pixels: [toBlob] gives [null] and
    the callback throws outside the [try], so nothing is downloaded, no
    notification is shown and the [catch]'s alert never comes. *)
Example empty_canvas_screenshot_silent :
  let p := run_page [EShot true; EBlob "2025-03-14T15:09:26.535Z" 0] (page_init 0 600) in
  downloads p = [] /\ notes p = [] /\ alerts p = [].
Proof. repeat split. Qed.

Lemma exportPreset_has_schema_witness :
  pm_inv (mkpm "cosmic" false 0 None) /\
  exists doc,
    exportPreset "2025-03-14T15:09:26.535Z" "" (num (15 # 100)) (mkpm "cosmic" false 0 None) demo_vis
                 (init_engine true 44100)
    = Exported "SonicCanvas_Preset_cosmic_2025-03-14T15-09-26.json" doc
    /\ has_type doc preset_schema = true.
Proof.
  assert (Hi : pm_inv (mkpm "cosmic" false 0 None)) by (split; [reflexivity | discriminate]).
  split; [exact Hi|].
  exact (exportPreset_has_schema "2025-03-14T15:09:26.535Z" "" (num (15 # 100)) _ demo_vis
           (init_engine true 44100) Hi eq_refl eq_refl eq_refl).
Defined.

Lemma file_stamp_iso_witness :
  String.length "535" = 3%nat /\
  file_stamp "2025-03-14T15:09:26.535Z" = "2025-03-14T15-09-26".
Proof.
  split; [reflexivity|].
  exact (file_stamp_iso "2025-03-14" "15" "09" "26" "535" eq_refl eq_refl).
Defined.

End RecorderExport.
