(* ===== verification/DevServer.v ===== *)
(** * [DevServer] (the static server of src/gesture-controller.js, lines 471-587)

    The development server appended to gesture-controller.js: the MIME
    table (lines 483-501), the request handler (lines 504-540) and the
    process lifecycle of [server.on('error')] and the signal handlers
    (lines 561-587).  The handler calls two library functions, modelled
    here as the environment: Node's [path.posix.extname], written as the
    library's reverse scan over the characters, and [fs.readFile], a
    function of the path it is given.  For the file system the path is
    resolved the POSIX way relative to the served directory: [.] and
    empty segments are skipped, [..] goes up one level, so a resolved
    path is the number of levels above the served directory and the
    segments below. *)

From Stdlib Require Import ZArith String Ascii List Lia Bool.
From S2P Require Import Prelude JsString.
Import ListNotations.

Local Open Scope Z_scope.
Local Open Scope list_scope.
Local Open Scope string_scope.

Module DevServer.

(** ** The MIME table (lines 483-501) *)

Definition mimeTypes : list (string * string) :=
  [(".html", "text/html"); (".css", "text/css"); (".js", "application/javascript");
   (".json", "application/json"); (".png", "image/png"); (".jpg", "image/jpeg");
   (".gif", "image/gif"); (".svg", "image/svg+xml"); (".ico", "image/x-icon");
   (".mp3", "audio/mpeg"); (".wav", "audio/wav"); (".mp4", "video/mp4");
   (".webm", "video/webm"); (".woff", "font/woff"); (".woff2", "font/woff2");
   (".ttf", "font/ttf"); (".md", "text/markdown")].

(** ** [path.extname] (Node's path.posix.extname) *)

(** The scan state: [startDot], [startPart], [end], [matchedSlash],
    [preDotState]. *)
Record extst : Type := mkext {
  startDot : Z; startPart : Z; endp : Z; matchedSlash : bool; preDotState : Z
}.

Definition ext_init : extst := mkext (-1) 0 (-1) true 0.

(** The loop [for (let i = path.length - 1; i >= 0; --i)] over the
    characters from the last: [cs] is the reversed prefix still to
    scan, so the index of its head is the length of its tail. *)
Fixpoint ext_loop (cs : list ascii) (st : extst) : extst :=
  match cs with
  | [] => st
  | c :: rest =>
      let i := Z.of_nat (length rest) in
      if Ascii.eqb c "/"%char then
        if negb (matchedSlash st)
        then mkext (startDot st) (i + 1) (endp st) (matchedSlash st) (preDotState st)
        else ext_loop rest st
      else
        let st1 := if Z.eqb (endp st) (-1)
                   then mkext (startDot st) (startPart st) (i + 1) false (preDotState st)
                   else st in
        let st2 :=
          if Ascii.eqb c "."%char then
            if Z.eqb (startDot st1) (-1)
            then mkext i (startPart st1) (endp st1) (matchedSlash st1) (preDotState st1)
            else if negb (Z.eqb (preDotState st1) 1)
                 then mkext (startDot st1) (startPart st1) (endp st1) (matchedSlash st1) 1
                 else st1
          else if negb (Z.eqb (startDot st1) (-1))
               then mkext (startDot st1) (startPart st1) (endp st1) (matchedSlash st1) (-1)
               else st1 in
        ext_loop rest st2
  end.

Definition extname (path : string) : string :=
  let l := list_ascii_of_string path in
  let st := ext_loop (rev l) ext_init in
  if Z.eqb (startDot st) (-1) || Z.eqb (endp st) (-1) || Z.eqb (preDotState st) 0
     || (Z.eqb (preDotState st) 1 && Z.eqb (startDot st) (endp st - 1)
         && Z.eqb (startDot st) (startPart st + 1))
  then ""
  else string_of_list_ascii (firstn (Z.to_nat (endp st - startDot st)) (skipn (Z.to_nat (startDot st)) l)).

(** ** The file system *)

Inductive read_result : Type :=
| ROk (content : string)
| RErr (code : string).

Fixpoint split_slash (s : string) : list string :=
  match s with
  | EmptyString => [EmptyString]
  | String c r =>
      if Ascii.eqb c "/"%char then EmptyString :: split_slash r
      else match split_slash r with
           | seg :: segs => String c seg :: segs
           | [] => [String c EmptyString]
           end
  end.

Definition resolve_seg (acc : nat * list string) (seg : string) : nat * list string :=
  let '(up, down) := acc in
  if String.eqb seg "" || String.eqb seg "." then acc
  else if String.eqb seg ".." then
    match down with [] => (S up, []) | _ :: d => (up, d) end
  else (up, seg :: down).

(** A path relative to the served directory, resolved. *)
Definition resolve (p : string) : nat * list string :=
  let '(up, down) := fold_left resolve_seg (split_slash p) (0%nat, []) in (up, rev down).

(** [fs.readFile] on a disk indexed by resolved paths. *)
Definition fs_read (disk : nat * list string -> read_result) (p : string) : read_result :=
  disk (resolve p).

(** ** The request handler (lines 504-540) *)

Record response : Type := mkresp {
  status : nat; headers : list (string * string); body : string
}.

Definition contentType (filePath : string) : string :=
  match assoc (toLowerCase (extname filePath)) mimeTypes with
  | Some t => t
  | None => "application/octet-stream"
  end.

Definition handle (readFile : string -> read_result) (url : string) : response :=
  let filePath := "." ++ url in
  let filePath := if String.eqb filePath "./" then "./landing.html" else filePath in
  let ct := contentType filePath in
  match readFile filePath with
  | RErr code =>
      if String.eqb code "ENOENT" then
        match readFile "./404.html" with
        | ROk content404 => mkresp 404 [("Content-Type", "text/html")] content404
        | RErr _ => mkresp 404 [("Content-Type", "text/html")] "<h1>404 - File Not Found</h1>"
        end
      else mkresp 500 [] ("Server Error: " ++ code)
  | ROk content =>
      mkresp 200 [("Content-Type", ct); ("Access-Control-Allow-Origin", "*")] content
  end.

(** ** The process (lines 543-587) *)

Inductive srv : Type := Listening | Closing | Exited (code : nat).

Inductive srv_event : Type :=
| SrvError (code : string)      (* server.on('error') *)
| Signal                        (* SIGTERM or SIGINT *)
| Closed.                       (* the callback of server.close *)

(** The message of the error handler (lines 563-568). *)
Definition error_message (code : string) : string :=
  if String.eqb code "EADDRINUSE" then "port in use" else "server error".

Definition srv_step (e : srv_event) (s : srv) : srv :=
  match s, e with
  | Exited n, _ => Exited n
  | _, SrvError _ => Exited 1
  | _, Signal => Closing
  | Closing, Closed => Exited 0
  | Listening, Closed => Listening
  end.

(** Characters that are neither a separator nor a dot. *)
Definition plain (c : ascii) : bool := negb (Ascii.eqb c "/"%char) && negb (Ascii.eqb c "."%char).

Definition plain_str (s : string) : bool := forallb plain (list_ascii_of_string s).

(** [../] repeated [k] times, and segments joined by [/]. *)
Fixpoint updots (k : nat) : string :=
  match k with O => "" | S k => "../" ++ updots k end.

Fixpoint join (r : list string) : string :=
  match r with
  | [] => ""
  | [s] => s
  | s :: t => s ++ "/" ++ join t
  end.

Definition no_slash (s : string) : bool :=
  forallb (fun c => negb (Ascii.eqb c "/"%char)) (list_ascii_of_string s).

Definition no_qmark (s : string) : bool :=
  forallb (fun c => negb (Ascii.eqb c "?"%char)) (list_ascii_of_string s).

(** A file or directory name: not empty, not [.] or [..], no separator. *)
Definition plain_seg (s : string) : bool :=
  negb (String.eqb s "") && negb (String.eqb s ".") && negb (String.eqb s "..") && no_slash s.

(** A served directory holding [files] (by their segments), with nothing
    readable above it. *)
Definition disk_of (files : list (list string * string)) (p : nat * list string) : read_result :=
  match p with
  | (O, segs) =>
      match find (fun '(f, _) => if list_eq_dec string_dec f segs then true else false) files with
      | Some (_, c) => ROk c
      | None => RErr "ENOENT"
      end
  | _ => RErr "ENOENT"
  end.

(** Sample environments: a served directory with one page, and a disk
    with a file one level above it. *)
Definition site_files : list (list string * string) := [(["index.html"], "<p>")].

Definition secret_disk (p : nat * list string) : read_result :=
  if Nat.eqb (fst p) 1 && (if list_eq_dec string_dec (snd p) ["etc"; "passwd"] then true else false)
  then ROk "root:x:0:0" else RErr "ENOENT".

(** ** [path.extname] finds the extension of a file name *)

Lemma forallb_rev {A : Type} (f : A -> bool) l : forallb f (rev l) = forallb f l.
Proof.
  induction l as [|x l IH]; cbn; [reflexivity|].
  rewrite forallb_app, IH. cbn. rewrite andb_true_r, andb_comm. reflexivity.
Qed.

Lemma list_ascii_app s1 s2 :
  list_ascii_of_string (s1 ++ s2) = (list_ascii_of_string s1 ++ list_ascii_of_string s2)%list.
Proof. induction s1 as [|c s1 IH]; cbn; [reflexivity | rewrite IH; reflexivity]. Qed.

Lemma plain_chars c : plain c = true -> Ascii.eqb c "/"%char = false /\ Ascii.eqb c "."%char = false.
Proof. unfold plain. intros [H1 H2]%andb_prop. apply negb_true_iff in H1, H2. auto. Qed.

(** Characters that are neither separators nor dots only mark a dot
    already seen as preceded by a name character. *)
Lemma ext_loop_plain cs rest sd sp en pd :
  forallb plain cs = true -> Z.eqb en (-1) = false ->
  ext_loop (cs ++ rest)%list (mkext sd sp en false pd)
  = ext_loop rest (mkext sd sp en false
                     (match cs with [] => pd | _ => if Z.eqb sd (-1) then pd else -1 end)).
Proof.
  intros Hcs Hen. revert pd. induction cs as [|c cs IH]; intros pd; [reflexivity|].
  cbn in Hcs. apply andb_prop in Hcs as [Hc Hcs]. destruct (plain_chars c Hc) as [H1 H2].
  cbn [app ext_loop startDot startPart endp matchedSlash preDotState]. rewrite H1, Hen.
  cbn iota beta zeta. rewrite H2.
  cbn [startDot endp matchedSlash preDotState startPart]. destruct (Z.eqb sd (-1)) eqn:Hsd; cbn [negb];
  rewrite IH by exact Hcs.
  all: destruct cs; reflexivity.
Qed.

(** The last character, when it is a name character, sets [end]. *)
Lemma ext_loop_first c cs rest :
  plain c = true -> forallb plain cs = true ->
  ext_loop ((c :: cs) ++ rest)%list ext_init
  = ext_loop rest (mkext (-1) 0 (Z.of_nat (length (cs ++ rest)%list) + 1) false 0).
Proof.
  intros Hc Hcs. destruct (plain_chars c Hc) as [H1 H2].
  cbn [app ext_loop ext_init startDot startPart endp matchedSlash preDotState]. rewrite H1.
  cbn iota beta zeta. rewrite H2. cbn -[ext_loop length].
  rewrite ext_loop_plain by (exact Hcs || (apply Z.eqb_neq; lia)).
  destruct cs; reflexivity.
Qed.

Lemma nat_neq_m1 n : Z.eqb (Z.of_nat n) (-1) = false.
Proof. apply Z.eqb_neq. lia. Qed.

Lemma nat_succ_neq_m1 n : Z.eqb (Z.of_nat n + 1) (-1) = false.
Proof. apply Z.eqb_neq. lia. Qed.

(** A dot when none was seen yet starts the extension. *)
Lemma ext_loop_dot rest sp en pd :
  Z.eqb en (-1) = false ->
  ext_loop ("."%char :: rest) (mkext (-1) sp en false pd)
  = ext_loop rest (mkext (Z.of_nat (length rest)) sp en false pd).
Proof. intros Hen. cbn [ext_loop Ascii.eqb Bool.eqb endp]. rewrite Hen. reflexivity. Qed.

(** A separator after a name character ends the scan. *)
Lemma ext_loop_slash rest sd sp en pd :
  ext_loop ("/"%char :: rest) (mkext sd sp en false pd)
  = mkext sd (Z.of_nat (length rest) + 1) en false pd.
Proof. reflexivity. Qed.

(** [path.extname] of [p/b.e], for a base name [b] and an extension [e]
    made of name characters, is [.e]. *)
Lemma extname_ext p b e :
  b <> "" -> plain_str b = true -> e <> "" -> plain_str e = true ->
  extname (p ++ "/" ++ b ++ "." ++ e) = "." ++ e.
Proof.
  unfold plain_str. intros Hb Hbp He Hep. unfold extname.
  rewrite !list_ascii_app. cbn [list_ascii_of_string].
  set (P := list_ascii_of_string p) in *. set (B := list_ascii_of_string b) in *.
  set (E := list_ascii_of_string e) in *.
  assert (HB : B <> []) by (destruct b; [congruence | discriminate]).
  assert (Hr : rev (P ++ ["/"%char] ++ B ++ ["."%char] ++ E)%list
               = (rev E ++ "."%char :: rev B ++ "/"%char :: rev P)%list)
    by (rewrite !rev_app_distr; cbn; rewrite <- !app_assoc; reflexivity).
  assert (HlE : length E = length (rev E)) by (rewrite length_rev; reflexivity).
  rewrite Hr. rewrite <- forallb_rev in Hbp, Hep.
  destruct (rev E) as [|c cs] eqn:ER; [destruct e; [congruence | cbn in ER; destruct (rev _); discriminate]|].
  cbn in Hep. apply andb_prop in Hep as [Hc Hcs].
  rewrite ext_loop_first by assumption.
  rewrite ext_loop_dot by (apply Z.eqb_neq; lia).
  destruct (rev B) as [|cb bs] eqn:EB; [destruct B; [congruence | cbn in EB; destruct (rev _); discriminate]|].
  rewrite ext_loop_plain by (assumption || (apply Z.eqb_neq; lia)).
  rewrite nat_neq_m1. cbn -[ext_loop length].
  rewrite ext_loop_slash. cbn [startDot endp preDotState startPart].
  rewrite nat_neq_m1, nat_succ_neq_m1. cbn [orb andb Z.eqb].
  assert (HlB : length B = length (cb :: bs)) by (rewrite <- EB, length_rev; reflexivity).
  cbn [length] in HlE, HlB. pose proof (length_rev P) as HlP.
  rewrite Nat2Z.id.
  replace (length (cb :: bs ++ "/"%char :: rev P)) with (length (P ++ "/"%char :: B))
    by (cbn [length]; rewrite !length_app; cbn [length]; lia).
  replace (P ++ "/"%char :: B ++ "."%char :: E)%list with ((P ++ "/"%char :: B) ++ "."%char :: E)%list
    by (rewrite <- app_assoc; reflexivity).
  rewrite skipn_app, skipn_all, Nat.sub_diag. cbn [skipn app].
  rewrite firstn_all2 by (rewrite !length_app; cbn [length]; rewrite ?length_app; cbn [length]; lia).
  cbn. unfold E. rewrite string_of_list_ascii_of_string. reflexivity.
Qed.

(** ** Resolving the path the handler reads *)

Lemma no_slash_cons c s :
  no_slash (String c s) = negb (Ascii.eqb c "/"%char) && no_slash s.
Proof. reflexivity. Qed.

Lemma split_slash_app a x :
  no_slash a = true -> split_slash (a ++ String "/" x) = a :: split_slash x.
Proof.
  induction a as [|c a IH]; [reflexivity|].
  rewrite no_slash_cons. intros [Hc Ha]%andb_prop. apply negb_true_iff in Hc.
  cbn [append split_slash]. rewrite Hc, IH by exact Ha. reflexivity.
Qed.

Lemma split_slash_single a : no_slash a = true -> split_slash a = [a].
Proof.
  induction a as [|c a IH]; [reflexivity|].
  rewrite no_slash_cons. intros [Hc Ha]%andb_prop. apply negb_true_iff in Hc.
  cbn [split_slash]. rewrite Hc, IH by exact Ha. reflexivity.
Qed.

Lemma plain_seg_no_slash s : plain_seg s = true -> no_slash s = true.
Proof. unfold plain_seg. intros H. apply andb_prop in H. tauto. Qed.

Lemma split_join r :
  r <> [] -> forallb plain_seg r = true -> split_slash (join r) = r.
Proof.
  induction r as [|s [|s' t] IH]; intros Hr Hp; [congruence| |].
  - cbn in Hp |- *. rewrite andb_true_r in Hp. apply split_slash_single, plain_seg_no_slash, Hp.
  - apply andb_prop in Hp as [Hs Ht]. change (join (s :: s' :: t)) with (s ++ String "/" (join (s' :: t))).
    rewrite split_slash_app, IH by (discriminate || assumption || apply plain_seg_no_slash, Hs).
    reflexivity.
Qed.

Lemma split_updots k x : split_slash (updots k ++ x) = (repeat ".." k ++ split_slash x)%list.
Proof.
  induction k as [|k IH]; [reflexivity|].
  change (updots (S k) ++ x) with (".." ++ String "/" (updots k ++ x)).
  rewrite split_slash_app by reflexivity. rewrite IH. reflexivity.
Qed.

Lemma fold_updots k u : fold_left resolve_seg (repeat ".." k) (u, []) = ((u + k)%nat, []).
Proof.
  revert u. induction k as [|k IH]; intros u; cbn; [rewrite Nat.add_0_r; reflexivity|].
  rewrite IH, Nat.add_succ_r. reflexivity.
Qed.

Lemma plain_seg_eqb s :
  plain_seg s = true -> String.eqb s "" = false /\ String.eqb s "." = false /\ String.eqb s ".." = false.
Proof. unfold plain_seg. rewrite !andb_true_iff, !negb_true_iff. tauto. Qed.

Lemma fold_plain r u d :
  forallb plain_seg r = true -> fold_left resolve_seg r (u, d) = (u, (rev r ++ d)%list).
Proof.
  revert d. induction r as [|s r IH]; intros d Hr; [reflexivity|].
  apply andb_prop in Hr as [Hs Hr]. destruct (plain_seg_eqb s Hs) as (H1 & H2 & H3).
  cbn [fold_left resolve_seg]. rewrite H1, H2, H3. cbn [orb].
  rewrite IH by exact Hr. cbn [rev]. rewrite <- app_assoc. reflexivity.
Qed.

(** The path [./ ../^k r] names the file [r], [k] levels above. *)
Lemma resolve_updots k r :
  r <> [] -> forallb plain_seg r = true -> resolve ("." ++ "/" ++ updots k ++ join r) = (k, r).
Proof.
  intros Hr Hp. unfold resolve.
  change ("." ++ "/" ++ updots k ++ join r) with ("." ++ String "/" (updots k ++ join r)).
  rewrite split_slash_app, split_updots, split_join by (reflexivity || assumption).
  cbn [fold_left]. change (resolve_seg (0%nat, []) ".") with (0%nat, @nil string).
  rewrite fold_left_app, fold_updots, fold_plain, app_nil_r, rev_involutive by exact Hp.
  reflexivity.
Qed.

Lemma join_nonempty r : r <> [] -> forallb plain_seg r = true -> join r <> "".
Proof.
  destruct r as [|s [|s' t]]; intros Hr Hp; [congruence| |].
  - cbn in Hp. rewrite andb_true_r in Hp. destruct (plain_seg_eqb s Hp) as [H _].
    cbn [join]. intros ->. discriminate H.
  - cbn [join]. destruct s; discriminate.
Qed.

(** The handler reads the path the URL names, never ["./"] itself, for
    a URL [/x] with [x] not empty. *)
Lemma handle_path readFile x :
  x <> "" ->
  handle readFile ("/" ++ x)
  = let ct := contentType ("./" ++ x) in
    match readFile ("./" ++ x) with
    | RErr code =>
        if String.eqb code "ENOENT" then
          match readFile "./404.html" with
          | ROk content404 => mkresp 404 [("Content-Type", "text/html")] content404
          | RErr _ => mkresp 404 [("Content-Type", "text/html")] "<h1>404 - File Not Found</h1>"
          end
        else mkresp 500 [] ("Server Error: " ++ code)
    | ROk content => mkresp 200 [("Content-Type", ct); ("Access-Control-Allow-Origin", "*")] content
    end.
Proof. intros Hx. unfold handle. destruct x; [congruence | reflexivity]. Qed.

Lemma no_slash_app x y : no_slash (x ++ y) = no_slash x && no_slash y.
Proof. unfold no_slash. rewrite list_ascii_app, forallb_app. reflexivity. Qed.

Lemma no_qmark_app x y : no_qmark (x ++ y) = no_qmark x && no_qmark y.
Proof. unfold no_qmark. rewrite list_ascii_app, forallb_app. reflexivity. Qed.

(** A name followed by a query string is still one name, with a [?]. *)
Lemma plain_seg_query b q :
  plain_seg b = true -> no_slash q = true -> plain_seg (b ++ "?" ++ q) = true.
Proof.
  intros Hb Hq. destruct (plain_seg_eqb b Hb) as (H0 & _).
  assert (Hm : no_qmark (b ++ "?" ++ q) = false)
    by (rewrite !no_qmark_app; cbn; rewrite andb_false_r; reflexivity).
  unfold plain_seg. rewrite !no_slash_app, plain_seg_no_slash, Hq by exact Hb.
  destruct (String.eqb_spec (b ++ "?" ++ q) ""), (String.eqb_spec (b ++ "?" ++ q) "."),
    (String.eqb_spec (b ++ "?" ++ q) ".."); cbn; try reflexivity;
    exfalso; [destruct b; discriminate | rewrite e in Hm; discriminate ..].
Qed.

Lemma disk_of_in files f : In f (map fst files) -> exists c, disk_of files (0%nat, f) = ROk c.
Proof.
  unfold disk_of. induction files as [|[f' c'] files IH]; cbn; [tauto|].
  destruct (list_eq_dec string_dec f' f) as [->|Hne]; [eauto|].
  intros [->|Hin]; [congruence | exact (IH Hin)].
Qed.

Lemma disk_of_missing files f :
  (forall c, ~ In (f, c) files) -> disk_of files (0%nat, f) = RErr "ENOENT".
Proof.
  unfold disk_of. induction files as [|[f' c'] files IH]; intros Hn; cbn; [reflexivity|].
  destruct (list_eq_dec string_dec f' f) as [->|Hne]; [exfalso; apply (Hn c'); left; reflexivity|].
  apply IH. intros c Hin. apply (Hn c). right. exact Hin.
Qed.

(** ** The handler *)

(** A request for [/b.e], with a name [b] and an extension [e] of
    name characters, serves the file [./b.e] with status 200, the MIME
    type the table gives to the lower-cased extension, and CORS open. *)
Theorem serve_by_extension readFile b e t c :
  b <> "" -> plain_str b = true -> e <> "" -> plain_str e = true ->
  assoc (toLowerCase ("." ++ e)) mimeTypes = Some t ->
  readFile ("./" ++ b ++ "." ++ e) = ROk c ->
  handle readFile ("/" ++ b ++ "." ++ e)
  = mkresp 200 [("Content-Type", t); ("Access-Control-Allow-Origin", "*")] c.
Proof.
  intros Hb Hbp He Hep Ht Hc. unfold handle, contentType.
  assert (Hne : String.eqb ("." ++ ("/" ++ b ++ "." ++ e)) "./" = false)
    by (destruct b; [congruence | reflexivity]).
  rewrite Hne, extname_ext, Ht by assumption.
  change ("." ++ ("/" ++ b ++ "." ++ e)) with ("./" ++ b ++ "." ++ e). rewrite Hc. reflexivity.
Qed.

(** C28: the handler reads ["." + req.url] as it comes: a URL
    [/../]{^k}[r] is served from the file [r] [k] levels above the
    served directory, outside it as soon as [k >= 1]. *)
Theorem serves_outside_root disk k r c :
  r <> [] -> forallb plain_seg r = true -> disk (k, r) = ROk c ->
  status (handle (fs_read disk) ("/" ++ updots k ++ join r)) = 200%nat /\
  body (handle (fs_read disk) ("/" ++ updots k ++ join r)) = c.
Proof.
  intros Hr Hp Hd.
  rewrite handle_path by (destruct k; [apply join_nonempty; assumption | discriminate]).
  unfold fs_read. change ("./" ++ updots k ++ join r) with ("." ++ "/" ++ updots k ++ join r).
  rewrite resolve_updots, Hd by assumption. split; reflexivity.
Qed.

(** A URL with a query string ([/b?q], as cache-busting links have)
    is looked up as the file named [b?q]: in a directory whose names
    have no [?] the file [b] is served for [/b] but [/b?q] gets 404. *)
Theorem query_string_not_found files b q :
  plain_seg b = true -> no_slash q = true -> In [b] (map fst files) ->
  forallb (fun '(f, _) => forallb no_qmark f) files = true ->
  status (handle (fs_read (disk_of files)) ("/" ++ b)) = 200%nat /\
  status (handle (fs_read (disk_of files)) ("/" ++ b ++ "?" ++ q)) = 404%nat.
Proof.
  intros Hb Hq Hin Hf. destruct (plain_seg_eqb b Hb) as (Hb0 & _).
  assert (Hb1 : forallb plain_seg [b] = true) by (cbn [forallb]; rewrite Hb; reflexivity).
  assert (Hq1 : forallb plain_seg [b ++ "?" ++ q] = true)
    by (cbn [forallb]; rewrite plain_seg_query by assumption; reflexivity).
  rewrite !handle_path by (destruct b; discriminate). unfold fs_read. split.
  - change ("./" ++ b) with ("." ++ "/" ++ updots 0 ++ join [b]).
    rewrite resolve_updots by (discriminate || exact Hb1).
    destruct (disk_of_in files [b] Hin) as [c ->]. reflexivity.
  - change ("./" ++ b ++ "?" ++ q) with ("." ++ "/" ++ updots 0 ++ join [b ++ "?" ++ q]).
    rewrite resolve_updots by (discriminate || exact Hq1).
    rewrite disk_of_missing.
    + cbn [String.eqb Ascii.eqb Bool.eqb]. destruct (disk_of files _); reflexivity.
    + intros c Hc. rewrite forallb_forall in Hf. specialize (Hf _ Hc). cbn in Hf.
      rewrite andb_true_r, !no_qmark_app in Hf. cbn in Hf. rewrite andb_false_r in Hf. discriminate.
Qed.

(** ** The process *)

(** The process exits with status 0 only after a signal. *)
Lemma exit_zero_after_signal es :
  fold_left (fun s e => srv_step e s) es Listening = Exited 0 -> In Signal es.
Proof.
  assert (H : forall l s, fold_left (fun s e => srv_step e s) l s = Exited 0 ->
                         s = Closing \/ s = Exited 0 \/ In Signal l).
  { clear es. intros l. induction l as [|e l IH]; intros s Hs; cbn in Hs; [auto|].
    destruct (IH _ Hs) as [Hc|[He|Hi]]; [| |right; right; right; exact Hi];
      destruct s, e; cbn in *; try discriminate; auto. }
  intros Hs. destruct (H es Listening Hs) as [?|[?|?]]; [discriminate ..|assumption].
Qed.

(** ** Witnesses *)

Lemma serve_by_extension_witness :
  handle (fun p => if String.eqb p "./index.HTML" then ROk "<p>" else RErr "ENOENT") "/index.HTML"
  = mkresp 200 [("Content-Type", "text/html"); ("Access-Control-Allow-Origin", "*")] "<p>".
Proof.
  apply (serve_by_extension _ "index" "HTML" "text/html" "<p>");
    (discriminate || reflexivity).
Defined.

Lemma serves_outside_root_witness :
  status (handle (fs_read secret_disk) "/../etc/passwd") = 200%nat /\
  body (handle (fs_read secret_disk) "/../etc/passwd") = "root:x:0:0".
Proof.
  apply (serves_outside_root secret_disk 1 ["etc"; "passwd"] "root:x:0:0");
    (discriminate || reflexivity).
Defined.

Lemma query_string_not_found_witness :
  status (handle (fs_read (disk_of site_files)) "/index.html") = 200%nat /\
  status (handle (fs_read (disk_of site_files)) "/index.html?v=2") = 404%nat.
Proof.
  apply (query_string_not_found site_files "index.html" "v=2"); try reflexivity.
  left. reflexivity.
Defined.

End DevServer.
