(* ===== verification/DemoMode.v ===== *)
(** * [DemoMode] (the class carried in src/QUICK_START.md, lines 189-518)

    The automated demonstration: thirteen timed steps, each showing a
    title in an overlay and acting on the [PresetManager] and the
    [Visualizer]; a key press or the end of the steps stops it.  The
    demo's own state (active flag, step index, the pending step timeout,
    the overlay, the skip handler and the 500 ms fade-out timeouts) is
    a record; the system it drives is the pair of the manager and the
    visualizer, the manager writing to the visualizer through the
    [vis_target] instance of System.v.  [Date.now()] (read by
    [applyPreset]) is an argument of the events. *)

From Stdlib Require Import QArith ZArith String List Lia Bool.
From S2P Require Import Prelude JsString JsMath GestureController Particles Modes PresetManager Visualizer System.
Import ListNotations.

Local Open Scope nat_scope.
Local Open Scope list_scope.
Local Open Scope string_scope.

Module DemoMode.

(** ** The steps (lines 200-309) *)

Inductive action : Type :=
| AApply (presetName : string)           (* presetManager.applyPreset(name, true) *)
| ATrailThenCosmic                       (* trail on if off, then cosmic *)
| AToggleSymmetry                        (* visualizer.toggleRadialSymmetry() *)
| ANextPalette                           (* currentPalette = (currentPalette + 1) % 3 *)
| ASimulate (type : string)              (* this.simulateGesture(type) *)
| ANothing.

Record step : Type := mkstep { duration : Z; title : string; description : string; act : action }.

Definition demoSteps : list step :=
  [mkstep 5000 "Welcome to SonicCanvas" "An AI-powered audio visualizer with gesture control" (AApply "cosmic");
   mkstep 6000 "🌌 Cosmic Mode" "Particles form spiral galaxy arms that react to bass frequencies" (AApply "cosmic");
   mkstep 6000 "🧠 Neural Network" "Dynamic connections between particles create a living network" (AApply "neural");
   mkstep 6000 "💫 Pulse Waves" "Expanding and contracting rings synchronized with the beat" (AApply "pulse");
   mkstep 6000 "⚡ Chaos Mode" "Erratic particle swarm with chaotic motion patterns" (AApply "chaos");
   mkstep 6000 "📊 Minimal Bars" "Clean frequency spectrum analyzer visualization" (AApply "minimal");
   mkstep 5000 "✨ Trail Effects" "Particles leave light trails for motion blur effect" ATrailThenCosmic;
   mkstep 5000 "🔷 Kaleidoscope" "Radial symmetry creates mesmerizing patterns" AToggleSymmetry;
   mkstep 4000 "🎨 Color Palettes" "Switch between Cyberpunk, Sunset, and Ocean themes" ANextPalette;
   mkstep 5000 "👋 Gesture Control" "Control with hand gestures: Fist, Palm, Peace Sign" (ASimulate "pulse");
   mkstep 5000 "⏺ Recording" "Record videos with synchronized audio up to 3 minutes" (AApply "cosmic");
   mkstep 5000 "⚡ Performance Mode" "Full-screen mode optimized for 60fps rendering" ANothing;
   mkstep 5000 "Thank You!" "Press any key to start exploring on your own" (AApply "cosmic")].

(** ** The state (lines 190-197, 311) *)

Record demo : Type := mkdemo {
  isActive : bool;
  currentStep : nat;
  stepTimeout : bool;            (* a step timeout is pending *)
  overlayDisplay : string;
  overlayAnimation : string;
  skipHandler : bool;
  fadeTimers : nat;              (* pending 500 ms fade-out callbacks *)
  unfreezeTimers : nat;          (* pending 2 s unfreeze callbacks *)
  titleText : string;
  descriptionText : string;
  progressText : string
}.

(** The system the demo drives: the preset manager and the visualizer. *)
Record sys : Type := mksys { spm : pm; svis : vis }.

(** [new DemoMode(...)] with [init()] and [createOverlay()] (lines
    190-391): inactive, the overlay created hidden. *)
Definition demo_construct : demo := mkdemo false 0 false "none" "" false 0 0 "" "" "".

(** ** The actions on the system *)

Section Actions.
Variable rnd : tape.

Definition applyPreset_sys (name : string) (now : Z) (s : sys) : sys :=
  let '(p, v) := @applyPreset vis (vis_target rnd) name true now (spm s) (svis s) in mksys p v.

Definition set_palette (n : nat) (v : vis) : vis :=
  let g := vgate v in
  with_gate v {| isFrozen := isFrozen g; pulseEffect := pulseEffect g; pulseIntensity := pulseIntensity g;
                 pendingDecays := pendingDecays g; currentPalette := n |}.

Definition set_frozen (b : bool) (v : vis) : vis :=
  let g := vgate v in
  with_gate v {| isFrozen := b; pulseEffect := pulseEffect g; pulseIntensity := pulseIntensity g;
                 pendingDecays := pendingDecays g; currentPalette := currentPalette g |}.

(** [simulateGesture(type)] (lines 495-510): the freeze schedules the
    unfreeze 2 s later. *)
Definition simulateGesture (type : string) (d : demo) (s : sys) : demo * sys :=
  if String.eqb type "pulse" then
    (d, mksys (spm s) (with_gate (svis s) (triggerPulse (num (3#2)) (vgate (svis s)))))
  else if String.eqb type "freeze" then
    (mkdemo (isActive d) (currentStep d) (stepTimeout d) (overlayDisplay d) (overlayAnimation d)
            (skipHandler d) (fadeTimers d) (S (unfreezeTimers d)) (titleText d) (descriptionText d)
            (progressText d),
     mksys (spm s) (set_frozen true (svis s)))
  else if String.eqb type "palette" then
    (d, mksys (spm s) (set_palette ((currentPalette (vgate (svis s)) + 1) mod 3) (svis s)))
  else (d, s).

(** The [action] of a step (the closures of lines 204-307). *)
Definition run_action (a : action) (now : Z) (d : demo) (s : sys) : demo * sys :=
  match a with
  | AApply name => (d, applyPreset_sys name now s)
  | ATrailThenCosmic =>
      let v := if negb (trailEffect (svis s)) then toggleTrailEffect (svis s) else svis s in
      (d, applyPreset_sys "cosmic" now (mksys (spm s) v))
  | AToggleSymmetry => (d, mksys (spm s) (toggleRadialSymmetry (svis s)))
  | ANextPalette => (d, mksys (spm s) (set_palette ((currentPalette (vgate (svis s)) + 1) mod 3) (svis s)))
  | ASimulate type => simulateGesture type d s
  | ANothing => (d, s)
  end.

(** ** The operations *)

(** [stop()] (lines 451-490): the step timeout is cleared, the overlay
    fades and a timeout hides it 500 ms later, the skip handler is
    removed. *)
Definition stop (d : demo) : demo :=
  if negb (isActive d) then d
  else mkdemo false (currentStep d) false (overlayDisplay d) "fade-out 0.5s ease-out" false
              (S (fadeTimers d)) (unfreezeTimers d) (titleText d) (descriptionText d) (progressText d).

(** [runDemoStep()] (lines 424-446): past the last step, or inactive,
    it stops; otherwise the overlay shows the step, its action runs and
    the next step is scheduled after its duration. *)
Definition runDemoStep (now : Z) (d : demo) (s : sys) : demo * sys :=
  if negb (isActive d) || Nat.leb (length demoSteps) (currentStep d) then (stop d, s)
  else
    match nth_error demoSteps (currentStep d) with
    | None => (stop d, s)
    | Some st =>
        let d1 := mkdemo (isActive d) (currentStep d) (stepTimeout d) (overlayDisplay d) (overlayAnimation d)
                         (skipHandler d) (fadeTimers d) (unfreezeTimers d) (title st) (description st)
                         ("Step " ++ js_toString (Z.of_nat (currentStep d + 1)) ++ " of "
                                  ++ js_toString (Z.of_nat (length demoSteps))) in
        let '(d2, s2) := run_action (act st) now d1 s in
        (mkdemo (isActive d2) (currentStep d2) true (overlayDisplay d2) (overlayAnimation d2)
                (skipHandler d2) (fadeTimers d2) (unfreezeTimers d2) (titleText d2) (descriptionText d2)
                (progressText d2), s2)
    end.

(** [start()] (lines 396-419). *)
Definition start (now : Z) (d : demo) (s : sys) : demo * sys :=
  if isActive d then (d, s)
  else
    let d1 := mkdemo true 0 (stepTimeout d) "block" (overlayAnimation d) (skipHandler d) (fadeTimers d)
                     (unfreezeTimers d) (titleText d) (descriptionText d) (progressText d) in
    let '(d2, s2) := runDemoStep now d1 s in
    (mkdemo (isActive d2) (currentStep d2) (stepTimeout d2) (overlayDisplay d2) (overlayAnimation d2)
            true (fadeTimers d2) (unfreezeTimers d2) (titleText d2) (descriptionText d2) (progressText d2), s2).

(** The step timeout fires (lines 442-445). *)
Definition stepTimer (now : Z) (d : demo) (s : sys) : demo * sys :=
  if negb (stepTimeout d) then (d, s)
  else runDemoStep now (mkdemo (isActive d) (S (currentStep d)) false (overlayDisplay d) (overlayAnimation d)
                               (skipHandler d) (fadeTimers d) (unfreezeTimers d) (titleText d)
                               (descriptionText d) (progressText d)) s.

(** The earliest fade-out timeout fires (lines 465-468). *)
Definition fadeTimer (d : demo) : demo :=
  match fadeTimers d with
  | O => d
  | S k => mkdemo (isActive d) (currentStep d) (stepTimeout d) "none" "" (skipHandler d) k
                  (unfreezeTimers d) (titleText d) (descriptionText d) (progressText d)
  end.

(** The earliest unfreeze timeout fires (lines 502-504). *)
Definition unfreezeTimer (d : demo) (s : sys) : demo * sys :=
  match unfreezeTimers d with
  | O => (d, s)
  | S k => (mkdemo (isActive d) (currentStep d) (stepTimeout d) (overlayDisplay d) (overlayAnimation d)
                   (skipHandler d) (fadeTimers d) k (titleText d) (descriptionText d) (progressText d),
            mksys (spm s) (set_frozen false (svis s)))
  end.

(** The skip handler on [keydown] (lines 413-418): a non-empty key stops. *)
Definition onKey (key : string) (d : demo) : demo :=
  if skipHandler d && negb (String.eqb key "") then stop d else d.

(** [isDemo()] (lines 515-517). *)
Definition isDemo (d : demo) : bool := isActive d.

Inductive demo_event : Type :=
| DStart (now : Z) | DStop | DStepTimer (now : Z) | DFade | DUnfreeze | DKey (key : string).

Definition demo_step (e : demo_event) (ds : demo * sys) : demo * sys :=
  let '(d, s) := ds in
  match e with
  | DStart now => start now d s
  | DStop => (stop d, s)
  | DStepTimer now => stepTimer now d s
  | DFade => (fadeTimer d, s)
  | DUnfreeze => unfreezeTimer d s
  | DKey k => (onKey k d, s)
  end.

Definition run_demo (es : list demo_event) (ds : demo * sys) : demo * sys :=
  fold_left (fun ds e => demo_step e ds) es ds.

(** The events with their times dropped. *)
Definition erase (e : demo_event) : demo_event :=
  match e with DStart _ => DStart 0 | DStepTimer _ => DStepTimer 0 | e => e end.

End Actions.

(** A small system: the manager on cosmic and a two-particle visualizer. *)
Definition demo_sys : sys := mksys (mkpm "cosmic" false 0 None) demo_vis.

(** ** The demo's own state does not depend on the system it drives *)

(** No step of the demo touches the demo's state through its action. *)
Lemma run_action_demo rnd st now d s :
  In st demoSteps -> fst (run_action rnd (act st) now d s) = d.
Proof. intros Hin. repeat (destruct Hin as [<-|Hin]; [reflexivity|]). destruct Hin. Qed.

Lemma runDemoStep_fst rnd rnd' now now' d s s' :
  fst (runDemoStep rnd now d s) = fst (runDemoStep rnd' now' d s').
Proof.
  unfold runDemoStep. destruct (_ || _); [reflexivity|].
  destruct (nth_error demoSteps (currentStep d)) as [st|] eqn:E; [|reflexivity].
  apply nth_error_In in E.
  set (d1 := mkdemo _ _ _ _ _ _ _ _ _ _ _).
  pose proof (run_action_demo rnd st now d1 s E) as H1.
  pose proof (run_action_demo rnd' st now' d1 s' E) as H2.
  destruct (run_action rnd (act st) now d1 s) as [a1 b1], (run_action rnd' (act st) now' d1 s') as [a2 b2].
  cbn in H1, H2 |- *. subst. reflexivity.
Qed.

Lemma demo_step_fst rnd rnd' e d s s' :
  fst (demo_step rnd e (d, s)) = fst (demo_step rnd' (erase e) (d, s')).
Proof.
  destruct e; cbn [demo_step erase]; try reflexivity.
  - unfold start. destruct (isActive d); [reflexivity|].
    pose proof (runDemoStep_fst rnd rnd' now 0%Z
                  (mkdemo true 0 (stepTimeout d) "block" (overlayAnimation d) (skipHandler d) (fadeTimers d)
                     (unfreezeTimers d) (titleText d) (descriptionText d) (progressText d)) s s') as H.
    destruct (runDemoStep rnd now _ s), (runDemoStep rnd' 0%Z _ s'). cbn in H |- *. subst. reflexivity.
  - unfold stepTimer. destruct (stepTimeout d); [apply runDemoStep_fst | reflexivity].
  - unfold unfreezeTimer. destruct (unfreezeTimers d); reflexivity.
Qed.

Lemma run_demo_fst rnd rnd' es d s s' :
  fst (run_demo rnd es (d, s)) = fst (run_demo rnd' (map erase es) (d, s')).
Proof.
  revert d s s'. induction es as [|e es IH]; intros d s s'; [reflexivity|].
  cbn [run_demo fold_left map]. pose proof (demo_step_fst rnd rnd' e d s s') as H.
  destruct (demo_step rnd e (d, s)) as [d1 s1], (demo_step rnd' (erase e) (d, s')) as [d2 s2].
  cbn in H. subst d2. apply IH.
Qed.

(** ** The demo runs its thirteen steps and stops *)

(** Started, the demo shows each of its thirteen steps in turn: after
    the start and twelve step timeouts it is still active and shows the
    last step, and the thirteenth timeout stops it, removing the skip
    handler and fading the overlay; whatever the system and the times. *)
Theorem demo_runs_thirteen_steps rnd s now ts :
  length ts = 13 ->
  let d12 := fst (run_demo rnd (DStart now :: map DStepTimer (firstn 12 ts)) (demo_construct, s)) in
  let d13 := fst (run_demo rnd (DStart now :: map DStepTimer ts) (demo_construct, s)) in
  isActive d12 = true /\ titleText d12 = "Thank You!" /\ progressText d12 = "Step 13 of 13" /\
  isActive d13 = false /\ currentStep d13 = 13 /\ stepTimeout d13 = false /\
  skipHandler d13 = false /\ fadeTimers d13 = 1.
Proof.
  intros Hts d12 d13. unfold d12, d13.
  rewrite !(run_demo_fst rnd demo_tape _ _ s demo_sys). cbn [map].
  rewrite !map_map. cbn [erase].
  do 13 (destruct ts as [|? ts]; [discriminate|]). destruct ts; [|discriminate].
  vm_compute. repeat split.
Qed.

(** Restarting the demo within 500 ms of a stop leaves it running
    with its overlay hidden: the fade-out timeout of the stop still
    fires and sets [display: none] on the overlay the new run shows. *)
Theorem restart_hides_overlay rnd s t1 t2 :
  let d := fst (run_demo rnd [DStart t1; DStop; DStart t2; DFade] (demo_construct, s)) in
  isActive d = true /\ stepTimeout d = true /\ overlayDisplay d = "none".
Proof.
  intros d. unfold d. rewrite (run_demo_fst rnd demo_tape _ _ s demo_sys).
  vm_compute. repeat split.
Qed.

(** ** Witnesses *)

Lemma demo_runs_thirteen_steps_witness :
  let ts := map Z.of_nat (seq 1 13) in
  length ts = 13 /\
  let d13 := fst (run_demo demo_tape (DStart 0 :: map DStepTimer ts) (demo_construct, demo_sys)) in
  isActive d13 = false /\ currentStep d13 = 13.
Proof.
  intros ts. assert (H : length ts = 13) by reflexivity. split; [exact H|].
  destruct (demo_runs_thirteen_steps demo_tape demo_sys 0%Z ts H) as (_ & _ & _ & H4 & H5 & _).
  split; [exact H4 | exact H5].
Defined.

End DemoMode.
